(* ===== verification/_CoqProject ===== *)
-Q . S2P
Prelude.v
JsStd.v
Json.v
Jsx.v
Widgets.v
Format.v
Client.v
Toast.v
Session.v
Combobox.v
PolicyForm.v
Policies.v
Settings.v
Dashboard.v
Results.v
GoStd.v
StateStore.v
Tool.v
Llm.v
Claude.v
Engine.v
Scheduler.v
