(* ===== verification/Prelude.v ===== *)
(** * Drop The Mic: verification of the dashboard UI and of the operator core

    Drop The Mic is a Kubernetes operator that has a language model verify a
    checklist against a live cluster, and a web UI over what it finds.  A
    [ChecklistPolicy] names checks, a model and two schedules; a scan makes a
    [ChecklistResult] of them, alerts whoever is to be notified, and updates the
    policy's status, which the UI shows.

    ** The parts and how they interact

<<
      browser (ui/src)                         operator (operator/internal)
      Login, AuthGuard -- Session              scheduler ----- Scheduler
      pages: Dashboard, Policies (PolicyForm),    | runs          | alerts, status
             Results, Settings                 engine -- Engine  state -- StateStore
        | elements, events: Jsx, Widgets,         | asks
        |   Combobox, Toast, Format            llm ----- Llm, Claude
      api/client.ts -- Client                     | calls
        | HTTP                                 tool ---- Tool
      server -- (a parameter)                  cluster, model API -- (parameters)
>>

    The two halves meet in the wire types of Client and in the theorem
    [full_scan_badge] of Scheduler, which follows a verdict from a scan through
    the policy's conditions to the badge the UI draws.

    ** Files

    Foundations.
    - Prelude: tactics, and lemmas on strings, lists and options.
    - JsStd, GoStd: what JavaScript and Go mean by the operations the program
      uses (numbers, strings, dates, sorting; wrapping integers, strings,
      results with errors).
    - Json: [JSON.stringify] and [JSON.parse], with their round trip.
    - Jsx: React elements and DOM dispatch.  A page is a state, a function from
      the state to an element tree, and an update per callback; [ui_step] is a
      step a user can take, one an event on the rendered tree causes.

    The UI, a file per page or component, with definitions named as in the code.
    - Widgets ([components/Badge, Button, Card, EmptyState, FormField, Modal,
      ErrorBoundary, HelpTooltip.tsx]), Combobox, Toast, Format
      ([utils/format.ts]), Client ([api/client.ts]).
    - Session ([App.tsx], [pages/Login.tsx]): a tab has the storage and the
      pending page load ([browser]), the address rendered, the navigation the
      router has not rendered yet ([nav]), and the states of the guard and of the
      login form; [screen] is what [App] renders.
    - PolicyForm and Policies ([pages/Policies.tsx]): the dialog, and the page
      around two of them.  Requests are part of the state.
    - Results, Settings, Dashboard (with [components/HealthRing.tsx]).

    The operator.
    - StateStore ([state/store.go]): a method is a function from the store and a
      clock reading to the store and the transition it returns.
    - Tool ([engine/tool/registry.go], [cache.go]), Llm ([engine/llm/adapter.go]):
      the interface [Adapter] is a class over the state of a scan.
    - Claude ([engine/llm/claude.go]): the instance [claude_adapter] of it.
    - Engine ([engine/engine.go]): a client of the class, proved for every
      instance.
    - Scheduler ([scheduler/scheduler.go], [notify/notifier.go]): the two scans,
      on a state with the store, the engine, the policy's status, the results
      created and the events sent.

    ** What the theorems show

    - Alerts: the store is a function of the history of verdicts, given as a
      specification in StateStore ([store_refines_history]) with its
      notifications ([notified_exactly]); a scan reports to it, dates its results
      and notifies as that specification says ([process_results_refines_history]).
    - Scans: every check gets one result ([run_checks_complete]); what does not
      fail was said by the model or remembered ([verdict_from_model]); when it is
      remembered ([unchanged_snapshot_reuses]); what rescans do and do not record
      ([rescans_invisible]); the name of the last result ([last_result_dangles]).
    - The model: the conversation keeps to the protocol and ends
      ([verify_conversation]); answers in the prompted format are read back
      ([batch_answer_roundtrip]); others may not be ([borrowed_verdict],
      [verdict_is_best_mentioned]); the hash-keyed cache is a memo table
      ([cache_refines_memo], [cached_call_repeats]).
    - The session: nothing of the application is rendered without a token
      ([app_needs_token]); what the guard and the login do ([guard_outcome],
      [login_then_guard]); the headers and outcomes of requests
      ([build_request_auth], [request_outcome]); the encoding of a query
      ([results_query_roundtrip]).
    - Dialogs: what reachable states can send ([edit_targets_policy],
      [create_is_complete], [delete_confirmed]), that the preview is what is sent
      ([preview_is_submission]), what an edit keeps and loses ([edit_roundtrip],
      [detail_is_snapshot]), what a reopened dialog holds ([reopened_fresh],
      [late_success_discards]), the generated ids ([readded_id_collides]).
    - Settings: what the two editors send and what a refetch does to them
      ([raw_editor_roundtrip], [form_save_payload], [refetch_overwrites_form]).
    - Lists: filters, order and pages ([filtered_correct], [pages_partition],
      [page_in_range], [stale_page_blank], [latest_results_newest]); the badges
      ([badge_agrees_with_detail], [health_badges_disagree]); the selection of a
      combobox ([selection_invariant]).
    - Time and numbers: the life of a toast ([toast_lifetime], [toast_cleared]),
      ages and durations ([timeAgo_spec], [formatDuration_inj]), the percentage
      of the ring ([ring_percent]), the place of a tooltip
      ([tooltip_covers_icon]).

    ** Bounds and fuel

    - A conversation has the ten iterations of the code as its fuel; running out
      is the error the code returns.
    - The batches of a scan are counted by the number of checks, which is enough
      as a batch takes at least one ([run_batches_describes]).
    - Trimming a string is bounded by its length ([trim_left]); the parser and
      the printer of JSON, [Index] and [ToUpper] are structural.
    - [int32] counters wrap; the theorems on counts and thresholds assume less
      than 2^31 checks, and a threshold below 2^31, which its type gives.
    - [ring_percent] evaluates every quotient up to a hundred checks.

    ** Idealisations

    - A callback, a handler or a method of the store is one atomic step.  Timers
      of the UI fire at their time; React runs effects before the next event.
    - Scans do not overlap, and the engine's memory lasts until the controller
      rebuilds the engine ([rebuild]).
    - Letters outside ASCII keep their case; layout styles that nothing computes
      with, icons and log lines are left out.

    ** Not modelled

    The HTTP server, the controller apart from [rebuild], the notification
    backends and the Kubernetes tools are glue around libraries; where the model
    depends on them (the network, the model API, a tool, SHA-256, the clock,
    [meta.SetStatusCondition]) they are parameters, the last with its documented
    laws as the class [StatusConditions], for which Scheduler has an instance.
    Other tabs of the browser that change the shared storage, and answers to a
    page that is no longer mounted, are left out.

    Next in line are the conditions and the run-now annotation of the
    controller's [Reconcile], token signing and checking in
    [operator/server/handler/auth.go], and overlapping scans of one policy. *)
From Stdlib Require Import Ascii ZArith Lia.
From stdpp Require Import base list strings pretty gmap sets relations sorting.

(** Preservation of the components' invariants. *)
Create HintDb dtm.

(** ** Tactics *)

(** Splits on every [match], [if] and [decide] of the goal. *)
Ltac split_match :=
  repeat match goal with
  | |- context [match ?x with _ => _ end] => destruct x eqn:?
  end.

(** The same for a hypothesis. *)
Ltac split_match_in H :=
  repeat match type of H with
  | context [match ?x with _ => _ end] => destruct x eqn:?
  end.

(** Turns boolean tests in the context and the goal into propositions. *)
Ltac bool_to_prop :=
  repeat match goal with
  | H : Is_true _ |- _ => apply Is_true_true in H
  | H : _ && _ = true |- _ => apply andb_true_iff in H as [? ?]
  | H : _ || _ = true |- _ => apply orb_true_iff in H
  | H : _ || _ = false |- _ => apply orb_false_iff in H as [? ?]
  | H : negb _ = true |- _ => apply negb_true_iff in H
  | H : negb _ = false |- _ => apply negb_false_iff in H
  | H : bool_decide _ = true |- _ => apply bool_decide_eq_true in H
  | H : bool_decide _ = false |- _ => apply bool_decide_eq_false in H
  | H : (_ <? _)%Z = true |- _ => apply Z.ltb_lt in H
  | H : (_ <? _)%Z = false |- _ => apply Z.ltb_ge in H
  | H : (_ <=? _)%Z = true |- _ => apply Z.leb_le in H
  | H : (_ <=? _)%Z = false |- _ => apply Z.leb_gt in H
  | H : (_ =? _)%Z = true |- _ => apply Z.eqb_eq in H
  | H : (_ =? _)%Z = false |- _ => apply Z.eqb_neq in H
  end.

(** ** Relations *)

(** Rule induction for reachable states: a property that holds at the start
    and that every step keeps holds at every reachable state. *)
Lemma rtc_invariant {A} (R : relation A) (P : A → Prop) x y :
  P x → (∀ a b, P a → R a b → P b) → rtc R x y → P y.
Proof. intros Hx Hstep Hr. revert Hx. induction Hr; eauto. Qed.

(** ** Lists *)

Lemma filter_true {A} (P : A → Prop) `{!∀ x, Decision (P x)} (l : list A) :
  Forall P l → filter P l = l.
Proof. induction 1; [done|]. rewrite filter_cons_True by done. congruence. Qed.

Lemma Permutation_filter {A} (P : A → Prop) `{!∀ x, Decision (P x)} (l k : list A) :
  l ≡ₚ k → filter P l ≡ₚ filter P k.
Proof. by intros ->. Qed.

Lemma take_drop_chunk {A} (l : list A) (i n : nat) :
  take n (drop i l) ++ drop (i + n) l = drop i l.
Proof. by rewrite <-drop_drop, take_drop. Qed.

Lemma StronglySorted_impl {A} (P : A → Prop) (R S : relation A) l :
  (∀ x y, P x → P y → R x y → S x y) → Forall P l →
  StronglySorted R l → StronglySorted S l.
Proof.
  intros HRS. induction 2 as [|x l Hs IH Hx]; [constructor|].
  match goal with H : Forall P (x :: l) |- _ => apply Forall_cons in H as [Px Hl] end.
  constructor; [by apply IH|]. rewrite Forall_forall in Hx, Hl |- *. auto.
Qed.

Lemma StronglySorted_sublist {A} (R : relation A) l k :
  sublist l k → StronglySorted R k → StronglySorted R l.
Proof.
  induction 1 as [|x l k Hs IH|x l k Hs IH]; intros Hk; [done| |].
  - inversion Hk as [|?? Hk' Hx]; subst. constructor; [by apply IH|].
    rewrite Forall_forall in Hx |- *. intros y Hy. apply Hx.
    by eapply elem_of_submseteq, sublist_submseteq.
  - inversion Hk; subst. auto.
Qed.

(** Cutting a list in chunks of [k] and concatenating the first [n] of them. *)
Lemma concat_chunks {A} (l : list A) (k n : nat) :
  concat (map (λ p, take k (drop (p * k) l)) (seq 0 n)) = take (n * k) l.
Proof.
  induction n as [|n IH]; [done|].
  rewrite seq_S, map_app, concat_app, IH. cbn. rewrite app_nil_r.
  rewrite <-(take_drop (n * k) (take (k + n * k) l)), take_take, Nat.min_l by lia.
  f_equal. rewrite take_drop_commute. do 2 f_equal. lia.
Qed.

(** A set of at most as many elements as a list without duplicates, and within
    it, is the set of all its elements when the sizes agree. *)
Lemma size_full_list (l : list string) (e : gset string) :
  NoDup l → e ⊆ list_to_set l → size e = length l → e = list_to_set l.
Proof.
  intros Hl He Hsize. apply (set_subseteq_size_eq e _ He).
  rewrite size_list_to_set by done. lia.
Qed.

(** With duplicates the set stays smaller than the list. *)
Lemma size_list_to_set_dup (l : list string) :
  ¬ NoDup l → size (list_to_set l : gset string) < length l.
Proof.
  induction l as [|x l IH]; intros Hl; [destruct Hl; constructor|]. cbn.
  assert (size (list_to_set l : gset string) ≤ length l) as Hle.
  { destruct (decide (NoDup l)) as [Hd|Hd]; [by rewrite size_list_to_set|].
    specialize (IH Hd). lia. }
  destruct (decide (x ∈ l)) as [Hx|Hx].
  - assert ({[x]} ∪ list_to_set l = (list_to_set l : gset string)) as -> by set_solver. lia.
  - rewrite size_union, size_singleton by set_solver.
    destruct (decide (NoDup l)) as [Hd|Hd]; [by destruct Hl; constructor|].
    specialize (IH Hd). lia.
Qed.

(** ** Integers *)

(** Comparing a floored quotient. *)
Lemma div_ltb (a k d : Z) : (0 < d)%Z → (a / d <? k)%Z = (a <? k * d)%Z.
Proof.
  intros Hd. pose proof (Z.div_mod a d ltac:(lia)). pose proof (Z.mod_pos_bound a d Hd).
  destruct (Z.ltb_spec (a / d) k), (Z.ltb_spec a (k * d)); [done| | |done]; exfalso; nia.
Qed.

(** ** Strings *)

Lemma string_app_cons c (a b : string) : String c a +:+ b = String c (a +:+ b).
Proof. done. Qed.

Lemma string_app_assoc (a b c : string) : (a +:+ b) +:+ c = a +:+ b +:+ c.
Proof. induction a as [|x a IH]; [done|]. by rewrite !string_app_cons, IH. Qed.

Lemma string_app_nil_r (a : string) : a +:+ "" = a.
Proof. induction a as [|x a IH]; [done|]. by rewrite string_app_cons, IH. Qed.

Lemma string_length_app (a b : string) :
  String.length (a +:+ b) = (String.length a + String.length b)%nat.
Proof. induction a as [|x a IH]; [done|]. rewrite string_app_cons. cbn. lia. Qed.

(** Every character of a string satisfies a test. *)
Fixpoint string_forallb (p : ascii → bool) (s : string) : bool :=
  match s with
  | EmptyString => true
  | String c s => p c && string_forallb p s
  end.

Lemma string_forallb_app p a b :
  string_forallb p (a +:+ b) = string_forallb p a && string_forallb p b.
Proof.
  induction a as [|x a IH]; [done|]. rewrite string_app_cons. cbn. by rewrite IH, andb_assoc.
Qed.

Lemma string_forallb_impl (p q : ascii → bool) s :
  (∀ c, p c = true → q c = true) → string_forallb p s = true → string_forallb q s = true.
Proof.
  intros Hpq. induction s as [|c s IH]; cbn; [done|].
  rewrite !andb_true_iff. intros [? ?]. auto.
Qed.

Definition is_digit (c : ascii) : bool := bool_decide (is_Some (Ascii.is_nat c)).

(** Separators that cannot occur in what precedes them split a string in only
    one way. *)
Lemma separator_inj p (c d : ascii) a b x y :
  p c = false → p d = false → string_forallb p a = true → string_forallb p b = true →
  a +:+ String c x = b +:+ String d y → a = b ∧ c = d ∧ x = y.
Proof.
  intros Hc Hd. revert b.
  induction a as [|c' a IH]; intros [|d' b]; rewrite ?string_app_cons; cbn.
  - by intros _ _ [= -> ->].
  - rewrite andb_true_iff. intros _ [? _] [= -> ?]. congruence.
  - rewrite andb_true_iff. intros [? _] _ [= -> ?]. congruence.
  - rewrite !andb_true_iff. intros [_ Ha] [_ Hb] [= -> Heq].
    destruct (IH b Ha Hb Heq) as (-> & -> & ->). done.
Qed.

Lemma string_app_inv_r (a b s : string) : a +:+ s = b +:+ s → a = b.
Proof.
  revert b. induction a as [|c a IH]; intros [|d b]; rewrite ?string_app_cons; [done|..].
  - intros Heq%(f_equal String.length). cbn in Heq. rewrite !string_length_app in Heq. cbn in Heq. lia.
  - intros Heq%(f_equal String.length). cbn in Heq. rewrite !string_length_app in Heq. cbn in Heq. lia.
  - intros [= -> Heq]. f_equal. auto.
Qed.

(** ** White space

    A notion of white space is a function that takes one off the front of a
    string of UTF-8 bytes. *)

Section trimming.
Variable space : string → option string.

(** A character is consumed in every round, so the length is fuel enough. *)
Fixpoint trim_left (fuel : nat) (s : string) : string :=
  match fuel with
  | O => s
  | S fuel => match space s with Some s => trim_left fuel s | None => s end
  end.

Definition trim_front (s : string) : string := trim_left (String.length s) s.

Fixpoint trim_right (s : string) : string :=
  match s with
  | EmptyString => EmptyString
  | String c s' =>
    if bool_decide (trim_front s = EmptyString) then EmptyString else String c (trim_right s')
  end.

Definition trim_both (s : string) : string := trim_right (trim_front s).

Lemma trim_front_none s : space s = None → trim_front s = s.
Proof. intros Hs. unfold trim_front. destruct s; [done|]. cbn [String.length trim_left]. by rewrite Hs. Qed.
End trimming.

(** The white space of Unicode outside ASCII and Latin-1, in three bytes. *)
Definition wide_space (a b c : N) : bool :=
  ((a =? 225) && (b =? 154) && (c =? 128) ||
   (a =? 226) && (b =? 128) &&
     ((128 <=? c) && (c <=? 138) || (c =? 168) || (c =? 169) || (c =? 175)) ||
   (a =? 226) && (b =? 129) && (c =? 159) ||
   (a =? 227) && (b =? 128) && (c =? 128))%N%bool.

(** Takes one character off that [one], [two] or [three] accept by its bytes. *)
Definition space_of (one : N → bool) (two : N → N → bool) (three : N → N → N → bool)
    (s : string) : option string :=
  match s with
  | String a s =>
    let a := N_of_ascii a in
    if one a then Some s
    else
      match s with
      | String b s =>
        let b := N_of_ascii b in
        if two a b then Some s
        else
          match s with
          | String c s => if three a b (N_of_ascii c) then Some s else None
          | EmptyString => None
          end
      | EmptyString => None
      end
  | EmptyString => None
  end.

(** The white space of ASCII. *)
Definition ascii_space (n : N) : bool := ((9 <=? n) && (n <=? 13) || (n =? 32))%N%bool.

(** An ASCII character that is not white space starts no white space. *)
Definition is_solid (c : ascii) : bool :=
  let n := N_of_ascii c in (n <? 128)%N && negb (ascii_space n).

Lemma is_solid_neq c k : is_solid c = true → (128 ≤ k)%N → (N_of_ascii c =? k)%N = false.
Proof. intros [Hlt%N.ltb_lt _]%andb_true_iff Hk. apply N.eqb_neq. lia. Qed.

Lemma wide_space_ascii c : is_solid c = true → ∀ b d, wide_space (N_of_ascii c) b d = false.
Proof. intros Hc b d. unfold wide_space. by rewrite !(is_solid_neq c) by done. Qed.

Lemma space_of_solid two three c s :
  is_solid c = true →
  (∀ b, two (N_of_ascii c) b = false) → (∀ b d, three (N_of_ascii c) b d = false) →
  space_of ascii_space two three (String c s) = None.
Proof.
  intros [_ Hsp%negb_true_iff]%andb_true_iff H2 H3. unfold space_of. rewrite Hsp.
  destruct s as [|b [|d s]]; [done|..]; by rewrite ?H2, ?H3.
Qed.

(** Decimal numerals consist of digits. *)
Lemma pretty_N_char_digit n : is_digit (pretty_N_char n) = true.
Proof. unfold pretty_N_char. repeat case_match; vm_compute; done. Qed.

Lemma pretty_N_digits (n : N) : string_forallb is_digit (pretty n) = true.
Proof.
  unfold pretty, pretty_N. case_decide; [done|].
  enough (∀ s, string_forallb is_digit s = true →
               string_forallb is_digit (pretty_N_go n s) = true) as Hgo by by apply Hgo.
  clear H. induction (N.lt_wf_0 n) as [m _ IH]. intros s Hs.
  destruct (decide (m = 0)%N) as [->|Hm]; [by rewrite pretty_N_go_0|].
  rewrite pretty_N_go_step by lia. apply IH.
  - apply N.div_lt; lia.
  - cbn. by rewrite pretty_N_char_digit, Hs.
Qed.

Lemma pretty_Z_digits (z : Z) : (0 ≤ z)%Z → string_forallb is_digit (pretty z) = true.
Proof. destruct z; intros; [done|apply (pretty_N_digits (Npos p))|lia]. Qed.

(** The case used throughout: numerals followed by a non-digit. *)
Lemma numeral_inj (m n : Z) (c d : ascii) x y :
  (0 ≤ m)%Z → (0 ≤ n)%Z → is_digit c = false → is_digit d = false →
  pretty m +:+ String c x = pretty n +:+ String d y → m = n ∧ c = d ∧ x = y.
Proof.
  intros Hm Hn Hc Hd Heq.
  destruct (separator_inj is_digit c d _ _ x y Hc Hd
    (pretty_Z_digits m Hm) (pretty_Z_digits n Hn) Heq) as (?%(inj _) & -> & ->). done.
Qed.
