(* ===== verification/JsStd.v ===== *)
(** * The JavaScript built-ins the UI uses

    Numbers, strings, arrays, dates and JSON values with the meaning the
    ECMAScript standard gives them, for the values that reach the UI:
    - a number is an integer or NaN ([num]); the UI only computes with counts,
      indices and milliseconds, all below 2^53, where double arithmetic and
      [Math.floor] of a quotient are exact; a number that is typed is rounded by
      [to_double];
    - a string is the sequence of its UTF-8 bytes; case mapping is that of
      ASCII, which is what Kubernetes names, labels and timestamps are written
      in; white space is that of JavaScript;
    - [Array.prototype.sort] is the stable insertion sort of its comparator. *)
From Stdlib Require Import Ascii ZArith Lia.
From stdpp Require Import base list strings pretty gmap sets relations sorting.
From S2P Require Import Prelude.
Local Open Scope Z_scope.

(** ** Numbers *)

(** A JavaScript number: an integer, or [None] for NaN. *)
Definition num := option Z.

Definition num_sub (a b : num) : num :=
  x ← a; y ← b; Some (x - y).

(** [Math.floor(a / d)] for a positive constant [d]. *)
Definition num_floor_div (a : num) (d : Z) : num := (λ x, x / d) <$> a.

(** [a % d]: the remainder has the sign of the dividend. *)
Definition num_rem (a : num) (d : Z) : num := (λ x, Z.rem x d) <$> a.

(** [a < b]; every comparison with NaN is false. *)
Definition num_lt (a b : num) : bool :=
  match a, b with Some x, Some y => x <? y | _, _ => false end.

Arguments num_lt : simpl never.

(** Decimal rendering, as in a template literal. *)
Definition show_Z (z : Z) : string := pretty z.
Definition show_num (a : num) : string :=
  match a with Some z => show_Z z | None => "NaN" end.

(** The double nearest to an integer below 2^1024, the even one of two. *)
Definition to_double (z : Z) : Z :=
  let m := Z.abs z in
  if m <? 2 ^ 53 then z
  else
    let u := 2 ^ (Z.log2 m - 52) in
    let q := m / u in
    let r := m mod u in
    Z.sgn z * (if (2 * r <? u) || (2 * r =? u) && Z.even q then q else q + 1) * u.

(** ** Strings *)

Definition map_ascii (f : N → N) (c : ascii) : ascii := ascii_of_N (f (N_of_ascii c)).

Fixpoint map_string (f : ascii → ascii) (s : string) : string :=
  match s with
  | EmptyString => EmptyString
  | String c s => String (f c) (map_string f s)
  end.

(** [String.prototype.toLowerCase] and [toUpperCase]. *)
Definition toLowerCase : string → string :=
  map_string (map_ascii (λ n, if ((65 <=? n) && (n <=? 90))%N then (n + 32)%N else n)).
Definition toUpperCase : string → string :=
  map_string (map_ascii (λ n, if ((97 <=? n) && (n <=? 122))%N then (n - 32)%N else n)).

(** [s.startsWith(q)]. *)
Fixpoint startsWith (q s : string) : bool :=
  match q, s with
  | EmptyString, _ => true
  | String a q, String b s => bool_decide (a = b) && startsWith q s
  | String _ _, EmptyString => false
  end.

(** [s.includes(q)]. *)
Fixpoint includes (q s : string) : bool :=
  startsWith q s ||
  match s with EmptyString => false | String _ s => includes q s end.

(** The white space and line terminators of JavaScript: those of ASCII, U+00A0,
    U+FEFF and the wide ones. *)
Definition js_space : string → option string :=
  space_of ascii_space (λ a b, ((a =? 194) && (b =? 160))%N%bool)
    (λ a b c, wide_space a b c || ((a =? 239) && (b =? 187) && (c =? 191))%N%bool).

Definition trim_start : string → string := trim_front js_space.

(** [s.trim()]. *)
Definition trim : string → string := trim_both js_space.

Arguments trim : simpl never.
Arguments trim_start : simpl never.

(** A string used as a condition: only the empty one is falsy. *)
Definition truthy (s : string) : bool :=
  match s with EmptyString => false | _ => true end.

(** [a || b] on strings. *)
Definition str_or (a b : string) : string := if truthy a then a else b.

(** [a || b] where [a] may be undefined. *)
Definition ostr_or (a : option string) (b : string) : string :=
  match a with Some a => str_or a b | None => b end.

(** An optional string used as a condition. *)
Definition otruthy (a : option string) : bool :=
  match a with Some a => truthy a | None => false end.

Definition newline : string := String (ascii_of_N 10) "".

(** [l.join(sep)]. *)
Fixpoint js_join (sep : string) (l : list string) : string :=
  match l with
  | [] => ""
  | [s] => s
  | s :: l => s +:+ sep +:+ js_join sep l
  end.

(** ** Arrays *)

Section arrays.
Context {A : Type}.
Implicit Types (l : list A).

(** An index argument of [slice]: negative counts from the end, clamped. *)
Definition relative_index (len i : Z) : nat :=
  Z.to_nat (if i <? 0 then Z.max (len + i) 0 else Z.min i len).

(** [l.slice(s, e)]. *)
Definition slice (l : list A) (s e : Z) : list A :=
  let len := Z.of_nat (length l) in
  let from := relative_index len s in
  let to := relative_index len e in
  take (to - from) (drop from l).

(** [l.filter((_, i) => p(i))]. *)
Definition filter_index (p : nat → bool) (l : list A) : list A :=
  omap (λ ix, if p ix.1 : bool then Some ix.2 else None)
       (imap (λ i x, (i, x)) l).

Fixpoint sort_insert (cmp : A → A → num) (x : A) (l : list A) : list A :=
  match l with
  | [] => [x]
  | y :: l' => if num_lt (Some 0) (cmp x y) then y :: sort_insert cmp x l' else x :: l
  end.

(** [l.sort(cmp)]: stable; a comparator result that is NaN counts as 0. *)
Definition js_sort (cmp : A → A → num) (l : list A) : list A :=
  foldr (sort_insert cmp) [] l.

(** [[...new Set(l)]]: the distinct elements in insertion order. *)
Definition js_uniq_add `{!EqDecision A} (acc : list A) (x : A) : list A :=
  if decide (x ∈ acc) then acc else acc ++ [x].
Definition js_uniq `{!EqDecision A} (l : list A) : list A := foldl js_uniq_add [] l.
End arrays.

(** The default comparator of [sort()] on strings. *)
Definition string_cmp (a b : string) : num :=
  match Stdlib.Strings.String.compare a b with Lt => Some (-1) | Eq => Some 0 | Gt => Some 1 end.

(** ** Dates *)

(** Reads exactly [n] decimal digits. *)
Fixpoint read_digits (n : nat) (acc : Z) (s : string) : option (Z * string) :=
  match n with
  | O => Some (acc, s)
  | S n =>
    match s with
    | String c s =>
      d ← Ascii.is_nat c; read_digits n (10 * acc + Z.of_nat d) s
    | EmptyString => None
    end
  end.

Definition eat (c : ascii) (s : string) : option string :=
  match s with
  | String c' s => if decide (c = c') then Some s else None
  | EmptyString => None
  end.

(** Days from 1970-01-01 of a proleptic Gregorian date. *)
Definition days_from_civil (y m d : Z) : Z :=
  let y := if m <=? 2 then y - 1 else y in
  let era := y / 400 in
  let yoe := y - era * 400 in
  let doy := (153 * (m + (if 2 <? m then -3 else 9)) + 2) / 5 + d - 1 in
  let doe := yoe * 365 + yoe / 4 - yoe / 100 + doy in
  era * 146097 + doe - 719468.

Definition is_leap (y : Z) : bool :=
  (y mod 4 =? 0) && (negb (y mod 100 =? 0) || (y mod 400 =? 0)).

Definition days_in_month (y m : Z) : Z :=
  if m =? 2 then (if is_leap y then 29 else 28)
  else if (m =? 4) || (m =? 6) || (m =? 9) || (m =? 11) then 30 else 31.

(** The digits of a fraction of a second, in milliseconds; those after the third
    are dropped. *)
Fixpoint read_fraction (weight acc : Z) (s : string) : Z * string :=
  match s with
  | String c s' =>
    match Ascii.is_nat c with
    | Some d => read_fraction (weight / 10) (acc + weight * Z.of_nat d) s'
    | None => (acc, s)
    end
  | EmptyString => (acc, s)
  end.

(** The seconds and milliseconds of a time, both optional. *)
Definition read_seconds (s : string) : option (Z * Z * string) :=
  match eat ":" s with
  | None => Some (0, 0, s)
  | Some s =>
    '(sec, s) ← read_digits 2 0 s;
    match eat "." s with
    | None => Some (sec, 0, s)
    | Some s => '(_, _) ← read_digits 1 0 s; let (ms, s) := read_fraction 100 0 s in Some (sec, ms, s)
    end
  end.

(** The offset from UTC in minutes, at the end of the text. *)
Definition read_offset (s : string) : option Z :=
  match s with
  | String "Z" EmptyString => Some 0
  | String c s =>
    sign ← (if decide (c = "+"%char) then Some 1 else if decide (c = "-"%char) then Some (-1) else None);
    '(h, s) ← read_digits 2 0 s; s ← eat ":" s; '(mi, s) ← read_digits 2 0 s;
    if (h <=? 23) && (mi <=? 59) && negb (truthy s) then Some (sign * (60 * h + mi)) else None
  | EmptyString => None
  end.

(** [new Date(s).getTime()] for the date-time format of the language with an
    explicit offset - the Kubernetes API writes [YYYY-MM-DDTHH:mm:ssZ] - and for
    a date alone.  Any other text is an invalid date, whose time value is NaN;
    a time without an offset, which would be local, and the formats a browser
    may accept beyond the standard are not distinguished from it. *)
Definition getTime (s : string) : num :=
  '(y, s) ← read_digits 4 0 s; s ← eat "-" s;
  '(mo, s) ← read_digits 2 0 s; s ← eat "-" s;
  '(d, s) ← read_digits 2 0 s;
  '(h, mi, sec, ms, offset) ←
    (if truthy s then
       s ← eat "T" s;
       '(h, s) ← read_digits 2 0 s; s ← eat ":" s;
       '(mi, s) ← read_digits 2 0 s;
       '(sec, ms, s) ← read_seconds s;
       offset ← read_offset s; Some (h, mi, sec, ms, offset)
     else Some (0, 0, 0, 0, 0));
  if (1 <=? mo) && (mo <=? 12) && (1 <=? d) && (d <=? days_in_month y mo)
     && ((h <=? 23) || (h =? 24) && (mi =? 0) && (sec =? 0) && (ms =? 0))
     && (mi <=? 59) && (sec <=? 59)
  then Some (ms + 1000 * (sec + 60 * (mi - offset + 60 * (h + 24 * days_from_civil y mo d))))
  else None.

(** ** JSON values *)

Unset Elimination Schemes.

(** An object keeps its keys in insertion order.  A number that is not written
    as an integer is kept by its literal. *)
Inductive json :=
  | JNull
  | JBool (b : bool)
  | JNum (n : Z)
  | JDec (literal : string)
  | JStr (s : string)
  | JArr (l : list json)
  | JObj (l : list (string * json)).

Set Elimination Schemes.

(** Property access [v.k]; [None] is undefined. *)
Fixpoint obj_get (k : string) (l : list (string * json)) : option json :=
  match l with
  | [] => None
  | (k', v) :: l => if decide (k = k') then Some v else obj_get k l
  end.

(** Whether the digits before an exponent are all zero. *)
Fixpoint zero_literal (s : string) : bool :=
  match s with
  | EmptyString => true
  | String c s =>
    if decide (c = "e"%char ∨ c = "E"%char) then true
    else match Ascii.is_nat c with
         | Some (S _) => false
         | _ => zero_literal s
         end
  end.

(** A JSON value used as a condition. *)
Definition json_truthy (v : json) : bool :=
  match v with
  | JNull => false
  | JBool b => b
  | JNum n => negb (n =? 0)
  | JDec s => negb (zero_literal s)
  | JStr s => truthy s
  | JArr _ | JObj _ => true
  end.

(** [String(v)]. *)
Fixpoint js_String (v : json) : string :=
  match v with
  | JNull => "null"
  | JBool b => if b then "true" else "false"
  | JNum n => show_Z n
  | JDec s => s
  | JStr s => s
  | JArr l => js_join "," (map (λ x, match x with JNull => "" | _ => js_String x end) l)
  | JObj _ => "[object Object]"
  end.

(** The fields of an object literal; a field whose value is undefined is left
    out when the object is written as JSON text. *)
Definition json_fields (l : list (string * option json)) : list (string * json) :=
  omap (λ kv, v ← kv.2; Some (kv.1, v)) l.

(** ** JSON text *)

Definition hex_char (n : N) : ascii := ascii_of_N (if (n <? 10)%N then 48 + n else 87 + n)%N.

(** One character of a quoted string. *)
Definition json_escape (c : ascii) : string :=
  let n := N_of_ascii c in
  if (n =? 34)%N then String "\" (String c "")
  else if (n =? 92)%N then "\\"
  else if (n =? 8)%N then "\b" else if (n =? 9)%N then "\t"
  else if (n =? 10)%N then "\n" else if (n =? 12)%N then "\f"
  else if (n =? 13)%N then "\r"
  else if (n <? 32)%N then "\u00" +:+ String (hex_char (n / 16)) (String (hex_char (n mod 16)) "")
  else String c "".

Definition dquote : string := String (ascii_of_N 34) "".

Fixpoint json_escapes (s : string) : string :=
  match s with
  | EmptyString => EmptyString
  | String c s => json_escape c +:+ json_escapes s
  end.

Definition json_quote (s : string) : string := dquote +:+ json_escapes s +:+ dquote.

(** [JSON.stringify(v)]. *)
Fixpoint JSON_stringify (v : json) : string :=
  match v with
  | JNull => "null"
  | JBool b => if b then "true" else "false"
  | JNum n => show_Z n
  | JDec s => s
  | JStr s => json_quote s
  | JArr l => "[" +:+ js_join "," (map JSON_stringify l) +:+ "]"
  | JObj l =>
    "{" +:+ js_join "," (map (λ kv, json_quote kv.1 +:+ ":" +:+ JSON_stringify kv.2) l) +:+ "}"
  end.

(** ** Lemmas *)

(** Induction on JSON values, through arrays and objects. *)
Lemma json_ind (P : json → Prop) :
  P JNull → (∀ b, P (JBool b)) → (∀ n, P (JNum n)) → (∀ s, P (JDec s)) →
  (∀ s, P (JStr s)) →
  (∀ l, Forall P l → P (JArr l)) →
  (∀ l, Forall (λ kv, P kv.2) l → P (JObj l)) →
  ∀ v, P v.
Proof.
  intros Hnull Hbool Hnum Hdec Hstr Harr Hobj.
  fix IH 1. intros [|b|n|s|s|l|l].
  - exact Hnull.
  - apply Hbool.
  - apply Hnum.
  - apply Hdec.
  - apply Hstr.
  - apply Harr. induction l; constructor; auto.
  - apply Hobj. induction l as [|[k v] l IHl]; constructor; simpl; auto.
Qed.

#[export] Instance json_eq_dec : EqDecision json.
Proof.
  refine (fix go v w {struct v} : Decision (v = w) :=
    match v, w with
    | JNull, JNull => left eq_refl
    | JBool a, JBool b => cast_if (decide (a = b))
    | JNum a, JNum b => cast_if (decide (a = b))
    | JDec a, JDec b => cast_if (decide (a = b))
    | JStr a, JStr b => cast_if (decide (a = b))
    | JArr a, JArr b => cast_if (@decide (a = b) (@list_eq_dec _ go a b))
    | JObj a, JObj b =>
      cast_if (@decide (a = b)
        (@list_eq_dec _ (λ p q, @prod_eq_dec _ _ _ go p q) a b))
    | _, _ => right _
    end); clear go; abstract congruence.
Defined.

Section sort_lemmas.
Context {A : Type} (cmp : A → A → num).
Implicit Types (l : list A).

Lemma sort_insert_Permutation x l : sort_insert cmp x l ≡ₚ x :: l.
Proof.
  induction l as [|y l IH]; simpl; [done|].
  destruct (num_lt _ _); [|done]. rewrite IH. constructor.
Qed.

Lemma js_sort_Permutation l : js_sort cmp l ≡ₚ l.
Proof.
  induction l as [|x l IH]; simpl; [done|]. by rewrite sort_insert_Permutation, IH.
Qed.

Lemma elem_of_js_sort x l : x ∈ js_sort cmp l ↔ x ∈ l.
Proof. by rewrite js_sort_Permutation. Qed.

Lemma length_js_sort l : length (js_sort cmp l) = length l.
Proof. by rewrite js_sort_Permutation. Qed.

(** [x] may stand before [y]. *)
Definition sort_le (x y : A) : Prop := num_lt (Some 0) (cmp x y) = false.

Section sorted.
(** The comparator is a consistent total preorder on the elements that
    satisfy [P]. *)
Context (P : A → Prop).
Hypothesis le_total : ∀ x y, P x → P y → sort_le x y ∨ sort_le y x.
Hypothesis le_trans : ∀ x y z, P x → P y → P z → sort_le x y → sort_le y z → sort_le x z.

Lemma sort_insert_sorted x l :
  P x → Forall P l → StronglySorted sort_le l → StronglySorted sort_le (sort_insert cmp x l).
Proof.
  intros Hx Hl. induction 1 as [|y l Hs IH Hy]; simpl; [by repeat constructor|].
  apply Forall_cons in Hl as [Py Hl].
  destruct (num_lt _ _) eqn:Hlt.
  - constructor; [by apply IH|]. rewrite sort_insert_Permutation. constructor; [|done].
    destruct (le_total x y) as [Hle|Hle]; [done..| |done]. unfold sort_le in Hle. congruence.
  - constructor; [by constructor|]. constructor; [done|].
    rewrite Forall_forall in Hy, Hl |- *. intros z Hz. apply le_trans with y; auto.
Qed.

Lemma js_sort_sorted l : Forall P l → StronglySorted sort_le (js_sort cmp l).
Proof.
  induction 1 as [|x l Px Hl IH]; simpl; [constructor|].
  apply sort_insert_sorted; [done| |done]. by rewrite js_sort_Permutation.
Qed.
End sorted.

(** The sort is stable: elements that compare equal keep their order. *)
Lemma js_sort_stable (P : A → Prop) `{!∀ x, Decision (P x)} l :
  (∀ x y, P x → P y → sort_le x y) → filter P (js_sort cmp l) = filter P l.
Proof.
  intros HP. induction l as [|x l IH]; simpl; [done|].
  assert (∀ k, filter P (sort_insert cmp x k) = filter P (x :: k)) as Hins.
  { induction k as [|y k IHk]; simpl; [done|].
    destruct (num_lt _ _) eqn:Hlt; [|done]. rewrite !filter_cons, IHk, filter_cons.
    repeat case_decide; try done.
    assert (sort_le x y) as Hle by auto. unfold sort_le in Hle. congruence. }
  by rewrite Hins, !filter_cons, IH.
Qed.
End sort_lemmas.

(** Sorting by descending key, where every key is a number. *)
Section descending.
Context {A : Type} (key : A → num).

Definition descending (a b : A) : num := num_sub (key b) (key a).

Lemma descending_le a b ta tb :
  key a = Some ta → key b = Some tb → sort_le descending a b ↔ tb <= ta.
Proof.
  intros Ha Hb. unfold sort_le, descending, num_lt. rewrite Ha, Hb. cbn. rewrite Z.ltb_ge. lia.
Qed.

Lemma js_sort_descending l :
  Forall (λ a, is_Some (key a)) l →
  StronglySorted (λ a b, ∃ ta tb, key a = Some ta ∧ key b = Some tb ∧ tb <= ta)
    (js_sort descending l).
Proof.
  intros Hvalid.
  apply (StronglySorted_impl (λ a, is_Some (key a)) (sort_le descending)).
  - intros a b [ta Ha] [tb Hb] Hle. exists ta, tb. split_and!; [done..|].
    by apply (descending_le a b ta tb Ha Hb).
  - by rewrite js_sort_Permutation.
  - apply (js_sort_sorted _ (λ a, is_Some (key a))); [| |done].
    + intros a b [ta Ha] [tb Hb].
      rewrite (descending_le a b ta tb), (descending_le b a tb ta) by done. lia.
    + intros a b c [ta Ha] [tb Hb] [tc Hc].
      rewrite (descending_le a b ta tb), (descending_le b c tb tc),
        (descending_le a c ta tc) by done. lia.
Qed.
End descending.

Section array_lemmas.
Context {A : Type}.
Implicit Types (l : list A).

Lemma slice_nonneg l s e :
  0 <= s <= e → slice l s e = take (Z.to_nat (e - s)) (drop (Z.to_nat s) l).
Proof.
  intros Hse. unfold slice, relative_index.
  destruct (Z.ltb_spec s 0), (Z.ltb_spec e 0); [lia..|].
  destruct (Z.le_gt_cases (Z.of_nat (length l)) s).
  - rewrite !drop_ge by lia. by rewrite !take_nil.
  - replace (Z.to_nat (Z.min s (Z.of_nat (length l)))) with (Z.to_nat s) by lia.
    destruct (Z.le_gt_cases e (Z.of_nat (length l))).
    + f_equal. lia.
    + rewrite !take_ge; [done|rewrite length_drop; lia..].
Qed.

Lemma js_uniq_NoDup `{!EqDecision A} l : NoDup (js_uniq l).
Proof.
  enough (∀ acc, NoDup acc → NoDup (foldl js_uniq_add acc l)) as Hacc.
  { apply Hacc. constructor. }
  induction l as [|x l IH]; intros acc Hacc; simpl; [done|].
  apply IH. unfold js_uniq_add. case_decide; [done|]. apply NoDup_app.
  split_and!; [done| |apply NoDup_singleton]. set_solver.
Qed.

Lemma elem_of_js_uniq `{!EqDecision A} x l : x ∈ js_uniq l ↔ x ∈ l.
Proof.
  unfold js_uniq.
  enough (∀ acc, x ∈ foldl js_uniq_add acc l ↔ x ∈ acc ∨ x ∈ l) as ->; [set_solver|].
  induction l as [|y l IH]; intros acc; simpl; [set_solver|].
  rewrite IH. unfold js_uniq_add. case_decide; set_solver.
Qed.
End array_lemmas.

(** ** String lemmas *)

Lemma trim_start_solid c s : is_solid c = true → trim_start (String c s) = String c s.
Proof.
  intros Hc. apply trim_front_none, space_of_solid; [done|..].
  - intros b. by rewrite (is_solid_neq c 194) by done.
  - intros b d. by rewrite wide_space_ascii, (is_solid_neq c 239) by done.
Qed.

Lemma startsWith_spec q s : startsWith q s = true ↔ ∃ t, s = q +:+ t.
Proof.
  revert s. induction q as [|a q IH]; intros [|b s]; simpl.
  - split; [by exists EmptyString|done].
  - split; [by exists (String b s)|done].
  - split; [done|]. intros [t ?]. discriminate.
  - rewrite andb_true_iff, bool_decide_eq_true, IH. split.
    + intros [-> [t ->]]. by exists t.
    + intros [t [= -> ->]]. eauto.
Qed.

Lemma includes_spec q s : includes q s = true ↔ ∃ a b, s = a +:+ q +:+ b.
Proof.
  induction s as [|c s IH]; simpl; rewrite orb_true_iff, startsWith_spec.
  - split.
    + intros [[t Ht]|]; [|done]. by exists EmptyString, t.
    + intros (a & b & Hab). left. destruct a as [|a0 a]; [|discriminate]. by exists b.
  - rewrite IH. split.
    + intros [[t Ht]|(a & b & ->)]; [by exists EmptyString, t|]. by exists (String c a), b.
    + intros ([|a0 a] & b & Hab); [left; by exists b|]. right.
      injection Hab as -> ->. by exists a, b.
Qed.

(** ** Filtering by index *)

Section filter_index_lemmas.
Context {A : Type}.
Implicit Types (l : list A) (p : nat → bool).

Lemma filter_index_cons p x l :
  filter_index p (x :: l) = (if p 0%nat then [x] else []) ++ filter_index (p ∘ S) l.
Proof.
  unfold filter_index. cbn [imap omap list_omap fst snd].
  assert (omap (λ ix, if p ix.1 then Some ix.2 else None) (imap ((λ i y, (i, y)) ∘ S) l) =
          omap (λ ix, if (p ∘ S) ix.1 then Some ix.2 else None) (imap (λ i y, (i, y)) l)) as ->.
  { assert (imap ((λ i (y : A), (i, y)) ∘ S) l =
      (λ ix : nat * A, (S ix.1, ix.2)) <$> imap (λ i y, (i, y)) l) as ->
      by by rewrite fmap_imap.
    induction (imap (λ i y, (i, y)) l) as [|[i y] k IH]; [done|]. cbn.
    case_match; by rewrite IH. }
  by destruct (p 0%nat).
Qed.

Lemma filter_index_ext p q l : (∀ i, p i = q i) → filter_index p l = filter_index q l.
Proof.
  revert p q. induction l as [|x l IH]; intros p q Hpq; [done|].
  rewrite !filter_index_cons, Hpq. f_equal. apply IH. intros i. apply Hpq.
Qed.

Lemma filter_index_all p l : (∀ i, p i = true) → filter_index p l = l.
Proof.
  revert p. induction l as [|x l IH]; intros p Hp; [done|].
  rewrite filter_index_cons, Hp, IH; [done|]. intros i. apply Hp.
Qed.

(** Dropping one index. *)
Lemma filter_index_delete idx l :
  filter_index (λ i, bool_decide (i ≠ idx)) l = delete idx l.
Proof.
  revert idx. induction l as [|x l IH]; intros idx; [by destruct idx|].
  rewrite filter_index_cons. destruct idx as [|idx]; cbn.
  - apply filter_index_all. done.
  - f_equal. rewrite <-IH. apply filter_index_ext. intros i. apply bool_decide_ext. lia.
Qed.
End filter_index_lemmas.

