(* ===== verification/Json.v ===== *)
(** * JSON text: [JSON.stringify(v, null, 2)] and [JSON.parse]

    The parser is that of the standard in two layers that read their input from
    left to right: a lexer, one character at a time, and a machine with a stack
    of open arrays and objects, one token at a time.  Both are structural, so
    parsing is total without fuel.  Strings are UTF-8; objects keep their keys
    in insertion order and the last value of a repeated key. *)
From Stdlib Require Import Ascii ZArith Lia.
From stdpp Require Import base list strings pretty gmap sets relations sorting.
From S2P Require Import Prelude JsStd.
Local Open Scope Z_scope.

(** ** Objects *)

(** [o[k] = v]. *)
Fixpoint obj_set (k : string) (v : json) (l : list (string * json)) : list (string * json) :=
  match l with
  | [] => [(k, v)]
  | (k', v') :: l => if decide (k = k') then (k, v) :: l else (k', v') :: obj_set k v l
  end.

(** [{...a, ...b}]. *)
Definition obj_spread (a b : list (string * json)) : list (string * json) :=
  foldl (λ l kv, obj_set kv.1 kv.2 l) a b.

(** ** Printing *)

(** A list of printed items between brackets, each on a line of its own. *)
Definition block (open close ind : string) (items : list string) : string :=
  match items with
  | [] => open +:+ close
  | _ => open +:+ newline +:+ ind +:+ "  " +:+
         js_join ("," +:+ newline +:+ ind +:+ "  ") items +:+ newline +:+ ind +:+ close
  end.

(** [JSON.stringify(v, null, 2)], [ind] being the indentation of the line. *)
Fixpoint stringify_at (ind : string) (v : json) : string :=
  match v with
  | JNull => "null"
  | JBool b => if b then "true" else "false"
  | JNum n => show_Z n
  | JDec s => s
  | JStr s => json_quote s
  | JArr l => block "[" "]" ind (map (stringify_at (ind +:+ "  ")) l)
  | JObj l =>
    block "{" "}" ind
      (map (λ kv, json_quote kv.1 +:+ ": " +:+ stringify_at (ind +:+ "  ") kv.2) l)
  end.

Definition JSON_stringify_2 (v : json) : string := stringify_at "" v.

(** ** Numbers *)

Fixpoint read_digits_acc (acc : N) (s : string) : N * string :=
  match s with
  | EmptyString => (acc, EmptyString)
  | String c s' =>
    match Ascii.is_nat c with
    | Some d => read_digits_acc (10 * acc + N.of_nat d) s'
    | None => (acc, s)
    end
  end.

Definition starts_digit (s : string) : bool :=
  match s with String c _ => is_digit c | EmptyString => false end.

(** An optional exponent up to the end of the literal. *)
Definition exponent_ok (s : string) : bool :=
  match s with
  | EmptyString => true
  | String c s =>
    if decide (c = "e"%char ∨ c = "E"%char) then
      let s := match s with
               | String "+" s => s | String "-" s => s | _ => s end in
      starts_digit s && negb (truthy (read_digits_acc 0 s).2)
    else false
  end.

(** What may follow the integer part: a fraction, an exponent. *)
Definition tail_ok (s : string) : bool :=
  match s with
  | String "." s => starts_digit s && exponent_ok (read_digits_acc 0 s).2
  | _ => exponent_ok s
  end.

(** An unsigned literal: its integer part and what follows. *)
Definition unsigned (s : string) : option (N * string) :=
  if starts_digit s then
    match s with
    | String "0" s => Some (0%N, s)
    | _ => Some (read_digits_acc 0 s)
    end
  else None.

(** A number literal. *)
Definition number_of (s : string) : option json :=
  let neg := match s with String "-" _ => true | _ => false end in
  let u := match s with String "-" u => u | _ => s end in
  '(n, rest) ← unsigned u;
  if truthy rest then (if tail_ok rest then Some (JDec s) else None)
  else Some (JNum (if neg then - Z.of_N n else Z.of_N n)).

(** ** Lexer *)

Inductive token :=
  | TLBrace | TRBrace | TLBracket | TRBracket | TComma | TColon
  | TStr (s : string) | TVal (v : json).

(** A run of characters that are not punctuation. *)
Definition word_token (w : string) : option token :=
  if decide (w = "null") then Some (TVal JNull)
  else if decide (w = "true") then Some (TVal (JBool true))
  else if decide (w = "false") then Some (TVal (JBool false))
  else TVal <$> number_of w.

(** The lexer's mode; strings carry what has been read of them and a pending
    high surrogate. *)
Inductive mode :=
  | Start | InWord (w : string)
  | InStr (acc : string) (hi : option N)
  | InEsc (acc : string) (hi : option N)
  | InHex (acc : string) (hi : option N) (togo : nat) (code : N).

Definition char_of (n : N) : string := String (ascii_of_N n) "".

(** The UTF-8 bytes of a code point. *)
Definition utf8 (n : N) : string :=
  (if n <? 128 then char_of n
   else if n <? 2048 then char_of (192 + n / 64) +:+ char_of (128 + n mod 64)
   else if n <? 65536
   then char_of (224 + n / 4096) +:+ char_of (128 + (n / 64) mod 64) +:+ char_of (128 + n mod 64)
   else char_of (240 + n / 262144) +:+ char_of (128 + (n / 4096) mod 64) +:+
        char_of (128 + (n / 64) mod 64) +:+ char_of (128 + n mod 64))%N.

(** A pending high surrogate that was not followed by a low one. *)
Definition flush (acc : string) (hi : option N) : string :=
  match hi with Some h => acc +:+ utf8 h | None => acc end.

Definition unhex_char (c : ascii) : option N :=
  let n := N_of_ascii c in
  if ((48 <=? n) && (n <=? 57))%N then Some (n - 48)%N
  else if ((65 <=? n) && (n <=? 70))%N then Some (n - 55)%N
  else if ((97 <=? n) && (n <=? 102))%N then Some (n - 87)%N
  else None.

(** A complete [\uXXXX] unit. *)
Definition add_unit (acc : string) (hi : option N) (u : N) : mode :=
  (if (55296 <=? u) && (u <? 56320) then InStr (flush acc hi) (Some u)
   else
     match hi with
     | Some h =>
       if (56320 <=? u) && (u <? 57344)
       then InStr (acc +:+ utf8 (65536 + (h - 55296) * 1024 + (u - 56320))) None
       else InStr (acc +:+ utf8 h +:+ utf8 u) None
     | None => InStr (acc +:+ utf8 u) None
     end)%N.

Definition escape_char (c : ascii) : option N :=
  let n := N_of_ascii c in
  (if n =? 34 then Some 34 else if n =? 92 then Some 92 else if n =? 47 then Some 47
   else if n =? 98 then Some 8 else if n =? 102 then Some 12 else if n =? 110 then Some 10
   else if n =? 114 then Some 13 else if n =? 116 then Some 9 else None)%N.

Definition is_ws (c : ascii) : bool :=
  let n := N_of_ascii c in ((n =? 32) || (n =? 9) || (n =? 10) || (n =? 13))%N.

Arguments is_ws : simpl never.

Definition punctuation (c : ascii) : option token :=
  let n := N_of_ascii c in
  (if n =? 123 then Some TLBrace else if n =? 125 then Some TRBrace
   else if n =? 91 then Some TLBracket else if n =? 93 then Some TRBracket
   else if n =? 44 then Some TComma else if n =? 58 then Some TColon else None)%N.

Definition is_quote (c : ascii) : bool := (N_of_ascii c =? 34)%N.

Definition delimiter (c : ascii) : bool :=
  is_ws c || is_quote c || bool_decide (is_Some (punctuation c)).

(** One character between tokens. *)
Definition lex_start (c : ascii) : mode * list token :=
  if is_ws c then (Start, [])
  else if is_quote c then (InStr "" None, [])
  else match punctuation c with
       | Some t => (Start, [t])
       | None => (InWord (String c ""), [])
       end.

Definition lex_step (m : mode) (c : ascii) : option (mode * list token) :=
  let n := N_of_ascii c in
  match m with
  | Start => Some (lex_start c)
  | InWord w =>
    if delimiter c then
      t ← word_token w;
      let '(m, ts) := lex_start c in Some (m, t :: ts)
    else Some (InWord (w +:+ String c ""), [])
  | InStr acc hi =>
    if is_quote c then Some (Start, [TStr (flush acc hi)])
    else if (n =? 92)%N then Some (InEsc acc hi, [])
    else if (n <? 32)%N then None
    else Some (InStr (flush acc hi +:+ String c "") None, [])
  | InEsc acc hi =>
    if (n =? 117)%N then Some (InHex acc hi 4 0, [])
    else e ← escape_char c; Some (InStr (flush acc hi +:+ char_of e) None, [])
  | InHex acc hi togo code =>
    d ← unhex_char c;
    let code := (16 * code + d)%N in
    match togo with
    | 1%nat => Some (add_unit acc hi code, [])
    | S togo => Some (InHex acc hi togo code, [])
    | O => None
    end
  end.

Fixpoint lex (m : mode) (s : string) : option (list token) :=
  match s with
  | EmptyString =>
    match m with
    | Start => Some []
    | InWord w => t ← word_token w; Some [t]
    | _ => None
    end
  | String c s =>
    '(m, ts) ← lex_step m c;
    ts' ← lex m s;
    Some (ts ++ ts')
  end.

(** ** Parser *)

(** An array or object being read. *)
Inductive frame :=
  | FArr (acc : list json)
  | FObj (acc : list (string * json)) (k : string).

Inductive config :=
  | Want (stk : list frame)            (* a value *)
  | WantOrEnd (stk : list frame)       (* a value or the end of an empty array *)
  | WantKey (first : bool) (acc : list (string * json)) (stk : list frame)
  | WantColon (acc : list (string * json)) (k : string) (stk : list frame)
  | Have (v : json) (stk : list frame).

Definition want_step (stk : list frame) (t : token) : option config :=
  match t with
  | TVal v => Some (Have v stk)
  | TStr s => Some (Have (JStr s) stk)
  | TLBracket => Some (WantOrEnd stk)
  | TLBrace => Some (WantKey true [] stk)
  | _ => None
  end.

Definition parse_step (c : config) (t : token) : option config :=
  match c with
  | Want stk => want_step stk t
  | WantOrEnd stk =>
    match t with
    | TRBracket => Some (Have (JArr []) stk)
    | _ => want_step (FArr [] :: stk) t
    end
  | WantKey first acc stk =>
    match t with
    | TStr k => Some (WantColon acc k stk)
    | TRBrace => if first then Some (Have (JObj acc) stk) else None
    | _ => None
    end
  | WantColon acc k stk =>
    match t with TColon => Some (Want (FObj acc k :: stk)) | _ => None end
  | Have v (FArr acc :: stk) =>
    match t with
    | TComma => Some (Want (FArr (acc ++ [v]) :: stk))
    | TRBracket => Some (Have (JArr (acc ++ [v])) stk)
    | _ => None
    end
  | Have v (FObj acc k :: stk) =>
    match t with
    | TComma => Some (WantKey false (obj_set k v acc) stk)
    | TRBrace => Some (Have (JObj (obj_set k v acc)) stk)
    | _ => None
    end
  | Have v [] => None
  end.

Fixpoint parse_tokens (c : config) (ts : list token) : option json :=
  match ts with
  | [] => match c with Have v [] => Some v | _ => None end
  | t :: ts => c ← parse_step c t; parse_tokens c ts
  end.

(** [JSON.parse(s)]; [None] is a SyntaxError. *)
Definition JSON_parse (s : string) : option json :=
  ts ← lex Start s; parse_tokens (Want []) ts.

Arguments JSON_parse : simpl never.
Arguments JSON_stringify_2 : simpl never.

(** ** Lemmas: numbers *)

Lemma digit_cases (d : N) : (d < 10)%N → d ∈ [0; 1; 2; 3; 4; 5; 6; 7; 8; 9]%N.
Proof. intros Hd. rewrite !elem_of_cons, elem_of_nil. lia. Qed.

Lemma is_nat_digit (d : N) : (d < 10)%N → Ascii.is_nat (pretty_N_char d) = Some (N.to_nat d).
Proof.
  intros Hd%digit_cases.
  repeat (apply elem_of_cons in Hd as [->|Hd]; [reflexivity|]). by apply elem_of_nil in Hd.
Qed.

Lemma digit_nonzero (d : N) : (d < 10)%N → d ≠ 0%N → pretty_N_char d ≠ "0"%char.
Proof.
  intros Hd%digit_cases H0. apply elem_of_cons in Hd as [->|Hd]; [done|].
  repeat (apply elem_of_cons in Hd as [->|Hd]; [discriminate|]). by apply elem_of_nil in Hd.
Qed.

Lemma is_digit_cases c :
  is_digit c = true → c ∈ ["0"; "1"; "2"; "3"; "4"; "5"; "6"; "7"; "8"; "9"]%char.
Proof.
  destruct c as [[] [] [] [] [] [] [] []]; intros Hc; try discriminate Hc;
    apply (bool_decide_unpack _); reflexivity.
Qed.

Lemma read_digits_pretty_go (x : N) (s : string) :
  read_digits_acc 0 (pretty_N_go x s) = read_digits_acc x s.
Proof.
  revert s. induction (N.lt_wf_0 x) as [x _ IH]. intros s.
  destruct (decide (x = 0)%N) as [->|Hx]; [by rewrite pretty_N_go_0|].
  rewrite pretty_N_go_step by lia. rewrite IH by (apply N.div_lt; lia). cbn [read_digits_acc].
  rewrite is_nat_digit by (apply N.mod_lt; lia).
  rewrite N2Nat.id. f_equal. pose proof (N.div_mod x 10 ltac:(lia)). lia.
Qed.

Lemma read_digits_pretty (n : N) : read_digits_acc 0 (pretty n) = (n, "").
Proof.
  unfold pretty, pretty_N. case_decide; [by subst|]. by rewrite read_digits_pretty_go.
Qed.

Definition leads_nonzero (s : string) : Prop :=
  ∃ c t, s = String c t ∧ is_digit c = true ∧ c ≠ "0"%char.

Lemma pretty_go_leads (x : N) (s : string) : (0 < x)%N → leads_nonzero (pretty_N_go x s).
Proof.
  revert s. induction (N.lt_wf_0 x) as [x _ IH]. intros s Hx. rewrite pretty_N_go_step by lia.
  destruct (decide (x / 10 = 0)%N) as [Hd|Hd].
  - rewrite Hd, pretty_N_go_0. eexists _, _. split; [done|]. split; [apply pretty_N_char_digit|].
    apply N.div_small_iff in Hd; [|lia]. rewrite N.mod_small by lia.
    apply digit_nonzero; lia.
  - apply IH; [apply N.div_lt; lia|by apply N.neq_0_lt_0].
Qed.

Lemma unsigned_pretty (n : N) : unsigned (pretty n) = Some (n, "").
Proof.
  destruct (decide (n = 0)%N) as [->|Hn]; [reflexivity|].
  pose proof (read_digits_pretty n) as Hr.
  destruct (pretty_go_leads n "" ltac:(lia)) as (c & t & Hs & Hc & H0).
  assert (pretty n = String c t) as Hp.
  { unfold pretty, pretty_N. by rewrite decide_False. }
  rewrite Hp in Hr |- *. unfold unsigned. cbn [starts_digit]. rewrite Hc.
  destruct c as [[] [] [] [] [] [] [] []]; try exact (f_equal Some Hr); done.
Qed.

Lemma number_of_show (z : Z) : number_of (show_Z z) = Some (JNum z).
Proof.
  unfold show_Z. destruct z as [|p|p]; [reflexivity| |].
  - pose proof (unsigned_pretty (Npos p)) as Hu.
    change (pretty (Z.pos p)) with (pretty (Npos p)).
    destruct (pretty_go_leads (Npos p) "" ltac:(lia)) as (c & t & Hs & Hc & H0).
    assert (pretty (Npos p) = String c t) as Hp.
    { unfold pretty at 1, pretty_N. by rewrite decide_False. }
    rewrite Hp in Hu |- *. unfold number_of.
    destruct (decide (c = "-"%char)) as [->|Hm]; [done|].
    replace (match String c t with String "-" u => u | _ => String c t end) with (String c t)
      by (by destruct c as [[] [] [] [] [] [] [] []]).
    replace (match String c t with String "-" _ => true | _ => false end) with false
      by (by destruct c as [[] [] [] [] [] [] [] []]).
    rewrite Hu. done.
  - change (pretty (Z.neg p)) with (String "-" (pretty (Npos p))). unfold number_of.
    by rewrite unsigned_pretty.
Qed.

(** ** Lemmas: the lexer *)

Fixpoint lex_run (m : mode) (s : string) : option (mode * list token) :=
  match s with
  | EmptyString => Some (m, [])
  | String c s =>
    '(m, ts) ← lex_step m c;
    '(m', ts') ← lex_run m s;
    Some (m', ts ++ ts')
  end.

Lemma lex_run_lex m a b m' ts :
  lex_run m a = Some (m', ts) → lex m (a +:+ b) = (λ ts', ts ++ ts') <$> lex m' b.
Proof.
  revert m ts. induction a as [|c a IH]; intros m ts; rewrite ?string_app_cons; cbn.
  - intros [= -> <-]. change (EmptyString +:+ b) with b. by destruct (lex m' b).
  - destruct (lex_step m c) as [[m1 ts1]|]; [|done]. cbn.
    destruct (lex_run m1 a) as [[m2 ts2]|] eqn:Hr; [|done]. cbn. intros [= -> <-].
    rewrite (IH m1 ts2 Hr). destruct (lex m' b); cbn; [|done]. by rewrite app_assoc.
Qed.

Lemma lex_run_app m a b m' ts m'' us :
  lex_run m a = Some (m', ts) → lex_run m' b = Some (m'', us) →
  lex_run m (a +:+ b) = Some (m'', ts ++ us).
Proof.
  revert m ts. induction a as [|c a IH]; intros m ts; rewrite ?string_app_cons; cbn.
  - intros [= -> <-]. by change (EmptyString +:+ b) with b.
  - destruct (lex_step m c) as [[m1 ts1]|]; [|done]. cbn.
    destruct (lex_run m1 a) as [[m2 ts2]|] eqn:Hr; [|done]. cbn. intros [= -> <-] Hb.
    rewrite (IH m1 ts2 Hr Hb). cbn. by rewrite app_assoc.
Qed.

(** An escaped character adds that character. *)
Lemma lex_escape acc c :
  lex_run (InStr acc None) (json_escape c) = Some (InStr (acc +:+ String c "") None, []).
Proof. destruct c as [[] [] [] [] [] [] [] []]; reflexivity. Qed.

Lemma lex_escapes acc s :
  lex_run (InStr acc None) (json_escapes s) = Some (InStr (acc +:+ s) None, []).
Proof.
  revert acc. induction s as [|c s IH]; intros acc; cbn [json_escapes].
  - by rewrite string_app_nil_r.
  - eapply (lex_run_app _ _ _ _ [] _ []); [apply lex_escape|]. rewrite IH.
    by rewrite string_app_assoc.
Qed.

Lemma lex_quote s : lex_run Start (json_quote s) = Some (Start, [TStr s]).
Proof.
  unfold json_quote.
  eapply (lex_run_app _ _ _ (InStr "" None) [] _ [TStr s]); [reflexivity|].
  eapply (lex_run_app _ _ _ _ [] _ [TStr s]); [apply lex_escapes|]. reflexivity.
Qed.

(** Nothing, or a character that ends a word. *)
Definition delimited (s : string) : Prop :=
  match s with EmptyString => True | String c _ => delimiter c = true end.

(** [a] is read as the tokens [ts] when a word may end after it. *)
Definition lexes (a : string) (ts : list token) : Prop :=
  ∀ rest, delimited rest → lex Start (a +:+ rest) = (λ us, ts ++ us) <$> lex Start rest.

Lemma lexes_run a ts : lex_run Start a = Some (Start, ts) → lexes a ts.
Proof. intros Ha rest _. by eapply lex_run_lex. Qed.

Lemma lexes_app a b ts us :
  lexes a ts → lexes b us → (∀ rest, delimited (b +:+ rest)) → lexes (a +:+ b) (ts ++ us).
Proof.
  intros Ha Hb Hd rest Hrest. rewrite string_app_assoc, Ha, Hb by done.
  destruct (lex Start rest); cbn; [|done]. by rewrite app_assoc.
Qed.

Definition word_char (c : ascii) : bool := negb (delimiter c).

Lemma lex_word w a :
  string_forallb word_char a = true → lex_run (InWord w) a = Some (InWord (w +:+ a), []).
Proof.
  revert w. induction a as [|c a IH]; intros w; cbn; [by rewrite string_app_nil_r|].
  rewrite andb_true_iff. unfold word_char at 1. rewrite negb_true_iff. intros [-> Ha]. cbn.
  rewrite IH by done. cbn. by rewrite string_app_assoc.
Qed.

Lemma lex_word_end w rest t :
  word_token w = Some t → delimited rest → lex (InWord w) rest = cons t <$> lex Start rest.
Proof.
  intros Ht. destruct rest as [|c rest]; cbn; [by rewrite Ht|]. intros Hc. rewrite Hc, Ht. cbn.
  destruct (lex_start c) as [m ts]. cbn. by destruct (lex m rest).
Qed.

Lemma lexes_word w t :
  truthy w = true → string_forallb word_char w = true → word_token w = Some t → lexes w [t].
Proof.
  intros Hne Hw Ht rest Hrest. destruct w as [|c a]; [done|]. cbn in Hw.
  apply andb_true_iff in Hw as [Hc Ha]. unfold word_char in Hc. apply negb_true_iff in Hc.
  unfold delimiter in Hc. apply orb_false_iff in Hc as [Hc Hp].
  apply orb_false_iff in Hc as [Hws Hq].
  assert (lex_run Start (String c a) = Some (InWord (String c a), [])) as Hr.
  { cbn. unfold lex_start. rewrite Hws, Hq. bool_to_prop.
    destruct (punctuation c); [by destruct Hp|]. cbn. by rewrite lex_word. }
  rewrite (lex_run_lex _ _ _ _ _ Hr), (lex_word_end _ _ _ Ht) by done.
  by destruct (lex Start rest).
Qed.

Lemma digit_word_char c : is_digit c = true → word_char c = true.
Proof. by destruct c as [[] [] [] [] [] [] [] []]. Qed.

Lemma show_word (z : Z) : truthy (show_Z z) = true ∧ string_forallb word_char (show_Z z) = true.
Proof.
  assert (∀ p, truthy (pretty (Npos p)) = true ∧
    string_forallb word_char (pretty (Npos p)) = true) as Hp.
  { intros p. split.
    - destruct (pretty_go_leads (Npos p) "" ltac:(lia)) as (c & t & Hs & _).
      unfold pretty, pretty_N. rewrite decide_False by done. by rewrite Hs.
    - eapply string_forallb_impl; [apply digit_word_char|apply pretty_N_digits]. }
  unfold show_Z. destruct z as [|p|p]; [done|apply Hp|].
  change (pretty (Z.neg p)) with (String "-" (pretty (Npos p))). split; [done|]. apply Hp.
Qed.

Lemma word_token_number w v :
  number_of w = Some v → word_token w = Some (TVal v).
Proof.
  intros Hn. unfold word_token. repeat case_decide; subst; try done. by rewrite Hn.
Qed.

(** ** Lemmas: the tokens of a value *)

(** The literals the parser accepts, and objects without repeated keys. *)
Fixpoint json_wf (v : json) : Prop :=
  match v with
  | JDec s => number_of s = Some (JDec s) ∧ string_forallb word_char s = true
  | JArr l => foldr (λ v P, json_wf v ∧ P) True l
  | JObj l => NoDup l.*1 ∧ foldr (λ kv P, json_wf kv.2 ∧ P) True l
  | _ => True
  end.

Fixpoint commas (l : list (list token)) : list token :=
  match l with
  | [] => []
  | [ts] => ts
  | ts :: l => ts ++ TComma :: commas l
  end.

Fixpoint tokens_of (v : json) : list token :=
  match v with
  | JStr s => [TStr s]
  | JArr l => TLBracket :: commas (map tokens_of l) ++ [TRBracket]
  | JObj l =>
    TLBrace :: commas (map (λ kv, TStr kv.1 :: TColon :: tokens_of kv.2) l) ++ [TRBrace]
  | _ => [TVal v]
  end.

(** Indentation is white space. *)
Definition blank (s : string) : Prop := string_forallb is_ws s = true.

Lemma lex_run_blank s : blank s → lex_run Start s = Some (Start, []).
Proof.
  intros Hs. induction s as [|c s IH]; [done|]. unfold blank in *. cbn in Hs |- *.
  apply andb_true_iff in Hs as [Hc Hs]. unfold lex_start. rewrite Hc. cbn. by rewrite IH.
Qed.

Lemma blank_app a b : blank a → blank b → blank (a +:+ b).
Proof. unfold blank. rewrite string_forallb_app. by intros -> ->. Qed.

Lemma delimited_blank ind rest : blank ind → delimited rest → delimited (ind +:+ rest).
Proof.
  destruct ind as [|c ind]; [done|]. unfold blank. cbn. rewrite andb_true_iff. intros [Hc _] _.
  rewrite string_app_cons. cbn [delimited]. unfold delimiter. by rewrite Hc.
Qed.

Lemma lexes_join sep items tss :
  Forall2 lexes items tss → lex_run Start sep = Some (Start, [TComma]) →
  (∀ rest, delimited (sep +:+ rest)) → lexes (js_join sep items) (commas tss).
Proof.
  intros Hall Hsep Hd. induction Hall as [|a ts items tss Ha Hall IH].
  { intros rest _. change (js_join sep [] +:+ rest) with rest. by destruct (lex Start rest). }
  destruct Hall as [|b us items tss Hb Hall]; [done|].
  change (js_join sep (a :: b :: items)) with (a +:+ sep +:+ js_join sep (b :: items)).
  change (commas (ts :: us :: tss)) with (ts ++ [TComma] ++ commas (us :: tss)).
  intros rest Hrest.
  rewrite !string_app_assoc, Ha, (lex_run_lex _ _ _ _ _ Hsep), IH by done.
  destruct (lex Start rest); [|done]. cbn. by rewrite <-app_assoc.
Qed.

(** A block of items between brackets. *)
Lemma lexes_block open close ind items tss to tc :
  lex_run Start open = Some (Start, [to]) → lex_run Start close = Some (Start, [tc]) →
  (∀ rest, delimited (close +:+ rest)) → blank ind → Forall2 lexes items tss →
  lexes (block open close ind items) (to :: commas tss ++ [tc]).
Proof.
  intros Ho Hc Hd Hind Hall. destruct Hall as [|a ts items tss Ha Hall].
  { apply lexes_run. by eapply (lex_run_app _ _ _ _ [to] _ [tc]). }
  unfold block.
  assert (lexes (newline +:+ ind +:+ close) [tc]) as Hend.
  { apply lexes_run. eapply (lex_run_app _ _ _ _ [] _ [tc]); [reflexivity|].
    eapply (lex_run_app _ _ _ _ [] _ [tc]); [by apply lex_run_blank|done]. }
  assert (lex_run Start (open +:+ newline +:+ ind +:+ "  ") = Some (Start, [to])) as Hstart.
  { eapply (lex_run_app _ _ _ _ [to] _ []); [done|].
    eapply (lex_run_app _ _ _ _ [] _ []); [reflexivity|].
    eapply (lex_run_app _ _ _ _ [] _ []); [by apply lex_run_blank|reflexivity]. }
  assert (lex_run Start ("," +:+ newline +:+ ind +:+ "  ") = Some (Start, [TComma])) as Hsep.
  { eapply (lex_run_app _ _ _ _ [TComma] _ []); [reflexivity|].
    eapply (lex_run_app _ _ _ _ [] _ []); [reflexivity|].
    eapply (lex_run_app _ _ _ _ [] _ []); [by apply lex_run_blank|reflexivity]. }
  assert (lexes (js_join ("," +:+ newline +:+ ind +:+ "  ") (a :: items)) (commas (ts :: tss)))
    as Hjoin by (apply lexes_join; [by constructor|done..]).
  intros rest Hrest.
  replace ((open +:+ newline +:+ ind +:+ "  " +:+
      js_join ("," +:+ newline +:+ ind +:+ "  ") (a :: items) +:+ newline +:+ ind +:+ close) +:+ rest)
    with ((open +:+ newline +:+ ind +:+ "  ") +:+
      (js_join ("," +:+ newline +:+ ind +:+ "  ") (a :: items) +:+ newline +:+ ind +:+ close) +:+ rest)
    by by rewrite !string_app_assoc.
  rewrite (lex_run_lex _ _ _ _ _ Hstart).
  rewrite (lexes_app _ _ _ _ Hjoin Hend) by done.
  by destruct (lex Start rest).
Qed.

(** Printing a value and reading it as tokens. *)
Lemma lexes_value v ind : json_wf v → blank ind → lexes (stringify_at ind v) (tokens_of v).
Proof.
  revert ind. induction v as [|b|n|s|s|l IH|l IH] using json_ind; intros ind Hwf Hind; cbn [stringify_at].
  - by apply lexes_word.
  - destruct b; by apply lexes_word.
  - destruct (show_word n). apply lexes_word; [done..|]. apply word_token_number, number_of_show.
  - destruct Hwf as [Hn Hw]. apply lexes_word; [by destruct s|done|]. by apply word_token_number.
  - apply lexes_run, lex_quote.
  - apply lexes_block; [done..|]. cbn in Hwf.
    assert (blank (ind +:+ "  ")) as Hb by by apply blank_app.
    induction IH as [|x l Hx _ IHl]; cbn in *; constructor; [apply Hx, Hb; tauto|apply IHl; tauto].
  - apply lexes_block; [done..|]. cbn in Hwf. destruct Hwf as [_ Hwf].
    assert (blank (ind +:+ "  ")) as Hb by by apply blank_app.
    induction IH as [|[k x] l Hx _ IHl]; cbn in *; constructor; [|apply IHl; tauto].
    intros rest Hrest. rewrite !string_app_assoc, (lex_run_lex _ _ _ _ _ (lex_quote k)).
    rewrite (lex_run_lex _ ": " _ Start [TColon]) by reflexivity.
    rewrite (Hx _ ltac:(tauto) Hb rest Hrest). by destruct (lex Start rest).
Qed.

(** ** Lemmas: the parser *)

Lemma want_or_end v ts stk :
  parse_tokens (WantOrEnd stk) (tokens_of v ++ ts) =
  parse_tokens (Want (FArr [] :: stk)) (tokens_of v ++ ts).
Proof. by destruct v. Qed.

Lemma obj_set_fresh k v l : k ∉ l.*1 → obj_set k v l = l ++ [(k, v)].
Proof.
  induction l as [|[k' v'] l IH]; cbn; [done|]. intros Hk.
  rewrite decide_False by set_solver. rewrite IH by set_solver. done.
Qed.

(** A value is read as itself in every context. *)
Definition parses (v : json) : Prop :=
  ∀ stk ts, json_wf v → parse_tokens (Want stk) (tokens_of v ++ ts) = parse_tokens (Have v stk) ts.

Definition member_tokens (kv : string * json) : list token := TStr kv.1 :: TColon :: tokens_of kv.2.

Lemma parse_elements l x acc stk ts :
  Forall parses (x :: l) → foldr (λ v P, json_wf v ∧ P) True (x :: l) →
  parse_tokens (Want (FArr acc :: stk)) (commas (map tokens_of (x :: l)) ++ TRBracket :: ts) =
  parse_tokens (Have (JArr (acc ++ x :: l)) stk) ts.
Proof.
  revert x acc. induction l as [|y l IHl]; intros x acc [Hx Hall]%Forall_cons [Hwx Hwl].
  - cbn [map commas]. rewrite Hx by done. done.
  - change (commas (map tokens_of (x :: y :: l))) with
      (tokens_of x ++ TComma :: commas (map tokens_of (y :: l))).
    rewrite <-app_assoc, Hx by done. cbn [app parse_tokens parse_step mbind option_bind].
    etrans; [apply (IHl y (acc ++ [x]) Hall Hwl)|]. by rewrite <-app_assoc.
Qed.

Lemma parse_members l k x acc b stk ts :
  NoDup (acc ++ (k, x) :: l).*1 → Forall (λ kv, parses kv.2) ((k, x) :: l) →
  foldr (λ kv P, json_wf kv.2 ∧ P) True ((k, x) :: l) →
  parse_tokens (WantKey b acc stk) (commas (map member_tokens ((k, x) :: l)) ++ TRBrace :: ts) =
  parse_tokens (Have (JObj (acc ++ (k, x) :: l)) stk) ts.
Proof.
  revert k x acc b.
  induction l as [|[k' y] l IHl]; intros k x acc b Hnd [Hx Hall]%Forall_cons [Hwx Hwl];
    cbn [snd] in Hx, Hwx; pose proof Hnd as Hnd'; rewrite fmap_app in Hnd';
    apply NoDup_app in Hnd' as (_ & Hk & _);
    assert (k ∉ acc.*1) as Hka by (intros Hin; apply (Hk k Hin); apply list_elem_of_here).
  - cbn [map commas member_tokens app parse_tokens parse_step mbind option_bind fst snd].
    rewrite Hx by done. cbn. by rewrite obj_set_fresh.
  - change (commas (map member_tokens ((k, x) :: (k', y) :: l))) with
      (member_tokens (k, x) ++ TComma :: commas (map member_tokens ((k', y) :: l))).
    cbn [member_tokens app parse_tokens parse_step mbind option_bind fst snd].
    rewrite <-app_assoc, Hx by done. cbn [app parse_tokens parse_step mbind option_bind].
    rewrite obj_set_fresh by done.
    etrans; [apply (IHl k' y (acc ++ [(k, x)]) false); [by rewrite <-app_assoc|done..]|].
    by rewrite <-app_assoc.
Qed.

Lemma parse_value v : parses v.
Proof.
  induction v as [|b|n|s|s|l IH|l IH] using json_ind; intros stk ts Hwf; try done;
    cbn [tokens_of app parse_tokens parse_step want_step mbind option_bind];
    rewrite <-app_assoc; (destruct l as [|x l]; [done|]).
  - etrans; [|apply (parse_elements l x [] stk ts IH Hwf)].
    destruct l as [|y l]; [apply want_or_end|].
    change (commas (map tokens_of (x :: y :: l))) with
      (tokens_of x ++ TComma :: commas (map tokens_of (y :: l))).
    rewrite <-!app_assoc. apply want_or_end.
  - destruct x as [k x], Hwf as [Hnd Hwf].
    apply (parse_members l k x [] true stk ts Hnd IH Hwf).
Qed.

(** Reading what was printed gives the value back. *)
Lemma parse_stringify v : json_wf v → JSON_parse (JSON_stringify_2 v) = Some v.
Proof.
  intros Hwf. unfold JSON_parse, JSON_stringify_2.
  pose proof (lexes_value v "" Hwf eq_refl "" I) as Hl. rewrite string_app_nil_r in Hl. rewrite Hl.
  cbn. rewrite parse_value by done. done.
Qed.
