(* ===== verification/Jsx.v ===== *)
(** * React elements, event dispatch and user-interface steps

    A component's render function is modelled as a function from its state to
    an element tree ([node]).  An element carries its attributes, the event
    listeners React attaches, whether it is a disabled form control, and its
    children; a listener names the action its callback performs.  [dispatch]
    is the DOM's bubbling phase: the listeners of the target fire, then those
    of its ancestors until one stops the propagation; a disabled control
    swallows the event.  A user-interface step ([ui_step]) performs an action
    that some event on the rendered tree dispatches, so a theorem about the
    reachable states of a page is about what its rendered controls allow.

    Inline styles are kept where the program computes with them (variants,
    spreads that callers override, state-dependent entries); static layout
    styles of the pages are left out. *)
From Stdlib Require Import Ascii ZArith Lia.
From stdpp Require Import base list strings pretty gmap sets relations sorting.
From S2P Require Import Prelude JsStd.
Local Open Scope Z_scope.

(** [On e stop f]: the element listens to event [e]; the callback is given the
    event's datum (the new value of a field, the key pressed) and performs the
    action [f datum], if any; [stop] when it calls [stopPropagation]. *)
Record listener (A : Type) := On { ev : string; stops : bool; act : string → option A }.
Arguments On {A}.
Arguments ev {A}.
Arguments stops {A}.
Arguments act {A}.

Unset Elimination Schemes.
Inductive node (A : Type) :=
  | Null
  | Text (s : string)
  | Elem (tag : string) (attrs : list (string * string)) (disabled : bool)
         (on : list (listener A)) (kids : list (node A)).
Set Elimination Schemes.
Arguments Null {A}.
Arguments Text {A}.
Arguments Elem {A}.

(** [onEvent={() => a}] and [onEvent={e => f(e.datum)}]. *)
Definition on {A} (e : string) (a : A) : listener A := On e false (λ _, Some a).
Definition on_value {A} (e : string) (f : string → A) : listener A := On e false (λ d, Some (f d)).

(** [<tag attrs>kids</tag>] without listeners. *)
Definition el {A} (tag : string) (attrs : list (string * string)) (kids : list (node A)) : node A :=
  Elem tag attrs false [] kids.

(** [cond && node]. *)
Definition when {A} (c : bool) (n : node A) : node A := if c then n else Null.

(** A style object; an undefined entry is not applied. *)
Abbreviation style := (list (string * option string)).

Definition style_set (k : string) (v : option string) (s : style) : style :=
  filter (λ kv, kv.1 ≠ k) s ++ [(k, v)].

(** [{...a, ...b}]: the entries of [b] override those of [a]. *)
Definition spread (a b : style) : style := foldl (λ s kv, style_set kv.1 kv.2 s) a b.

Fixpoint style_get (k : string) (s : style) : option string :=
  match s with
  | [] => None
  | (k', v) :: s => if decide (k = k') then v else style_get k s
  end.

Definition style_attrs (s : style) : list (string * string) :=
  omap (λ kv, v ← kv.2; Some ("style:" +:+ kv.1, v)) s.

Section tree.
Context {A : Type}.

Fixpoint node_map {B} (f : A → B) (n : node A) : node B :=
  match n with
  | Null => Null
  | Text s => Text s
  | Elem tag attrs dis on kids =>
    Elem tag attrs dis (map (λ l, On l.(ev) l.(stops) (λ d, f <$> l.(act) d)) on)
      (map (node_map f) kids)
  end.

(** The enabled listeners of a tree. *)
Fixpoint listeners (n : node A) : list (listener A) :=
  match n with
  | Null | Text _ => []
  | Elem _ _ dis on kids => if dis then [] else on ++ flat_map listeners kids
  end.

(** The text a reader sees. *)
Fixpoint text_of (n : node A) : string :=
  match n with
  | Null => ""
  | Text s => s
  | Elem _ _ _ _ kids => foldr String.app "" (map text_of kids)
  end.

(** The listeners of one element for an event: their actions, and whether
    the event goes on to the parent. *)
Definition fire (on : list (listener A)) (e d : string) : list A * bool :=
  let hit := filter (λ l, l.(ev) = e) on in
  (omap (λ l, l.(act) d) hit, forallb (λ l, negb l.(stops)) hit).

(** Dispatches event [e] with datum [d] to the element at [path]; returns the
    actions in the order they run and whether the event left the tree. *)
Fixpoint dispatch (path : list nat) (n : node A) (e d : string) : list A * bool :=
  match n with
  | Null | Text _ => ([], false)
  | Elem _ _ true _ _ => ([], false)
  | Elem _ _ false on kids =>
    match path with
    | [] => fire on e d
    | i :: path =>
      match kids !! i with
      | None => ([], false)
      | Some k =>
        let '(acts, go_on) := dispatch path k e d in
        if go_on then let '(acts', go_on') := fire on e d in (acts ++ acts', go_on')
        else (acts, false)
      end
    end
  end.

(** The element at a path. *)
Fixpoint node_at (path : list nat) (n : node A) : option (node A) :=
  match path, n with
  | [], _ => Some n
  | i :: path, Elem _ _ _ _ kids => k ← kids !! i; node_at path k
  | _, _ => None
  end.
End tree.

(** ** User-interface steps *)
Section ui.
Context {S A : Type} (view : S → node A) (update : A → S → S).

Inductive ui_step : relation S :=
  | ui_event s path e d a :
    a ∈ (dispatch path (view s) e d).1 →
    ui_step s (update a s).
End ui.

(** ** Lemmas *)

Section node_ind.
Context {A : Type} (P : node A → Prop).
Hypothesis P_null : P Null.
Hypothesis P_text : ∀ s, P (Text s).
Hypothesis P_elem : ∀ tag attrs dis on kids, Forall P kids → P (Elem tag attrs dis on kids).

Lemma node_ind n : P n.
Proof.
  revert n. fix IH 1. intros [|s|tag attrs dis on kids].
  - exact P_null.
  - apply P_text.
  - apply P_elem. induction kids; constructor; auto.
Qed.
End node_ind.

Section tree_lemmas.
Context {A : Type}.
Implicit Types (n : node A).

Lemma fire_act on e d (a : A) :
  a ∈ (fire on e d).1 → ∃ l, l ∈ on ∧ l.(ev) = e ∧ l.(act) d = Some a.
Proof.
  unfold fire; simpl. rewrite list_elem_of_omap. intros (l & Hl & Ha).
  apply list_elem_of_filter in Hl as [He Hl]. eauto.
Qed.

(** What fires is the action of an enabled listener of the tree. *)
Lemma dispatch_listener path n e d a :
  a ∈ (dispatch path n e d).1 →
  ∃ l, l ∈ listeners n ∧ l.(ev) = e ∧ l.(act) d = Some a.
Proof.
  revert n. induction path as [|i path IH]; intros [|s|tag attrs [] on kids]; simpl;
    try (intros Ha; inversion Ha; fail).
  - intros (l & Hl & ? & ?)%fire_act. exists l. set_solver.
  - destruct (kids !! i) as [k|] eqn:Hk; [|intros Ha; inversion Ha].
    assert (∀ l, l ∈ listeners k → l ∈ flat_map listeners kids) as Hsub.
    { intros l Hl. apply list_elem_of_In, in_flat_map. exists k.
      rewrite <-!list_elem_of_In. split; [by eapply list_elem_of_lookup_2|done]. }
    specialize (IH k).
    destruct (dispatch path k e d) as [acts go_on] eqn:Hd. destruct go_on; simpl in *.
    + intros [(l & ? & ? & ?)%IH|Ha]%elem_of_app; [exists l; set_solver|].
      destruct (fire_act on e d a Ha) as (l & ? & ? & ?). exists l. set_solver.
    + intros (l & ? & ? & ?)%IH. exists l. set_solver.
Qed.

(** Nothing fires at or below a disabled control. *)
Lemma dispatch_disabled path tag attrs on kids e d :
  dispatch path (@Elem A tag attrs true on kids) e d = ([], false).
Proof. by destruct path. Qed.

Lemma elem_of_flat_map {B} (f : B → list (listener A)) (l : listener A) (bs : list B) :
  l ∈ flat_map f bs ↔ ∃ b, b ∈ bs ∧ l ∈ f b.
Proof.
  rewrite list_elem_of_In, in_flat_map. setoid_rewrite list_elem_of_In. done.
Qed.
End tree_lemmas.

Section ui_lemmas.
Context {S A : Type} (view : S → node A) (update : A → S → S).

(** A property of states that every enabled listener's action keeps is an
    invariant of the page. *)
Lemma ui_invariant (P : S → Prop) :
  (∀ s l d a, P s → l ∈ listeners (view s) → l.(act) d = Some a → P (update a s)) →
  ∀ s s', P s → rtc (ui_step view update) s s' → P s'.
Proof.
  intros HP s s' Hs Hr. eapply rtc_invariant; [exact Hs| |exact Hr].
  intros a b Ha Hstep. destruct Hstep as [s0 path e d act0 Hact].
  apply dispatch_listener in Hact as (l & Hl & _ & Hl'). by eapply HP.
Qed.
End ui_lemmas.

(** ** Which listeners a tree has *)

Section listener_rules.
Context {A : Type}.
Implicit Types (l : listener A) (n : node A).

Lemma listeners_Elem l tag attrs dis on kids :
  l ∈ listeners (Elem tag attrs dis on kids) ↔
  dis = false ∧ (l ∈ on ∨ l ∈ flat_map listeners kids).
Proof. destruct dis; cbn; [split; [inversion 1|by intros [[=] _]]|]. rewrite elem_of_app. tauto. Qed.

Lemma listeners_el l tag attrs kids :
  l ∈ listeners (el tag attrs kids) ↔ l ∈ flat_map listeners kids.
Proof. done. Qed.

Lemma listeners_when l c n : l ∈ listeners (when c n) ↔ c = true ∧ l ∈ listeners n.
Proof. destruct c; cbn; [tauto|]. split; [inversion 1|by intros [[=] _]]. Qed.

Lemma listeners_Null l : l ∈ listeners Null ↔ False.
Proof. apply elem_of_nil. Qed.
Lemma listeners_Text l t : l ∈ listeners (Text t) ↔ False.
Proof. apply elem_of_nil. Qed.

Lemma listeners_if l (c : bool) n1 n2 :
  l ∈ listeners (if c then n1 else n2) ↔
  (c = true ∧ l ∈ listeners n1) ∨ (c = false ∧ l ∈ listeners n2).
Proof. destruct c; naive_solver. Qed.

Lemma flat_listeners_if l (c : bool) ks1 ks2 :
  l ∈ flat_map listeners (if c then ks1 else ks2) ↔
  (c = true ∧ l ∈ flat_map listeners ks1) ∨ (c = false ∧ l ∈ flat_map listeners ks2).
Proof. destruct c; naive_solver. Qed.

Lemma flat_listeners_nil l : l ∈ flat_map listeners [] ↔ False.
Proof. apply elem_of_nil. Qed.

Lemma flat_listeners_cons l n ks :
  l ∈ flat_map listeners (n :: ks) ↔ l ∈ listeners n ∨ l ∈ flat_map listeners ks.
Proof. apply elem_of_app. Qed.

Lemma flat_listeners_app l ks1 ks2 :
  l ∈ flat_map listeners (ks1 ++ ks2) ↔
  l ∈ flat_map listeners ks1 ∨ l ∈ flat_map listeners ks2.
Proof. rewrite flat_map_app. apply elem_of_app. Qed.

Lemma flat_listeners_map {B} l (f : B → node A) bs :
  l ∈ flat_map listeners (map f bs) ↔ ∃ b, b ∈ bs ∧ l ∈ listeners (f b).
Proof.
  rewrite elem_of_flat_map. setoid_rewrite list_elem_of_fmap. naive_solver.
Qed.

Lemma flat_listeners_imap {B} l (f : nat → B → node A) bs :
  l ∈ flat_map listeners (imap f bs) ↔ ∃ i b, bs !! i = Some b ∧ l ∈ listeners (f i b).
Proof.
  rewrite elem_of_flat_map. setoid_rewrite elem_of_lookup_imap. naive_solver.
Qed.

Lemma listeners_node_map {B} (f : B → A) (n : node B) l :
  l ∈ listeners (node_map f n) ↔
  ∃ k, k ∈ listeners n ∧ l = On k.(ev) k.(stops) (λ d, f <$> k.(act) d).
Proof.
  induction n as [|s|tag attrs dis on kids IH] using node_ind; cbn.
  - setoid_rewrite elem_of_nil. naive_solver.
  - setoid_rewrite elem_of_nil. naive_solver.
  - destruct dis; [setoid_rewrite elem_of_nil; naive_solver|].
    setoid_rewrite elem_of_app. rewrite flat_listeners_map, list_elem_of_fmap.
    setoid_rewrite elem_of_flat_map. rewrite Forall_forall in IH. split.
    + intros [(k & -> & ?)|(n & Hn & Hl)]; [by eauto|].
      apply (IH n Hn) in Hl as (k & ? & ->). eauto 10.
    + intros (k & [?|(n & Hn & Hk)] & ->); [by eauto|]. right. exists n.
      split; [done|]. apply (IH n Hn). eauto.
Qed.
End listener_rules.

(** Case analysis on which listener of a tree is meant, guided by the syntax of
    the tree; stops at component calls, which are then unfolded by hand. *)
Ltac inv_listeners H :=
  lazymatch type of H with
  | _ ∈ listeners ?n =>
    lazymatch n with
    | Null => destruct (proj1 (listeners_Null _) H)
    | Text _ => destruct (proj1 (listeners_Text _ _) H)
    | when _ _ => apply listeners_when in H as [? H]; inv_listeners H
    | el _ _ _ => apply listeners_el in H; inv_listeners H
    | Elem _ _ _ _ _ => apply listeners_Elem in H as [? [H|H]]; inv_listeners H
    | (if _ then _ else _) => apply listeners_if in H as [[? H]|[? H]]; inv_listeners H
    | node_map _ _ => apply listeners_node_map in H as (? & H & ->); inv_listeners H
    | _ => idtac
    end
  | _ ∈ flat_map listeners ?ks =>
    lazymatch ks with
    | [] => destruct (proj1 (flat_listeners_nil _) H)
    | _ :: _ => apply flat_listeners_cons in H as [H|H]; inv_listeners H
    | _ ++ _ => apply flat_listeners_app in H as [H|H]; inv_listeners H
    | map _ _ => apply flat_listeners_map in H as (? & ? & H); inv_listeners H
    | imap _ _ => apply flat_listeners_imap in H as (? & ? & ? & H); inv_listeners H
    | (if _ then _ else _) => apply flat_listeners_if in H as [[? H]|[? H]]; inv_listeners H
    | _ => idtac
    end
  | _ ∈ [] => destruct (proj1 (elem_of_nil _) H)
  | _ ∈ _ :: _ => apply elem_of_cons in H as [H|H]; inv_listeners H
  | _ => idtac
  end.
