(* ===== verification/Widgets.v ===== *)
(** * The shared components of the UI ([ui/src/components])

    Badge, Button, Card, EmptyState, FormField, Modal, HelpTooltip and
    ErrorBoundary, as functions to element trees; the stateful ones with their
    state and handlers. *)
From Stdlib Require Import Ascii ZArith Lia QArith Qminmax Lqa.
From stdpp Require Import base list strings pretty gmap sets relations sorting.
From S2P Require Import Prelude JsStd Jsx.
Local Open Scope Z_scope.

(** ** Badge.tsx *)
Module Badge.
Inductive Variant := Vpass | Vwarn | Vfail | Vinfo | Vneutral.

#[export] Instance Variant_eq_dec : EqDecision Variant.
Proof. solve_decision. Defined.

Definition styles (v : Variant) : style :=
  match v with
  | Vpass => [("background", Some "var(--success-muted)"); ("color", Some "var(--success)")]
  | Vwarn => [("background", Some "var(--warning-muted)"); ("color", Some "var(--warning)")]
  | Vfail => [("background", Some "var(--danger-muted)"); ("color", Some "var(--danger)")]
  | Vinfo => [("background", Some "var(--accent-muted)"); ("color", Some "var(--accent)")]
  | Vneutral => [("background", Some "var(--border)"); ("color", Some "var(--text-secondary)")]
  end.

Definition base : style :=
  [("display", Some "inline-flex"); ("alignItems", Some "center"); ("gap", Some "4");
   ("padding", Some "2px 8px"); ("borderRadius", Some "var(--radius-sm)");
   ("fontSize", Some "12"); ("fontWeight", Some "600"); ("lineHeight", Some "18px");
   ("whiteSpace", Some "nowrap")].

Definition Badge {A} (variant : Variant) (children : list (node A)) : node A :=
  el "span" (style_attrs (spread base (styles variant))) children.

Definition verdict_variant (v : string) : Variant :=
  if decide (v = "PASS") then Vpass
  else if decide (v = "WARN") then Vwarn
  else if decide (v = "FAIL") then Vfail
  else Vneutral.

Definition VerdictBadge {A} (verdict : string) : node A :=
  let v := toUpperCase verdict in Badge (verdict_variant v) [Text v].

Definition SeverityBadge {A} (severity : string) : node A :=
  Badge Vneutral [Text "severity: "; Text severity].
End Badge.

(** ** Button.tsx *)
Module Button.
Inductive Variant := Vprimary | Vsecondary | Vdanger | Vghost.
Inductive Size := Sm | Md | Lg.

Definition variantStyles (v : Variant) : style :=
  match v with
  | Vprimary =>
    [("background", Some "var(--accent)"); ("color", Some "#fff"); ("border", Some "none")]
  | Vsecondary =>
    [("background", Some "transparent"); ("color", Some "var(--text-secondary)");
     ("border", Some "1px solid var(--border)")]
  | Vdanger =>
    [("background", Some "var(--danger-muted)"); ("color", Some "var(--danger)");
     ("border", Some "1px solid rgba(239,68,68,0.2)")]
  | Vghost =>
    [("background", Some "transparent"); ("color", Some "var(--text-secondary)");
     ("border", Some "none")]
  end.

Definition sizeStyles (s : Size) : style :=
  match s with
  | Sm => [("padding", Some "5px 12px"); ("fontSize", Some "12");
           ("borderRadius", Some "var(--radius-sm)")]
  | Md => [("padding", Some "8px 16px"); ("fontSize", Some "13");
           ("borderRadius", Some "var(--radius-md)")]
  | Lg => [("padding", Some "10px 20px"); ("fontSize", Some "14");
           ("borderRadius", Some "var(--radius-md)")]
  end.

Definition base (disabled : bool) : style :=
  [("display", Some "inline-flex"); ("alignItems", Some "center"); ("gap", Some "6");
   ("fontWeight", Some "500");
   ("cursor", Some (if disabled then "not-allowed" else "pointer"));
   ("opacity", Some (if disabled then "0.5" else "1"));
   ("transition", Some "var(--transition-fast)")].

Definition button_style (variant : Variant) (size : Size) (disabled : bool) (s : style) : style :=
  spread (spread (spread (base disabled) (variantStyles variant)) (sizeStyles size)) s.

(** [onClick] is the only one of the forwarded props the program uses. *)
Definition Button {A} (variant : Variant) (size : Size) (icon : node A)
    (disabled : bool) (s : style) (onClick : A) (children : list (node A)) : node A :=
  Elem "button" (style_attrs (button_style variant size disabled s)) disabled
    [on "click" onClick] (icon :: children).
End Button.

(** ** Card.tsx *)
Module Card.
Definition base (isInteractive : bool) : style :=
  [("background", Some "var(--bg-card)"); ("border", Some "1px solid var(--border)");
   ("borderRadius", Some "var(--radius-lg)"); ("padding", Some "20");
   ("cursor", if isInteractive then Some "pointer" else None)].

Definition Card {A} (className : string) (onClick : option A) (hoverable : bool)
    (s : style) (children : list (node A)) : node A :=
  let isInteractive := match onClick with Some _ => true | None => hoverable end in
  Elem "div"
    (("className", (if isInteractive then "card-hoverable" else "") +:+ " " +:+ className)
     :: style_attrs (spread (base isInteractive) s))
    false
    (match onClick with Some a => [on "click" a] | None => [] end)
    children.

Definition StatCard {A} (value label : string) (color : option string) : node A :=
  Card "" None false [("textAlign", Some "center"); ("padding", Some "24px 16px")]
    [el "div" (style_attrs [("fontSize", Some "32"); ("fontWeight", Some "700");
                            ("color", Some (ostr_or color "var(--text-primary)"));
                            ("lineHeight", Some "1")]) [Text value];
     el "div" (style_attrs [("fontSize", Some "12"); ("color", Some "var(--text-tertiary)");
                            ("marginTop", Some "8"); ("textTransform", Some "uppercase");
                            ("letterSpacing", Some "0.05em"); ("fontWeight", Some "500")])
        [Text label]].
End Card.

(** ** EmptyState.tsx *)
Module EmptyState.
Definition EmptyState {A} (icon : option (node A)) (title : string)
    (description : option string) (action : option (node A)) : node A :=
  el "div" []
    [match icon with Some i => el "div" [] [i] | None => Null end;
     el "div" [] [Text title];
     when (otruthy description) (el "div" [] [Text (ostr_or description "")]);
     match action with Some a => el "div" [] [a] | None => Null end].

Definition Spinner {A} (size : Z) : node A :=
  el "div" (style_attrs [("width", Some (show_Z size)); ("height", Some (show_Z size));
                         ("border", Some "2px solid var(--border)");
                         ("borderTopColor", Some "var(--accent)");
                         ("borderRadius", Some "50%");
                         ("animation", Some "spin 0.6s linear infinite")]) [].

Definition LoadingState {A} : node A :=
  el "div" (style_attrs [("display", Some "flex"); ("justifyContent", Some "center");
                         ("padding", Some "64")]) [Spinner 28].
End EmptyState.

(** ** FormField.tsx *)
Module FormField.
Definition labelStyle : style :=
  [("display", Some "block"); ("fontSize", Some "12"); ("fontWeight", Some "500");
   ("color", Some "var(--text-tertiary)"); ("marginBottom", Some "6");
   ("textTransform", Some "uppercase"); ("letterSpacing", Some "0.04em")].

Definition FormField {A} (label : list (node A)) (s : style) (children : list (node A)) : node A :=
  el "div" (style_attrs (spread [("marginBottom", Some "16")] s))
    (el "label" (style_attrs labelStyle) label :: children).

(** The field components forward their props to the element; the props the
    program passes are the value, the placeholder, whether the field is
    disabled, and what a change does. *)
Definition Input {A} (value placeholder : string) (disabled : bool)
    (onChange : string → A) : node A :=
  Elem "input" [("value", value); ("placeholder", placeholder); ("className", "dtm-input ")]
    disabled [on_value "change" onChange] [].

Definition TextArea {A} (value placeholder : string) (onChange : string → A) : node A :=
  Elem "textarea"
    [("value", value); ("placeholder", placeholder); ("className", "dtm-input dtm-textarea ")]
    false [on_value "change" onChange] [].

Definition option_el {A} (vl : string * string) : node A :=
  el "option" [("value", vl.1)] [Text vl.2].

Definition Select {A} (value : string) (options : list (string * string))
    (onChange : string → A) : node A :=
  Elem "select" [("value", value); ("className", "dtm-input dtm-select ")] false
    [on_value "change" onChange] (map option_el options).
End FormField.

(** ** Modal.tsx *)
Module Modal.
(** The backdrop closes the dialog on click; the panel inside stops the
    propagation, so clicks on the content do not reach the backdrop. *)
Definition Modal {A} (open : bool) (onClose : A) (title : string) (width : Z)
    (children : list (node A)) : node A :=
  if negb open then Null
  else
    Elem "div" [("role", "dialog"); ("aria-modal", "true"); ("aria-label", title)] false
      [on "click" onClose]
      [Elem "div" [("style:width", show_Z width)] false
         [On "click" true (λ _, None)]
         [el "div" []
            [el "h3" [] [Text title];
             Elem "button" [("aria-label", "Close dialog")] false
               [on "click" onClose] [el "svg" [("icon", "IconX")] []]];
          el "div" [] children]].

(** The window listener the effect keeps while the dialog is open. *)
Definition on_keydown {A} (open : bool) (onClose : A) (key : string) : option A :=
  if negb open then None
  else if decide (key = "Escape") then Some onClose else None.
End Modal.

(** ** ErrorBoundary.tsx *)
Module ErrorBoundary.
Record State := { hasError : bool; error : option string }.

Definition initial : State := {| hasError := false; error := None |}.

Definition getDerivedStateFromError (message : string) : State :=
  {| hasError := true; error := Some message |}.

(** The boundary's own action, next to those of its children. *)
Inductive Action (A : Type) := TryAgain | Child (a : A).
Arguments TryAgain {A}.
Arguments Child {A}.

Definition try_again (s : State) : State := initial.

Definition render {A} (s : State) (children : node A) : node (Action A) :=
  if s.(hasError) then
    el "div" []
      [el "div" [] [Text "Something went wrong"];
       el "div" [] [Text (ostr_or s.(error) "An unexpected error occurred.")];
       Elem "button" [] false [on "click" TryAgain] [Text "Try Again"]]
  else node_map Child children.
End ErrorBoundary.

(** ** HelpTooltip.tsx

    Lengths are CSS pixels; the layout works in multiples of 1/64 of a pixel,
    on which the additions, comparisons and the halving below are exact. *)
Module HelpTooltip.
Record rect := { r_top : Q; r_bottom : Q; r_left : Q; r_width : Q }.

Record point := { top : Q; left : Q }.

Record State := { show : bool; pos : option point }.

Definition initial : State := {| show := false; pos := None |}.

Definition Qlt_bool (a b : Q) : bool := negb (Qle_bool b a).

Definition tooltipHeight : Q := 80.

(** [updatePos]: [ref] is the icon's bounding rectangle, [None] before the
    element is mounted. *)
Definition updatePos (ref : option rect) (s : State) : State :=
  match ref with
  | None => s
  | Some r =>
    let spaceAbove := r.(r_top) in
    {| show := s.(show);
       pos := Some
         (if Qlt_bool spaceAbove tooltipHeight
          then {| top := r.(r_bottom) + 6; left := r.(r_left) + r.(r_width) / 2 |}%Q
          else {| top := r.(r_top) - 6; left := r.(r_left) + r.(r_width) / 2 |}%Q) |}
  end.

Definition setShow (b : bool) (s : State) : State := {| show := b; pos := s.(pos) |}.

Definition handleShow (ref : option rect) (s : State) : State :=
  setShow true (updatePos ref s).

Inductive Action := MouseEnter | MouseLeave | Click.

Definition update (ref : option rect) (a : Action) (s : State) : State :=
  match a with
  | MouseEnter => handleShow ref s
  | MouseLeave => setShow false s
  | Click => if s.(show) then setShow false s else handleShow ref s
  end.

(** The document listener the effect keeps while the tooltip is shown;
    [inside] tells whether the icon contains the event's target. *)
Definition on_mousedown (ref : option rect) (inside : bool) (s : State) : State :=
  if negb s.(show) then s
  else match ref with
       | Some _ => if inside then s else setShow false s
       | None => s
       end.

(** The computed part of the pop-up's style. *)
Record popup := { p_top : option Q; p_bottom : option Q; p_left : Q }.

Definition popup_style (ref : option rect) (innerWidth innerHeight : Q) (s : State) : option popup :=
  match s.(show), s.(pos) with
  | true, Some p =>
    let ref_top := match ref with Some r => r.(r_top) | None => 0%Q end in
    Some {| p_top := if Qlt_bool p.(top) ref_top then Some p.(top) else None;
            p_bottom := if Qlt_bool p.(top) ref_top then None
                        else Some (innerHeight - p.(top))%Q;
            p_left := Qmin (Qmax p.(left) 170) (innerWidth - 170) |}
  | _, _ => None
  end.

Definition render (ref : option rect) (innerWidth innerHeight : Q) (text : string) (size : Z)
    (s : State) : node Action :=
  Elem "span" [] false
    [on "mouseenter" MouseEnter; on "mouseleave" MouseLeave; On "click" true (λ _, Some Click)]
    [el "svg" [("icon", "IconHelp"); ("width", show_Z size); ("height", show_Z size)] [];
     match popup_style ref innerWidth innerHeight s with
     | Some _ => el "span" [] [Text text]
     | None => Null
     end].

(** A tooltip inside a page: its clicks do not reach the elements around it;
    whether it is shown is its own state and changes nothing else. *)
Definition tip {A} (text : string) : node A :=
  Elem "span" [("title", text)] false [On "click" true (λ _, None)]
    [el "svg" [("icon", "IconHelp")] []].

(** Where a fixed-position box of height [h] stands in the window: its upper
    and lower edge. *)
Definition box_edges (innerHeight h : Q) (p : popup) : Q * Q :=
  match p.(p_top), p.(p_bottom) with
  | Some t, _ => (t, t + h)%Q
  | None, Some b => (innerHeight - b - h, innerHeight - b)%Q
  | None, None => (0, h)%Q
  end.
End HelpTooltip.

(** ** Automation *)

(** [inv_listeners] through the components of this file. *)
Ltac inv_ui H :=
  inv_listeners H;
  try lazymatch type of H with
  | _ ∈ listeners (Badge.Badge _ _) => unfold Badge.Badge in H; inv_ui H
  | _ ∈ listeners (Badge.SeverityBadge _) => unfold Badge.SeverityBadge in H; inv_ui H
  | _ ∈ listeners (Badge.VerdictBadge _) =>
    unfold Badge.VerdictBadge in H; cbv zeta in H; inv_ui H
  | _ ∈ listeners (Button.Button _ _ _ _ _ _ _) => unfold Button.Button in H; inv_ui H
  | _ ∈ listeners (Card.Card _ _ _ _ _) =>
    unfold Card.Card in H; cbv beta iota zeta in H; inv_ui H
  | _ ∈ listeners (Card.StatCard _ _ _) => unfold Card.StatCard in H; inv_ui H
  | _ ∈ listeners (EmptyState.EmptyState _ _ _ _) =>
    unfold EmptyState.EmptyState in H; cbv beta iota in H; inv_ui H
  | _ ∈ listeners EmptyState.LoadingState =>
    unfold EmptyState.LoadingState, EmptyState.Spinner in H; inv_ui H
  | _ ∈ listeners (FormField.FormField _ _ _) => unfold FormField.FormField in H; inv_ui H
  | _ ∈ listeners (FormField.Input _ _ _ _) => unfold FormField.Input in H; inv_ui H
  | _ ∈ listeners (FormField.TextArea _ _ _) => unfold FormField.TextArea in H; inv_ui H
  | _ ∈ listeners (FormField.Select _ _ _) => unfold FormField.Select in H; inv_ui H
  | _ ∈ listeners (FormField.option_el _) => unfold FormField.option_el in H; inv_ui H
  | _ ∈ listeners (HelpTooltip.tip _) => unfold HelpTooltip.tip in H; inv_ui H
  end.

(** ** Theorems *)

(** A click on the content of an open dialog runs what the content does
    with it and nothing else, and does not leave the dialog; a click on the
    panel does nothing; a click on the backdrop closes, and so does Escape;
    a closed dialog reacts to nothing. *)
Theorem modal_clicks {A} (onClose : A) title width children i c path d :
  children !! i = Some c →
  dispatch (0 :: 1 :: i :: path)%nat (Modal.Modal true onClose title width children) "click" d =
    ((dispatch path c "click" d).1, false) ∧
  dispatch [0]%nat (Modal.Modal true onClose title width children) "click" d = ([], false) ∧
  dispatch [] (Modal.Modal true onClose title width children) "click" d = ([onClose], true) ∧
  (∀ key, Modal.on_keydown true onClose key = Some onClose ↔ key = "Escape") ∧
  (∀ p e, (dispatch p (Modal.Modal false onClose title width children) e d).1 = []) ∧
  (∀ key, Modal.on_keydown false onClose key = None).
Proof.
  intros Hc. split_and!; [|done..|intros key|by intros []|done].
  - cbn. rewrite Hc. destruct (dispatch path c "click" d) as [acts []]; cbn; [|done].
    by rewrite !app_nil_r.
  - unfold Modal.on_keydown; cbn. by case_decide.
Qed.

Lemma Qlt_bool_spec a b : HelpTooltip.Qlt_bool a b = true ↔ (a < b)%Q.
Proof.
  unfold HelpTooltip.Qlt_bool. rewrite negb_true_iff, <-not_true_iff_false, Qle_bool_iff. lra.
Qed.

(** C39: the tooltip is drawn at the height of the icon it explains: whatever the
    place of the icon in the window, a tooltip higher than six pixels shares a
    horizontal strip with it.  Near the top of the window, where it is meant to
    open below the icon, it grows upwards from six pixels below it; elsewhere,
    where it is meant to stand above, it grows downwards from six pixels above.
    It then covers the middle of the icon, on which it is centred, unless the
    icon is closer than 170 pixels to a side and the tooltip is moved inwards. *)
Theorem tooltip_covers_icon r iw ih w h s p :
  (r.(HelpTooltip.r_top) < r.(HelpTooltip.r_bottom))%Q → (6 < h)%Q → (0 < w)%Q →
  HelpTooltip.popup_style (Some r) iw ih (HelpTooltip.update (Some r) HelpTooltip.MouseEnter s) = Some p →
  let middle := (r.(HelpTooltip.r_left) + r.(HelpTooltip.r_width) / 2)%Q in
  ((HelpTooltip.box_edges ih h p).1 < r.(HelpTooltip.r_bottom))%Q ∧
  (r.(HelpTooltip.r_top) < (HelpTooltip.box_edges ih h p).2)%Q ∧
  ((170 <= middle)%Q → (middle <= iw - 170)%Q →
   (p.(HelpTooltip.p_left) == middle)%Q ∧
   (p.(HelpTooltip.p_left) - w / 2 < middle)%Q ∧ (middle < p.(HelpTooltip.p_left) + w / 2)%Q).
Proof.
  intros Hr Hh Hw Hp middle.
  assert (∃ q, HelpTooltip.p_left p = Qmin (Qmax middle 170) (iw - 170) ∧ q = p) as (? & Hleft & _).
  { exists p. split; [|done]. revert Hp.
    unfold HelpTooltip.update, HelpTooltip.handleShow, HelpTooltip.updatePos,
      HelpTooltip.popup_style. cbn.
    by destruct (HelpTooltip.Qlt_bool _ HelpTooltip.tooltipHeight); cbn; intros [= <-]. }
  assert (∀ P Q R, P ∧ Q → R → P ∧ Q ∧ R) as Hand by tauto. apply Hand; clear Hand.
  - revert Hp. unfold HelpTooltip.update, HelpTooltip.handleShow, HelpTooltip.updatePos,
      HelpTooltip.popup_style. cbn.
    destruct (HelpTooltip.Qlt_bool _ HelpTooltip.tooltipHeight); cbn; intros [= <-];
      [destruct (HelpTooltip.Qlt_bool (_ + 6) _) eqn:Hlt
      |destruct (HelpTooltip.Qlt_bool (_ - 6) _) eqn:Hlt];
      cbn; rewrite ?Qlt_bool_spec, <-?not_true_iff_false, ?Qlt_bool_spec in Hlt; lra.
  - intros H1 H2. rewrite Hleft.
    assert (Qmin (Qmax middle 170) (iw - 170) == middle)%Q as Heq
      by (rewrite Q.max_l, Q.min_l; [reflexivity|rewrite ?Q.max_l; done|done]).
    rewrite Heq. assert (0 < w / 2)%Q by (apply Qlt_shift_div_l; lra).
    split; [reflexivity|]. split; lra.
Qed.

(** Sideways the tooltip stays in the window: in a window of at least 340
    pixels, a tooltip of at most its maximal width of 320 pixels, centred on
    its [left], keeps ten pixels of distance to both sides. *)
Theorem tooltip_within_window ref iw ih w s p :
  (340 <= iw)%Q → (w <= 320)%Q → HelpTooltip.popup_style ref iw ih s = Some p →
  (10 <= p.(HelpTooltip.p_left) - w / 2)%Q ∧ (p.(HelpTooltip.p_left) + w / 2 <= iw - 10)%Q.
Proof.
  intros Hiw Hw. unfold HelpTooltip.popup_style.
  destruct (HelpTooltip.show s), (HelpTooltip.pos s) as [q|]; try done. intros [= <-].
  cbn [HelpTooltip.p_left].
  assert (w / 2 <= 160)%Q by (apply Qle_shift_div_r; lra).
  pose proof (Q.le_max_r (HelpTooltip.left q) 170).
  pose proof (Q.le_min_r (Qmax (HelpTooltip.left q) 170) (iw - 170)).
  assert (170 <= Qmin (Qmax (HelpTooltip.left q) 170) (iw - 170))%Q
    by (apply Q.min_glb; lra).
  split; lra.
Qed.

(** ** Witnesses *)

Lemma modal_clicks_witness :
  dispatch (0 :: 1 :: 0 :: [])%nat
    (Modal.Modal true "close" "Delete" 480 [Elem "button" [] false [on "click" "delete"] []])
    "click" "" = (["delete"], false).
Proof.
  exact (proj1 (modal_clicks "close" "Delete" 480
    [Elem "button" [] false [on "click" "delete"] []] 0 _ [] "" eq_refl)).
Defined.

(** An icon of 14 pixels, 300 pixels below the top of the window. *)
Definition icon : HelpTooltip.rect :=
  {| HelpTooltip.r_top := 300; HelpTooltip.r_bottom := 314; HelpTooltip.r_left := 500;
     HelpTooltip.r_width := 14 |}.

Lemma tooltip_covers_icon_witness : (294 < 314)%Q ∧ (300 < 294 + 40)%Q ∧
  ((170 <= 500 + 14 / 2)%Q → (500 + 14 / 2 <= 1200 - 170)%Q →
   (Qmin (Qmax (500 + 14 / 2) 170) (1200 - 170) == 500 + 14 / 2)%Q ∧
   (Qmin (Qmax (500 + 14 / 2) 170) (1200 - 170) - 200 / 2 < 500 + 14 / 2)%Q ∧
   (500 + 14 / 2 < Qmin (Qmax (500 + 14 / 2) 170) (1200 - 170) + 200 / 2)%Q).
Proof.
  exact (tooltip_covers_icon icon 1200 800 200 40 HelpTooltip.initial
    {| HelpTooltip.p_top := Some (300 - 6)%Q; HelpTooltip.p_bottom := None;
       HelpTooltip.p_left := Qmin (Qmax (500 + 14 / 2) 170) (1200 - 170) |}
    ltac:(reflexivity) ltac:(reflexivity) ltac:(reflexivity) ltac:(reflexivity)).
Defined.

Lemma tooltip_within_window_witness :
  (10 <= (1014 # 2) - 300 / 2)%Q ∧ ((1014 # 2) + 300 / 2 <= 1200 - 10)%Q.
Proof.
  exact (tooltip_within_window (Some icon) 1200 800 300
    (HelpTooltip.handleShow (Some icon) HelpTooltip.initial)
    {| HelpTooltip.p_top := Some (300 - 6)%Q; HelpTooltip.p_bottom := None;
       HelpTooltip.p_left := 1014 # 2 |}
    ltac:(discriminate) ltac:(discriminate) ltac:(reflexivity)).
Defined.
