(* ===== verification/Format.v ===== *)
(** * Relative times and durations ([ui/src/utils/format.ts]) *)
From Stdlib Require Import Ascii ZArith Lia.
From stdpp Require Import base list strings pretty gmap sets relations sorting.
From S2P Require Import Prelude JsStd.
Local Open Scope Z_scope.

(** [now] is [Date.now()]. *)
Definition timeAgo (now : Z) (dateStr : string) : string :=
  let diff := num_sub (Some now) (getTime dateStr) in
  let mins := num_floor_div diff 60000 in
  if num_lt mins (Some 1) then "just now"
  else if num_lt mins (Some 60) then show_num mins +:+ "m ago"
  else
    let hrs := num_floor_div mins 60 in
    if num_lt hrs (Some 24) then show_num hrs +:+ "h ago"
    else show_num (num_floor_div hrs 24) +:+ "d ago".

Definition formatDuration (ms : num) : string :=
  let secs := num_floor_div ms 1000 in
  if num_lt secs (Some 60) then show_num secs +:+ "s"
  else
    let mins := num_floor_div secs 60 in
    let remainSecs := num_rem secs 60 in
    show_num mins +:+ "m " +:+ show_num remainSecs +:+ "s".

(** ** Properties *)

(** C40: for a valid timestamp the label is the age rounded down to the largest
    unit it fills - minutes below an hour, hours below a day, days from then
    on -, an age under a minute and a future timestamp read "just now", and a
    text that is no timestamp reads "NaNd ago". *)
Theorem timeAgo_spec now s :
  timeAgo now s =
    match getTime s with
    | None => "NaNd ago"
    | Some t =>
      let age := now - t in
      if age <? 60000 then "just now"
      else if age <? 3600000 then show_Z (age / 60000) +:+ "m ago"
      else if age <? 86400000 then show_Z (age / 3600000) +:+ "h ago"
      else show_Z (age / 86400000) +:+ "d ago"
    end.
Proof.
  unfold timeAgo. destruct (getTime s) as [t|]; [|done].
  cbn -[Z.div Z.ltb show_Z]. unfold num_lt. by rewrite !Z.div_div, !div_ltb by lia.
Qed.

Lemma formatDuration_nonneg ms :
  0 <= ms →
  formatDuration (Some ms) =
    let secs := ms / 1000 in
    if secs <? 60 then show_Z secs +:+ "s"
    else show_Z (secs / 60) +:+ "m " +:+ show_Z (secs mod 60) +:+ "s".
Proof.
  intros Hms. unfold formatDuration. cbn -[Z.div Z.rem Z.modulo Z.ltb show_Z]. unfold num_lt.
  destruct (_ <? _); [done|]. rewrite Z.rem_mod_nonneg; [done| |lia].
  apply Z.div_pos; lia.
Qed.

(** On durations the compact form loses nothing but the milliseconds: two
    durations read the same only if they have the same number of seconds. *)
Theorem formatDuration_inj a b :
  0 <= a → 0 <= b →
  formatDuration (Some a) = formatDuration (Some b) → a / 1000 = b / 1000.
Proof.
  intros Ha Hb. rewrite !formatDuration_nonneg by done. cbv zeta.
  pose proof (Z.div_pos a 1000 Ha ltac:(lia)). pose proof (Z.div_pos b 1000 Hb ltac:(lia)).
  set (m := a / 1000) in *. set (n := b / 1000) in *. clearbody m n. unfold show_Z.
  destruct (Z.ltb_spec m 60), (Z.ltb_spec n 60).
  - by intros [-> _]%numeral_inj.
  - intros [_ [[=] _]]%numeral_inj; [done..|apply Z.div_pos; lia|done|done].
  - intros [_ [[=] _]]%numeral_inj; [done..|apply Z.div_pos; lia|done|done|done].
  - intros [Hdiv [_ Hmod]]%numeral_inj; [|apply Z.div_pos; lia..|done|done].
    injection Hmod as Hmod. apply numeral_inj in Hmod as [Hmod _]; [|apply Z.mod_pos_bound; lia..|done|done].
    rewrite (Z.div_mod m 60), (Z.div_mod n 60) by lia. congruence.
Qed.

(** ** Witnesses *)

Lemma formatDuration_inj_witness :
  formatDuration (Some 135200) = "2m 15s" ∧ 135200 / 1000 = 135999 / 1000.
Proof.
  split; [vm_compute; reflexivity|].
  apply (formatDuration_inj 135200 135999); [lia|lia|vm_compute; reflexivity].
Defined.
