(* ===== verification/Client.v ===== *)
(** * The API client ([ui/src/api/client.ts])

    The wire types, the request function with its token and redirect handling,
    and one [ApiCall] per entry of the [api] object.  The network is the
    parameter [fetch] of [request]; the browser is the local storage and the
    last address assigned to [window.location.href]. *)
From Stdlib Require Import Ascii ZArith Lia.
From stdpp Require Import base list strings pretty gmap sets relations sorting.
From S2P Require Import Prelude JsStd.
Local Open Scope Z_scope.

(** ** Wire types *)

Record CheckItem := { ci_id : string; ci_description : string; ci_severity : string }.

Record ScheduleConfig := { fullScan : string; failedRescan : option string }.

Record SecretRef := { sr_name : string; sr_key : option string }.

Record LLMConfig := { provider : string; model : option string; secretRef : SecretRef }.

Record Metadata := { name : string; namespace : string; creationTimestamp : string }.

Record PolicySpec := {
  schedule : ScheduleConfig;
  llm : LLMConfig;
  checks : list CheckItem;
  targetNamespaces : option (list string);
  notification : option json;
  escalationThreshold : option Z
}.

Record Summary := { total : Z; pass : Z; warn : Z; fail : Z }.

Record Condition := {
  c_type : string; c_status : string; c_reason : string; c_message : string;
  c_lastTransitionTime : option string
}.

Record PolicyStatus := {
  lastFullScanTime : option string;
  lastRescanTime : option string;
  lastResultName : option string;
  p_summary : option Summary;
  conditions : option (list Condition)
}.

Record ChecklistPolicy := {
  p_metadata : Metadata;
  p_spec : PolicySpec;
  p_status : option PolicyStatus
}.

Record ToolCall := { toolName : string; input : json; output : string }.

Record CheckResult := {
  cr_id : string; cr_description : string; verdict : string; reasoning : string;
  cr_severity : option string; failedSince : option string;
  toolCalls : option (list ToolCall)
}.

Record ResultSpec := {
  policyRef : string; scanType : string; startedAt : string; completedAt : option string;
  r_checks : option (list CheckResult);
  r_summary : option Summary
}.

Record ChecklistResult := {
  r_metadata : Metadata;
  r_spec : ResultSpec;
  phase : option string
}.

Record ClusterResource := { cl_kind : string; cl_name : string; cl_ready : string }.

#[export] Instance CheckItem_eq_dec : EqDecision CheckItem.
Proof. solve_decision. Defined.
#[export] Instance Summary_eq_dec : EqDecision Summary.
Proof. solve_decision. Defined.
#[export] Instance Condition_eq_dec : EqDecision Condition.
Proof. solve_decision. Defined.

(** ** The objects as [JSON.stringify] writes them *)

Definition json_ostr (s : option string) : option json := JStr <$> s.

Definition json_check (c : CheckItem) : json :=
  JObj [("id", JStr c.(ci_id)); ("description", JStr c.(ci_description));
        ("severity", JStr c.(ci_severity))].

Definition json_schedule (s : ScheduleConfig) : json :=
  JObj (json_fields [("fullScan", Some (JStr s.(fullScan)));
                     ("failedRescan", json_ostr s.(failedRescan))]).

Definition json_secretRef (r : SecretRef) : json :=
  JObj (json_fields [("name", Some (JStr r.(sr_name))); ("key", json_ostr r.(sr_key))]).

Definition json_llm (l : LLMConfig) : json :=
  JObj (json_fields [("provider", Some (JStr l.(provider))); ("model", json_ostr l.(model));
                     ("secretRef", Some (json_secretRef l.(secretRef)))]).

Definition json_spec (s : PolicySpec) : json :=
  JObj (json_fields
    [("schedule", Some (json_schedule s.(schedule)));
     ("llm", Some (json_llm s.(llm)));
     ("checks", Some (JArr (map json_check s.(checks))));
     ("targetNamespaces", (λ l, JArr (map JStr l)) <$> s.(targetNamespaces));
     ("notification", s.(notification));
     ("escalationThreshold", JNum <$> s.(escalationThreshold))]).

(** ** Results of asynchronous calls *)

Inductive result (A : Type) := Ok (a : A) | Throw (message : string).
Arguments Ok {A}.
Arguments Throw {A}.

(** ** The browser *)

Record Browser := { localStorage : gmap string string; href : option string }.

Definition TOKEN_KEY : string := "dtm_token".

Definition getToken (b : Browser) : option string := b.(localStorage) !! TOKEN_KEY.

Definition isAuthenticated (b : Browser) : bool :=
  match getToken b with Some _ => true | None => false end.

Definition setToken (token : string) (b : Browser) : Browser :=
  {| localStorage := <[TOKEN_KEY := token]> b.(localStorage); href := b.(href) |}.

Definition logout (b : Browser) : Browser :=
  {| localStorage := delete TOKEN_KEY b.(localStorage); href := Some "/login" |}.

(** ** Requests *)

Record HttpRequest := {
  url : string; method : string; headers : list (string * string); body : option json
}.

(** [payload] is what [resp.json()] settles with. *)
Record HttpResponse := { status : Z; statusText : string; payload : result json }.

Definition resp_ok (r : HttpResponse) : bool := (200 <=? r.(status)) && (r.(status) <=? 299).

(** The second argument of [request]. *)
Record RequestInit := { opt_method : option string; opt_body : option json }.

Definition no_options : RequestInit := {| opt_method := None; opt_body := None |}.

(** A call of the [api] object: the path and the options. *)
Abbreviation ApiCall := (string * RequestInit)%type.

(** [err.error || resp.statusText] on a parsed error body; reading a property
    of [null] throws. *)
Definition error_message (err : json) (statusText : string) : string :=
  match err with
  | JNull => "Cannot read properties of null (reading 'error')"
  | JObj l =>
    match obj_get "error" l with
    | Some v => if json_truthy v then js_String v else statusText
    | None => statusText
    end
  | _ => statusText
  end.

Section request.
(** [import.meta.env.VITE_API_BASE] and the network. *)
Context (VITE_API_BASE : option string).
Context (fetch : HttpRequest → result HttpResponse).

Definition API_BASE : string := ostr_or VITE_API_BASE "/api/v1".

Definition build_request (call : ApiCall) (b : Browser) : HttpRequest :=
  let headers :=
    ("Content-Type", "application/json") ::
    match getToken b with
    | Some token => if truthy token then [("Authorization", "Bearer " +:+ token)] else []
    | None => []
    end in
  {| url := API_BASE +:+ call.1;
     method := match call.2.(opt_method) with Some m => m | None => "GET" end;
     headers := headers;
     body := call.2.(opt_body) |}.

(** A 401 on any other path means the session is over. *)
Definition session_path (path : string) : bool :=
  negb (startsWith "/login" path) && negb (startsWith "/auth/" path).

Definition request (call : ApiCall) (b : Browser) : Browser * result json :=
  match fetch (build_request call b) with
  | Throw message => (b, Throw message)
  | Ok resp =>
    if (resp.(status) =? 401) && session_path call.1 then
      ({| localStorage := delete TOKEN_KEY b.(localStorage); href := Some "/login" |},
       Throw "unauthorized")
    else if negb (resp_ok resp) then
      let err := match resp.(payload) with
                 | Ok err => err
                 | Throw _ => JObj [("error", JStr resp.(statusText))]
                 end in
      (b, Throw (error_message err resp.(statusText)))
    else
      (b, resp.(payload))
  end.
End request.

(** ** Query strings *)

Definition hex_digit (n : N) : ascii :=
  ascii_of_N (if (n <? 10)%N then 48 + n else 55 + n)%N.

Definition percent (c : ascii) : string :=
  let n := N_of_ascii c in
  String "%" (String (hex_digit (n / 16)) (String (hex_digit (n mod 16)) "")).

(** The bytes the form encoding leaves alone: letters, digits and [*-._]. *)
Definition form_safe (c : ascii) : bool :=
  let n := N_of_ascii c in
  ((48 <=? n) && (n <=? 57) || (65 <=? n) && (n <=? 90) || (97 <=? n) && (n <=? 122)
   || (n =? 42) || (n =? 45) || (n =? 46) || (n =? 95))%N.

Definition form_encode_char (c : ascii) : string :=
  if decide (c = " "%char) then "+" else if form_safe c then String c "" else percent c.

Fixpoint form_encode (s : string) : string :=
  match s with
  | EmptyString => EmptyString
  | String c s => form_encode_char c +:+ form_encode s
  end.

(** [URLSearchParams]: [set] and [toString]. *)
Definition params_set (k v : string) (l : list (string * string)) : list (string * string) :=
  if decide (k ∈ l.*1)
  then map (λ kv, if decide (kv.1 = k) then (k, v) else kv) l
  else l ++ [(k, v)].

Definition params_toString (l : list (string * string)) : string :=
  js_join "&" (map (λ kv, form_encode kv.1 +:+ "=" +:+ form_encode kv.2) l).

(** ** The [api] object *)

Definition get (path : string) : ApiCall := (path, no_options).
Definition send (m : string) (path : string) (b : option json) : ApiCall :=
  (path, {| opt_method := Some m; opt_body := b |}).

Module api.
Definition login (username password : string) : ApiCall :=
  send "POST" "/login"
    (Some (JObj [("username", JStr username); ("password", JStr password)])).

Definition authCheck : ApiCall := get "/auth/check".

Definition getInfo : ApiCall := get "/info".

Definition listNamespaces : ApiCall := get "/cluster/namespaces".

Definition listResources (ns : option string) : ApiCall :=
  get ("/cluster/resources" +:+ (if otruthy ns then "?ns=" +:+ ostr_or ns "" else "")).

Definition listPolicies (namespace : option string) : ApiCall :=
  get ("/policies" +:+
       (if otruthy namespace then "?namespace=" +:+ ostr_or namespace "" else "")).

Definition getPolicy (namespace name : string) : ApiCall :=
  get ("/policies/" +:+ namespace +:+ "/" +:+ name).

Definition createPolicy (policy : json) : ApiCall := send "POST" "/policies" (Some policy).

Definition updatePolicy (namespace name : string) (spec : json) : ApiCall :=
  send "PUT" ("/policies/" +:+ namespace +:+ "/" +:+ name) (Some spec).

Definition deletePolicy (namespace name : string) : ApiCall :=
  send "DELETE" ("/policies/" +:+ namespace +:+ "/" +:+ name) None.

Definition listResults (namespace policy : option string) : ApiCall :=
  let params := [] in
  let params := if otruthy namespace then params_set "namespace" (ostr_or namespace "") params
                else params in
  let params := if otruthy policy then params_set "policy" (ostr_or policy "") params
                else params in
  let qs := params_toString params in
  get ("/results" +:+ (if truthy qs then "?" +:+ qs else "")).

Definition getResult (namespace name : string) : ApiCall :=
  get ("/results/" +:+ namespace +:+ "/" +:+ name).

Definition runNow (namespace name : string) : ApiCall :=
  send "POST" ("/run/" +:+ namespace +:+ "/" +:+ name) None.

Definition getSettings : ApiCall := get "/settings".

Definition updateSettings (settings : json) : ApiCall :=
  send "PUT" "/settings" (Some settings).
End api.

(** ** The query string as the server reads it

    [r.URL.Query().Get(k)] of the list handlers: the part after the first [?],
    split at [&], each piece cut at its first [=] and unescaped; the value of
    the first piece with key [k], or the empty string. *)

Definition unhex (c : ascii) : option N :=
  let n := N_of_ascii c in
  if ((48 <=? n) && (n <=? 57))%N then Some (n - 48)%N
  else if ((65 <=? n) && (n <=? 70))%N then Some (n - 55)%N
  else if ((97 <=? n) && (n <=? 102))%N then Some (n - 87)%N
  else None.

(** [url.QueryUnescape]. *)
Fixpoint query_unescape (s : string) : option string :=
  match s with
  | EmptyString => Some EmptyString
  | String "%" s =>
    match s with
    | String a (String b s) =>
      x ← unhex a; y ← unhex b; t ← query_unescape s;
      Some (String (ascii_of_N (16 * x + y)) t)
    | _ => None
    end
  | String "+" s => t ← query_unescape s; Some (String " " t)
  | String c s => t ← query_unescape s; Some (String c t)
  end.

(** [strings.Cut] at a character. *)
Fixpoint cut (c : ascii) (s : string) : string * string :=
  match s with
  | EmptyString => (EmptyString, EmptyString)
  | String d s =>
    if decide (c = d) then (EmptyString, s) else let '(a, b) := cut c s in (String d a, b)
  end.

Fixpoint split_on (c : ascii) (s : string) : list string :=
  match s with
  | EmptyString => [EmptyString]
  | String d s =>
    if decide (c = d) then EmptyString :: split_on c s
    else match split_on c s with
         | [] => [String d EmptyString]
         | x :: l => String d x :: l
         end
  end.

(** A piece that is empty, holds a semicolon or does not unescape is dropped. *)
Definition query_piece (piece : string) : option (string * string) :=
  if includes ";" piece then None
  else if negb (truthy piece) then None
  else let '(k, v) := cut "=" piece in
       k ← query_unescape k; v ← query_unescape v; Some (k, v).

Definition parse_query (qs : string) : list (string * string) :=
  omap query_piece (split_on "&" qs).

Definition query_get (k : string) (path : string) : string :=
  match list_find (λ kv, kv.1 = k) (parse_query (cut "?" path).2) with
  | Some (_, kv) => kv.2
  | None => ""
  end.

(** ** Lemmas on the encoding *)

Lemma query_unescape_char c t :
  query_unescape (form_encode_char c +:+ t) = String c <$> query_unescape t.
Proof.
  destruct c as [[][][][][][][][]];
    match goal with |- context [form_encode_char ?c] =>
      let x := eval vm_compute in (form_encode_char c) in change (form_encode_char c) with x
    end; rewrite !string_app_cons; change ("" +:+ t) with t;
    cbn -[ascii_of_N]; destruct (query_unescape t); reflexivity.
Qed.

Lemma query_unescape_encode s : query_unescape (form_encode s) = Some s.
Proof.
  induction s as [|c s IH]; [done|]. cbn [form_encode].
  by rewrite query_unescape_char, IH.
Qed.

(** Characters that delimit a query. *)
Definition query_plain (c : ascii) : bool :=
  negb (bool_decide (c ∈ ["&"; "="; ";"; "?"]%char)).

Lemma form_encode_plain s : string_forallb query_plain (form_encode s) = true.
Proof.
  induction s as [|c s IH]; [done|]. cbn [form_encode].
  rewrite string_forallb_app, IH, andb_true_r.
  destruct c as [[][][][][][][][]]; reflexivity.
Qed.

Lemma includes_absent p (c : ascii) s :
  p c = false → string_forallb p s = true → includes (String c "") s = false.
Proof.
  intros Hc. induction s as [|d s IH]; cbn; [done|].
  rewrite andb_true_iff. intros [Hd Hs]. rewrite IH by done.
  rewrite bool_decide_eq_false_2 by congruence. done.
Qed.

Lemma cut_app p (c : ascii) a b :
  p c = false → string_forallb p a = true → cut c (a +:+ String c b) = (a, b).
Proof.
  intros Hc. induction a as [|d a IH]; rewrite ?string_app_cons; cbn.
  - intros _. change ("" +:+ String c b) with (String c b). cbn. by rewrite decide_True.
  - rewrite andb_true_iff. intros [Hd Ha]. rewrite decide_False by congruence.
    by rewrite IH.
Qed.

Lemma split_on_app p (c : ascii) a b :
  p c = false → string_forallb p a = true →
  split_on c (a +:+ String c b) = a :: split_on c b.
Proof.
  intros Hc. induction a as [|d a IH]; rewrite ?string_app_cons; cbn.
  - intros _. change ("" +:+ String c b) with (String c b). cbn. by rewrite decide_True.
  - rewrite andb_true_iff. intros [Hd Ha]. rewrite decide_False by congruence.
    by rewrite IH.
Qed.

Lemma split_on_plain p (c : ascii) a :
  p c = false → string_forallb p a = true → split_on c a = [a].
Proof.
  intros Hc. induction a as [|d a IH]; cbn; [done|].
  rewrite andb_true_iff. intros [Hd Ha]. rewrite decide_False by congruence. by rewrite IH.
Qed.

(** An encoded pair is read back as one piece. *)
Definition query_pair (kv : string * string) : string :=
  form_encode kv.1 +:+ "=" +:+ form_encode kv.2.

Definition piece_plain (c : ascii) : bool := negb (bool_decide (c ∈ ["&"; ";"; "?"]%char)).

Lemma query_plain_piece c : query_plain c = true → piece_plain c = true.
Proof.
  unfold query_plain, piece_plain. rewrite !negb_true_iff, !bool_decide_eq_false. set_solver.
Qed.

Lemma query_pair_plain kv : string_forallb piece_plain (query_pair kv) = true.
Proof.
  unfold query_pair. rewrite !string_forallb_app, !andb_true_iff. split_and!; [|done|].
  all: eapply string_forallb_impl; [apply query_plain_piece|apply form_encode_plain].
Qed.

Lemma query_piece_pair kv : query_piece (query_pair kv) = Some kv.
Proof.
  unfold query_piece. rewrite (includes_absent piece_plain) by (done || apply query_pair_plain).
  assert (truthy (query_pair kv) = true) as ->.
  { unfold query_pair. by destruct (form_encode kv.1). }
  unfold query_pair. rewrite string_app_cons. change ("" +:+ ?s) with s.
  rewrite (cut_app query_plain) by (done || apply form_encode_plain).
  cbn. rewrite !query_unescape_encode. by destruct kv.
Qed.

(** Reading back what [URLSearchParams.toString] wrote. *)
Lemma parse_query_params l : l ≠ [] → parse_query (params_toString l) = l.
Proof.
  assert (params_toString l = js_join "&" (map query_pair l)) as -> by done.
  unfold parse_query. induction l as [|kv l IH]; [done|]. intros _.
  destruct l as [|kv' l].
  - cbn [map js_join]. rewrite (split_on_plain piece_plain) by (done || apply query_pair_plain).
    cbn. by rewrite query_piece_pair.
  - cbn [map js_join]. rewrite string_app_cons. change ("" +:+ ?s) with s.
    rewrite (split_on_app piece_plain) by (done || apply query_pair_plain).
    cbn [omap list_omap]. rewrite query_piece_pair. f_equal. by apply IH.
Qed.

Lemma parse_query_path path l :
  string_forallb piece_plain path = true → l ≠ [] →
  parse_query (cut "?" (path +:+ "?" +:+ params_toString l)).2 = l.
Proof.
  intros Hp Hl. rewrite string_app_cons. change ("" +:+ ?s) with s.
  rewrite (cut_app piece_plain) by done. by apply parse_query_params.
Qed.

(** ** Properties *)

Section request_properties.
Context (VITE_API_BASE : option string) (fetch : HttpRequest → result HttpResponse).

(** C15: a call touches the browser only when the server answers 401 outside
    the login and session-check endpoints: then the token is gone, every
    other stored entry is kept, the page is sent to the login screen and the
    call fails with "unauthorized". And a call yields a value exactly when
    the server answered with a 2xx status and that JSON body. *)
Theorem request_outcome call b b' r :
  request VITE_API_BASE fetch call b = (b', r) →
  (b' = b ∨
   ∃ resp, fetch (build_request VITE_API_BASE call b) = Ok resp ∧ resp.(status) = 401 ∧
     session_path call.1 = true ∧ isAuthenticated b' = false ∧
     (∀ k, k ≠ TOKEN_KEY → b'.(localStorage) !! k = b.(localStorage) !! k) ∧
     b'.(href) = Some "/login" ∧ r = Throw "unauthorized") ∧
  (∀ v, r = Ok v ↔
    ∃ resp, fetch (build_request VITE_API_BASE call b) = Ok resp ∧
      200 <= resp.(status) <= 299 ∧ resp.(payload) = Ok v).
Proof.
  unfold request. destruct (fetch _) as [resp|msg] eqn:Hf; [|intros [= <- <-]].
  - destruct ((resp.(status) =? 401) && session_path call.1) eqn:Hs.
    + intros [= <- <-]. bool_to_prop. split.
      * right. exists resp. unfold isAuthenticated, getToken. cbn.
        rewrite lookup_delete_eq. split_and!; try done.
        intros k Hk. by rewrite lookup_delete_ne.
      * intros v. split; [done|]. intros (resp' & Heq & ? & _). injection Heq as <-. lia.
    + destruct (resp_ok resp) eqn:Hok; unfold resp_ok in Hok; cbn; intros [= <- <-];
        (split; [by left|]); intros v; split; try done.
      * bool_to_prop. eauto 10.
      * intros (resp' & Heq & _ & Hp). injection Heq as <-. by rewrite Hp.
      * intros (resp' & Heq & ? & _). injection Heq as <-.
        apply andb_false_iff in Hok as [?|?]; bool_to_prop; lia.
  - split; [by left|]. intros v. split; [done|]. by intros (resp & [=] & _).
Qed.

(** C28: a request carries an Authorization header exactly when a non-empty
    token is stored, and it is that token as a bearer token; the body and
    the path are the caller's. *)
Theorem build_request_auth call b h :
  let req := build_request VITE_API_BASE call b in
  (("Authorization", h) ∈ req.(headers) ↔
     ∃ token, getToken b = Some token ∧ token ≠ "" ∧ h = "Bearer " +:+ token) ∧
  (VITE_API_BASE = None → req.(url) = "/api/v1" +:+ call.1) ∧
  req.(body) = call.2.(opt_body).
Proof.
  unfold build_request. cbn [headers url body]. cbv zeta.
  split_and!; [|by intros ->|done].
  rewrite elem_of_cons. destruct (getToken b) as [token|].
  - destruct token as [|c token]; cbn [truthy].
    + split; [intros [Heq|Hin]; [discriminate Heq|inversion Hin]|].
      intros (token' & Heq & Hne & _). injection Heq as <-. done.
    + rewrite list_elem_of_singleton. split.
      * intros [Heq|Heq]; [discriminate Heq|]. injection Heq as ->. eauto.
      * intros (token' & Heq & _ & ->). injection Heq as <-. by right.
  - split; [intros [Heq|Hin]; [discriminate Heq|inversion Hin]|].
    intros (? & Heq & _). discriminate Heq.
Qed.
End request_properties.

(** C22: whatever the namespace and the policy name are - spaces, ampersands and
    other reserved characters included -, the result list request the UI builds
    is read back by the server as exactly these two query parameters. *)
Theorem results_query_roundtrip ns pol :
  let path := (api.listResults ns pol).1 in
  query_get "namespace" path = ostr_or ns "" ∧ query_get "policy" path = ostr_or pol "".
Proof.
  unfold api.listResults, get. cbv zeta. cbn [fst].
  assert (∀ l, l ≠ [] →
    "/results" +:+ (if truthy (params_toString l) then "?" +:+ params_toString l else "") =
    "/results" +:+ "?" +:+ params_toString l) as Hqs.
  { intros [|kv l] ?; [done|]. assert (truthy (params_toString (kv :: l)) = true) as ->; [|done].
    unfold params_toString; cbn. destruct l; cbn; by destruct (form_encode kv.1). }
  unfold query_get.
  destruct ns as [[|c ns]|], pol as [[|d pol]|]; cbn [otruthy truthy ostr_or str_or];
    try done; rewrite Hqs, parse_query_path by done; done.
Qed.

(** ** Witnesses *)

Definition unauthorized_server (_ : HttpRequest) : result HttpResponse :=
  Ok {| status := 401; statusText := "Unauthorized";
        payload := Ok (JObj [("error", JStr "unauthorized")]) |}.

Definition signed_in : Browser :=
  {| localStorage := {[ TOKEN_KEY := "t0ken" ]}; href := None |}.

Lemma request_outcome_witness :
  request None unauthorized_server api.getInfo signed_in =
    ({| localStorage := ∅; href := Some "/login" |}, Throw "unauthorized") ∧
  (∀ v, Throw "unauthorized" = Ok v ↔
     ∃ resp, unauthorized_server (build_request None api.getInfo signed_in) = Ok resp ∧
       200 <= resp.(status) <= 299 ∧ resp.(payload) = Ok v).
Proof.
  assert (request None unauthorized_server api.getInfo signed_in =
    ({| localStorage := ∅; href := Some "/login" |}, Throw "unauthorized")) as Hreq
    by (vm_compute; reflexivity).
  split; [exact Hreq|].
  exact (proj2 (request_outcome None unauthorized_server api.getInfo signed_in _ _ Hreq)).
Defined.

Lemma build_request_auth_witness :
  ("Authorization", "Bearer t0ken") ∈ (build_request None api.getInfo signed_in).(headers) ∧
  (build_request None api.getInfo signed_in).(url) = "/api/v1/info".
Proof.
  destruct (build_request_auth None api.getInfo signed_in "Bearer t0ken") as (Hauth & Hurl & _).
  split.
  - apply Hauth. exists "t0ken". split; [vm_compute; reflexivity|]. split; [discriminate|reflexivity].
  - exact (Hurl eq_refl).
Defined.
