(* ===== verification/Toast.v ===== *)
(** * Toasts ([ui/src/components/Toast.tsx])

    The provider's list of toasts and, per mounted toast, its own state: whether
    it is visible and its pending 3-second timer.  Time is explicit: a world has
    a clock in milliseconds, and the steps are the calls of [showToast], the
    animation frames, the timers and the passing of time.  Time does not pass
    beyond a deadline whose callback has not run. *)
From Stdlib Require Import Ascii ZArith Lia.
From stdpp Require Import base list strings pretty gmap sets relations sorting.
From S2P Require Import Prelude JsStd Jsx.
Local Open Scope Z_scope.

Inductive ToastType := Success | Error.

#[export] Instance ToastType_eq_dec : EqDecision ToastType.
Proof. solve_decision. Defined.

(** The interface [ToastItem]. *)
Record Toast := { id : Z; message : string; type : ToastType }.

(** A mounted [ToastItem] component: its toast, its state [visible], and the
    deadline of the timer its effect has set, while that timer is pending. *)
Record Item := { toast : Toast; visible : bool; timer : option Z }.

Record World := {
  clock : Z;
  nextId : Z;
  items : list Item;
  (** pending [setTimeout(onDone, 200)] calls: deadline and toast *)
  removals : list (Z * Z);
  (** pending animation frames: the toasts that become visible *)
  frames : list Z
}.

Definition initial : World :=
  {| clock := 0; nextId := 0; items := []; removals := []; frames := [] |}.

Definition item_id (i : Item) : Z := i.(toast).(id).

Definition ids (w : World) : list Z := map item_id w.(items).

(** The effect of a mounted item: the cleanup cancels the timer of the previous
    run, a new one is set. *)
Definition effect (now : Z) (i : Item) : Item :=
  {| toast := i.(toast); visible := i.(visible); timer := Some (now + 3000) |}.

(** Rendering the provider with the toasts [l].  Each item is given a new
    [onDone] closure, so the effect of every item runs again. *)
Definition rerender (l : list Item) (w : World) : World :=
  {| clock := w.(clock); nextId := w.(nextId); items := map (effect w.(clock)) l;
     removals := w.(removals); frames := w.(frames) ++ map item_id l |}.

Definition mount (t : Toast) : Item := {| toast := t; visible := false; timer := None |}.

Definition showToast (message : string) (type : ToastType) (w : World) : World :=
  let id := w.(nextId) in
  rerender (w.(items) ++ [mount {| id := id; message := message; type := type |}])
    {| clock := w.(clock); nextId := id + 1; items := w.(items);
       removals := w.(removals); frames := w.(frames) |}.

Definition removeToast (id : Z) (w : World) : World :=
  rerender (filter (λ i, item_id i ≠ id) w.(items)) w.

(** The callbacks. *)

Definition set_visible (b : bool) (i : Item) : Item :=
  {| toast := i.(toast); visible := b; timer := i.(timer) |}.

Definition run_frames (w : World) : World :=
  {| clock := w.(clock); nextId := w.(nextId);
     items := map (λ i, if decide (item_id i ∈ w.(frames)) then set_visible true i else i)
                w.(items);
     removals := w.(removals); frames := [] |}.

(** The 3-second timer: hides the item and schedules its removal. *)
Definition expire (i : Item) : Item :=
  {| toast := i.(toast); visible := false; timer := None |}.

Definition hide (k : nat) (w : World) : World :=
  match w.(items) !! k with
  | Some i =>
    {| clock := w.(clock); nextId := w.(nextId); items := <[k := expire i]> w.(items);
       removals := w.(removals) ++ [(w.(clock) + 200, item_id i)]; frames := w.(frames) |}
  | None => w
  end.

Definition run_removal (k : nat) (w : World) : World :=
  match w.(removals) !! k with
  | Some (_, id) =>
    removeToast id
      {| clock := w.(clock); nextId := w.(nextId); items := w.(items);
         removals := delete k w.(removals); frames := w.(frames) |}
  | None => w
  end.

Definition set_clock (t : Z) (w : World) : World :=
  {| clock := t; nextId := w.(nextId); items := w.(items); removals := w.(removals);
     frames := w.(frames) |}.

(** No pending callback is due before [t]. *)
Definition nothing_due_before (t : Z) (w : World) : Prop :=
  (∀ i d, i ∈ w.(items) → i.(timer) = Some d → t <= d) ∧
  (∀ r, r ∈ w.(removals) → t <= r.1).

Definition waits_until (t : Z) (w : World) : bool :=
  forallb (λ i, match i.(timer) with Some d => t <=? d | None => true end) w.(items) &&
  forallb (λ r, t <=? r.1) w.(removals).

(** What happens by itself. *)
Inductive quiet : relation World :=
  | quiet_frames w : quiet w (run_frames w)
  | quiet_hide w k i d :
    w.(items) !! k = Some i → i.(timer) = Some d → d <= w.(clock) → quiet w (hide k w)
  | quiet_remove w k r :
    w.(removals) !! k = Some r → r.1 <= w.(clock) → quiet w (run_removal k w)
  | quiet_wait w t :
    w.(clock) <= t → nothing_due_before t w → quiet w (set_clock t w).

Inductive step : relation World :=
  | step_quiet w w' : quiet w w' → step w w'
  | step_show w message type : step w (showToast message type w).

(** ** Rendering *)

Definition item_style (t : Toast) (visible : bool) : style :=
  let isError := bool_decide (t.(type) = Error) in
  [("pointerEvents", Some "auto"); ("padding", Some "10px 16px");
   ("borderRadius", Some "var(--radius-md)"); ("fontSize", Some "13");
   ("fontWeight", Some "500");
   ("color", Some (if isError then "var(--danger)" else "var(--success)"));
   ("background", Some (if isError then "var(--danger-muted)" else "var(--success-muted)"));
   ("border", Some ("1px solid " +:+ if isError then "var(--danger)" else "var(--success)"));
   ("boxShadow", Some "0 4px 12px rgba(0,0,0,0.15)");
   ("opacity", Some (if visible then "1" else "0"));
   ("transform", Some (if visible then "translateY(0)" else "translateY(8px)"));
   ("transition", Some "opacity 0.2s, transform 0.2s"); ("maxWidth", Some "360")].

Definition render_item {A} (i : Item) : node A :=
  el "div" (style_attrs (item_style i.(toast) i.(visible))) [Text i.(toast).(message)].

Definition container_style : style :=
  [("position", Some "fixed"); ("bottom", Some "24"); ("left", Some "50%");
   ("transform", Some "translateX(-50%)"); ("zIndex", Some "9999"); ("display", Some "flex");
   ("flexDirection", Some "column-reverse"); ("alignItems", Some "center");
   ("gap", Some "8"); ("pointerEvents", Some "none")].

Definition ToastProvider {A} (children : node A) (w : World) : node A :=
  el "fragment" []
    [children; el "div" (style_attrs container_style) (map render_item w.(items))].

(** ** Lemmas *)

Lemma ids_effect now l : map item_id (map (effect now) l) = map item_id l.
Proof. by rewrite map_map. Qed.

Lemma ids_insert (l : list Item) k i i' :
  l !! k = Some i → item_id i' = item_id i → map item_id (<[k := i']> l) = map item_id l.
Proof.
  intros Hk Hi. rewrite (list_fmap_insert item_id), Hi.
  apply list_insert_id. by rewrite list_lookup_fmap, Hk.
Qed.

Lemma ids_filter x l :
  map item_id (filter (λ i, item_id i ≠ x) l) = filter (λ y, y ≠ x) (map item_id l).
Proof. induction l as [|i l IH]; [done|]. cbn [map].
  rewrite !filter_cons. repeat case_decide; cbn [map]; [congruence|done..].
Qed.

Lemma ids_run_frames w : ids (run_frames w) = ids w.
Proof.
  unfold ids, run_frames; cbn. rewrite map_map. apply map_ext. intros i. by case_decide.
Qed.

Lemma ids_hide k w : ids (hide k w) = ids w.
Proof.
  unfold hide. destruct (items w !! k) as [i|] eqn:Hk; [|done].
  unfold ids; cbn. by eapply ids_insert.
Qed.

Lemma ids_show m t w : ids (showToast m t w) = ids w ++ [w.(nextId)].
Proof. unfold ids, showToast, rerender; cbn. by rewrite ids_effect, map_app. Qed.

Lemma ids_remove x w : ids (removeToast x w) = filter (λ y, y ≠ x) (ids w).
Proof. unfold ids, removeToast, rerender; cbn. by rewrite ids_effect, ids_filter. Qed.

Lemma waits_until_spec t w : waits_until t w = true → nothing_due_before t w.
Proof.
  unfold waits_until. rewrite andb_true_iff, !forallb_forall.
  setoid_rewrite <-list_elem_of_In. intros [Hi Hr]. split.
  - intros i d Hin Hd. specialize (Hi i Hin). rewrite Hd in Hi. by apply Z.leb_le.
  - intros r Hin. by apply Z.leb_le, Hr.
Qed.

(** Toasts keep distinct ids, all of them below the counter, and no removal is
    overdue. *)
Record inv_core (w : World) : Prop := {
  inv_ids : NoDup (ids w);
  inv_fresh : ∀ x, x ∈ ids w → x < w.(nextId);
  inv_removals : ∀ r, r ∈ w.(removals) → r.2 < w.(nextId) ∧ w.(clock) <= r.1 <= w.(clock) + 200
}.

(** No timer is overdue, and a toast without one is on its way out. *)
Record inv (w : World) : Prop := {
  inv_of_core : inv_core w;
  inv_timers : ∀ i, i ∈ w.(items) →
    match i.(timer) with
    | Some d => w.(clock) <= d <= w.(clock) + 3000
    | None => ∃ d, (d, item_id i) ∈ w.(removals)
    end
}.

Lemma inv_initial : inv initial.
Proof. repeat constructor; cbn; set_solver. Qed.

(** Rendering restarts every timer. *)
Lemma elem_of_rerender i l w :
  i ∈ (rerender l w).(items) ↔ ∃ j, j ∈ l ∧ i = effect w.(clock) j.
Proof. cbn. rewrite list_elem_of_fmap. naive_solver. Qed.

Lemma inv_rerender l w : inv_core (rerender l w) → inv (rerender l w).
Proof. intros Hc. split; [done|]. intros i (j & _ & ->)%elem_of_rerender. cbn. lia. Qed.

Lemma inv_show m t w : inv_core w → inv (showToast m t w).
Proof.
  intros [Hids Hfr Hr]. apply inv_rerender. constructor.
  - fold (showToast m t w). rewrite ids_show.
    apply NoDup_app. split_and!; [done| |apply NoDup_singleton].
    intros x Hx%Hfr ->%list_elem_of_singleton. lia.
  - fold (showToast m t w). rewrite ids_show.
    intros x [Hx%Hfr| ->%list_elem_of_singleton]%elem_of_app; cbn; lia.
  - intros r Hin%Hr. cbn. lia.
Qed.

Lemma inv_remove x w : inv_core w → inv (removeToast x w).
Proof.
  intros [Hids Hfr Hr]. apply inv_rerender. constructor; [| |done].
  - fold (removeToast x w). rewrite ids_remove. by apply NoDup_filter.
  - fold (removeToast x w). rewrite ids_remove. intros y [_ Hy]%list_elem_of_filter. by apply Hfr.
Qed.

Lemma elem_of_run_frames i w :
  i ∈ (run_frames w).(items) →
  ∃ j, j ∈ w.(items) ∧ i.(toast) = j.(toast) ∧ i.(timer) = j.(timer).
Proof.
  cbn. rewrite list_elem_of_fmap. intros (j & -> & Hj). exists j. by case_decide.
Qed.

(** A timer that runs: the toast is hidden and queued for removal. *)
Lemma elem_of_hide w k i j :
  w.(items) !! k = Some i → j ∈ (hide k w).(items) →
  j = expire i ∨ j ∈ w.(items).
Proof.
  unfold hide. intros Hk. rewrite Hk. cbn. intros (k' & Hj)%list_elem_of_lookup.
  apply list_lookup_insert_Some in Hj as [(_ & <- & _)|[_ Hj]]; [by left|].
  right. by eapply list_elem_of_lookup_2.
Qed.

Lemma removals_hide w k i :
  w.(items) !! k = Some i →
  (hide k w).(removals) = w.(removals) ++ [(w.(clock) + 200, item_id i)].
Proof. unfold hide. by intros ->. Qed.

Lemma clock_hide w k : (hide k w).(clock) = w.(clock).
Proof. unfold hide. by destruct (items w !! k). Qed.

Lemma nextId_hide w k : (hide k w).(nextId) = w.(nextId).
Proof. unfold hide. by destruct (items w !! k). Qed.

Lemma inv_quiet w w' : inv w → quiet w w' → inv w'.
Proof.
  intros [[Hids Hfr Hr] Ht] Hq. destruct Hq as [w|w k i d Hk Hd Hdue|w k r Hk Hdue|w t Hle Hnd].
  - split; [constructor; [by rewrite ids_run_frames..|done]|].
    intros i (j & Hj & Htoast & ->)%elem_of_run_frames. unfold item_id. rewrite Htoast.
    by apply Ht.
  - assert (i ∈ items w) as Hi by by eapply list_elem_of_lookup_2.
    split; [constructor|].
    + by rewrite ids_hide.
    + by rewrite ids_hide, nextId_hide.
    + rewrite clock_hide, nextId_hide, (removals_hide _ _ _ Hk).
      intros r [Hin%Hr| ->%list_elem_of_singleton]%elem_of_app; [lia|]. cbn.
      split; [apply Hfr, list_elem_of_fmap; eauto|lia].
    + rewrite clock_hide, (removals_hide _ _ _ Hk). intros j [->|Hj]%(elem_of_hide _ _ _ _ Hk).
      * exists (clock w + 200). cbn. unfold expire, item_id at 1. cbn. set_solver.
      * specialize (Ht j Hj). destruct (timer j); [done|]. destruct Ht as [d' Hd']. exists d'.
        set_solver.
  - unfold run_removal. rewrite Hk. destruct r as [d x]. apply inv_remove.
    constructor; [done..|]. cbn. intros r' Hr'. apply Hr.
    by eapply elem_of_submseteq, sublist_submseteq, sublist_delete.
  - destruct Hnd as [Hnt Hnr]. split; [constructor; [done..|]|].
    + intros r Hin. specialize (Hr r Hin). specialize (Hnr r Hin). cbn. lia.
    + intros i Hi. specialize (Ht i Hi). specialize (Hnt i). cbn in *.
      destruct (timer i) as [d|]; [|done]. specialize (Hnt d Hi eq_refl). lia.
Qed.

Lemma inv_step w w' : inv w → step w w' → inv w'.
Proof.
  intros Hw Hs. destruct Hs as [w w' Hq|w m t]; [by eapply inv_quiet|].
  apply inv_show, Hw.
Qed.

Lemma toast_reachable w : rtc step initial w → inv w.
Proof.
  intros Hr. eapply rtc_invariant; [apply inv_initial| |exact Hr].
  intros a b Ha Hab. by eapply inv_step.
Qed.

(** ** How long a toast stays *)

Section lifetime.
(** Toast [x] was on screen, not on its way out, when a toast was shown at [t0]. *)
Context (x t0 : Z).

Record kept (w : World) : Prop := {
  kept_in : x ∈ ids w;
  kept_old : x < w.(nextId);
  kept_clock : t0 <= w.(clock);
  kept_timers : ∀ i d, i ∈ w.(items) → item_id i = x → i.(timer) = Some d → t0 + 3000 <= d;
  kept_removals : ∀ r, r ∈ w.(removals) → r.2 = x → t0 + 3200 <= r.1
}.

Lemma kept_rerender l w :
  x ∈ map item_id l → x < w.(nextId) → t0 <= w.(clock) →
  (∀ r, r ∈ w.(removals) → r.2 = x → t0 + 3200 <= r.1) → kept (rerender l w).
Proof.
  intros Hin Hx Hc Hr. constructor; try done.
  - unfold ids. cbn. by rewrite ids_effect.
  - intros i d (j & _ & ->)%elem_of_rerender _ [= <-]. cbn. lia.
Qed.

Lemma kept_quiet w w' : kept w → quiet w w' → kept w' ∨ t0 + 3200 <= w'.(clock).
Proof.
  intros [Hin Hold Hc Ht Hr] Hq.
  destruct Hq as [w|w k i d Hk Hd Hdue|w k r Hk Hdue|w t Hle Hnd]; [left|left| |left].
  - constructor; [by rewrite ids_run_frames|done|done| |done].
    intros i d (j & Hj & Htoast & ->)%elem_of_run_frames. unfold item_id.
    rewrite Htoast. by apply Ht.
  - constructor; rewrite ?ids_hide, ?nextId_hide, ?clock_hide; [done..| |].
    + intros j d' [->|Hj]%(elem_of_hide _ _ _ _ Hk); [done|]. by apply Ht.
    + rewrite (removals_hide _ _ _ Hk).
      intros r [Hrin| ->%list_elem_of_singleton]%elem_of_app; [by apply Hr|]. cbn. intros Hi.
      assert (i ∈ items w) as Hin' by by eapply list_elem_of_lookup_2.
      specialize (Ht i d Hin' Hi Hd). lia.
  - unfold run_removal. rewrite Hk. destruct r as [d y]. cbn in Hdue.
    assert ((d, y) ∈ removals w) as Hdy by by eapply list_elem_of_lookup_2.
    destruct (decide (y = x)) as [->|Hy].
    + right. specialize (Hr _ Hdy eq_refl). cbn in *. lia.
    + left. apply kept_rerender; [|done..|].
      * cbn. rewrite ids_filter. by apply list_elem_of_filter.
      * cbn. intros r Hrin. apply Hr.
        by eapply elem_of_submseteq, sublist_submseteq, sublist_delete.
  - constructor; cbn; [done..|lia|done|done].
Qed.

Lemma kept_step w w' :
  kept w ∨ t0 + 3200 <= w.(clock) → step w w' → kept w' ∨ t0 + 3200 <= w'.(clock).
Proof.
  intros Hw Hs. destruct Hs as [w w' Hq|w m t].
  - destruct Hw as [Hw|Hw]; [by eapply kept_quiet|]. right.
    destruct Hq as [w|w k i d Hk _ _|w k r Hk _|w t Hle _]; cbn; try done; [by rewrite clock_hide| |lia].
    unfold run_removal. by rewrite Hk; destruct r.
  - destruct Hw as [[Hin Hold Hc Ht Hr]|Hw]; [left|by right].
    apply kept_rerender; [|cbn; lia|done..].
    rewrite map_app. apply elem_of_app. by left.
Qed.
End lifetime.

(** C25: a toast stays on the list for at least 3.2 seconds, and showing another
    one starts the 3.2 seconds again for every toast that is not already fading
    out: all of them are still there at any time less than 3200 milliseconds
    after the last one was shown. *)
Theorem toast_lifetime w m t w' x :
  rtc step initial w → x ∈ ids (showToast m t w) → (∀ r, r ∈ w.(removals) → r.2 ≠ x) →
  rtc step (showToast m t w) w' → w'.(clock) < w.(clock) + 3200 → x ∈ ids w'.
Proof.
  intros Hw%toast_reachable Hx Hnr Hr Hc.
  enough (kept x w.(clock) w' ∨ w.(clock) + 3200 <= w'.(clock)) as [Hk|]; [by apply Hk|lia|].
  eapply (rtc_invariant step (λ w', kept x w.(clock) w' ∨ w.(clock) + 3200 <= w'.(clock)));
    [| |exact Hr].
  - left. rewrite ids_show in Hx. apply kept_rerender; [|cbn|done|].
    + rewrite map_app. exact Hx.
    + apply elem_of_app in Hx as [Hx%(inv_fresh _ (inv_of_core _ Hw))|
        ->%list_elem_of_singleton]; lia.
    + cbn. intros r Hin Hrx. by destruct (Hnr r Hin).
  - intros a b Ha Hab. by eapply kept_step.
Qed.

(** ** Every toast goes away *)

Section cleared.
(** The time of the last [showToast]. *)
Context (t0 : Z).

(** Every toast is queued for removal in time. *)
Definition leaving (w : World) : Prop :=
  ∀ i, i ∈ w.(items) → ∃ d, (d, item_id i) ∈ w.(removals) ∧ d <= t0 + 3400.

(** The timers last started at [l], within 200 milliseconds of [t0]. *)
Record showing (l : Z) (w : World) : Prop := {
  sh_start : t0 <= l <= t0 + 200;
  sh_clock : l <= w.(clock);
  sh_timers : ∀ i d, i ∈ w.(items) → i.(timer) = Some d → d = l + 3000;
  sh_removals : ∀ r, r ∈ w.(removals) →
    r.1 <= t0 + 200 ∨ (r.1 = l + 3200 ∧ l + 3000 <= w.(clock))
}.

Lemma leaving_quiet w w' : leaving w → quiet w w' → leaving w'.
Proof.
  intros Hl Hq. destruct Hq as [w|w k i d Hk Hd Hdue|w k r Hk Hdue|w t Hle Hnd]; [..|done].
  - intros i (j & Hj & Htoast & _)%elem_of_run_frames. unfold item_id. rewrite Htoast.
    by apply Hl.
  - intros j Hj. rewrite (removals_hide _ _ _ Hk).
    assert (∃ j', j' ∈ items w ∧ item_id j' = item_id j) as (j' & Hj' & <-).
    { apply (elem_of_hide _ _ _ _ Hk) in Hj as [->|Hj]; [|by eauto].
      exists i. split; [by eapply list_elem_of_lookup_2|done]. }
    destruct (Hl j' Hj') as (d' & ? & ?). exists d'. set_solver.
  - unfold run_removal. rewrite Hk. destruct r as [d y].
    intros i (j & Hj & ->)%elem_of_rerender. cbn in *.
    apply list_elem_of_filter in Hj as [Hy Hj]. destruct (Hl j Hj) as (d' & Hin & ?).
    exists d'. split; [|done]. change (item_id (effect (clock w) j)) with (item_id j).
    rewrite (delete_Permutation _ _ _ Hk) in Hin. apply elem_of_cons in Hin as [[=]|]; done.
Qed.

Lemma showing_leaving l w : inv w → showing l w → l + 3000 < w.(clock) → leaving w.
Proof.
  intros [_ Ht] [? ? Hst Hsr] Hc i Hi. specialize (Ht i Hi). specialize (Hst i).
  destruct (timer i) as [d|]; [specialize (Hst d Hi eq_refl); lia|].
  destruct Ht as [d Hd]. exists d. split; [done|]. destruct (Hsr _ Hd) as [?|[? _]]; cbn in *; lia.
Qed.

Lemma showing_quiet l w w' :
  inv w → showing l w → quiet w w' → (∃ l', showing l' w') ∨ leaving w'.
Proof.
  intros Hinv Hs Hq. pose proof Hs as [Hsl Hsc Hst Hsr].
  pose proof Hinv as [[_ _ Hir] Hit].
  destruct Hq as [w|w k i d Hk Hd Hdue|w k r Hk Hdue|w t Hle Hnd].
  - left. exists l. constructor; [done..| |done].
    intros i d (j & Hj & _ & ->)%elem_of_run_frames. by apply Hst.
  - left. exists l. assert (i ∈ items w) as Hi by by eapply list_elem_of_lookup_2.
    pose proof (Hst i d Hi Hd). constructor; rewrite ?clock_hide; [done..| |].
    + intros j d' [->|Hj]%(elem_of_hide _ _ _ _ Hk); [done|]. by apply Hst.
    + specialize (Hit i Hi). rewrite Hd in Hit. rewrite (removals_hide _ _ _ Hk).
      intros r [Hin| ->%list_elem_of_singleton]%elem_of_app; [by apply Hsr|]. cbn. lia.
  - assert (r ∈ removals w) as Hin by by eapply list_elem_of_lookup_2.
    specialize (Hir r Hin). destruct (Hsr r Hin) as [Hr|[Hr _]].
    + left. exists w.(clock). unfold run_removal. rewrite Hk. destruct r as [d y]. cbn in *.
      constructor; cbn; [lia|done| |].
      * intros i d' (j & _ & ->)%elem_of_rerender. cbn. by intros [= <-].
      * intros r' Hr'. destruct (Hsr r') as [?|?]; [|by left|lia].
        by eapply elem_of_submseteq, sublist_submseteq, sublist_delete.
    + right. eapply leaving_quiet; [|by eapply quiet_remove].
      eapply showing_leaving; [done..|]. lia.
  - left. exists l. constructor; [done|cbn; lia|done|].
    intros r Hin. destruct (Hsr r Hin); [by left|right]. cbn. lia.
Qed.

Lemma cleared_bound w :
  inv w → (∃ l, showing l w) ∨ leaving w → t0 + 3400 < w.(clock) → w.(items) = [].
Proof.
  intros Hinv Hw Hc. assert (leaving w) as Hl.
  { destruct Hw as [[l Hl]|]; [|done]. eapply showing_leaving; [done..|].
    destruct (sh_start _ _ Hl). lia. }
  destruct (items w) as [|i its] eqn:Heq; [done|]. destruct (Hl i) as (d & Hin & ?).
  { rewrite Heq. apply list_elem_of_here. }
  apply (inv_removals _ (inv_of_core _ Hinv)) in Hin. cbn in Hin. lia.
Qed.
End cleared.

(** C7: no toast stays for good: once 3.4 seconds have passed since the last
    [showToast], the list is empty, however the toasts overlapped. *)
Theorem toast_cleared w m t w' :
  rtc step initial w → rtc quiet (showToast m t w) w' → w.(clock) + 3400 < w'.(clock) →
  w'.(items) = [].
Proof.
  intros Hw%toast_reachable Hr Hc.
  enough (inv w' ∧ ((∃ l, showing w.(clock) l w') ∨ leaving w.(clock) w')) as [? ?]
    by by eapply cleared_bound.
  eapply (rtc_invariant quiet (λ w', inv w' ∧ ((∃ l, showing w.(clock) l w') ∨
    leaving w.(clock) w'))); [| |exact Hr].
  - split; [by apply inv_show, Hw|]. left. exists w.(clock). constructor; cbn; [lia|done| |].
    + intros i d (j & _ & ->)%elem_of_rerender. cbn. by intros [= <-].
    + intros r Hin. left. destruct (inv_removals _ (inv_of_core _ Hw) r Hin). lia.
  - intros a b [Ha Hab] Hq. split; [by eapply inv_quiet|].
    destruct Hab as [[l Hl]|Hl]; [by eapply showing_quiet|right; by eapply leaving_quiet].
Qed.

(** ** Concrete runs *)

(** Two toasts two seconds apart; both are there five seconds after the first. *)
Definition two_shown : World :=
  showToast "b" Error (set_clock 2000 (showToast "a" Success initial)).

Lemma one_waits : rtc step initial (set_clock 2000 (showToast "a" Success initial)).
Proof.
  eapply rtc_l; [apply step_show|]. apply rtc_once, step_quiet, quiet_wait; [done|].
  by apply waits_until_spec.
Qed.

Lemma toast_lifetime_witness : 0 ∈ ids (set_clock 5000 two_shown).
Proof.
  apply (toast_lifetime (set_clock 2000 (showToast "a" Success initial)) "b" Error).
  - exact one_waits.
  - apply list_elem_of_here.
  - intros r Hr. destruct (proj1 (elem_of_nil _) Hr).
  - apply rtc_once, step_quiet, quiet_wait; [discriminate|]. by apply waits_until_spec.
  - reflexivity.
Defined.

(** The first run to the end: both timers, both removals, and a wait. *)
Definition two_gone : World :=
  set_clock 9000 (run_removal 0 (run_removal 0 (set_clock 5200
    (hide 1 (hide 0 (set_clock 5000 (run_frames two_shown))))))).

Lemma toast_cleared_witness : two_gone.(items) = [].
Proof.
  apply (toast_cleared (set_clock 2000 (showToast "a" Success initial)) "b" Error);
    [exact one_waits| |reflexivity].
  eapply rtc_l; [apply quiet_frames|].
  eapply rtc_l; [eapply (quiet_wait _ 5000); [discriminate|by apply waits_until_spec]|].
  eapply rtc_l; [eapply (quiet_hide _ 0); [reflexivity|reflexivity|discriminate]|].
  eapply rtc_l; [eapply (quiet_hide _ 1); [reflexivity|reflexivity|discriminate]|].
  eapply rtc_l; [eapply (quiet_wait _ 5200); [discriminate|by apply waits_until_spec]|].
  eapply rtc_l; [eapply (quiet_remove _ 0); [reflexivity|discriminate]|].
  eapply rtc_l; [eapply (quiet_remove _ 0); [reflexivity|discriminate]|].
  apply rtc_once. eapply (quiet_wait _ 9000); [discriminate|by apply waits_until_spec].
Defined.
