(* ===== verification/Session.v ===== *)
(** * Signing in and out ([ui/src/pages/Login.tsx], [AuthGuard] and the routes
    of [ui/src/App.tsx])

    The login form, the guard in front of every other page, and the two
    together as a browser tab that is at one address at a time. *)
From Stdlib Require Import Ascii ZArith Lia.
From stdpp Require Import base list strings pretty gmap sets relations sorting.
From S2P Require Import Prelude JsStd Jsx Client.
Local Open Scope Z_scope.

(** ** AuthGuard *)

Record Guard := { checking : bool; authenticated : bool }.

Definition guard_initial : Guard := {| checking := true; authenticated := false |}.

Definition setChecking (b : bool) (g : Guard) : Guard :=
  {| checking := b; authenticated := g.(authenticated) |}.
Definition setAuthenticated (b : bool) (g : Guard) : Guard :=
  {| checking := g.(checking); authenticated := b |}.

(** The request of the check.  It does not go through [request] and does not use
    [API_BASE]; an absent token would be written as [null]. *)
Definition check_request (b : Browser) : HttpRequest :=
  {| url := "/api/v1/auth/check"; method := "GET";
     headers := [("Authorization",
                  "Bearer " +:+ match getToken b with Some t => t | None => "null" end)];
     body := None |}.

(** [checkAuth]: the new browser and guard, and where it navigates to. *)
Definition checkAuth (fetch : HttpRequest → result HttpResponse) (b : Browser) (g : Guard) :
    Browser * Guard * option string :=
  if negb (isAuthenticated b) then (b, setChecking false g, Some "/login")
  else
    match fetch (check_request b) with
    | Ok resp =>
      if resp.(status) =? 401
      then ({| localStorage := delete TOKEN_KEY b.(localStorage); href := b.(href) |},
            setChecking false g, Some "/login")
      else (b, setChecking false (setAuthenticated true g), None)
    | Throw _ => (b, setChecking false g, Some "/login")
    end.

(** The effect: a guard that has let the user through does not check again. *)
Definition guard_effect (fetch : HttpRequest → result HttpResponse) (b : Browser) (g : Guard) :
    Browser * Guard * option string :=
  if g.(authenticated) then (b, g, None) else checkAuth fetch b g.

Definition AuthGuard {A} (g : Guard) (children : node A) : node A :=
  if g.(checking) then Null else if negb g.(authenticated) then Null else children.

(** ** Login *)

Record Login := { username : string; password : string; error : string; l_loading : bool }.

Definition login_initial : Login :=
  {| username := ""; password := ""; error := ""; l_loading := false |}.

Definition setUsername (v : string) (l : Login) : Login :=
  {| username := v; password := l.(password); error := l.(error); l_loading := l.(l_loading) |}.
Definition setPassword (v : string) (l : Login) : Login :=
  {| username := l.(username); password := v; error := l.(error); l_loading := l.(l_loading) |}.
Definition setError (v : string) (l : Login) : Login :=
  {| username := l.(username); password := l.(password); error := v; l_loading := l.(l_loading) |}.
Definition setLoading (b : bool) (l : Login) : Login :=
  {| username := l.(username); password := l.(password); error := l.(error); l_loading := b |}.

(** [setToken(resp.token)]: the storage turns what it is given into a string;
    reading a property of [null] throws. *)
Definition token_of (resp : json) : result string :=
  match resp with
  | JNull => Throw "Cannot read properties of null (reading 'token')"
  | JObj l => Ok (match obj_get "token" l with Some v => js_String v | None => "undefined" end)
  | _ => Ok "undefined"
  end.

(** [handleSubmit] up to its first [await], and what follows the answer. *)
Definition submit_start (l : Login) : Login := setLoading true (setError "" l).

Definition submit_end (answer : result json) (b : Browser) (l : Login) :
    Browser * Login * option string :=
  let outcome := match answer with Ok resp => token_of resp | Throw m => Throw m end in
  match outcome with
  | Ok token => (setToken token b, setLoading false l, Some "/")
  | Throw m => (b, setLoading false (setError m l), None)
  end.

Definition handleSubmit (VITE_API_BASE : option string) (fetch : HttpRequest → result HttpResponse)
    (b : Browser) (l : Login) : Browser * Login * option string :=
  let l := submit_start l in
  let '(b, answer) :=
    request VITE_API_BASE fetch (api.login l.(username) l.(password)) b in
  submit_end answer b l.

Inductive LoginAction := SetUsername (v : string) | SetPassword (v : string) | SubmitLogin.

Definition login_view (l : Login) : node LoginAction :=
  el "div" []
    [Elem "form" [] false [on "submit" SubmitLogin]
       [el "div" []
          [el "img" [("src", "/logo.png"); ("alt", "DTM")] [];
           el "div" [] [Text "DTM"]; el "div" [] [Text "Drop The Mic"]];
        when (truthy l.(error)) (el "div" [] [Text l.(error)]);
        el "div" []
          [el "label" [] [Text "Username"];
           Elem "input" [("type", "text"); ("value", l.(username)); ("required", "")] false
             [on_value "change" SetUsername] []];
        el "div" []
          [el "label" [] [Text "Password"];
           Elem "input" [("type", "password"); ("value", l.(password)); ("required", "")] false
             [on_value "change" SetPassword] []];
        Elem "button"
          [("type", "submit"); ("style:cursor", if l.(l_loading) then "not-allowed" else "pointer");
           ("style:opacity", if l.(l_loading) then "0.6" else "1")]
          l.(l_loading) []
          [Text (if l.(l_loading) then "Signing in..." else "Sign In")]]].

(** ** Routes *)

Inductive Page := PDashboard | PPolicies | PResults | PSettings.

Definition navItems : list (string * string) :=
  [("/", "Dashboard"); ("/policies", "Policies"); ("/results", "Results");
   ("/settings", "Settings")].

(** What follows a prefix. *)
Fixpoint strip (q s : string) : option string :=
  match q, s with
  | EmptyString, _ => Some s
  | String a q, String b s => if decide (a = b) then strip q s else None
  | String _ _, EmptyString => None
  end.

(** The router's matching of a whole path: the case of letters and slashes at
    the end do not matter. *)
Definition path_matches (pattern path : string) : bool :=
  match strip pattern (toLowerCase path) with
  | Some rest => string_forallb (λ c, bool_decide (c = "/"%char)) rest
  | None => false
  end.

(** The routes inside [AppLayout]; another path renders no page. *)
Definition route (path : string) : option Page :=
  if path_matches "/" path then Some PDashboard
  else if path_matches "/policies" path then Some PPolicies
  else if path_matches "/results" path then Some PResults
  else if path_matches "/settings" path then Some PSettings
  else None.

Inductive LayoutAction (A : Type) := Navigate (to : string) | Logout | InPage (a : A).
Arguments Navigate {A}.
Arguments Logout {A}.
Arguments InPage {A}.

Section layout.
Context {A : Type} (page : Page → node A).

Definition nav_link (path : string) (item : string * string) : node (LayoutAction A) :=
  let path := toLowerCase path in
  let isActive := bool_decide (path = item.1) ||
                  (negb (bool_decide (item.1 = "/")) && startsWith (item.1 +:+ "/") path) in
  Elem "a" [("href", item.1); ("className", "nav-item " +:+ if isActive then "nav-item--active" else "")]
    false [on "click" (Navigate item.1)] [el "span" [] [Text item.2]].

Definition AppLayout (g : Guard) (path : string) : node (LayoutAction A) :=
  AuthGuard g
    (el "div" [("className", "app-layout")]
       [el "nav" [("className", "sidebar")]
          [el "div" [("className", "sidebar-header")]
             [el "img" [("src", "/logo.png"); ("alt", "DTM")] [];
              el "div" [] [el "div" [] [Text "DTM"]; el "div" [] [Text "Drop The Mic"]]];
           el "div" [("className", "sidebar-nav")] (map (nav_link path) navItems);
           el "div" [("className", "sidebar-footer")]
             [Elem "button" [("className", "nav-item")] false [on "click" Logout]
                [el "span" [] [Text "Logout"]];
              el "div" [] [Text "v0.1.0"]]];
        el "main" [("className", "main-content")]
          [match route path with Some p => node_map InPage (page p) | None => Null end]]).
End layout.

(** ** A browser tab *)

(** [nav] is a navigation the router was asked for and has not rendered yet:
    until then the components at the old address stay on screen, with the state
    they have by now.  The pending [href] of the browser is a page load. *)
Record Tab := {
  browser : Browser; location : string; nav : option string; guard : Guard; login : Login
}.

(** The page loads at an address: every component starts anew. *)
Definition load (b : Browser) (path : string) : Tab :=
  {| browser := {| localStorage := b.(localStorage); href := None |}; location := path;
     nav := None; guard := guard_initial; login := login_initial |}.

(** The page load of an assignment to [window.location.href]. *)
Definition settle (t : Tab) : Tab :=
  match t.(browser).(href) with Some path => load t.(browser) path | None => t end.

Definition set_browser (b : Browser) (t : Tab) : Tab :=
  {| browser := b; location := t.(location); nav := t.(nav); guard := t.(guard); login := t.(login) |}.
Definition set_nav (o : option string) (t : Tab) : Tab :=
  match o with
  | Some to => {| browser := t.(browser); location := t.(location); nav := Some to;
                  guard := t.(guard); login := t.(login) |}
  | None => t
  end.
Definition set_guard (g : Guard) (t : Tab) : Tab :=
  {| browser := t.(browser); location := t.(location); nav := t.(nav); guard := g; login := t.(login) |}.
Definition set_login (l : Login) (t : Tab) : Tab :=
  {| browser := t.(browser); location := t.(location); nav := t.(nav); guard := t.(guard); login := l |}.

Definition at_login (t : Tab) : bool := path_matches "/login" t.(location).

(** The router renders the new address: the login page and the layout replace
    each other and start anew, the layout stays mounted between its own pages. *)
Definition navigate (to : string) (t : Tab) : Tab :=
  {| browser := t.(browser); location := to; nav := None;
     guard := if at_login t || path_matches "/login" to then guard_initial else t.(guard);
     login := if at_login t && path_matches "/login" to then t.(login) else login_initial |}.

Definition arrive (t : Tab) : Tab :=
  match t.(nav) with Some to => navigate to t | None => t end.

Definition run_guard (fetch : HttpRequest → result HttpResponse) (t : Tab) : Tab :=
  let '(b, g, o) := guard_effect fetch t.(browser) t.(guard) in
  set_nav o (set_guard g (set_browser b t)).

Definition run_login (VITE_API_BASE : option string)
    (fetch : HttpRequest → result HttpResponse) (t : Tab) : Tab :=
  let '(b, l, o) := handleSubmit VITE_API_BASE fetch t.(browser) t.(login) in
  set_nav o (set_login l (set_browser b t)).

(** A request of a page. *)
Definition run_request (VITE_API_BASE : option string)
    (fetch : HttpRequest → result HttpResponse) (call : ApiCall) (t : Tab) : Tab :=
  set_browser (request VITE_API_BASE fetch call t.(browser)).1 t.

Definition login_update (a : LoginAction) (l : Login) : Login :=
  match a with
  | SetUsername v => setUsername v l
  | SetPassword v => setPassword v l
  | SubmitLogin => l
  end.

Section tab.
Context {A : Type} (VITE_API_BASE : option string) (page : Page → node A).

Inductive TabAction := InLogin (a : LoginAction) | InLayout (a : LayoutAction A).

(** [App]: the login page, or the layout for every other address. *)
Definition screen (t : Tab) : node TabAction :=
  if at_login t then node_map InLogin (login_view t.(login))
  else node_map InLayout (AppLayout page t.(guard) t.(location)).

(** Something of the layout is on screen. *)
Definition shows_app (t : Tab) : bool :=
  negb (at_login t) && match screen t with Null => false | _ => true end.

(** The callbacks; the submission and what a page does are separate steps. *)
Definition update (a : TabAction) (t : Tab) : Tab :=
  match a with
  | InLogin a => set_login (login_update a t.(login)) t
  | InLayout (Navigate to) => set_nav (Some to) t
  | InLayout Logout => set_browser (logout t.(browser)) t
  | InLayout (InPage _) => t
  end.

(** A tab under every behaviour of the user and of the network. *)
Inductive step : relation Tab :=
  | step_ui t t' : ui_step screen update t t' → step t t'
  | step_guard fetch t : at_login t = false → step t (run_guard fetch t)
  | step_login fetch t : at_login t = true → step t (run_login VITE_API_BASE fetch t)
  | step_request fetch call t : shows_app t = true → step t (run_request VITE_API_BASE fetch call t)
  | step_arrive t : step t (arrive t)
  | step_settle t : step t (settle t)
  | step_load t path : step t (load t.(browser) path).
End tab.
Arguments InLogin {A}.
Arguments InLayout {A}.

(** ** Lemmas *)

Arguments path_matches : simpl never.

(** Only a guard that has let the user through renders anything. *)
Lemma shows_app_spec {A} (page : Page → node A) t :
  shows_app page t = true ↔
  at_login t = false ∧ t.(guard).(checking) = false ∧ t.(guard).(authenticated) = true.
Proof.
  unfold shows_app, screen, AppLayout, AuthGuard.
  destruct (at_login t), (checking (guard t)), (authenticated (guard t)); cbn; naive_solver.
Qed.

(** A guard has let the user through only while a token is stored, or the load
    of the login page is pending; no other load ever is. *)
Definition tab_ok (t : Tab) : Prop :=
  (t.(browser).(href) = None ∨ t.(browser).(href) = Some "/login") ∧
  (t.(guard).(authenticated) = true →
   isAuthenticated t.(browser) = true ∨ t.(browser).(href) = Some "/login").

Lemma load_ok b path : tab_ok (load b path).
Proof. split; [by left|done]. Qed.

Lemma set_nav_ok o t : tab_ok t → tab_ok (set_nav o t).
Proof. by destruct o. Qed.

Lemma arrive_ok t : tab_ok t → tab_ok (arrive t).
Proof.
  intros [Hh Ht]. unfold arrive. destruct (nav t) as [to|]; [|done].
  split; [done|]. cbn. by destruct (at_login t || path_matches "/login" to).
Qed.

Lemma setToken_authenticated token b : isAuthenticated (setToken token b) = true.
Proof. unfold isAuthenticated, getToken, setToken. cbn. by rewrite lookup_insert_eq. Qed.

Lemma getToken_setToken token b : getToken (setToken token b) = Some token.
Proof. unfold getToken, setToken. cbn. apply lookup_insert_eq. Qed.

Lemma logout_ok t : tab_ok (set_browser (logout t.(browser)) t).
Proof. split; cbn; by right. Qed.

Lemma request_browser base fetch call b :
  (request base fetch call b).1 = b ∨ (request base fetch call b).1 = logout b.
Proof. unfold request. repeat case_match; auto. Qed.

(** The login request never ends the session. *)
Lemma request_login_browser base fetch u pw b :
  (request base fetch (api.login u pw) b).1 = b.
Proof.
  unfold request. destruct (fetch _) as [resp|]; [|done].
  assert (session_path (api.login u pw).1 = false) as -> by reflexivity.
  rewrite andb_false_r. by destruct (negb (resp_ok resp)).
Qed.

Lemma set_browser_id t : set_browser t.(browser) t = t.
Proof. by destruct t. Qed.

Lemma guard_ok fetch t : tab_ok t → tab_ok (run_guard fetch t).
Proof.
  intros [Hh Ht]. unfold run_guard, guard_effect.
  destruct (authenticated (guard t)) eqn:Ha; [split; cbn; auto|].
  unfold checkAuth. destruct (isAuthenticated (browser t)) eqn:Hb; cbn [negb];
    [destruct (fetch _) as [resp|m]; [destruct (status resp =? 401)|]|];
    apply set_nav_ok; (split; [done|]); cbn; auto; congruence.
Qed.

Lemma login_ok base fetch t : tab_ok t → tab_ok (run_login base fetch t).
Proof.
  intros [Hh Ht]. unfold run_login, handleSubmit.
  pose proof (request_login_browser base fetch t.(login).(username) t.(login).(password)
    t.(browser)) as Hb.
  cbn [username password submit_start setLoading setError].
  destruct (request _ _ _ _) as [b answer]. cbn in Hb. subst b.
  unfold submit_end. destruct (match answer with Ok resp => token_of resp | Throw m => Throw m end);
    apply set_nav_ok; split; cbn; auto using setToken_authenticated.
Qed.

#[export] Hint Resolve load_ok set_nav_ok arrive_ok logout_ok guard_ok login_ok : dtm.

Lemma tab_ok_step {A} base (page : Page → node A) t t' : tab_ok t → step base page t t' → tab_ok t'.
Proof.
  intros Ht Hs. destruct Hs as [t t' Hui|fetch t Hl|fetch t _|fetch call t _|t|t|t path].
  4: unfold run_request; destruct (request_browser base fetch call t.(browser)) as [->| ->];
     [by rewrite set_browser_id|].
  6: unfold settle; destruct (href (browser t)).
  1: destruct Hui as [t path e d [a|[to| |a]] _]; [done|done|apply logout_ok|done].
  all: auto with dtm.
Qed.

Lemma reachable_ok {A} base (page : Page → node A) b path t :
  rtc (step base page) (load b path) t → tab_ok t.
Proof.
  intros Hr. eapply rtc_invariant; [apply (load_ok b path)| |exact Hr].
  intros x y Hx Hxy. by eapply tab_ok_step.
Qed.

(** What a guard that has just been mounted comes to. *)
Lemma guard_runs fetch t :
  t.(guard) = guard_initial → t.(nav) = None →
  let t' := run_guard fetch t in
  let answered P := ∃ token resp, getToken t.(browser) = Some token ∧
                      fetch (check_request t.(browser)) = Ok resp ∧ P resp.(status) in
  t'.(location) = t.(location) ∧ t'.(guard).(checking) = false ∧
  (t'.(guard).(authenticated) = true ↔ answered (λ code, code ≠ 401)) ∧
  (answered (λ code, code ≠ 401) → t'.(nav) = None) ∧
  (¬ answered (λ code, code ≠ 401) → t'.(nav) = Some "/login") ∧
  (answered (λ code, code = 401) → getToken t'.(browser) = None) ∧
  (¬ answered (λ code, code = 401) → getToken t'.(browser) = getToken t.(browser)).
Proof.
  intros Hg Hn. cbv zeta. unfold run_guard, guard_effect, checkAuth, isAuthenticated. rewrite Hg.
  cbn [authenticated guard_initial].
  destruct (getToken (browser t)) as [token|] eqn:Ht; cbn [negb].
  - destruct (fetch (check_request (browser t))) as [resp|m];
      [destruct (Z.eqb_spec resp.(status) 401) as [H401|H401]|]; cbn;
      (split_and!; [done|done|..]); try (split; naive_solver); try naive_solver.
    intros _. apply lookup_delete_eq.
  - split_and!; try done; try naive_solver.
Qed.

(** ** Theorems *)

(** C6: whatever the user does and the network answers, the layout behind the
    guard - with its navigation and pages - is on screen only while the browser
    holds a token, or has just been sent to the login page by a logout or a 401
    to a page's request, whose load then takes the layout away.  In particular
    the moment between the guard's rejection and the router's navigation shows
    nothing. *)
Theorem app_needs_token {A} base (page : Page → node A) b path t :
  rtc (step base page) (load b path) t → shows_app page t = true →
  at_login t = false ∧
  (isAuthenticated t.(browser) = true ∨
   t.(browser).(href) = Some "/login" ∧ shows_app page (settle t) = false ∧
   (settle t).(location) = "/login").
Proof.
  intros [_ Hok]%reachable_ok (Hl & _ & Ha)%shows_app_spec. split; [done|].
  destruct (Hok Ha) as [?|Hh]; [by left|right]. unfold settle. by rewrite Hh.
Qed.

(** C36: what the guard makes of a fresh page: the layout appears, at the
    address asked for, exactly if a token is stored and the check is answered
    with anything but 401; otherwise the router is sent to the login page; the
    token is removed exactly if the answer to the check is a 401. *)
Theorem guard_outcome {A} (page : Page → node A) fetch b path :
  path_matches "/login" path = false →
  let t := run_guard fetch (load b path) in
  let answered P := ∃ token resp, getToken b = Some token ∧
                      fetch (check_request b) = Ok resp ∧ P resp.(status) in
  (shows_app page t = true ↔ answered (λ code, code ≠ 401)) ∧
  (shows_app page t = true → t.(location) = path ∧ t.(nav) = None) ∧
  (shows_app page t = false → (arrive t).(location) = "/login" ∧ shows_app page (arrive t) = false) ∧
  (answered (λ code, code = 401) → getToken t.(browser) = None) ∧
  (¬ answered (λ code, code = 401) → getToken t.(browser) = getToken b).
Proof.
  intros Hp. cbv zeta.
  pose proof (guard_runs fetch (load b path) eq_refl eq_refl)
    as (Hloc & Hc & Ha & Hnav & Hno & Hrej & Hkeep).
  assert (at_login (run_guard fetch (load b path)) = false) as Hl by (unfold at_login; by rewrite Hloc).
  assert (shows_app page (run_guard fetch (load b path)) = true ↔
    (run_guard fetch (load b path)).(guard).(authenticated) = true) as Hs
    by (rewrite shows_app_spec; tauto).
  split_and!; [by rewrite Hs| |..].
  - intros Hshow. split; [done|]. by apply Hnav, Ha, Hs.
  - intros Hshow. assert ((run_guard fetch (load b path)).(nav) = Some "/login") as Hn.
    { apply Hno. intros Hpass%Ha%Hs. congruence. }
    unfold arrive. rewrite Hn. done.
  - exact Hrej.
  - exact Hkeep.
Qed.

(** C24: signing in works end to end: when the server answers the login with a
    token and accepts that token at the check, submitting the form brings the
    user to the dashboard with the token stored; when it answers with an error,
    the tab stays on the login page, stores nothing and shows the message. *)
Theorem login_then_guard {A} base (page : Page → node A) fetch t :
  at_login t = true →
  match (request base fetch (api.login t.(login).(username) t.(login).(password)) t.(browser)).2 with
  | Ok (JObj l) =>
    ∀ token resp, obj_get "token" l = Some (JStr token) →
      fetch (check_request (setToken token t.(browser))) = Ok resp → resp.(status) ≠ 401 →
      let t' := run_guard fetch (arrive (run_login base fetch t)) in
      shows_app page t' = true ∧ t'.(location) = "/" ∧ getToken t'.(browser) = Some token
  | Ok _ => True
  | Throw m =>
    let t' := run_login base fetch t in
    t'.(browser) = t.(browser) ∧ at_login t' = true ∧ t'.(login).(error) = m ∧
    t'.(login).(l_loading) = false
  end.
Proof.
  intros Hl. pose proof (request_login_browser base fetch t.(login).(username)
    t.(login).(password) t.(browser)) as Hb.
  unfold run_login, handleSubmit.
  change (username (submit_start (login t))) with (username (login t)).
  change (password (submit_start (login t))) with (password (login t)).
  destruct (request _ _ _ _) as [b answer]. cbn in Hb |- *. subst b.
  destruct answer as [[| | | | | |l]|m]; try done.
  intros token resp Htok Hf Hr. unfold submit_end, token_of. rewrite Htok. cbn [js_String].
  set (t1 := arrive _).
  assert (t1.(guard) = guard_initial ∧ t1.(nav) = None ∧ t1.(location) = "/" ∧
    t1.(browser) = setToken token t.(browser)) as (Hg & Hn & Hloc1 & Hb).
  { subst t1. unfold arrive, navigate, at_login in *. cbn. by rewrite Hl. }
  pose proof (guard_runs fetch t1 Hg Hn) as (Hloc & Hc & Ha & _ & _ & _ & Hkeep).
  rewrite Hb, getToken_setToken in Ha, Hkeep.
  split_and!.
  - apply shows_app_spec. unfold at_login. rewrite Hloc, Hloc1. split_and!; [done..|].
    apply Ha. eauto.
  - by rewrite Hloc.
  - apply Hkeep. intros (? & resp' & _ & Hf' & ?). congruence.
Qed.

(** ** Concrete runs *)

(** A server that knows one user. *)
Definition server (r : HttpRequest) : result HttpResponse :=
  if decide (r.(url) = "/api/v1/login")
  then Ok {| status := 200; statusText := "OK"; payload := Ok (JObj [("token", JStr "t1")]) |}
  else if decide (("Authorization", "Bearer t1") ∈ r.(headers))
  then Ok {| status := 200; statusText := "OK"; payload := Ok (JObj [("status", JStr "ok")]) |}
  else Ok {| status := 401; statusText := "Unauthorized"; payload := Ok JNull |}.

Definition no_token : Browser := {| localStorage := ∅; href := None |}.

Definition signed_in : Tab :=
  run_guard server (arrive (run_login None server (load no_token "/login"))).

(** A page without content. *)
Definition no_page (p : Page) : node unit := Null.

Lemma app_needs_token_witness :
  at_login signed_in = false ∧
  (isAuthenticated signed_in.(browser) = true ∨
   signed_in.(browser).(href) = Some "/login" ∧ shows_app no_page (settle signed_in) = false ∧
   (settle signed_in).(location) = "/login").
Proof.
  apply (app_needs_token None no_page no_token "/login"); [|vm_compute; reflexivity].
  eapply rtc_l; [apply (step_login _ _ server); reflexivity|].
  eapply rtc_l; [apply step_arrive|].
  apply rtc_once. apply (step_guard _ _ server). vm_compute. reflexivity.
Defined.

Lemma guard_outcome_witness :
  shows_app no_page (run_guard server (load (setToken "t1" no_token) "/results")) = true.
Proof.
  refine (proj2 (proj1 (guard_outcome no_page server (setToken "t1" no_token) "/results" _)) _).
  - reflexivity.
  - eexists "t1", _. split_and!; [reflexivity|vm_compute; reflexivity|discriminate].
Defined.

Lemma login_then_guard_witness :
  shows_app no_page signed_in = true ∧ signed_in.(location) = "/" ∧
  getToken signed_in.(browser) = Some "t1".
Proof.
  refine (login_then_guard None no_page server (load no_token "/login") eq_refl "t1"
    {| status := 200; statusText := "OK"; payload := Ok (JObj [("status", JStr "ok")]) |} _ _ _).
  - reflexivity.
  - vm_compute. reflexivity.
  - discriminate.
Defined.
