(* ===== verification/Combobox.v ===== *)
(** * The combobox ([ui/src/components/Combobox.tsx])

    A controlled component: the selection [value] belongs to the parent, the
    open flag and the search text are its own state.  [update] is what each
    handler does to the own state together with what it asks the parent for. *)
From Stdlib Require Import Ascii ZArith Lia.
From stdpp Require Import base list strings pretty gmap sets relations sorting.
From S2P Require Import Prelude JsStd Jsx.
Local Open Scope Z_scope.

Record Props := {
  options : list string;
  value : list string;
  multi : bool;
  placeholder : option string;
  disabled : bool;
  loading : bool
}.

Record State := { open : bool; search : string }.

Definition initial : State := {| open := false; search := "" |}.

Definition setOpen (b : bool) (s : State) : State := {| open := b; search := s.(search) |}.
Definition setSearch (t : string) (s : State) : State := {| open := s.(open); search := t |}.

Inductive Action :=
  | TriggerClick
  | TagRemove (v : string)
  | InputChange (t : string)
  | InputFocus
  | KeyDown (key : string)
  | OptionClick (opt : string).

(** What a handler asks for outside the component: a call of [onChange], or the
    timer that focuses the input. *)
Inductive Output := OnChange (value : list string) | FocusInput.

#[export] Instance Output_eq_dec : EqDecision Output.
Proof. solve_decision. Defined.

Definition filtered (p : Props) (s : State) : list string :=
  filter (λ o, includes (toLowerCase s.(search)) (toLowerCase o)) p.(options).

(** [value.filter(v => v !== item)]. *)
Definition without (item : string) (l : list string) : list string := filter (λ v, v ≠ item) l.
Arguments without : simpl never.

Definition toggle (p : Props) (item : string) (s : State) : State * list Output :=
  if p.(multi) then
    if decide (item ∈ p.(value)) then (s, [OnChange (without item p.(value))])
    else (s, [OnChange (p.(value) ++ [item])])
  else (setSearch "" (setOpen false s), [OnChange [item]]).

Definition remove (p : Props) (item : string) (s : State) : State * list Output :=
  (s, [OnChange (without item p.(value))]).

Definition on_keydown (p : Props) (key : string) (s : State) : State * list Output :=
  let s1 := if decide (key = "Escape") then setSearch "" (setOpen false s) else s in
  (* the second test reads the search text of the render, not the cleared one *)
  if bool_decide (key = "Backspace") && negb (truthy s.(search)) && p.(multi)
  then match last p.(value) with
       | Some v => remove p v s1
       | None => (s1, [])
       end
  else (s1, []).

Definition update (p : Props) (a : Action) (s : State) : State * list Output :=
  match a with
  | TriggerClick => if negb p.(disabled) then (setOpen true s, [FocusInput]) else (s, [])
  | TagRemove v => remove p v s
  | InputChange t =>
    let s1 := setSearch t s in
    ((if negb s.(open) then setOpen true s1 else s1), [])
  | InputFocus => (setOpen true s, [])
  | KeyDown key => on_keydown p key s
  | OptionClick opt => toggle p opt s
  end.

(** The document listener: [inside] when the event's target is within the
    component. *)
Definition on_mousedown (inside : bool) (s : State) : State :=
  if inside then s else setSearch "" (setOpen false s).

(** ** Rendering *)

Definition displayText (p : Props) : string :=
  if p.(multi) then "" else ostr_or (head p.(value)) "".

Definition triggerStyle (disabled : bool) : style :=
  [("display", Some "flex"); ("alignItems", Some "center"); ("gap", Some "4");
   ("cursor", Some (if disabled then "not-allowed" else "pointer"));
   ("flexWrap", Some "wrap"); ("minHeight", Some "38"); ("padding", Some "4px 12px");
   ("opacity", Some (if disabled then "0.5" else "1"))].

Definition optionStyle (selected : bool) : style :=
  [("display", Some "flex"); ("alignItems", Some "center"); ("gap", Some "8");
   ("padding", Some "8px 12px"); ("cursor", Some "pointer");
   ("background",
     Some (if selected then "var(--accent-muted, rgba(99,102,241,0.1))" else "transparent"));
   ("transition", Some "background 0.1s")].

Definition checkboxStyle (checked : bool) : style :=
  [("width", Some "16"); ("height", Some "16"); ("borderRadius", Some "3");
   ("border", Some (if checked then "1px solid var(--accent)" else "1px solid var(--border)"));
   ("background", Some (if checked then "var(--accent)" else "transparent"));
   ("display", Some "flex"); ("alignItems", Some "center"); ("justifyContent", Some "center");
   ("color", Some "#fff"); ("flexShrink", Some "0"); ("fontSize", Some "10")].

Definition tag_el (v : string) : node Action :=
  el "span" [("key", v)]
    [Text v; Elem "span" [] false [On "click" true (λ _, Some (TagRemove v))] [Text "×"]].

Definition input_el (p : Props) (s : State) : node Action :=
  Elem "input"
    [("value", if s.(open) then s.(search) else displayText p);
     ("placeholder",
       if bool_decide (length p.(value) = 0%nat) then ostr_or p.(placeholder) "Select..."
       else if p.(multi) then "Search..." else "")]
    p.(disabled)
    [on_value "change" InputChange; on "focus" InputFocus; on_value "keydown" KeyDown] [].

Definition option_el (p : Props) (opt : string) : node Action :=
  let selected := bool_decide (opt ∈ p.(value)) in
  Elem "div" (("key", opt) :: style_attrs (optionStyle selected)) false
    [on "click" (OptionClick opt)]
    [when p.(multi)
       (el "span" (style_attrs (checkboxStyle selected))
          [when selected (el "span" [("style:fontSize", "10")] [Text "✓"])]);
     el "span" [("style:fontSize", "13")] [Text opt]].

Definition dropdown (p : Props) (s : State) : node Action :=
  el "div" []
    (if p.(loading) then [el "div" [] [Text "Loading..."]]
     else if bool_decide (length (filtered p s) = 0%nat)
     then [el "div" [] [Text (if truthy s.(search) then "No matches" else "No options")]]
     else map (option_el p) (filtered p s)).

Definition render (p : Props) (s : State) : node Action :=
  el "div" []
    [Elem "div" (("className", "dtm-input") :: style_attrs (triggerStyle p.(disabled))) false
       [on "click" TriggerClick]
       [when (p.(multi) && bool_decide (0 < length p.(value))%nat)
          (el "div" [] (map tag_el p.(value)));
        input_el p s;
        el "svg" [("icon", "chevron")] []];
     when s.(open) (dropdown p s)].

(** ** The component inside a parent that stores what [onChange] reports

    This is how the policy form uses it: [onChange={setTargetNsList}]. *)

Record World := { sel : list string; st : State }.

Section world.
(** The props other than the value. *)
Context (opts : list string) (m : bool) (ph : option string) (dis ld : bool).

Definition props (w : World) : Props :=
  {| options := opts; value := w.(sel); multi := m; placeholder := ph;
     disabled := dis; loading := ld |}.

Definition apply_output (o : Output) (w : World) : World :=
  match o with
  | OnChange v => {| sel := v; st := w.(st) |}
  | FocusInput => if dis then w else {| sel := w.(sel); st := setOpen true w.(st) |}
  end.

Definition act_on (a : Action) (w : World) : World :=
  let '(s, outs) := update (props w) a w.(st) in
  foldl (λ w o, apply_output o w) {| sel := w.(sel); st := s |} outs.

Definition view (w : World) : node Action := render (props w) w.(st).

Definition step : relation World := ui_step view act_on.
End world.

(** ** Lemmas *)

Lemma elem_of_without x item l : x ∈ without item l ↔ x ≠ item ∧ x ∈ l.
Proof. unfold without. by rewrite list_elem_of_filter. Qed.

Lemma without_absent item l : item ∉ l → without item l = l.
Proof. intros Hi. apply filter_true. rewrite Forall_forall. set_solver. Qed.

Lemma without_NoDup item l : NoDup l → NoDup (without item l).
Proof. apply NoDup_filter. Qed.

(** What an enabled listener of the rendered combobox can do. *)
Lemma render_listeners p s l d a :
  l ∈ listeners (render p s) → l.(act) d = Some a →
  a = TriggerClick ∨ (∃ v, a = TagRemove v ∧ p.(multi) = true ∧ v ∈ p.(value)) ∨
  (p.(disabled) = false ∧ (a = InputChange d ∨ a = InputFocus ∨ a = KeyDown d)) ∨
  (∃ o, a = OptionClick o ∧ s.(open) = true ∧ p.(loading) = false ∧ o ∈ filtered p s).
Proof.
  intros Hl Ha. unfold render in Hl. inv_listeners Hl.
  - subst. left. by injection Ha as <-.
  - right; left. unfold tag_el in Hl. inv_listeners Hl. subst. bool_to_prop.
    injection Ha as <-. eauto.
  - right; right; left. unfold input_el in Hl. inv_listeners Hl; subst;
      injection Ha as <-; auto.
  - right; right; right. unfold dropdown in Hl. inv_listeners Hl.
    unfold option_el in Hl. inv_listeners Hl. subst. injection Ha as <-. eauto.
Qed.

Lemma NoDup_snoc {A} (l : list A) x : NoDup l → x ∉ l → NoDup (l ++ [x]).
Proof.
  intros Hl Hx. apply NoDup_app. split_and!; [done| |apply NoDup_singleton]. set_solver.
Qed.

(** The selections one action of the multi-select can lead to. *)
Inductive reselect (opts : list string) (l : list string) : list string → Prop :=
  | reselect_same : reselect opts l l
  | reselect_remove v : reselect opts l (without v l)
  | reselect_add v : v ∈ opts → v ∉ l → reselect opts l (l ++ [v])
  | reselect_single v : v ∈ opts → reselect opts l [v].

Lemma filtered_sub o p s : o ∈ filtered p s → o ∈ p.(options).
Proof. unfold filtered. rewrite list_elem_of_filter. tauto. Qed.

Section world_lemmas.
Context (opts : list string) (m : bool) (ph : option string) (dis ld : bool).
Implicit Types (w : World).

Lemma act_on_reselect w l d a :
  l ∈ listeners (view opts m ph dis ld w) → l.(act) d = Some a →
  reselect opts w.(sel) (act_on opts m ph dis ld a w).(sel).
Proof.
  intros Hl Ha. destruct (render_listeners _ _ _ _ _ Hl Ha)
    as [->|[(v & -> & _)|[(_ & [->|[->| ->]])|(o & -> & _ & _ & Ho%filtered_sub)]]];
    unfold act_on; cbn.
  - destruct dis; constructor.
  - constructor.
  - constructor.
  - constructor.
  - unfold on_keydown; cbn.
    destruct (_ && _); [destruct (last _)|]; cbn; constructor.
  - unfold toggle; cbn. destruct m; [case_decide|]; cbn; by constructor.
Qed.

Lemma reselect_NoDup l l' : NoDup l → reselect opts l l' → NoDup l'.
Proof.
  destruct 2; [done|by apply without_NoDup|by apply NoDup_snoc|apply NoDup_singleton].
Qed.

Lemma act_on_option_multi x w :
  act_on opts true ph dis ld (OptionClick x) w =
    {| sel := if decide (x ∈ w.(sel)) then without x w.(sel) else w.(sel) ++ [x];
       st := w.(st) |}.
Proof. unfold act_on, update, toggle; cbn. by case_decide. Qed.

Lemma without_snoc x l : without x (l ++ [x]) = without x l.
Proof.
  unfold without. rewrite filter_app, filter_cons, filter_nil.
  rewrite decide_False by naive_solver. apply app_nil_r.
Qed.

Lemma without_snoc_Permutation x l : NoDup l → x ∈ l → without x l ++ [x] ≡ₚ l.
Proof.
  intros Hnd. induction Hnd as [|y l Hy Hnd IH]; [inversion 1|].
  unfold without. rewrite filter_cons. change (filter _ l) with (without x l). intros Hx.
  case_decide as Hyx; cbn.
  - constructor. apply IH. set_solver.
  - assert (y = x) as -> by (destruct (decide (y = x)); [done|contradiction]).
    rewrite without_absent by done. by rewrite (comm (++)).
Qed.
End world_lemmas.

(** ** Properties *)

(** C21: whatever the user does with the mouse and the keyboard, the selection
    of a combobox never holds a value twice, and every selected value is an
    offered option or was selected from the start. *)
Theorem selection_invariant opts m ph dis ld w w' :
  NoDup w.(sel) → rtc (step opts m ph dis ld) w w' →
  NoDup w'.(sel) ∧ ∀ v, v ∈ w'.(sel) → v ∈ opts ∨ v ∈ w.(sel).
Proof.
  intros Hw. apply (ui_invariant _ _
    (λ w', NoDup w'.(sel) ∧ ∀ v, v ∈ w'.(sel) → v ∈ opts ∨ v ∈ w.(sel))); [|naive_solver].
  intros w1 l d a [Hnd Hsub] Hl Ha.
  pose proof (act_on_reselect _ _ _ _ _ _ _ _ _ Hl Ha) as Hre.
  split; [by eapply reselect_NoDup|]. intros v. destruct Hre; [by auto| | |].
  - rewrite elem_of_without. naive_solver.
  - rewrite elem_of_app, list_elem_of_singleton. naive_solver.
  - rewrite list_elem_of_singleton. naive_solver.
Qed.

(** In a multi-select, clicking an option flips whether it is selected and
    leaves the other values and their order alone; clicking it again restores
    the selection, up to the position of the option. *)
Theorem toggle_option opts ph dis ld x w :
  NoDup w.(sel) →
  let w1 := act_on opts true ph dis ld (OptionClick x) w in
  let w2 := act_on opts true ph dis ld (OptionClick x) w1 in
  (x ∈ w1.(sel) ↔ x ∉ w.(sel)) ∧ without x w1.(sel) = without x w.(sel) ∧
  w2.(sel) ≡ₚ w.(sel) ∧ w1.(st) = w.(st).
Proof.
  intros Hnd. cbv zeta. rewrite !act_on_option_multi. cbn [sel st].
  destruct (decide (x ∈ sel w)) as [Hx|Hx].
  - assert (x ∉ without x (sel w)) as Hx' by (rewrite elem_of_without; naive_solver).
    rewrite (decide_False (P := x ∈ without x (sel w))) by done.
    split_and!; [naive_solver|by apply without_absent|by apply without_snoc_Permutation|done].
  - rewrite decide_True by set_solver.
    split_and!; [set_solver|apply without_snoc| |done].
    by rewrite without_snoc, without_absent.
Qed.

(** In a multi-select, Backspace in an empty search field removes exactly
    the last tag; while the search field holds text no key changes the
    selection. *)
Theorem backspace_removes_last opts ph dis ld key w :
  (∀ l v, w.(sel) = l ++ [v] → NoDup w.(sel) → w.(st).(search) = "" →
     (act_on opts true ph dis ld (KeyDown "Backspace") w).(sel) = l) ∧
  (w.(st).(search) ≠ "" → (act_on opts true ph dis ld (KeyDown key) w).(sel) = w.(sel)).
Proof.
  split.
  - intros l v Hsel Hnd Hs. rewrite Hsel in Hnd. apply NoDup_app in Hnd as (_ & Hv & _).
    unfold act_on, update, on_keydown. cbn. rewrite Hs, Hsel, last_snoc.
    rewrite bool_decide_eq_true_2 by done. cbn. rewrite Hsel.
    rewrite without_snoc. apply without_absent. intros Hin. by apply (Hv v Hin), list_elem_of_singleton.
  - intros Hs. unfold act_on, update, on_keydown.
    destruct (search (st w)) as [|c t]; [done|]. cbn. by rewrite andb_false_r.
Qed.

(** A disabled single-select that is closed does not react: no event on it
    changes the selection, opens the list or changes the search text. *)
Theorem disabled_single_inert opts ph ld w w' :
  w.(st).(open) = false → rtc (step opts false ph true ld) w w' → w' = w.
Proof.
  intros Ho. apply (ui_invariant _ _ (λ w', w' = w)); [|done].
  intros w1 l d a -> Hl Ha.
  destruct (render_listeners _ _ _ _ _ Hl Ha)
    as [->|[(v & _ & [=] & _)|[([=] & _)|(o & _ & Ho' & _)]]].
  - by destruct w.
  - cbn in Ho'. congruence.
Qed.

(** The same does not hold of a disabled multi-select: the cross of a tag
    still removes its value. *)
Theorem disabled_multi_tag_removed opts ph ld v :
  step opts true ph true ld {| sel := [v]; st := initial |} {| sel := []; st := initial |}.
Proof.
  refine (eq_ind _ (step opts true ph true ld {| sel := [v]; st := initial |}) _ _ _).
  - apply (ui_event _ _ _ [0; 0; 0; 1]%nat "click" "" (TagRemove v)). cbn.
    apply list_elem_of_singleton. reflexivity.
  - unfold act_on, update, remove. cbn. f_equal. apply (without_snoc v []).
Qed.

(** ** Witnesses *)

Definition namespaces : list string := ["default"; "kube-system"].

Definition opened (l : list string) : World := {| sel := l; st := {| open := true; search := "" |} |}.

Lemma selection_invariant_witness :
  NoDup (opened ["default"; "kube-system"]).(sel).
Proof.
  refine (proj1 (selection_invariant namespaces true None false false
    (opened ["default"]) (opened ["default"; "kube-system"]) _ _)).
  - apply NoDup_singleton.
  - apply rtc_once.
    change (opened ["default"; "kube-system"]) with
      (act_on namespaces true None false false (OptionClick "kube-system") (opened ["default"])).
    apply (ui_event _ _ _ [1; 1]%nat "click" ""). vm_compute. apply list_elem_of_here.
Defined.

Lemma toggle_option_witness :
  "default" ∈ (act_on namespaces true None false false (OptionClick "default") (opened [])).(sel).
Proof.
  refine (proj2 (proj1 (toggle_option namespaces None false false "default" (opened []) _)) _).
  - apply NoDup_nil_2.
  - apply not_elem_of_nil.
Defined.

Lemma backspace_removes_last_witness :
  (act_on namespaces true None false false (KeyDown "Backspace") (opened ["a"; "b"])).(sel) = ["a"].
Proof.
  refine (proj1 (backspace_removes_last namespaces None false false "x" (opened ["a"; "b"]))
    ["a"] "b" _ _ _); [reflexivity| |reflexivity].
  apply (bool_decide_unpack _). vm_compute. exact I.
Defined.

Lemma disabled_single_inert_witness :
  ¬ rtc (step namespaces false None true false) {| sel := ["default"]; st := initial |}
      {| sel := ["kube-system"]; st := initial |}.
Proof.
  intros Hr.
  apply (disabled_single_inert namespaces None false {| sel := ["default"]; st := initial |}
    {| sel := ["kube-system"]; st := initial |} eq_refl) in Hr.
  discriminate Hr.
Defined.
