(* ===== verification/PolicyForm.v ===== *)
(** * The create/edit dialog of a policy ([PolicyFormModal] in [ui/src/pages/Policies.tsx])

    One component serves both: with [editPolicy] it edits that policy, without
    it creates one.  The two comboboxes of the form are mounted inside it with
    their own state; the mutation and the requests it sends are part of the
    state, so that a theorem can speak of what is sent. *)
From Stdlib Require Import Ascii ZArith Lia.
From stdpp Require Import base list strings pretty gmap sets relations sorting.
From S2P Require Import Prelude JsStd Jsx Widgets Toast Client Combobox.
Local Open Scope Z_scope.

(** ** State *)

Record Form := {
  f_name : string;
  f_namespace : string;
  f_provider : string;
  f_model : string;
  secretName : string;
  f_fullScan : string;
  f_failedRescan : string;
  targetNsList : list string;
  f_checks : list CheckItem;
  initialized : bool;
  showPreview : bool
}.

Definition blank_check (id : string) : CheckItem :=
  {| ci_id := id; ci_description := ""; ci_severity := "warning" |}.

Definition default_checks : list CheckItem := [blank_check "check-1"].

(** The initial state, which [resetForm] also restores. *)
Definition default_form : Form :=
  {| f_name := ""; f_namespace := ""; f_provider := "claude"; f_model := "";
     secretName := "dtm-llm-secret"; f_fullScan := "0 */6 * * *";
     f_failedRescan := "*/30 * * * *"; targetNsList := []; f_checks := default_checks;
     initialized := false; showPreview := false |}.

Definition resetForm (f : Form) : Form := default_form.

Definition setName (v : string) (f : Form) : Form :=
  {| f_name := v; f_namespace := f.(f_namespace); f_provider := f.(f_provider);
     f_model := f.(f_model); secretName := f.(secretName); f_fullScan := f.(f_fullScan);
     f_failedRescan := f.(f_failedRescan); targetNsList := f.(targetNsList);
     f_checks := f.(f_checks); initialized := f.(initialized);
     showPreview := f.(showPreview) |}.
Definition setNamespace (v : string) (f : Form) : Form :=
  {| f_name := f.(f_name); f_namespace := v; f_provider := f.(f_provider);
     f_model := f.(f_model); secretName := f.(secretName); f_fullScan := f.(f_fullScan);
     f_failedRescan := f.(f_failedRescan); targetNsList := f.(targetNsList);
     f_checks := f.(f_checks); initialized := f.(initialized);
     showPreview := f.(showPreview) |}.
Definition setProvider (v : string) (f : Form) : Form :=
  {| f_name := f.(f_name); f_namespace := f.(f_namespace); f_provider := v;
     f_model := f.(f_model); secretName := f.(secretName); f_fullScan := f.(f_fullScan);
     f_failedRescan := f.(f_failedRescan); targetNsList := f.(targetNsList);
     f_checks := f.(f_checks); initialized := f.(initialized);
     showPreview := f.(showPreview) |}.
Definition setModel (v : string) (f : Form) : Form :=
  {| f_name := f.(f_name); f_namespace := f.(f_namespace); f_provider := f.(f_provider);
     f_model := v; secretName := f.(secretName); f_fullScan := f.(f_fullScan);
     f_failedRescan := f.(f_failedRescan); targetNsList := f.(targetNsList);
     f_checks := f.(f_checks); initialized := f.(initialized);
     showPreview := f.(showPreview) |}.
Definition setSecretName (v : string) (f : Form) : Form :=
  {| f_name := f.(f_name); f_namespace := f.(f_namespace); f_provider := f.(f_provider);
     f_model := f.(f_model); secretName := v; f_fullScan := f.(f_fullScan);
     f_failedRescan := f.(f_failedRescan); targetNsList := f.(targetNsList);
     f_checks := f.(f_checks); initialized := f.(initialized);
     showPreview := f.(showPreview) |}.
Definition setFullScan (v : string) (f : Form) : Form :=
  {| f_name := f.(f_name); f_namespace := f.(f_namespace); f_provider := f.(f_provider);
     f_model := f.(f_model); secretName := f.(secretName); f_fullScan := v;
     f_failedRescan := f.(f_failedRescan); targetNsList := f.(targetNsList);
     f_checks := f.(f_checks); initialized := f.(initialized);
     showPreview := f.(showPreview) |}.
Definition setFailedRescan (v : string) (f : Form) : Form :=
  {| f_name := f.(f_name); f_namespace := f.(f_namespace); f_provider := f.(f_provider);
     f_model := f.(f_model); secretName := f.(secretName); f_fullScan := f.(f_fullScan);
     f_failedRescan := v; targetNsList := f.(targetNsList);
     f_checks := f.(f_checks); initialized := f.(initialized);
     showPreview := f.(showPreview) |}.
Definition setTargetNsList (v : list string) (f : Form) : Form :=
  {| f_name := f.(f_name); f_namespace := f.(f_namespace); f_provider := f.(f_provider);
     f_model := f.(f_model); secretName := f.(secretName); f_fullScan := f.(f_fullScan);
     f_failedRescan := f.(f_failedRescan); targetNsList := v;
     f_checks := f.(f_checks); initialized := f.(initialized);
     showPreview := f.(showPreview) |}.
Definition setChecks (v : list CheckItem) (f : Form) : Form :=
  {| f_name := f.(f_name); f_namespace := f.(f_namespace); f_provider := f.(f_provider);
     f_model := f.(f_model); secretName := f.(secretName); f_fullScan := f.(f_fullScan);
     f_failedRescan := f.(f_failedRescan); targetNsList := f.(targetNsList);
     f_checks := v; initialized := f.(initialized); showPreview := f.(showPreview) |}.
Definition setInitialized (v : bool) (f : Form) : Form :=
  {| f_name := f.(f_name); f_namespace := f.(f_namespace); f_provider := f.(f_provider);
     f_model := f.(f_model); secretName := f.(secretName); f_fullScan := f.(f_fullScan);
     f_failedRescan := f.(f_failedRescan); targetNsList := f.(targetNsList);
     f_checks := f.(f_checks); initialized := v; showPreview := f.(showPreview) |}.
Definition setShowPreview (v : bool) (f : Form) : Form :=
  {| f_name := f.(f_name); f_namespace := f.(f_namespace); f_provider := f.(f_provider);
     f_model := f.(f_model); secretName := f.(secretName); f_fullScan := f.(f_fullScan);
     f_failedRescan := f.(f_failedRescan); targetNsList := f.(targetNsList);
     f_checks := f.(f_checks); initialized := f.(initialized); showPreview := v |}.

(** The fields of the form as the edited policy fills them. *)
Definition prefill (p : ChecklistPolicy) (f : Form) : Form :=
  {| f_name := p.(p_metadata).(Client.name);
     f_namespace := p.(p_metadata).(Client.namespace);
     f_provider := p.(p_spec).(llm).(Client.provider);
     f_model := ostr_or p.(p_spec).(llm).(Client.model) "";
     secretName := p.(p_spec).(llm).(secretRef).(sr_name);
     f_fullScan := p.(p_spec).(schedule).(Client.fullScan);
     f_failedRescan := ostr_or p.(p_spec).(schedule).(Client.failedRescan) "";
     targetNsList := default [] p.(p_spec).(targetNamespaces);
     f_checks := p.(p_spec).(Client.checks);
     initialized := true; showPreview := f.(showPreview) |}.

(** The two tests the component makes while rendering: it fills the form when
    it is opened for a policy, and forgets that it did once it is closed. *)
Definition during_render (editPolicy : option ChecklistPolicy) (open : bool) (f : Form) : Form :=
  match editPolicy with
  | Some p =>
    if open && negb f.(initialized) then prefill p f
    else if negb open && f.(initialized) then setInitialized false f else f
  | None => if negb open && f.(initialized) then setInitialized false f else f
  end.

(** ** What is sent and what is previewed *)

Definition valid_check (c : CheckItem) : bool :=
  truthy (trim c.(ci_id)) && truthy (trim c.(ci_description)).

Definition validChecks (f : Form) : list CheckItem := filter (λ c, valid_check c) f.(f_checks).

(** [v || undefined]. *)
Definition or_undefined (v : string) : option string := if truthy v then Some v else None.

Definition submit_spec (f : Form) : PolicySpec :=
  {| schedule := {| Client.fullScan := f.(f_fullScan);
                    Client.failedRescan := or_undefined f.(f_failedRescan) |};
     llm := {| Client.provider := f.(f_provider); Client.model := or_undefined f.(f_model);
               secretRef := {| sr_name := f.(secretName); sr_key := None |} |};
     Client.checks := validChecks f;
     targetNamespaces :=
       if bool_decide (0 < length f.(targetNsList))%nat then Some f.(targetNsList) else None;
     notification := None;
     escalationThreshold := None |}.

Definition json_metadata (name namespace : string) : json :=
  JObj [("name", JStr name); ("namespace", JStr namespace)].

(** [handleSubmit]: the call of the mutation, if there is one. *)
Definition handleSubmit (editPolicy : option ChecklistPolicy) (defaultNs : string)
    (f : Form) : option ApiCall :=
  if negb (truthy (trim f.(f_name))) then None
  else if bool_decide (length (validChecks f) = 0%nat) then None
  else
    match editPolicy with
    | Some _ => Some (api.updatePolicy f.(f_namespace) f.(f_name) (json_spec (submit_spec f)))
    | None =>
      Some (api.createPolicy
        (JObj [("metadata", json_metadata f.(f_name) (str_or f.(f_namespace) defaultNs));
               ("spec", json_spec (submit_spec f))]))
    end.

(** [buildCR]: the object the preview shows. *)
Definition buildCR (defaultNs : string) (f : Form) : json :=
  let spec :=
    [("schedule",
       JObj (("fullScan", JStr f.(f_fullScan)) ::
             if truthy f.(f_failedRescan) then [("failedRescan", JStr f.(f_failedRescan))] else []));
     ("llm",
       JObj ([("provider", JStr f.(f_provider))]
             ++ (if truthy f.(f_model) then [("model", JStr f.(f_model))] else [])
             ++ [("secretRef", JObj [("name", JStr f.(secretName))])]));
     ("checks",
       JArr (map (λ c, JObj [("id", JStr c.(ci_id)); ("description", JStr c.(ci_description));
                             ("severity", JStr c.(ci_severity))]) (validChecks f)))] in
  let spec := if bool_decide (0 < length f.(targetNsList))%nat
              then spec ++ [("targetNamespaces", JArr (map JStr f.(targetNsList)))]
              else spec in
  JObj [("apiVersion", JStr "dtm.dtm.io/v1alpha1"); ("kind", JStr "ChecklistPolicy");
        ("metadata", json_metadata (str_or f.(f_name) "my-policy")
                                   (str_or f.(f_namespace) defaultNs));
        ("spec", JObj spec)].

(** ** The checks editor *)

Definition addCheck (f : Form) : Form :=
  setChecks (f.(f_checks) ++
    [blank_check ("check-" +:+ show_Z (Z.of_nat (length f.(f_checks)) + 1))]) f.

Definition removeCheck (idx : nat) (f : Form) : Form :=
  if bool_decide (length f.(f_checks) <= 1)%nat then f
  else setChecks (filter_index (λ i, bool_decide (i ≠ idx)) f.(f_checks)) f.

Inductive Field := FId | FDescription | FSeverity.

Definition set_field (fd : Field) (v : string) (c : CheckItem) : CheckItem :=
  match fd with
  | FId => {| ci_id := v; ci_description := c.(ci_description); ci_severity := c.(ci_severity) |}
  | FDescription => {| ci_id := c.(ci_id); ci_description := v; ci_severity := c.(ci_severity) |}
  | FSeverity => {| ci_id := c.(ci_id); ci_description := c.(ci_description); ci_severity := v |}
  end.

Definition updateCheck (idx : nat) (fd : Field) (v : string) (f : Form) : Form :=
  setChecks (imap (λ i c, if bool_decide (i = idx) then set_field fd v c else c) f.(f_checks)) f.

(** ** The mounted dialog *)

Inductive Mutation := Idle | Pending | Failed (message : string) | Succeeded.

Definition isPending (m : Mutation) : bool := match m with Pending => true | _ => false end.

(** What the dialog asks of its surroundings, in order. *)
Inductive Effect :=
  | Sent (call : ApiCall) | Invalidate (key : string)
  | ShowToast (message : string) (type : Toast.ToastType).

Record World := {
  open : bool;
  form : Form;
  nsBox : Combobox.State;
  targetBox : Combobox.State;
  mutation : Mutation;
  log : list Effect
}.

Inductive Action :=
  | SetName (v : string) | NsBox (a : Combobox.Action) | SetProvider (v : string)
  | SetModel (v : string) | SetSecretName (v : string) | SetFullScan (v : string)
  | SetFailedRescan (v : string) | TargetBox (a : Combobox.Action)
  | AddCheck | RemoveCheck (idx : nat) | UpdateCheck (idx : nat) (fd : Field) (v : string)
  | TogglePreview | Close | Submit.

Section dialog.
Context (editPolicy : option ChecklistPolicy) (defaultNs : string).
Context (clusterNamespaces : list string) (nsLoading : bool).
(** The third-party YAML printer. *)
Context (yaml_dump : json → string).

Definition isEdit : bool := match editPolicy with Some _ => true | None => false end.

Definition ns_props (f : Form) : Combobox.Props :=
  {| Combobox.options := clusterNamespaces;
     Combobox.value := if truthy f.(f_namespace) then [f.(f_namespace)] else [];
     Combobox.multi := false; Combobox.placeholder := Some defaultNs;
     Combobox.disabled := isEdit; Combobox.loading := nsLoading |}.

Definition target_props (f : Form) : Combobox.Props :=
  {| Combobox.options := clusterNamespaces; Combobox.value := f.(targetNsList);
     Combobox.multi := true; Combobox.placeholder := Some "Select namespaces...";
     Combobox.disabled := false; Combobox.loading := nsLoading |}.

Definition onChange (o : Combobox.Output) : option (list string) :=
  match o with Combobox.OnChange v => Some v | Combobox.FocusInput => None end.

(** A combobox handler: the new state of the box (focusing an enabled input
    opens it) and the values reported to the form. *)
Definition box_act (p : Combobox.Props) (a : Combobox.Action) (s : Combobox.State) :
    Combobox.State * list (list string) :=
  let '(s, outs) := Combobox.update p a s in
  (if bool_decide (Combobox.FocusInput ∈ outs) && negb p.(Combobox.disabled)
   then Combobox.setOpen true s else s,
   omap onChange outs).

Definition set_form (f : Form) (w : World) : World :=
  {| open := w.(open); form := f; nsBox := w.(nsBox); targetBox := w.(targetBox);
     mutation := w.(mutation); log := w.(log) |}.

(** Rendering: the tests of the component; the children of a closed dialog are
    unmounted and lose their state. *)
Definition rendered (w : World) : World :=
  {| open := w.(open);
     form := during_render editPolicy w.(open) w.(form);
     nsBox := if w.(open) then w.(nsBox) else Combobox.initial;
     targetBox := if w.(open) then w.(targetBox) else Combobox.initial;
     mutation := w.(mutation); log := w.(log) |}.

(** [handleClose]: [resetForm] and the parent's [onClose]. *)
Definition handleClose (w : World) : World :=
  {| open := false; form := resetForm w.(form); nsBox := w.(nsBox);
     targetBox := w.(targetBox); mutation := w.(mutation); log := w.(log) |}.

Definition handle (a : Action) (w : World) : World :=
  let f := w.(form) in
  match a with
  | SetName v => set_form (setName v f) w
  | NsBox a =>
    let '(s, vs) := box_act (ns_props f) a w.(nsBox) in
    {| open := w.(open);
       form := foldl (λ f v, setNamespace (ostr_or (head v) "") f) f vs;
       nsBox := s; targetBox := w.(targetBox); mutation := w.(mutation); log := w.(log) |}
  | SetProvider v => set_form (setProvider v f) w
  | SetModel v => set_form (setModel v f) w
  | SetSecretName v => set_form (setSecretName v f) w
  | SetFullScan v => set_form (setFullScan v f) w
  | SetFailedRescan v => set_form (setFailedRescan v f) w
  | TargetBox a =>
    let '(s, vs) := box_act (target_props f) a w.(targetBox) in
    {| open := w.(open); form := foldl (λ f v, setTargetNsList v f) f vs;
       nsBox := w.(nsBox); targetBox := s; mutation := w.(mutation); log := w.(log) |}
  | AddCheck => set_form (addCheck f) w
  | RemoveCheck idx => set_form (removeCheck idx f) w
  | UpdateCheck idx fd v => set_form (updateCheck idx fd v f) w
  | TogglePreview => set_form (setShowPreview (negb f.(showPreview)) f) w
  | Close => handleClose w
  | Submit =>
    match handleSubmit editPolicy defaultNs f with
    | Some call =>
      {| open := w.(open); form := f; nsBox := w.(nsBox); targetBox := w.(targetBox);
         mutation := Pending; log := w.(log) ++ [Sent call] |}
    | None => w
    end
  end.

Definition update (a : Action) (w : World) : World := rendered (handle a w).

(** The parent opens the dialog. *)
Definition opened (w : World) : World :=
  rendered {| open := true; form := w.(form); nsBox := w.(nsBox);
              targetBox := w.(targetBox); mutation := w.(mutation); log := w.(log) |}.

(** The mutation settles. *)
Definition onSuccess (w : World) : World :=
  rendered (handleClose
    {| open := w.(open); form := w.(form); nsBox := w.(nsBox); targetBox := w.(targetBox);
       mutation := Succeeded;
       log := w.(log) ++ [Invalidate "policies";
                          ShowToast (if isEdit then "Policy updated" else "Policy created")
                                    Toast.Success] |}).

Definition onError (message : string) (w : World) : World :=
  rendered {| open := w.(open); form := w.(form); nsBox := w.(nsBox);
              targetBox := w.(targetBox); mutation := Failed message; log := w.(log) |}.

(** A mouse press outside the two comboboxes. *)
Definition mousedown (in_ns in_target : bool) (w : World) : World :=
  {| open := w.(open); form := w.(form); nsBox := Combobox.on_mousedown in_ns w.(nsBox);
     targetBox := Combobox.on_mousedown in_target w.(targetBox);
     mutation := w.(mutation); log := w.(log) |}.

(** ** Rendering *)

Definition check_card (n : nat) (idx : nat) (c : CheckItem) : node Action :=
  Card.Card "" None false [("padding", Some "14"); ("background", Some "var(--bg-input)")]
    [el "div" [("className", "grid grid-2")]
       [FormField.FormField [Text "Check ID"] [("marginBottom", Some "0")]
          [FormField.Input c.(ci_id) "pod-health" false (UpdateCheck idx FId)];
        el "div" [("className", "flex gap-2 items-end")]
          [FormField.FormField
             [Text "Severity ";
              HelpTooltip.tip ("Importance level of this check. Used for alert escalation."
                +:+ newline +:+ "• info: informational" +:+ newline
                +:+ "• warning: needs attention" +:+ newline +:+ "• critical: urgent")]
             [("marginBottom", Some "0"); ("flex", Some "1")]
             [FormField.Select c.(ci_severity)
                [("info", "Info"); ("warning", "Warning"); ("critical", "Critical")]
                (UpdateCheck idx FSeverity)];
           Button.Button Button.Vghost Button.Sm Null (bool_decide (n <= 1)%nat)
             [("color", Some "var(--danger)"); ("marginBottom", Some "0")]
             (RemoveCheck idx) [el "svg" [("icon", "IconTrash")] []]]];
     FormField.FormField
       [Text "Description ";
        HelpTooltip.tip "Describe what to verify in plain language. The LLM reads this text and inspects the cluster accordingly. No need to structure it — just write naturally."]
       [("marginBottom", Some "0")]
       [FormField.TextArea c.(ci_description)
          "Verify that all pods in the default namespace are running and not in CrashLoopBackOff..."
          (UpdateCheck idx FDescription)]].

Definition body (w : World) : list (node Action) :=
  let f := w.(form) in
  [el "div" [("className", "grid grid-2")]
     [FormField.FormField [Text "Name"] []
        [FormField.Input f.(f_name) "my-policy" isEdit SetName];
      FormField.FormField
        [Text "Namespace ";
         HelpTooltip.tip "The Kubernetes namespace where this Policy CRD will be created. Leave empty to use the namespace where DTM is deployed."]
        [] [node_map NsBox (Combobox.render (ns_props f) w.(nsBox))]];
   el "div" [("className", "grid grid-3")]
     [FormField.FormField [Text "LLM Provider"] []
        [FormField.Select f.(f_provider)
           [("claude", "Claude"); ("gemini", "Gemini"); ("openai", "OpenAI")] SetProvider];
      FormField.FormField [Text "Model (optional)"] []
        [FormField.Input f.(f_model) "claude-haiku-4-5-20251001" false SetModel];
      FormField.FormField
        [Text "Secret Name ";
         HelpTooltip.tip "Name of the Kubernetes Secret containing the LLM API key. Must be in the same namespace as the Policy."]
        [] [FormField.Input f.(secretName) "" false SetSecretName]];
   el "div" [("className", "grid grid-2")]
     [FormField.FormField
        [Text "Full Scan Schedule ";
         HelpTooltip.tip "Cron schedule for running all checks.\ne.g. 0 */6 * * * (every 6 hours)"]
        [] [FormField.Input f.(f_fullScan) "0 */6 * * *" false SetFullScan];
      FormField.FormField
        [Text "Failed Rescan Schedule ";
         HelpTooltip.tip "Cron schedule for re-checking only failed items. A shorter interval helps detect recovery faster."]
        [] [FormField.Input f.(f_failedRescan) "*/30 * * * *" false SetFailedRescan]];
   FormField.FormField
     [Text "Target Namespaces ";
      HelpTooltip.tip "Namespaces the LLM will inspect. Leave empty to scan all accessible namespaces."]
     [] [node_map TargetBox (Combobox.render (target_props f) w.(targetBox))];
   el "div" []
     [el "div" [("className", "flex items-center justify-between mb-4")]
        [el "label" [] [Text "Checks ("; Text (show_Z (Z.of_nat (length f.(f_checks)))); Text ")"];
         Button.Button Button.Vsecondary Button.Sm (el "svg" [("icon", "IconPlus")] []) false []
           AddCheck [Text "Add Check"]];
      el "div" [("className", "flex flex-col gap-3")]
        (imap (check_card (length f.(f_checks))) f.(f_checks))];
   el "div" []
     [Button.Button Button.Vghost Button.Sm Null false
        [("fontSize", Some "12"); ("color", Some "var(--text-tertiary)");
         ("padding", Some "4px 0")]
        TogglePreview
        [Text (if f.(showPreview) then "▲ Hide YAML Preview" else "▼ Preview YAML")];
      when f.(showPreview) (el "pre" [] [Text (yaml_dump (buildCR defaultNs f))])];
   match w.(mutation) with
   | Failed message => el "div" [] [Text "Error: "; Text message]
   | _ => Null
   end;
   el "div" [("className", "flex justify-between")]
     [Button.Button Button.Vsecondary Button.Md Null false [] Close [Text "Cancel"];
      Button.Button Button.Vprimary Button.Md Null
        (isPending w.(mutation) || negb (truthy (trim f.(f_name)))) [] Submit
        [Text (if isPending w.(mutation) then (if isEdit then "Saving..." else "Creating...")
               else (if isEdit then "Save Changes" else "Create Policy"))]]].

Definition view (w : World) : node Action :=
  Modal.Modal w.(open) Close (if isEdit then "Edit Policy" else "Create Policy") 640 (body w).

Inductive step : relation World :=
  | step_ui w w' : ui_step view update w w' → step w w'
  | step_escape w key a :
    Modal.on_keydown w.(open) Close key = Some a → step w (update a w)
  | step_mousedown w i1 i2 : step w (mousedown i1 i2 w)
  | step_open w : w.(open) = false → step w (opened w)
  | step_success w : w.(mutation) = Pending → step w (onSuccess w)
  | step_error w message : w.(mutation) = Pending → step w (onError message w).

(** The dialog as it is mounted. *)
Definition initial : World :=
  {| open := false; form := default_form; nsBox := Combobox.initial;
     targetBox := Combobox.initial; mutation := Idle; log := [] |}.
End dialog.

(** ** Lemmas *)

(** The actions that leave the identity of the policy alone. *)
Definition keeps_identity (a : Action) : bool :=
  match a with SetName _ | NsBox _ | Close | Submit => false | _ => true end.

Section dialog_lemmas.
Context (ep : option ChecklistPolicy) (ns : string) (nss : list string) (ld : bool).
Context (dump : json → string).

(** What the enabled controls of the dialog do. *)
Lemma dialog_view_listeners w l d a :
  l ∈ listeners (view ep ns nss ld dump w) → l.(act) d = Some a →
  w.(open) = true ∧
  (a = Close ∨ (a = SetName d ∧ isEdit ep = false) ∨
   (∃ k b, a = NsBox b ∧ k ∈ listeners (Combobox.render (ns_props ep ns nss ld w.(form)) w.(nsBox)) ∧
      k.(act) d = Some b) ∨
   (a = Submit ∧ isPending w.(mutation) = false) ∨ keeps_identity a = true).
Proof.
  intros Hl Ha. unfold view, Modal.Modal in Hl.
  destruct (open w); cbn [negb] in Hl; [|inv_listeners Hl]. split; [done|].
  inv_ui Hl; try (subst; cbn in Ha; simplify_eq; auto; fail); unfold body in Hl.
  inv_ui Hl; subst; cbn in Ha; simplify_eq; auto 6.
  - right; right; left. destruct (act _ d) as [b|] eqn:Hb; simplify_eq/=. eauto 6.
  - destruct (act _ d) as [b|] eqn:Hb; simplify_eq/=. auto 6.
  - unfold check_card in Hl. inv_ui Hl; subst; cbn in Ha; simplify_eq; auto 6.
  - destruct (mutation w); inv_ui Hl.
  - bool_to_prop. auto 6.
Qed.

Lemma foldl_setTargetNsList f vs :
  foldl (λ f v, setTargetNsList v f) f vs = f ∨
  ∃ v, foldl (λ f v, setTargetNsList v f) f vs = setTargetNsList v f.
Proof.
  revert f. induction vs as [|v vs IH]; intros f; [by left|right]. cbn.
  destruct (IH (setTargetNsList v f)) as [->|[v' ->]]; [by exists v|by exists v'].
Qed.

Lemma handle_keeps a w :
  keeps_identity a = true →
  let w' := handle ep ns nss ld a w in
  w'.(open) = w.(open) ∧ w'.(log) = w.(log) ∧ w'.(mutation) = w.(mutation) ∧
  w'.(nsBox) = w.(nsBox) ∧
  w'.(form).(f_name) = w.(form).(f_name) ∧
  w'.(form).(f_namespace) = w.(form).(f_namespace) ∧
  w'.(form).(initialized) = w.(form).(initialized).
Proof.
  destruct a; try done; intros _; cbn [handle].
  - destruct (box_act _ _ _) as [s vs]. cbn.
    destruct (foldl_setTargetNsList (form w) vs) as [->|[v ->]]; done.
  - cbn. unfold removeCheck. by case_bool_decide.
Qed.

(** The in-render tests reach their fixed point at once. *)
Lemma rendered_open w :
  w.(open) = true → (∀ p, ep = Some p → w.(form).(initialized) = true) →
  rendered ep w = w.
Proof.
  destruct w as [o f n t m lg]; cbn. intros -> Hi. unfold rendered, during_render; cbn.
  destruct ep as [p|]; [|done]. by rewrite (Hi p eq_refl).
Qed.

(** A call the dialog may send. *)
Definition sent_for (call : ApiCall) : Prop :=
  ∃ spec, spec.(Client.checks) ≠ [] ∧ Forall (λ c, valid_check c = true) spec.(Client.checks) ∧
  match ep with
  | Some p =>
    truthy (trim p.(p_metadata).(Client.name)) = true ∧
    call = api.updatePolicy p.(p_metadata).(Client.namespace) p.(p_metadata).(Client.name)
             (json_spec spec)
  | None =>
    ∃ name namespace, truthy (trim name) = true ∧ (truthy ns = true → truthy namespace = true) ∧
    call = api.createPolicy (JObj [("metadata", json_metadata name namespace);
                                   ("spec", json_spec spec)])
  end.

(** While the dialog is closed its form is the default one; while it edits a
    policy the form carries that policy's name and namespace, and the disabled
    namespace box stays closed. *)
Record dialog_inv (w : World) : Prop := {
  inv_closed : w.(open) = false → w.(form) = default_form;
  inv_edit : ∀ p, ep = Some p → w.(open) = true →
    w.(form).(initialized) = true ∧ w.(form).(f_name) = p.(p_metadata).(Client.name) ∧
    w.(form).(f_namespace) = p.(p_metadata).(Client.namespace);
  inv_box : isEdit ep = true → w.(nsBox).(Combobox.open) = false;
  inv_log : ∀ call, Sent call ∈ w.(log) → sent_for call
}.

Lemma dialog_inv_initial : dialog_inv initial.
Proof. constructor; cbn; [done..|]. set_solver. Qed.

Lemma validChecks_valid f : Forall (λ c, valid_check c = true) (validChecks f).
Proof.
  unfold validChecks. rewrite Forall_forall. intros c [Hc _]%list_elem_of_filter.
  by apply Is_true_true.
Qed.

Lemma handleSubmit_sent f call :
  (∀ p, ep = Some p → f.(f_name) = p.(p_metadata).(Client.name) ∧
     f.(f_namespace) = p.(p_metadata).(Client.namespace)) →
  handleSubmit ep ns f = Some call → sent_for call.
Proof.
  intros Hp. unfold handleSubmit, sent_for.
  destruct (truthy (trim (f_name f))) eqn:Hn; [|done]. cbn.
  case_bool_decide as Hv; [done|]. intros Hc. exists (submit_spec f). split_and!.
  - cbn. by destruct (validChecks f).
  - apply validChecks_valid.
  - destruct ep as [p|]; injection Hc as <-.
    + destruct (Hp p eq_refl) as [<- <-]. done.
    + exists f.(f_name), (str_or f.(f_namespace) ns). split_and!; [done| |done].
      unfold str_or. intros ?. by destruct (truthy (f_namespace f)) eqn:?.
Qed.

Lemma handleClose_inv w : dialog_inv w → dialog_inv (rendered ep (handleClose w)).
Proof. intros [_ _ _ Hlog]. constructor; cbn; [|done..]. by destruct ep. Qed.

Lemma box_act_disabled p (s : Combobox.State) k d b :
  Combobox.disabled p = true → Combobox.multi p = false → Combobox.open s = false →
  k ∈ listeners (Combobox.render p s) → k.(act) d = Some b → box_act p b s = (s, []).
Proof.
  intros Hd Hm Ho Hk Hb.
  destruct (Combobox.render_listeners _ _ _ _ _ Hk Hb)
    as [->|[(v & _ & ? & _)|[[? _]|(o & _ & ? & _)]]]; [|congruence..].
  unfold box_act. cbn. by rewrite Hd.
Qed.

Lemma dialog_inv_update w l d a :
  dialog_inv w → l ∈ listeners (view ep ns nss ld dump w) → l.(act) d = Some a →
  dialog_inv (update ep ns nss ld a w).
Proof.
  intros Hw Hl Ha.
  destruct (dialog_view_listeners w l d a Hl Ha)
    as (Ho & [->|[[-> He]|[(k & b & -> & Hk & Hb)|[[-> _]|Hkeep]]]]).
  - by apply handleClose_inv.
  - pose proof Hw as [_ Hed Hbox Hlog]. unfold update. rewrite rendered_open; [|done|].
    + constructor; cbn; [congruence| |by rewrite He|done]. intros p ->. done.
    + intros p ->. done.
  - pose proof Hw as [_ Hed Hbox Hlog]. unfold update. cbn [handle]. destruct (isEdit ep) eqn:He.
    + rewrite (box_act_disabled (ns_props ep ns nss ld (form w)) _ _ _ _ He eq_refl (Hbox eq_refl)
        Hk Hb).
      cbn. rewrite rendered_open; [by destruct w|done|]. intros p Hp. by apply (Hed p).
    + destruct (box_act _ _ _) as [s vs]. rewrite rendered_open; [|done|].
      * constructor; cbn; [congruence| |congruence|done]. intros p ->. done.
      * intros p ->. done.
  - pose proof Hw as [_ Hed Hbox Hlog]. unfold update. cbn [handle].
    destruct (handleSubmit ep ns (form w)) as [call|] eqn:Hcall.
    + rewrite rendered_open; [|done|intros p Hp; by apply (Hed p)].
      constructor; cbn; [congruence|done|done|].
      intros c [Hc|[= ->]%list_elem_of_singleton]%elem_of_app; [by apply Hlog|].
      eapply handleSubmit_sent; [|exact Hcall]. intros p Hp. by apply (Hed p).
    + by rewrite rendered_open; [|done|intros p Hp; by apply (Hed p)].
  - pose proof Hw as [_ Hed Hbox Hlog].
    destruct (handle_keeps a w Hkeep) as (Ho' & Hl' & _ & Hb' & Hn' & Hns' & Hi').
    unfold update. rewrite rendered_open; [|congruence|intros p Hp; rewrite Hi'; by apply (Hed p)].
    constructor; [congruence| |by rewrite Hb'|by rewrite Hl'].
    rewrite Hi', Hn', Hns'. intros p Hp _. by apply Hed.
Qed.

Lemma dialog_inv_step w w' :
  dialog_inv w → step ep ns nss ld dump w w' → dialog_inv w'.
Proof.
  intros Hw Hs. destruct Hs as [w w' Hs|w key a Hk|w i1 i2|w Ho|w Hm|w m Hm].
  - destruct Hs as [w path e d a Ha]. apply dispatch_listener in Ha as (l & Hl & _ & Ha).
    by eapply dialog_inv_update.
  - unfold Modal.on_keydown in Hk. destruct (open w); [|done]. cbn in Hk.
    case_decide; [|done]. injection Hk as <-. by apply handleClose_inv.
  - destruct Hw as [Hc He Hb Hlog]. constructor; cbn; [done..| |done].
    intros Hed. unfold Combobox.on_mousedown. destruct i1; [by apply Hb|done].
  - pose proof Hw as [Hc He Hb Hlog]. constructor; cbn; [done| |done|done].
    intros p -> _. rewrite (Hc Ho). done.
  - destruct Hw as [Hc He Hb Hlog]. apply handleClose_inv with
      (w := {| open := w.(open); form := w.(form); nsBox := w.(nsBox); targetBox := w.(targetBox);
        mutation := Succeeded; log := w.(log) ++ _ |}).
    constructor; cbn; [done..|]. set_solver.
  - pose proof Hw as [Hc He Hb Hlog]. unfold onError.
    destruct (open w) eqn:Ho.
    + rewrite rendered_open; [|done|intros p Hp; by apply (He p)]. by constructor.
    + unfold rendered; cbn. rewrite (Hc eq_refl). constructor; cbn; [|done..]. by destruct ep.
Qed.

Lemma dialog_reachable w : rtc (step ep ns nss ld dump) initial w → dialog_inv w.
Proof.
  intros Hr. eapply rtc_invariant; [apply dialog_inv_initial| |exact Hr].
  intros a b Ha Hab. by eapply dialog_inv_step.
Qed.
End dialog_lemmas.

(** ** Theorems *)

(** C4: whatever the user does in the edit dialog, and however often it is
    closed, reopened or answered with an error, every request it sends updates
    the policy it was opened for - same namespace, same name - with at least one
    check, all of them with an id and a description. *)
Theorem edit_targets_policy p ns nss ld dump w call :
  rtc (step (Some p) ns nss ld dump) initial w → Sent call ∈ w.(log) →
  ∃ spec, call = api.updatePolicy p.(p_metadata).(Client.namespace)
                   p.(p_metadata).(Client.name) (json_spec spec) ∧
    spec.(Client.checks) ≠ [] ∧ Forall (λ c, valid_check c = true) spec.(Client.checks).
Proof.
  intros Hr Hc. apply dialog_reachable in Hr.
  destruct (inv_log _ _ _ Hr call Hc) as (spec & ? & ? & _ & ->). eauto.
Qed.

(** C29: every request of the create dialog creates a policy with a name that
    is not blank, in a namespace (the default one when none was chosen), with at
    least one check, all of them with an id and a description. *)
Theorem create_is_complete ns nss ld dump w call :
  rtc (step None ns nss ld dump) initial w → Sent call ∈ w.(log) → truthy ns = true →
  ∃ spec name namespace,
    call = api.createPolicy (JObj [("metadata", json_metadata name namespace);
                                   ("spec", json_spec spec)]) ∧
    truthy (trim name) = true ∧ truthy namespace = true ∧
    spec.(Client.checks) ≠ [] ∧ Forall (λ c, valid_check c = true) spec.(Client.checks).
Proof.
  intros Hr Hc Hns. apply dialog_reachable in Hr.
  destruct (inv_log _ _ _ Hr call Hc) as (spec & ? & ? & name & namespace & ? & ? & ->).
  exists spec, name, namespace. auto.
Qed.

(** C19: what the preview shows is what is submitted: when the form can be
    submitted, the body of the request is the previewed object without its
    [apiVersion] and [kind], or, for an edit, its [spec]. *)
Theorem preview_is_submission ep ns f call :
  handleSubmit ep ns f = Some call →
  ∃ metadata spec,
    buildCR ns f = JObj [("apiVersion", JStr "dtm.dtm.io/v1alpha1");
                         ("kind", JStr "ChecklistPolicy"); ("metadata", metadata); ("spec", spec)] ∧
    call = match ep with
           | None => api.createPolicy (JObj [("metadata", metadata); ("spec", spec)])
           | Some _ => api.updatePolicy f.(f_namespace) f.(f_name) spec
           end.
Proof.
  unfold handleSubmit. destruct (truthy (trim (f_name f))) eqn:Hn; [|done]. cbn [negb].
  case_bool_decide; [done|].
  assert (truthy (f_name f) = true) as Hname by by destruct (f_name f).
  assert (json_spec (submit_spec f) =
    match buildCR ns f with JObj [_; _; _; (_, spec)] => spec | _ => JNull end) as Hspec.
  { unfold json_spec, submit_spec, buildCR, json_schedule, json_llm, json_secretRef, or_undefined; cbn.
    destruct (truthy (f_failedRescan f)), (truthy (f_model f)); by case_bool_decide. }
  intros Hc. eexists _, (json_spec (submit_spec f)). split.
  - rewrite Hspec. unfold buildCR. done.
  - unfold str_or at 1. rewrite Hname. by destruct ep; injection Hc as <-.
Qed.

(** What is left of a spec after a round through the edit dialog. *)
Definition kept_spec (s : PolicySpec) : PolicySpec :=
  {| schedule := {| Client.fullScan := s.(schedule).(Client.fullScan);
                    Client.failedRescan :=
                      or_undefined (ostr_or s.(schedule).(Client.failedRescan) "") |};
     llm := {| Client.provider := s.(llm).(Client.provider);
               Client.model := or_undefined (ostr_or s.(llm).(Client.model) "");
               secretRef := {| sr_name := s.(llm).(secretRef).(sr_name); sr_key := None |} |};
     Client.checks := s.(Client.checks);
     targetNamespaces := match s.(targetNamespaces) with Some (_ :: _) => s.(targetNamespaces)
                         | _ => None end;
     notification := None;
     escalationThreshold := None |}.

(** C14: opening the edit dialog of a policy and saving without a change sends
    the schedule, the provider, the model, the secret's name, the checks and the
    target namespaces as they are, and loses the rest: the notification
    settings, the escalation threshold and the key of the secret are not in the
    request. *)
Theorem edit_roundtrip p ns nss ld dump w :
  rtc (step (Some p) ns nss ld dump) initial w → w.(open) = false →
  truthy (trim p.(p_metadata).(Client.name)) = true →
  p.(p_spec).(Client.checks) ≠ [] →
  Forall (λ c, valid_check c = true) p.(p_spec).(Client.checks) →
  (update (Some p) ns nss ld Submit (opened (Some p) w)).(log) =
  w.(log) ++ [Sent (api.updatePolicy p.(p_metadata).(Client.namespace)
                      p.(p_metadata).(Client.name) (json_spec (kept_spec p.(p_spec))))].
Proof.
  intros Hr Ho Hname Hne Hvalid. apply dialog_reachable in Hr.
  unfold opened, rendered. cbn. rewrite (inv_closed _ _ _ Hr Ho). unfold update. cbn.
  unfold handleSubmit, validChecks. cbn. rewrite Hname. cbn.
  rewrite filter_true.
  2:{ eapply Forall_impl; [exact Hvalid|]. cbn. intros c ->. done. }
  rewrite bool_decide_eq_false_2 by by destruct (Client.checks (p_spec p)). cbn.
  unfold submit_spec, validChecks. cbn. rewrite filter_true.
  2:{ eapply Forall_impl; [exact Hvalid|]. cbn. intros c ->. done. }
  do 3 f_equal. unfold kept_spec. f_equal.
  by destruct (targetNamespaces (p_spec p)) as [[|x l]|].
Qed.

(** C37: the dialog always opens fresh: with the default values for a new
    policy, with the values of the policy for an edit, whatever was entered
    before and however the dialog was closed. *)
Theorem reopened_fresh ep ns nss ld dump w :
  rtc (step ep ns nss ld dump) initial w → w.(open) = false →
  (opened ep w).(form) = match ep with Some p => prefill p default_form | None => default_form end ∧
  (opened ep w).(nsBox) = w.(nsBox) ∧ (opened ep w).(targetBox) = w.(targetBox).
Proof.
  intros Hr%dialog_reachable Ho. unfold opened, rendered. cbn.
  rewrite (inv_closed _ _ _ Hr Ho). by destruct ep.
Qed.

(** The error of a failed request outlives the dialog: closed and opened
    again, it still shows the message. *)
Theorem stale_error_shown ep ns nss ld dump w message :
  ∃ n, n ∈ body ep ns nss ld dump
         (opened ep (update ep ns nss ld Close (onError ep message w))) ∧
       text_of n = "Error: " +:+ message.
Proof.
  eexists. split.
  - unfold body. do 6 apply list_elem_of_further. apply list_elem_of_here.
  - cbn. by rewrite string_app_nil_r.
Qed.

(** The answer to a request closes whatever is open then: when the user has
    cancelled a pending save and opened the dialog again, the success of the old
    request closes it and throws away what has been entered since, without a
    request that carries it. *)
Theorem late_success_discards ep ns nss ld dump w :
  w.(mutation) = Pending → w.(open) = true →
  ∃ w', step ep ns nss ld dump w w' ∧ w'.(open) = false ∧ w'.(form) = default_form ∧
    (∀ call, Sent call ∈ w'.(log) → Sent call ∈ w.(log)).
Proof.
  intros Hm Ho. exists (onSuccess ep w). split_and!; [by apply step_success|done| |].
  - unfold onSuccess, rendered; cbn. by destruct ep.
  - unfold onSuccess, rendered; cbn. set_solver.
Qed.

(** ** The editor keeps a check *)

Lemma removeCheck_nonempty idx f : f.(f_checks) ≠ [] → (removeCheck idx f).(f_checks) ≠ [].
Proof.
  unfold removeCheck. case_bool_decide as Hl; [done|]. intros _ Hnil%(f_equal length). cbn in Hnil.
  rewrite filter_index_delete, delete_take_drop, length_app, length_take, length_drop in Hnil. lia.
Qed.

(** The namespace box does not touch the checks. *)
Lemma foldl_setNamespace_checks f vs :
  (foldl (λ f v, setNamespace (ostr_or (head v) "") f) f vs).(f_checks) = f.(f_checks).
Proof. revert f. induction vs as [|v vs IH]; intros f; [done|]. cbn. by rewrite IH. Qed.

Lemma handle_nonempty ep ns nss ld a w :
  w.(form).(f_checks) ≠ [] → (handle ep ns nss ld a w).(form).(f_checks) ≠ [].
Proof.
  intros Hne. destruct a; cbn [handle set_form form]; try done.
  - destruct (box_act _ _ _) as [s vs]. cbn. by rewrite foldl_setNamespace_checks.
  - destruct (box_act _ _ _) as [s vs]. cbn.
    by destruct (foldl_setTargetNsList (form w) vs) as [->|[v ->]].
  - cbn. by destruct (f_checks (form w)).
  - by apply removeCheck_nonempty.
  - unfold updateCheck. cbn. by destruct (f_checks (form w)).
  - by destruct (handleSubmit ep ns (form w)).
Qed.

Lemma rendered_nonempty ep w :
  (∀ p, ep = Some p → p.(p_spec).(Client.checks) ≠ []) →
  w.(form).(f_checks) ≠ [] → (rendered ep w).(form).(f_checks) ≠ [].
Proof.
  intros Hp Hne. unfold rendered, during_render. cbn. destruct ep as [p|].
  - repeat case_match; cbn; [by apply Hp|done..].
  - by case_match.
Qed.

(** The form always has a check to fill in: the remove buttons cannot empty
    the list, in whatever order checks are added, edited and removed. *)
Theorem checks_never_empty ep ns nss ld dump w :
  (∀ p, ep = Some p → p.(p_spec).(Client.checks) ≠ []) →
  rtc (step ep ns nss ld dump) initial w → w.(form).(f_checks) ≠ [].
Proof.
  intros Hp. apply (rtc_invariant _ (λ w, w.(form).(f_checks) ≠ [])); [done|].
  intros a b Ha Hs. destruct Hs as [w1 w2 Hs|w1 key act Hk|w1 i1 i2|w1 Ho|w1 Hm|w1 m Hm].
  - destruct Hs. by apply rendered_nonempty, handle_nonempty.
  - by apply rendered_nonempty, handle_nonempty.
  - done.
  - by apply rendered_nonempty.
  - by apply rendered_nonempty.
  - by apply rendered_nonempty.
Qed.

Lemma checks_editor_delete f idx :
  (S idx < length f.(f_checks))%nat →
  (removeCheck idx f).(f_checks) = delete idx f.(f_checks) ∧
  length (delete idx f.(f_checks)) = (length f.(f_checks) - 1)%nat.
Proof.
  intros Hl. unfold removeCheck. rewrite bool_decide_eq_false_2 by lia. cbn.
  split; [apply filter_index_delete|]. apply length_delete. apply lookup_lt_is_Some. lia.
Qed.

(** The ids the editor has given to [n] checks added one after the other. *)
Definition numbered (n : nat) : list string :=
  map (λ k, "check-" +:+ show_Z (Z.of_nat k + 1)) (seq 0 n).

(** C38: the generated ids collide: from checks numbered as the editor numbers
    them, removing any check but the last and adding one gives two checks the
    same id. *)
Theorem readded_id_collides f n idx :
  map ci_id f.(f_checks) = numbered n → (S idx < n)%nat →
  ¬ NoDup (map ci_id (addCheck (removeCheck idx f)).(f_checks)).
Proof.
  intros Hids Hidx.
  assert (length (f_checks f) = n) as Hlen.
  { apply (f_equal length) in Hids. unfold numbered in Hids.
    by rewrite !length_map, length_seq in Hids. }
  destruct (checks_editor_delete f idx) as [Hrm Hrl]; [lia|].
  unfold addCheck. cbn. rewrite Hrm, map_app, Hrl, Hlen. cbn. intros Hnd.
  apply NoDup_app in Hnd as (_ & Hnd & _).
  apply (Hnd ("check-" +:+ show_Z (Z.of_nat (n - 1) + 1))); [|apply list_elem_of_here].
  apply list_elem_of_lookup. exists (n - 2)%nat.
  change (map ci_id ?l) with (ci_id <$> l). rewrite list_lookup_fmap, list_lookup_delete_ge by lia.
  rewrite <-list_lookup_fmap. change (ci_id <$> ?l) with (map ci_id l). rewrite Hids.
  unfold numbered. rewrite list_lookup_fmap, lookup_seq_lt by lia. cbn. do 3 f_equal. lia.
Qed.

(** ** Concrete runs *)

Definition sample_policy : ChecklistPolicy :=
  {| p_metadata := {| Client.name := "nightly"; Client.namespace := "ops";
                      creationTimestamp := "2025-01-01T00:00:00Z" |};
     p_spec :=
       {| schedule := {| Client.fullScan := "0 0 * * *"; Client.failedRescan := None |};
          llm := {| Client.provider := "claude"; Client.model := None;
                    secretRef := {| sr_name := "llm"; sr_key := Some "token" |} |};
          Client.checks := [{| ci_id := "pods"; ci_description := "all pods run";
                               ci_severity := "critical" |}];
          targetNamespaces := Some ["ops"];
          notification := Some (JObj [("slack", JObj [("enabled", JBool true)])]);
          escalationThreshold := Some 3 |};
     p_status := None |}.

Definition no_yaml (v : json) : string := "".

(** The edit dialog opened and saved. *)
Definition edit_open : World := opened (Some sample_policy) initial.
Definition edit_saved : World := update (Some sample_policy) "dtm-system" [] false Submit edit_open.

Lemma edit_opens : rtc (step (Some sample_policy) "dtm-system" [] false no_yaml) initial edit_open.
Proof. apply rtc_once, step_open. reflexivity. Qed.

Lemma edit_saves :
  step (Some sample_policy) "dtm-system" [] false no_yaml edit_open edit_saved.
Proof.
  apply step_ui, (ui_event _ _ edit_open [0; 1; 7; 1]%nat "click" "" Submit).
  vm_compute. apply list_elem_of_here.
Qed.

Lemma edit_targets_policy_witness :
  ∃ spec, api.updatePolicy "ops" "nightly" (json_spec (kept_spec sample_policy.(p_spec))) =
          api.updatePolicy "ops" "nightly" (json_spec spec) ∧
    spec.(Client.checks) ≠ [] ∧ Forall (λ c, valid_check c = true) spec.(Client.checks).
Proof.
  apply (edit_targets_policy sample_policy "dtm-system" [] false no_yaml edit_saved).
  - eapply rtc_r; [exact edit_opens|exact edit_saves].
  - vm_compute. apply list_elem_of_here.
Defined.

(** The create dialog: a name, an id, a description, and the button. *)
Definition typed : World :=
  foldl (λ w a, update None "dtm-system" [] false a w) (opened None initial)
    [SetName "nightly"; UpdateCheck 0 FDescription "all pods run"].
Definition created : World := update None "dtm-system" [] false Submit typed.

Lemma creates : rtc (step None "dtm-system" [] false no_yaml) initial created.
Proof.
  eapply rtc_l; [apply step_open; reflexivity|].
  eapply rtc_l.
  { apply step_ui, (ui_event _ _ _ [0; 1; 0; 0; 1]%nat "change" "nightly" (SetName "nightly")).
    vm_compute. apply list_elem_of_here. }
  eapply rtc_l.
  { apply step_ui, (ui_event _ _ _ [0; 1; 4; 1; 0; 1; 1]%nat "change" "all pods run"
      (UpdateCheck 0 FDescription "all pods run")).
    vm_compute. apply list_elem_of_here. }
  apply rtc_once, step_ui, (ui_event _ _ typed [0; 1; 7; 1]%nat "click" "" Submit).
  vm_compute. apply list_elem_of_here.
Qed.

Definition typed_call : ApiCall :=
  api.createPolicy (JObj [("metadata", json_metadata "nightly" "dtm-system");
                          ("spec", json_spec (submit_spec typed.(form)))]).

Lemma create_is_complete_witness :
  ∃ spec name namespace,
    typed_call = api.createPolicy (JObj [("metadata", json_metadata name namespace);
                                         ("spec", json_spec spec)]) ∧
    truthy (trim name) = true ∧ truthy namespace = true ∧
    spec.(Client.checks) ≠ [] ∧ Forall (λ c, valid_check c = true) spec.(Client.checks).
Proof.
  apply (create_is_complete "dtm-system" [] false no_yaml created typed_call creates);
    [vm_compute; apply list_elem_of_here|reflexivity].
Defined.

Lemma preview_is_submission_witness :
  ∃ metadata spec,
    buildCR "dtm-system" typed.(form) =
      JObj [("apiVersion", JStr "dtm.dtm.io/v1alpha1"); ("kind", JStr "ChecklistPolicy");
            ("metadata", metadata); ("spec", spec)] ∧
    typed_call = api.createPolicy (JObj [("metadata", metadata); ("spec", spec)]).
Proof. apply (preview_is_submission None "dtm-system" typed.(form)). reflexivity. Defined.

Lemma edit_roundtrip_witness :
  edit_saved.(log) =
  [Sent (api.updatePolicy "ops" "nightly" (json_spec (kept_spec sample_policy.(p_spec))))].
Proof.
  apply (edit_roundtrip sample_policy "dtm-system" [] false no_yaml initial).
  - apply rtc_refl.
  - reflexivity.
  - reflexivity.
  - discriminate.
  - repeat constructor.
Defined.

Lemma reopened_fresh_witness :
  (opened (Some sample_policy) (update (Some sample_policy) "dtm-system" [] false Close edit_open)).(form)
    = prefill sample_policy default_form.
Proof.
  refine (proj1 (reopened_fresh (Some sample_policy) "dtm-system" [] false no_yaml
    (update (Some sample_policy) "dtm-system" [] false Close edit_open) _ eq_refl)).
  eapply rtc_r; [exact edit_opens|].
  apply step_ui, (ui_event _ _ edit_open [0; 1; 7; 0]%nat "click" "" Close).
  vm_compute. apply list_elem_of_here.
Defined.

(** Saved, cancelled, opened again and changed: then the answer arrives. *)
Definition edited_again : World :=
  let act := update (Some sample_policy) "dtm-system" [] false in
  act (SetModel "claude-opus") (opened (Some sample_policy) (act Close edit_saved)).

Lemma late_success_discards_witness :
  ∃ w', step (Some sample_policy) "dtm-system" [] false no_yaml edited_again w' ∧
    w'.(open) = false ∧ w'.(form) = default_form ∧
    (∀ call, Sent call ∈ w'.(log) → Sent call ∈ edited_again.(log)).
Proof. apply late_success_discards; reflexivity. Defined.

Definition two_checks : Form :=
  setChecks [blank_check "check-1"; blank_check "check-2"] default_form.

Lemma checks_never_empty_witness : edit_saved.(form).(f_checks) ≠ [].
Proof.
  apply (checks_never_empty (Some sample_policy) "dtm-system" [] false no_yaml).
  - intros p [= <-]. discriminate.
  - eapply rtc_r; [exact edit_opens|exact edit_saves].
Defined.

Lemma readded_id_collides_witness : ¬ NoDup ["check-2"; "check-2"].
Proof.
  exact (readded_id_collides two_checks 2 0 eq_refl ltac:(lia)).
Defined.
