(* ===== verification/Policies.v ===== *)
(** * The policies page ([ui/src/pages/Policies.tsx])

    The list of policies with its actions, the delete confirmation, and the
    detail view.  The create dialog of the list and the edit dialog of the
    detail view are those of PolicyForm; each keeps the log of its own
    requests, the page keeps the log of the others. *)
From Stdlib Require Import Ascii ZArith Lia.
From stdpp Require Import base list strings pretty gmap sets relations sorting.
From S2P Require Import Prelude JsStd Jsx Widgets Format Toast Client Combobox PolicyForm.
Local Open Scope Z_scope.

(** ** Conditions *)

Definition is_true_condition (type : string) (c : Condition) : bool :=
  bool_decide (c.(c_type) = type) && bool_decide (c.(c_status) = "True").

(** [conditions.find(p)]. *)
Definition find_condition (type : string) (l : list Condition) : option Condition :=
  snd <$> list_find (λ c, is_true_condition type c) l.

(** [policy.status?.conditions], with an empty list for undefined: the code
    treats both alike. *)
Definition policy_conditions (p : ChecklistPolicy) : list Condition :=
  default [] (st ← p.(p_status); st.(conditions)).

Definition getLatestCondition (p : ChecklistPolicy) : option Condition :=
  let conditions := policy_conditions p in
  if bool_decide (length conditions = 0%nat) then None
  else
    match find_condition "Degraded" conditions with
    | Some degraded => Some degraded
    | None =>
      match find_condition "Available" conditions with
      | Some available => Some available
      | None => head conditions
      end
    end.

Definition ConditionBadge {A} (p : ChecklistPolicy) : node A :=
  match getLatestCondition p with
  | None => el "span" [("style:color", "var(--text-tertiary)")] [Text "-"]
  | Some cond =>
    if is_true_condition "Degraded" cond
    then el "span" [("title", cond.(c_message))] [Badge.Badge Badge.Vfail [Text "Error"]]
    else if is_true_condition "Available" cond
    then Badge.Badge Badge.Vpass [Text "Healthy"]
    else Badge.Badge Badge.Vneutral [Text cond.(c_type)]
  end.

(** ** State *)

(** The mounted detail view: the policy it was opened with, its edit dialog,
    and whether its run request is pending. *)
Record Detail := {
  policy : ChecklistPolicy;
  editDialog : PolicyForm.World;
  d_running : bool
}.

(** The list query: loading, failed, or its last answer. *)
Inductive Query := Loading | Errored | Loaded (l : list ChecklistPolicy).

Record World := {
  query : Query;
  selected : option Detail;
  createDialog : PolicyForm.World;
  deleteTarget : option (string * string);
  running : option (string * string);
  deleting : bool;
  log : list Effect
}.

(** [data: policies = []]. *)
Definition policies (w : World) : list ChecklistPolicy :=
  match w.(query) with Loaded l => l | _ => [] end.

Definition initial : World :=
  {| query := Loading; selected := None; createDialog := PolicyForm.initial;
     deleteTarget := None; running := None; deleting := false; log := [] |}.

Inductive Action :=
  | Select (p : ChecklistPolicy) | NewPolicy | Run (ns name : string)
  | AskDelete (ns name : string) | CancelDelete | ConfirmDelete
  | CreateDialog (a : PolicyForm.Action)
  | Back | Edit | RunDetail | EditDialog (a : PolicyForm.Action).

Definition set_selected (o : option Detail) (w : World) : World :=
  {| query := w.(query); selected := o; createDialog := w.(createDialog);
     deleteTarget := w.(deleteTarget); running := w.(running); deleting := w.(deleting);
     log := w.(log) |}.

Definition set_create (d : PolicyForm.World) (w : World) : World :=
  {| query := w.(query); selected := w.(selected); createDialog := d;
     deleteTarget := w.(deleteTarget); running := w.(running); deleting := w.(deleting);
     log := w.(log) |}.

Definition set_deleteTarget (t : option (string * string)) (w : World) : World :=
  {| query := w.(query); selected := w.(selected); createDialog := w.(createDialog);
     deleteTarget := t; running := w.(running); deleting := w.(deleting); log := w.(log) |}.

Definition emit (es : list Effect) (w : World) : World :=
  {| query := w.(query); selected := w.(selected); createDialog := w.(createDialog);
     deleteTarget := w.(deleteTarget); running := w.(running); deleting := w.(deleting);
     log := w.(log) ++ es |}.

Definition set_running (r : option (string * string)) (w : World) : World :=
  {| query := w.(query); selected := w.(selected); createDialog := w.(createDialog);
     deleteTarget := w.(deleteTarget); running := r; deleting := w.(deleting);
     log := w.(log) |}.

Definition set_deleting (b : bool) (w : World) : World :=
  {| query := w.(query); selected := w.(selected); createDialog := w.(createDialog);
     deleteTarget := w.(deleteTarget); running := w.(running); deleting := b;
     log := w.(log) |}.

Definition set_query (q : Query) (w : World) : World :=
  {| query := q; selected := w.(selected); createDialog := w.(createDialog);
     deleteTarget := w.(deleteTarget); running := w.(running); deleting := w.(deleting);
     log := w.(log) |}.

Definition on_detail (f : Detail → Detail) (w : World) : World :=
  set_selected (f <$> w.(selected)) w.

(** The list is replaced by the detail view: the state inside the create dialog
    goes with it; whether it is open belongs to the page. *)
Definition unmount_create (w : World) : World :=
  set_create {| PolicyForm.open := w.(createDialog).(PolicyForm.open);
                PolicyForm.form := default_form; PolicyForm.nsBox := Combobox.initial;
                PolicyForm.targetBox := Combobox.initial; PolicyForm.mutation := Idle;
                PolicyForm.log := w.(createDialog).(PolicyForm.log) |} w.

Definition mount_detail (p : ChecklistPolicy) : Detail :=
  {| policy := p; editDialog := PolicyForm.initial; d_running := false |}.

Section page.
Context (now : Z) (defaultNs : string) (clusterNamespaces : list string) (nsLoading : bool).
Context (yaml_dump : json → string).

Definition dialog_update (ep : option ChecklistPolicy) :=
  PolicyForm.update ep defaultNs clusterNamespaces nsLoading.

Definition with_edit (f : ChecklistPolicy → PolicyForm.World → PolicyForm.World) (d : Detail) : Detail :=
  {| policy := d.(policy); editDialog := f d.(policy) d.(editDialog); d_running := d.(d_running) |}.

Definition set_d_running (b : bool) (d : Detail) : Detail :=
  {| policy := d.(policy); editDialog := d.(editDialog); d_running := b |}.

Definition run_call (p : ChecklistPolicy) : ApiCall :=
  api.runNow p.(p_metadata).(Client.namespace) p.(p_metadata).(Client.name).

Definition update (a : Action) (w : World) : World :=
  match a with
  | Select p => set_selected (Some (mount_detail p)) (unmount_create w)
  | NewPolicy => set_create (PolicyForm.opened None w.(createDialog)) w
  | Run ns name => set_running (Some (ns, name)) (emit [Sent (api.runNow ns name)] w)
  | AskDelete ns name => set_deleteTarget (Some (ns, name)) w
  | CancelDelete => set_deleteTarget None w
  | ConfirmDelete =>
    match w.(deleteTarget) with
    | Some (ns, name) =>
      set_deleteTarget None (set_deleting true (emit [Sent (api.deletePolicy ns name)] w))
    | None => w
    end
  | CreateDialog a => set_create (dialog_update None a w.(createDialog)) w
  | Back => set_selected None w
  | Edit => on_detail (with_edit (λ p, PolicyForm.opened (Some p))) w
  | RunDetail =>
    match w.(selected) with
    | Some d => on_detail (set_d_running true) (emit [Sent (run_call d.(policy))] w)
    | None => w
    end
  | EditDialog a => on_detail (with_edit (λ p, dialog_update (Some p) a)) w
  end.

(** Answers: the run request of the list, of the detail view, the deletion. *)

Definition run_messages (name : string) (error : option string) : list Effect :=
  match error with
  | None => [ShowToast ("Scan triggered for " +:+ name) Toast.Success; Invalidate "policies"]
  | Some message => [ShowToast ("Failed to trigger scan: " +:+ message) Toast.Error]
  end.

Definition run_settled (error : option string) (w : World) : World :=
  match w.(running) with
  | Some (_, name) => set_running None (emit (run_messages name error) w)
  | None => w
  end.

Definition detail_run_settled (error : option string) (w : World) : World :=
  match w.(selected) with
  | Some d =>
    on_detail (set_d_running false)
      (emit (run_messages d.(policy).(p_metadata).(Client.name) error) w)
  | None => w
  end.

(** There is no [onError]: a failed deletion leaves no trace. *)
Definition delete_settled (ok : bool) (w : World) : World :=
  set_deleting false (if ok then emit [Invalidate "policies"] w else w).

(** ** Rendering *)

Definition icon {A} (name : string) : node A := el "svg" [("icon", name)] [].

Definition summary_note (s : Summary) : node Action :=
  when ((0 <? s.(warn)) || (0 <? s.(fail)))
    (el "span" [("style:fontSize", "11")]
       [Text (show_Z s.(pass)); Text "P";
        Text (if 0 <? s.(warn) then " " +:+ show_Z s.(warn) +:+ "W" else "");
        Text (if 0 <? s.(fail) then " " +:+ show_Z s.(fail) +:+ "F" else "")]).

Definition row (w : World) (p : ChecklistPolicy) : node Action :=
  let md := p.(p_metadata) in
  let ns := md.(Client.namespace) in let nm := md.(Client.name) in
  el "tr" [("key", ns +:+ "/" +:+ nm)]
    [el "td" [] [Elem "span" [("className", "link")] false [on "click" (Select p)] [Text nm]];
     el "td" [] [Badge.Badge Badge.Vneutral [Text ns]];
     el "td" [] [Text p.(p_spec).(llm).(Client.provider)];
     el "td" [] [Text (show_Z (Z.of_nat (length p.(p_spec).(Client.checks))))];
     el "td" [("className", "mono")] [Text p.(p_spec).(schedule).(Client.fullScan)];
     el "td" []
       [match (st ← p.(p_status); st.(lastFullScanTime)) with
        | Some t => if truthy t
                    then el "span" [("className", "flex items-center gap-2")]
                           [icon "IconClock"; Text (timeAgo now t)]
                    else Text "-"
        | None => Text "-"
        end];
     el "td" []
       [el "div" [("className", "flex items-center gap-2")]
          [ConditionBadge p;
           match (st ← p.(p_status); st.(p_summary)) with
           | Some s => summary_note s
           | None => Null
           end]];
     el "td" []
       [el "div" [("className", "flex gap-2")]
          [Button.Button Button.Vsecondary Button.Sm (icon "IconPlay")
             (bool_decide (is_Some w.(running))) [] (Run ns nm) [Text "Run"];
           Button.Button Button.Vdanger Button.Sm (icon "IconTrash") false []
             (AskDelete ns nm) []]]].

Definition DeletePolicyModal (w : World) : node Action :=
  Modal.Modal (bool_decide (is_Some w.(deleteTarget))) CancelDelete "Delete Policy" 480
    [el "div" []
       [el "div" []
          [Text "Are you sure you want to delete ";
           el "strong" [] [match w.(deleteTarget) with Some (_, name) => Text name | None => Null end];
           Text "?"];
        el "div" []
          [Text "All scan history (ChecklistResults) for this policy will be permanently deleted. This action cannot be undone."]];
     el "div" [("className", "flex justify-between")]
       [Button.Button Button.Vsecondary Button.Md Null false [] CancelDelete [Text "Cancel"];
        Button.Button Button.Vdanger Button.Md Null w.(deleting) [] ConfirmDelete
          [Text (if w.(deleting) then "Deleting..." else "Delete Policy")]]].

Definition table_head : node Action :=
  el "thead" []
    [el "tr" []
       (map (λ h, el "th" [] [Text h])
          ["Name"; "Namespace"; "Provider"; "Checks"; "Schedule"; "Last Scan"; "Status";
           "Actions"])].

Definition new_button (label : string) : node Action :=
  Button.Button Button.Vprimary Button.Md (icon "IconPlus") false [] NewPolicy [Text label].

Definition list_view (w : World) : node Action :=
  let n := length (policies w) in
  el "div" []
    [el "div" [("className", "page-header")]
       [el "div" []
          [el "div" [("className", "page-title")] [Text "Policies"];
           el "div" [("className", "page-subtitle")]
             [Text (show_Z (Z.of_nat n)); Text " checklist ";
              Text (if bool_decide (n = 1%nat) then "policy" else "policies")]];
        new_button "New Policy"];
     if bool_decide (n = 0%nat)
     then EmptyState.EmptyState (Some (icon "IconPolicy")) "No policies yet"
            (Some "Create a ChecklistPolicy to define verification checks for your cluster.")
            (Some (new_button "Create Policy"))
     else Card.Card "" None false [("padding", Some "0"); ("overflow", Some "hidden")]
            [el "div" [("className", "table-wrap")]
               [el "table" [] [table_head; el "tbody" [] (map (row w) (policies w))]]];
     node_map CreateDialog
       (PolicyForm.view None defaultNs clusterNamespaces nsLoading yaml_dump w.(createDialog));
     DeletePolicyModal w].

Definition InfoRow {A} (label value : string) (mono : bool) : node A :=
  el "div" [("className", "flex justify-between")]
    [el "span" [] [Text label];
     el "span" (style_attrs [("fontFamily", if mono then Some "var(--font-mono)" else None)])
       [Text value]].

Definition MiniStat {A} (label : string) (value : Z) (color : option string) : node A :=
  el "div" []
    [el "div" (style_attrs [("color", Some (ostr_or color "var(--text-primary)"))])
       [Text (show_Z value)];
     el "div" [] [Text label]].

(** [t ? timeAgo(t) : alt]. *)
Definition ago_or (t : option string) (alt : string) : string :=
  match t with
  | Some t => if truthy t then timeAgo now t else alt
  | None => alt
  end.

Definition transition_time {A} (c : Condition) : node A :=
  match c.(c_lastTransitionTime) with
  | Some t => when (truthy t) (el "span" [] [Text (timeAgo now t)])
  | None => Null
  end.

Definition health_card {A} (p : ChecklistPolicy) : node A :=
  let conditions := policy_conditions p in
  if bool_decide (length conditions = 0%nat)
  then Card.Card "" None false []
         [Badge.Badge Badge.Vneutral [Text "Pending"];
          el "span" [] [Text "No scan has been executed yet"]]
  else
    match find_condition "Degraded" conditions, find_condition "Available" conditions with
    | Some degraded, _ =>
      Card.Card "" None false [("background", Some "var(--danger-muted)")]
        [el "div" []
           [Badge.Badge Badge.Vfail [Text "Error"];
            el "span" [("className", "mono")] [Text degraded.(c_reason)];
            transition_time degraded];
         el "div" [] [Text degraded.(c_message)]]
    | None, Some available =>
      Card.Card "" None false [("background", Some "var(--success-muted)")]
        [el "div" []
           [Badge.Badge Badge.Vpass [Text "Healthy"];
            el "span" [] [Text available.(c_message)];
            transition_time available]]
    | None, None => Null
    end.

Definition info_cards (p : ChecklistPolicy) : node Action :=
  let sp := p.(p_spec) in
  el "div" [("className", "grid grid-3 mb-6")]
    [Card.Card "" None false []
       [el "div" [] [Text "Configuration"];
        InfoRow "Provider"
          (sp.(llm).(Client.provider) +:+
           (if otruthy sp.(llm).(Client.model)
            then " (" +:+ ostr_or sp.(llm).(Client.model) "" +:+ ")" else "")) false;
        InfoRow "Secret" sp.(llm).(secretRef).(sr_name) true;
        InfoRow "Namespaces" (ostr_or (js_join ", " <$> sp.(targetNamespaces)) "All") false;
        InfoRow "Escalation"
          (show_Z (match sp.(escalationThreshold) with
                   | Some n => if n =? 0 then 5 else n | None => 5 end) +:+ " failures") false];
     Card.Card "" None false []
       [el "div" [] [Text "Schedule"];
        InfoRow "Full Scan" sp.(schedule).(Client.fullScan) true;
        InfoRow "Rescan" (ostr_or sp.(schedule).(Client.failedRescan) "Disabled") true;
        InfoRow "Last Full Scan" (ago_or (st ← p.(p_status); st.(lastFullScanTime)) "Never") false;
        InfoRow "Last Rescan" (ago_or (st ← p.(p_status); st.(lastRescanTime)) "Never") false];
     Card.Card "" None false []
       [el "div" [] [Text "Summary"];
        match (st ← p.(p_status); st.(p_summary)) with
        | Some s =>
          el "div" []
            [MiniStat "Total" s.(total) None;
             MiniStat "Pass" s.(pass) (Some "var(--success)");
             MiniStat "Warn" s.(warn) (Some "var(--warning)");
             MiniStat "Fail" s.(fail) (Some "var(--danger)")]
        | None => el "div" [] [Text "No scan data yet"]
        end]].

Definition checks_table (p : ChecklistPolicy) : node Action :=
  Card.Card "" None false [("padding", Some "0"); ("overflow", Some "hidden")]
    [el "table" []
       [el "thead" []
          [el "tr" [] (map (λ h, el "th" [] [Text h]) ["ID"; "Severity"; "Description"])];
        el "tbody" []
          (map (λ c, el "tr" [("key", c.(ci_id))]
                       [el "td" [("className", "mono")] [Text c.(ci_id)];
                        el "td" [] [Badge.SeverityBadge c.(ci_severity)];
                        el "td" [] [Text c.(ci_description)]])
             p.(p_spec).(Client.checks))]].

Definition PolicyDetail (d : Detail) : node Action :=
  let p := d.(policy) in
  el "div" []
    [el "div" [("className", "page-header")]
       [el "div" [("className", "flex items-center gap-3")]
          [Button.Button Button.Vghost Button.Sm (icon "IconBack") false [] Back [];
           el "div" []
             [el "div" [("className", "page-title")] [Text p.(p_metadata).(Client.name)];
              el "div" [("className", "page-subtitle")] [Text p.(p_metadata).(Client.namespace)]]];
        el "div" [("className", "flex gap-2")]
          [Button.Button Button.Vsecondary Button.Md (icon "IconEdit") false [] Edit [Text "Edit"];
           Button.Button Button.Vprimary Button.Md (icon "IconPlay") d.(d_running) [] RunDetail
             [Text (if d.(d_running) then "Running..." else "Run Now")]]];
     info_cards p;
     el "div" [("className", "section-title")]
       [Text "Checks ("; Text (show_Z (Z.of_nat (length p.(p_spec).(Client.checks)))); Text ")"];
     checks_table p;
     health_card p;
     node_map EditDialog
       (PolicyForm.view (Some p) defaultNs clusterNamespaces nsLoading yaml_dump d.(editDialog))].

Definition view (w : World) : node Action :=
  match w.(query), w.(selected) with
  | Loading, _ => EmptyState.LoadingState
  | _, Some d => PolicyDetail d
  | _, None => list_view w
  end.

Inductive step : relation World :=
  | step_ui w w' : ui_step view update w w' → step w w'
  | step_fetched w l : step w (set_query (Loaded l) w)
  | step_fetch_failed w : w.(query) = Loading → step w (set_query Errored w)
  | step_run_settled w e : is_Some w.(running) → step w (run_settled e w)
  | step_detail_run_settled w d e :
    w.(selected) = Some d → d.(d_running) = true → step w (detail_run_settled e w)
  | step_delete_settled w ok : w.(deleting) = true → step w (delete_settled ok w)
  | step_escape w key a :
    w.(selected) = None →
    Modal.on_keydown (bool_decide (is_Some w.(deleteTarget))) CancelDelete key = Some a →
    step w (update a w)
  (* an open form dialog: Escape, a press outside its boxes, the answer *)
  | step_create w d :
    w.(selected) = None →
    PolicyForm.step None defaultNs clusterNamespaces nsLoading yaml_dump w.(createDialog) d →
    step w (set_create d w)
  | step_edit w d dl :
    w.(selected) = Some d →
    PolicyForm.step (Some d.(policy)) defaultNs clusterNamespaces nsLoading yaml_dump
      d.(editDialog) dl →
    step w (set_selected (Some {| policy := d.(policy); editDialog := dl;
                                  d_running := d.(d_running) |}) w).
End page.

(** ** Lemmas *)

Section page_lemmas.
Context (now : Z) (ns : string) (nss : list string) (ld : bool) (dump : json → string).

(** What the enabled controls of the page do. *)
Definition offered (w : World) (a : Action) : Prop :=
  match a with
  | Select p => w.(selected) = None ∧ p ∈ policies w
  | ConfirmDelete => w.(selected) = None ∧ is_Some w.(deleteTarget) ∧ w.(deleting) = false
  | CreateDialog b =>
    w.(selected) = None ∧ ∃ l d, l ∈ listeners (PolicyForm.view None ns nss ld dump w.(createDialog)) ∧
      l.(act) d = Some b
  | EditDialog b =>
    ∃ dt l d, w.(selected) = Some dt ∧
      l ∈ listeners (PolicyForm.view (Some dt.(policy)) ns nss ld dump dt.(editDialog)) ∧
      l.(act) d = Some b
  | NewPolicy | Run _ _ | AskDelete _ _ | CancelDelete => w.(selected) = None
  | Back | Edit => is_Some w.(selected)
  | RunDetail => ∃ dt, w.(selected) = Some dt ∧ dt.(d_running) = false
  end.

Lemma row_listeners w p l d a :
  w.(selected) = None → p ∈ policies w →
  l ∈ listeners (row now w p) → l.(act) d = Some a → offered w a.
Proof.
  intros Hs Hp Hl Ha. unfold row in Hl. cbv zeta in Hl. inv_ui Hl;
    try (subst; cbn in Ha; simplify_eq/=; done).
  - destruct (_ ≫= lastFullScanTime) as [t|]; [destruct (truthy t)|]; unfold icon in Hl; inv_ui Hl.
  - unfold ConditionBadge in Hl. destruct (getLatestCondition p); inv_ui Hl.
  - destruct (_ ≫= p_summary); unfold summary_note in Hl; inv_ui Hl.
  - unfold icon in Hl. inv_ui Hl.
  - unfold icon in Hl. inv_ui Hl.
Qed.

Lemma delete_modal_listeners w l d a :
  w.(selected) = None → l ∈ listeners (DeletePolicyModal w) → l.(act) d = Some a → offered w a.
Proof.
  intros Hs Hl Ha. unfold DeletePolicyModal, Modal.Modal in Hl.
  case_bool_decide as Ht; cbn [negb] in Hl; inv_ui Hl; subst; cbn in Ha; simplify_eq/=; try done.
  all: try (destruct (deleteTarget w) as [[? ?]|]; inv_ui Hl; fail).
Qed.

Lemma static_card_listeners p l d (a : Action) :
  (l ∈ listeners (info_cards now p) ∨ l ∈ listeners (checks_table p) ∨
   l ∈ listeners (health_card now p)) → l.(act) d = Some a → False.
Proof.
  intros [Hl|[Hl|Hl]] Ha.
  - unfold info_cards, InfoRow, MiniStat in Hl. cbv zeta in Hl. inv_ui Hl.
    destruct (_ ≫= p_summary); inv_ui Hl.
  - unfold checks_table in Hl. inv_ui Hl.
  - unfold health_card in Hl. cbv zeta in Hl. inv_ui Hl.
    destruct (find_condition "Degraded" _) as [c|]; [|destruct (find_condition "Available" _) as [c|]];
      inv_ui Hl; unfold transition_time in Hl; destruct (c_lastTransitionTime c); inv_ui Hl.
Qed.

Lemma detail_listeners w dt l d a :
  w.(selected) = Some dt → l ∈ listeners (PolicyDetail now ns nss ld dump dt) →
  l.(act) d = Some a → offered w a.
Proof.
  intros Hs Hl Ha. unfold PolicyDetail in Hl. cbv zeta in Hl. inv_ui Hl;
    try (subst; cbn in Ha; simplify_eq/=; eauto; fail);
    try (unfold icon in Hl; inv_ui Hl; fail);
    try (edestruct static_card_listeners; [eauto|exact Ha]; fail).
  subst. cbn in Ha. destruct (act _ d) as [b|] eqn:Hb; simplify_eq/=. eauto 6.
Qed.

Lemma list_listeners w l d a :
  w.(selected) = None → l ∈ listeners (list_view now ns nss ld dump w) →
  l.(act) d = Some a → offered w a.
Proof.
  intros Hs Hl Ha. unfold list_view in Hl. cbv zeta in Hl. inv_ui Hl;
    try (unfold new_button, icon in Hl; inv_ui Hl; subst; cbn in Ha; simplify_eq/=; done);
    try (unfold table_head in Hl; inv_ui Hl; fail);
    try (by eapply row_listeners; [..|exact Ha]);
    try (by eapply delete_modal_listeners).
  subst. cbn in Ha. destruct (act _ d) as [b|] eqn:Hb; simplify_eq/=. eauto 6.
Qed.

Lemma page_view_listeners w l d a :
  l ∈ listeners (view now ns nss ld dump w) → l.(act) d = Some a → offered w a.
Proof.
  intros Hl Ha. unfold view in Hl.
  destruct (query w); [inv_ui Hl|..];
    (destruct (selected w) as [dt|] eqn:Hs; [by eapply detail_listeners|by eapply list_listeners]).
Qed.

(** The mounted dialogs satisfy the invariant of the dialog. *)
Definition page_inv (w : World) : Prop :=
  dialog_inv None ns w.(createDialog) ∧
  ∀ dt, w.(selected) = Some dt → dialog_inv (Some dt.(policy)) ns dt.(editDialog).

Lemma page_inv_initial : page_inv initial.
Proof. split; [apply dialog_inv_initial|done]. Qed.

Lemma unmounted_inv w :
  dialog_inv None ns w.(createDialog) → dialog_inv None ns (unmount_create w).(createDialog).
Proof. intros [_ _ _ Hlog]. by constructor. Qed.

Lemma page_inv_detail w f :
  (∀ dt, policy (f dt) = policy dt) →
  (∀ dt, w.(selected) = Some dt → dialog_inv (Some dt.(policy)) ns dt.(editDialog) →
     dialog_inv (Some dt.(policy)) ns (f dt).(editDialog)) →
  page_inv w → page_inv (on_detail f w).
Proof.
  intros Hp Hf [Hc Hd]. split; [done|]. cbn. intros dt' Hdt.
  destruct (selected w) as [dt|] eqn:Hs; [|done]. injection Hdt as <-.
  rewrite Hp. by apply Hf, Hd.
Qed.

Lemma opened_inv ep w : w.(PolicyForm.open) = false → dialog_inv ep ns w → dialog_inv ep ns (opened ep w).
Proof. intros Ho Hw. apply (dialog_inv_step ep ns nss ld dump w); [done|by apply step_open]. Qed.

(** Opening a dialog that is open already changes nothing. *)
Lemma reopened_inv ep w : dialog_inv ep ns w → dialog_inv ep ns (opened ep w).
Proof.
  intros Hw. destruct (PolicyForm.open w) eqn:Ho; [|by apply opened_inv].
  unfold opened. rewrite rendered_open; cbn; [|done|].
  - destruct w; cbn in *. subst. done.
  - intros p Hp. by apply (inv_edit _ _ _ Hw p).
Qed.

Lemma page_inv_update w a : page_inv w → offered w a → page_inv (update ns nss ld a w).
Proof.
  intros Hw Ha. pose proof Hw as [Hc Hd].
  destruct a as [p| |rns nm|dns nm| | |b| | | |b]; cbn [update offered] in *; try done.
  - split; [by apply unmounted_inv|]. intros dt [= <-]. apply dialog_inv_initial.
  - split; [by apply reopened_inv|done].
  - by destruct (deleteTarget w) as [[? ?]|].
  - destruct Ha as (_ & l & d & Hl & Hb). split; [|done]. by eapply dialog_inv_update.
  - apply page_inv_detail; [done| |done]. intros dt _ Hdt. by apply reopened_inv.
  - destruct Ha as (dt & Hs & _). rewrite Hs. by apply page_inv_detail.
  - destruct Ha as (dt & l & d & Hs & Hl & Hb). apply page_inv_detail; [done| |done].
    intros dt' Hdt' Hinv. rewrite Hs in Hdt'. injection Hdt' as <-. by eapply dialog_inv_update.
Qed.

Lemma page_inv_step w w' : page_inv w → step now ns nss ld dump w w' → page_inv w'.
Proof.
  intros Hw Hs.
  destruct Hs as [w w' Hs|w l|w _|w e _|w d e Hsel Hrun|w ok _|w key a Hsel Hk|w d Hsel Hd|w d dl Hsel Hd].
  - destruct Hs as [w path e d a Ha]. apply dispatch_listener in Ha as (l & Hl & _ & Ha).
    apply page_inv_update; [done|]. by eapply page_view_listeners.
  - done.
  - done.
  - unfold run_settled. by destruct (running w) as [[? ?]|].
  - unfold detail_run_settled. rewrite Hsel. by apply page_inv_detail.
  - by destruct ok.
  - apply page_inv_update; [done|]. unfold Modal.on_keydown in Hk.
    repeat case_match; try done. by injection Hk as <-.
  - destruct Hw as [Hc Hdt]. split; [by eapply dialog_inv_step|done].
  - destruct Hw as [Hc Hdt]. split; [done|]. intros dt [= <-]. cbn.
    eapply dialog_inv_step; [by apply Hdt|exact Hd].
Qed.

Lemma page_reachable w : rtc (step now ns nss ld dump) initial w → page_inv w.
Proof.
  intros Hr. eapply rtc_invariant; [apply page_inv_initial| |exact Hr].
  intros a b Ha Hab. by eapply page_inv_step.
Qed.

(** Only the back button leaves the detail view, and it shows what it showed. *)
Lemma selected_step w w' dt :
  step now ns nss ld dump w w' → w.(selected) = Some dt →
  w'.(selected) = None ∨ ∃ dt', w'.(selected) = Some dt' ∧ dt'.(policy) = dt.(policy).
Proof.
  intros Hs Hsel.
  destruct Hs as [w w' Hs|w l|w _|w e _|w d e Hsel' Hrun|w ok _|w key a Hsel' Hk|w d Hsel' Hd|w d dl Hsel' Hd];
    try (right; exists dt; done); try congruence.
  - destruct Hs as [w path e d a Ha]. apply dispatch_listener in Ha as (l & Hl & _ & Ha).
    pose proof (page_view_listeners _ _ _ _ Hl Ha) as Hoff. clear Hl Ha.
    destruct a; cbn in Hoff |- *; try (right; by exists dt); try (destruct Hoff; congruence);
      rewrite ?Hsel; cbn; rewrite ?Hsel; cbn; eauto.
  - right. exists dt. unfold run_settled. by destruct (running w) as [[? ?]|].
  - right. unfold detail_run_settled. rewrite Hsel. cbn. rewrite Hsel. cbn. eauto.
  - right. exists dt. by destruct ok.
  - right. rewrite Hsel in Hsel'. injection Hsel' as <-. cbn. eauto.
Qed.
End page_lemmas.

(** What [conditions.find] finds. *)
Lemma find_condition_spec p type :
  match find_condition type (policy_conditions p) with
  | Some c => is_true_condition type c = true ∧
      Exists (λ c, c.(c_type) = type ∧ c.(c_status) = "True") (policy_conditions p)
  | None => ¬ Exists (λ c, c.(c_type) = type ∧ c.(c_status) = "True") (policy_conditions p)
  end.
Proof.
  unfold find_condition. destruct (list_find _ _) as [[i c]|] eqn:Hf; cbn.
  - apply list_find_Some in Hf as (Hc & Ht & _). apply Is_true_true in Ht. split; [done|].
    apply Exists_exists. exists c. split; [by eapply list_elem_of_lookup_2|].
    unfold is_true_condition in Ht. by bool_to_prop.
  - apply list_find_None in Hf. rewrite Exists_exists. intros (c & Hc & Ht & Hs).
    rewrite Forall_forall in Hf. apply (Hf c Hc). unfold is_true_condition.
    by rewrite Ht, Hs, !bool_decide_eq_true_2.
Qed.

Lemma badge_error {A} p :
  Exists (λ c, c.(c_type) = "Degraded" ∧ c.(c_status) = "True") (policy_conditions p) →
  text_of (@ConditionBadge A p) = "Error".
Proof.
  intros Hex. pose proof (find_condition_spec p "Degraded") as Hdeg.
  unfold ConditionBadge, getLatestCondition.
  rewrite bool_decide_eq_false_2 by (destruct (policy_conditions p); [inversion Hex|done]).
  destruct (find_condition "Degraded" (policy_conditions p)) as [c|]; [|done].
  destruct Hdeg as [-> _]. done.
Qed.

Lemma badge_healthy {A} p :
  ¬ Exists (λ c, c.(c_type) = "Degraded" ∧ c.(c_status) = "True") (policy_conditions p) →
  Exists (λ c, c.(c_type) = "Available" ∧ c.(c_status) = "True") (policy_conditions p) →
  text_of (@ConditionBadge A p) = "Healthy".
Proof.
  intros Hno Hex. pose proof (find_condition_spec p "Degraded") as Hdeg.
  pose proof (find_condition_spec p "Available") as Hav.
  unfold ConditionBadge, getLatestCondition.
  rewrite bool_decide_eq_false_2 by (destruct (policy_conditions p); [inversion Hex|done]).
  destruct (find_condition "Degraded" _) as [c|]; [by destruct Hdeg|].
  destruct (find_condition "Available" _) as [c|]; [|done]. destruct Hav as [Ha _].
  assert (is_true_condition "Degraded" c = false) as ->; [|by rewrite Ha].
  unfold is_true_condition in *. apply andb_true_iff in Ha as [Ha _]. bool_to_prop. by rewrite Ha.
Qed.

(** ** Theorems *)

(** C27: the badge of the list and the health card of the detail view agree:
    both say Error when a Degraded condition is true, else both say Healthy when
    an Available condition is true; without conditions the list shows a dash and
    the detail view Pending; with other conditions only, the list shows the type
    of the first and the detail view nothing. *)
Theorem badge_agrees_with_detail p now :
  let has type := Exists (λ c, c.(c_type) = type ∧ c.(c_status) = "True") (policy_conditions p) in
  let badge := text_of (@ConditionBadge Action p) in
  let card := @health_card now Action p in
  (has "Degraded" → badge = "Error" ∧ ∃ t, text_of card = "Error" +:+ t) ∧
  (¬ has "Degraded" → has "Available" → badge = "Healthy" ∧ ∃ t, text_of card = "Healthy" +:+ t) ∧
  (policy_conditions p = [] →
     badge = "-" ∧ text_of card = "PendingNo scan has been executed yet") ∧
  (∀ c l, ¬ has "Degraded" → ¬ has "Available" → policy_conditions p = c :: l →
     badge = c.(c_type) ∧ card = Null).
Proof.
  pose proof (find_condition_spec p "Degraded") as Hdeg.
  pose proof (find_condition_spec p "Available") as Hav.
  cbv zeta. unfold ConditionBadge, getLatestCondition, health_card. cbv zeta.
  destruct (policy_conditions p) as [|c0 l0] eqn:Hl.
  { cbn. rewrite !Exists_nil. split_and!; try tauto; try done. }
  rewrite bool_decide_eq_false_2 by done.
  destruct (find_condition "Degraded" _) as [dg|].
  - destruct Hdeg as [Hd Hex]. rewrite Hd. split_and!; try tauto; try done.
    intros _. split; [done|]. by eexists.
  - destruct (find_condition "Available" _) as [av|].
    + destruct Hav as [Ha Hex]. rewrite Ha.
      assert (is_true_condition "Degraded" av = false) as ->.
      { unfold is_true_condition in *. apply andb_true_iff in Ha as [Ha _]. bool_to_prop.
        by rewrite Ha. }
      split_and!; try tauto; try done. intros _ _. split; [done|]. by eexists.
    + split_and!; try tauto; try done. intros c l _ _ [= -> ->]. cbn. split; [|done].
      assert (∀ type, ¬ Exists (λ c, c.(c_type) = type ∧ c.(c_status) = "True") (c :: l) →
        is_true_condition type c = false) as Hnot.
      { intros type Hex. destruct (is_true_condition type c) eqn:Ht; [exfalso|done]. apply Hex.
        left. unfold is_true_condition in Ht. by bool_to_prop. }
      rewrite (Hnot _ Hdeg), (Hnot _ Hav).
      cbn. by rewrite string_app_nil_r.
Qed.

(** The page under steps that stay in the detail view. *)
Definition stay now ns nss ld dump : relation World :=
  λ a b, step now ns nss ld dump a b ∧ is_Some b.(selected).

(** C23: the detail view is a snapshot: until the user goes back it shows the
    policy as it was when it was selected - also after the policy has been
    edited and the list fetched again - and a reopened edit dialog starts from
    these old values, so that saving it again undoes the first edit. *)
Theorem detail_is_snapshot now ns nss ld dump w w' dt :
  rtc (step now ns nss ld dump) initial w → w.(selected) = Some dt →
  rtc (stay now ns nss ld dump) w w' →
  ∃ dt', w'.(selected) = Some dt' ∧ dt'.(policy) = dt.(policy) ∧
    (dt'.(editDialog).(PolicyForm.open) = false →
     ∃ dt2, (update ns nss ld Edit w').(selected) = Some dt2 ∧
       dt2.(editDialog).(form) = prefill dt.(policy) default_form).
Proof.
  intros Hw Hs Hr.
  enough (page_inv ns w' ∧ ∃ dt', w'.(selected) = Some dt' ∧ dt'.(policy) = dt.(policy))
    as [[_ Hd] (dt' & Hs' & Hp)].
  { exists dt'. split_and!; [done..|]. intros Ho. cbn. rewrite Hs'. cbn. eexists. split; [done|].
    cbn. rewrite (inv_closed _ _ _ (Hd dt' Hs') Ho). cbn. by rewrite Hp. }
  apply (rtc_invariant (stay now ns nss ld dump)
    (λ w', page_inv ns w' ∧ ∃ dt', w'.(selected) = Some dt' ∧ dt'.(policy) = dt.(policy)) w w').
  - split; [by eapply page_reachable|eauto].
  - intros a b [Ha (dta & Hsa & Hpa)] [Hab [dtb Hsb]]. split; [by eapply page_inv_step|].
    destruct (selected_step _ _ _ _ _ _ _ _ Hab Hsa) as [?|(dt' & ? & ?)]; [congruence|].
    exists dt'. split; [done|congruence].
  - done.
Qed.

(** Every request the edit dialog of the detail view sends goes to the
    policy the detail view shows. *)
Theorem page_edits_shown_policy now ns nss ld dump w dt call :
  rtc (step now ns nss ld dump) initial w → w.(selected) = Some dt →
  Sent call ∈ dt.(editDialog).(PolicyForm.log) →
  ∃ spec, call = api.updatePolicy dt.(policy).(p_metadata).(Client.namespace)
                   dt.(policy).(p_metadata).(Client.name) (json_spec spec) ∧
    spec.(Client.checks) ≠ [].
Proof.
  intros Hw Hs Hc. apply page_reachable in Hw as [_ Hd].
  destruct (inv_log _ _ _ (Hd dt Hs) call Hc) as (spec & ? & _ & _ & ->). eauto.
Qed.

Definition is_delete (e : Effect) : bool :=
  match e with
  | Sent call => bool_decide (call.2.(opt_method) = Some "DELETE")
  | _ => false
  end.

(** C11: a policy is only deleted on confirmation: a step that sends a delete
    request sends exactly one, for the policy the confirmation dialog names, while
    no other deletion is pending; the dialog is closed by it. *)
Theorem delete_confirmed now ns nss ld dump w w' es :
  step now ns nss ld dump w w' → w'.(log) = w.(log) ++ es → existsb is_delete es = true →
  ∃ dns name, w.(deleteTarget) = Some (dns, name) ∧ w.(deleting) = false ∧
    es = [Sent (api.deletePolicy dns name)] ∧
    w'.(deleteTarget) = None ∧ w'.(deleting) = true ∧
    ∃ t, text_of (DeletePolicyModal w) = "Delete PolicyAre you sure you want to delete " +:+ name +:+ t.
Proof.
  intros Hs Hlog Hes.
  assert (∀ es0, es0 ++ es = es0 → False) as Hno.
  { intros es0 He. apply (f_equal length) in He. rewrite length_app in He.
    destruct es; [done|cbn in He; lia]. }
  assert (∀ es0, w'.(log) = w.(log) ++ es0 → es = es0) as Hsame.
  { intros es0 He. rewrite He in Hlog. by apply app_inv_head in Hlog. }
  destruct Hs as [w w' Hs|w l|w _|w e _|w d e Hsel Hrun|w ok _|w key a Hsel Hk|w d Hsel Hd|w d dl Hsel Hd];
    cbn in Hlog; try (by exfalso; eapply Hno).
  - destruct Hs as [w path e d a Ha]. apply dispatch_listener in Ha as (l & Hl & _ & Ha).
    pose proof (page_view_listeners _ _ _ _ _ _ _ _ _ Hl Ha) as Hoff. clear Hl Ha.
    destruct a as [p| |rns nm|dns nm| | |b| | | |b]; cbn in Hlog; try (by exfalso; eapply Hno).
    + rewrite (Hsame _ eq_refl) in Hes. done.
    + destruct Hoff as (Hsel & [[dns name] Ht] & Hdel). cbn in Hsame. cbn [update] in *.
      rewrite Ht in Hsame |- *.
      exists dns, name. split_and!; try done; [by apply Hsame|].
      unfold DeletePolicyModal, Modal.Modal. rewrite Ht. cbn. eexists.
      rewrite !string_app_assoc. reflexivity.
    + destruct Hoff as (dt & Hsel & _). cbn [update] in Hsame. rewrite Hsel in Hsame.
      rewrite (Hsame _ eq_refl) in Hes. done.
  - unfold run_settled in *. destruct (running w) as [[? ?]|]; [|by exfalso; eapply Hno].
    rewrite (Hsame _ eq_refl) in Hes. by destruct e.
  - unfold detail_run_settled in *. rewrite Hsel in Hsame. rewrite (Hsame _ eq_refl) in Hes.
    by destruct e.
  - destruct ok; cbn in *; [|by exfalso; eapply Hno]. rewrite (Hsame _ eq_refl) in Hes. done.
  - unfold Modal.on_keydown in Hk. repeat case_match; try done. injection Hk as <-.
    by exfalso; eapply Hno.
Qed.

(** ** Concrete runs *)

Section runs.
Let st := step 0 "dtm-system" [] false no_yaml.
Let up := update "dtm-system" [] false.

Definition fetched : World := set_query (Loaded [sample_policy]) initial.
Definition shown : World := up (Select sample_policy) fetched.
Definition editing : World := up (EditDialog (SetModel "claude-opus")) (up Edit shown).
Definition saving : World := up (EditDialog Submit) editing.
(** The answer, and the list with the policy as it is now. *)
Definition saved : World :=
  set_selected (Some {| policy := sample_policy;
    editDialog := PolicyForm.onSuccess (Some sample_policy)
      match saving.(selected) with Some d => d.(editDialog) | None => PolicyForm.initial end;
    d_running := false |}) saving.
Definition updated_policy : ChecklistPolicy :=
  {| p_metadata := sample_policy.(p_metadata);
     p_spec := submit_spec (setModel "claude-opus" (prefill sample_policy default_form));
     p_status := None |}.
Definition refetched : World := set_query (Loaded [updated_policy]) saved.

Lemma run_shown : rtc st initial shown.
Proof.
  eapply rtc_l; [apply (step_fetched _ _ _ _ _ initial [sample_policy])|].
  apply rtc_once, step_ui, (ui_event _ _ fetched [1; 0; 0; 1; 0; 0; 0]%nat "click" "" (Select sample_policy)).
  vm_compute. apply list_elem_of_here.
Qed.

Lemma run_saving : rtc (stay 0 "dtm-system" [] false no_yaml) shown saving.
Proof.
  eapply rtc_l.
  { split; [apply step_ui, (ui_event _ _ shown [0; 1; 0]%nat "click" "" Edit);
      vm_compute; apply list_elem_of_here|by eexists]. }
  eapply rtc_l.
  { split; [apply step_ui, (ui_event _ _ _ [5; 0; 1; 1; 1; 1]%nat "change" "claude-opus"
        (EditDialog (SetModel "claude-opus")));
      vm_compute; apply list_elem_of_here|by eexists]. }
  apply rtc_once. split; [apply step_ui, (ui_event _ _ editing [5; 0; 1; 7; 1]%nat "click" "" (EditDialog Submit));
      vm_compute; apply list_elem_of_here|by eexists].
Qed.

Lemma run_refetched : rtc (stay 0 "dtm-system" [] false no_yaml) shown refetched.
Proof.
  etrans; [exact run_saving|].
  eapply rtc_l.
  { split; [eapply (step_edit _ _ _ _ _ saving); [reflexivity|];
      apply PolicyForm.step_success; reflexivity|by eexists]. }
  apply rtc_once. split; [apply step_fetched|by eexists].
Qed.
End runs.

Lemma detail_is_snapshot_witness :
  ∃ dt', refetched.(selected) = Some dt' ∧ dt'.(policy) = sample_policy ∧
    (dt'.(editDialog).(PolicyForm.open) = false →
     ∃ dt2, (update "dtm-system" [] false Edit refetched).(selected) = Some dt2 ∧
       dt2.(editDialog).(form) = prefill sample_policy default_form).
Proof.
  exact (detail_is_snapshot 0 "dtm-system" [] false no_yaml shown refetched
    (mount_detail sample_policy) run_shown eq_refl run_refetched).
Defined.

Lemma run_all : rtc (step 0 "dtm-system" [] false no_yaml) initial saving.
Proof.
  etrans; [exact run_shown|].
  eapply (rtc_subrel (stay 0 "dtm-system" [] false no_yaml) (step 0 "dtm-system" [] false no_yaml));
    [intros a b [Hab _]; exact Hab|exact run_saving].
Qed.

Definition sent_edit : ApiCall :=
  api.updatePolicy "ops" "nightly"
    (json_spec (submit_spec (setModel "claude-opus" (prefill sample_policy default_form)))).

Lemma page_edits_shown_policy_witness :
  ∃ spec, sent_edit = api.updatePolicy "ops" "nightly" (json_spec spec) ∧
    spec.(Client.checks) ≠ [].
Proof.
  refine (page_edits_shown_policy 0 "dtm-system" [] false no_yaml saving
    match saving.(selected) with Some d => d | None => mount_detail sample_policy end sent_edit
    run_all eq_refl _).
  vm_compute. apply list_elem_of_here.
Defined.

Definition asked : World := update "dtm-system" [] false (AskDelete "ops" "nightly") fetched.

Lemma delete_confirmed_witness :
  ∃ dns name, asked.(deleteTarget) = Some (dns, name) ∧ asked.(deleting) = false ∧
    [Sent (api.deletePolicy "ops" "nightly")] = [Sent (api.deletePolicy dns name)] ∧
    (update "dtm-system" [] false ConfirmDelete asked).(deleteTarget) = None ∧
    (update "dtm-system" [] false ConfirmDelete asked).(deleting) = true ∧
    ∃ t, text_of (DeletePolicyModal asked) =
         "Delete PolicyAre you sure you want to delete " +:+ name +:+ t.
Proof.
  apply (delete_confirmed 0 "dtm-system" [] false no_yaml asked
    (update "dtm-system" [] false ConfirmDelete asked)); [|reflexivity|reflexivity].
  apply step_ui, (ui_event _ _ asked [3; 0; 1; 1; 1]%nat "click" "" ConfirmDelete).
  vm_compute. apply list_elem_of_here.
Defined.

Definition degraded_policy : ChecklistPolicy :=
  {| p_metadata := sample_policy.(p_metadata); p_spec := sample_policy.(p_spec);
     p_status := Some {| lastFullScanTime := None; lastRescanTime := None; lastResultName := None;
       p_summary := None;
       conditions := Some [{| c_type := "Degraded"; c_status := "True"; c_reason := "ScanFailed";
                              c_message := "no key"; c_lastTransitionTime := None |}] |} |}.

Lemma badge_agrees_with_detail_witness :
  text_of (@ConditionBadge Action degraded_policy) = "Error".
Proof.
  refine (proj1 (proj1 (badge_agrees_with_detail degraded_policy 0) _)).
  apply Exists_cons_hd. split; reflexivity.
Defined.
