(* ===== verification/Settings.v ===== *)
(** * The settings page ([ui/src/pages/Settings.tsx])

    A form over two parts of the settings document, [general] and
    [notification], and a raw editor for the whole of it.  The two parts are
    JavaScript objects that may hold more than the form shows, so they are
    modelled as JSON objects; the text of the raw editor is really printed and
    parsed. *)
From Stdlib Require Import Ascii ZArith Lia.
From stdpp Require Import base list strings pretty gmap sets relations sorting.
From S2P Require Import Prelude JsStd Json Jsx Widgets Toast Client PolicyForm.
Local Open Scope Z_scope.

Abbreviation obj := (list (string * json)).

Inductive Mode := ModeForm | ModeJson.

#[export] Instance Mode_eq_dec : EqDecision Mode.
Proof. solve_decision. Defined.

(** The query: loading, failed, or its last answer. *)
Inductive Query := Loading | Errored | Loaded (settings : json).

Record World := {
  query : Query;
  mode : Mode;
  jsonText : string;
  toast : option (ToastType * string);
  general : obj;
  notif : obj;
  pending : bool;
  clock : Z;
  (** deadlines of the pending [setTimeout(() => setToast(null), 4000)] *)
  timers : list Z;
  log : list Effect
}.

Definition default_general : obj :=
  [("defaultProvider", JStr "claude"); ("defaultModel", JStr "");
   ("escalationThreshold", JNum 5); ("resultRetentionDays", JNum 30)].

Definition default_notif : obj :=
  [("slack", JObj [("enabled", JBool false); ("channel", JStr ""); ("webhookSecret", JStr "")]);
   ("github", JObj [("enabled", JBool false); ("owner", JStr ""); ("repo", JStr "");
                    ("labels", JStr ""); ("tokenSecret", JStr "")]);
   ("jira", JObj [("enabled", JBool false); ("url", JStr ""); ("project", JStr "");
                  ("issueType", JStr "Bug"); ("credentialSecret", JStr "")])].

Definition initial : World :=
  {| query := Loading; mode := ModeForm; jsonText := ""; toast := None;
     general := default_general; notif := default_notif; pending := false; clock := 0;
     timers := []; log := [] |}.

(** ** Objects *)

(** [v.k] and [v?.k]. *)
Definition prop (k : string) (v : json) : option json :=
  match v with JObj l => obj_get k l | _ => None end.
Definition oprop (k : string) (v : option json) : option json := v ≫= prop k.

Fixpoint chars (s : string) : list json :=
  match s with
  | EmptyString => []
  | String c s => JStr (String c "") :: chars s
  end.

(** The entries [...v] contributes to an object literal. *)
Definition entries (v : json) : obj :=
  match v with
  | JObj l => l
  | JArr l => imap (λ i x, (show_Z (Z.of_nat i), x)) l
  | JStr s => imap (λ i x, (show_Z (Z.of_nat i), x)) (chars s)
  | _ => []
  end.

Definition oentries (v : option json) : obj := match v with Some v => entries v | None => [] end.

(** ** State changes *)

Definition set_form (g n : obj) (w : World) : World :=
  {| query := w.(query); mode := w.(mode); jsonText := w.(jsonText); toast := w.(toast);
     general := g; notif := n; pending := w.(pending); clock := w.(clock);
     timers := w.(timers); log := w.(log) |}.

Definition setGeneral (g : obj) (w : World) : World := set_form g w.(notif) w.
Definition setNotif (n : obj) (w : World) : World := set_form w.(general) n w.

Definition setMode (m : Mode) (w : World) : World :=
  {| query := w.(query); mode := m; jsonText := w.(jsonText); toast := w.(toast);
     general := w.(general); notif := w.(notif); pending := w.(pending); clock := w.(clock);
     timers := w.(timers); log := w.(log) |}.

Definition setJsonText (t : string) (w : World) : World :=
  {| query := w.(query); mode := w.(mode); jsonText := t; toast := w.(toast);
     general := w.(general); notif := w.(notif); pending := w.(pending); clock := w.(clock);
     timers := w.(timers); log := w.(log) |}.

Definition setQuery (q : Query) (w : World) : World :=
  {| query := q; mode := w.(mode); jsonText := w.(jsonText); toast := w.(toast);
     general := w.(general); notif := w.(notif); pending := w.(pending); clock := w.(clock);
     timers := w.(timers); log := w.(log) |}.

Definition showToast (type : ToastType) (msg : string) (w : World) : World :=
  {| query := w.(query); mode := w.(mode); jsonText := w.(jsonText); toast := Some (type, msg);
     general := w.(general); notif := w.(notif); pending := w.(pending); clock := w.(clock);
     timers := w.(timers) ++ [w.(clock) + 4000]; log := w.(log) |}.

(** The effect on [settings]. *)
Definition seed (settings : json) (w : World) : World :=
  if negb (json_truthy settings) then w
  else
    let part k old :=
      match prop k settings with
      | Some v => if json_truthy v then obj_spread old (entries v) else old
      | None => old
      end in
    set_form (part "general" w.(general)) (part "notification" w.(notif))
      (setJsonText (JSON_stringify_2 settings) w).

(** React Query's comparison of an old and a new answer: the order of an
    object's keys does not matter. *)
Fixpoint json_same (a b : json) : bool :=
  match a, b with
  | JArr l, JArr m =>
    (fix arr l m := match l, m with
                    | [], [] => true
                    | x :: l, y :: m => json_same x y && arr l m
                    | _, _ => false
                    end) l m
  | JObj l, JObj m =>
    bool_decide (length l = length m) &&
    (fix all l := match l with
                  | [] => true
                  | (k, x) :: l =>
                    match obj_get k m with Some y => json_same x y && all l | None => false end
                  end) l
  | _, _ => bool_decide (a = b)
  end.

(** An answer of the query.  React Query keeps the old object when the new one
    is equal to it, and then the effect does not run. *)
Definition fetched (settings : json) (w : World) : World :=
  match w.(query) with
  | Loaded old => if json_same old settings then w else seed settings (setQuery (Loaded settings) w)
  | _ => seed settings (setQuery (Loaded settings) w)
  end.

(** [mutation.mutate(data)]. *)
Definition mutate (data : json) (w : World) : World :=
  {| query := w.(query); mode := w.(mode); jsonText := w.(jsonText); toast := w.(toast);
     general := w.(general); notif := w.(notif); pending := true; clock := w.(clock);
     timers := w.(timers); log := w.(log) ++ [Sent (api.updateSettings data)] |}.

Definition handleSaveForm (w : World) : World :=
  mutate (JObj [("general", JObj w.(general)); ("notification", JObj w.(notif))]) w.

Definition handleSaveJson (w : World) : World :=
  match JSON_parse w.(jsonText) with
  | Some parsed => mutate parsed w
  | None => showToast Error "Invalid JSON format." w
  end.

Definition settled (error : option string) (w : World) : World :=
  let w := {| query := w.(query); mode := w.(mode); jsonText := w.(jsonText); toast := w.(toast);
              general := w.(general); notif := w.(notif); pending := false; clock := w.(clock);
              timers := w.(timers);
              log := match error with None => w.(log) ++ [Invalidate "settings"]
                     | Some _ => w.(log) end |} in
  match error with
  | None => showToast Success "Settings saved successfully." w
  | Some message => showToast Error message w
  end.

(** A timer runs: whatever toast is shown goes. *)
Definition run_timer (k : nat) (w : World) : World :=
  {| query := w.(query); mode := w.(mode); jsonText := w.(jsonText); toast := None;
     general := w.(general); notif := w.(notif); pending := w.(pending); clock := w.(clock);
     timers := delete k w.(timers); log := w.(log) |}.

Definition set_clock (t : Z) (w : World) : World :=
  {| query := w.(query); mode := w.(mode); jsonText := w.(jsonText); toast := w.(toast);
     general := w.(general); notif := w.(notif); pending := w.(pending); clock := t;
     timers := w.(timers); log := w.(log) |}.

(** ** Number fields *)

Definition hex_value (c : ascii) : option N := unhex_char c.

Fixpoint read_base (digit : ascii → option N) (base : N) (acc : option N) (s : string) : option N :=
  match s with
  | EmptyString => acc
  | String c s =>
    match digit c with
    | Some d => read_base digit base (Some (base * default 0 acc + d)%N) s
    | None => acc
    end
  end.

Definition decimal_value (c : ascii) : option N := N.of_nat <$> Ascii.is_nat c.

(** [parseInt(s)], a double; the text of a number field is one the browser has
    made a finite number. *)
Definition parseInt (s : string) : num :=
  let s := trim_start s in
  let neg := match s with String "-" _ => true | _ => false end in
  let s := match s with String "-" u => u | String "+" u => u | _ => s end in
  let n := match s with
           | String "0" (String "x" u) | String "0" (String "X" u) => read_base hex_value 16 None u
           | _ => read_base decimal_value 10 None s
           end in
  (λ n, to_double (if neg then - Z.of_N n else Z.of_N n)) <$> n.

(** [parseInt(v) || d]. *)
Definition int_or (v : string) (d : Z) : Z :=
  match parseInt v with Some n => if n =? 0 then d else n | None => d end.

(** ** Handlers *)

Inductive Action :=
  | SetMode (m : Mode) | SetJson (t : string) | Save
  | SetGeneral (k : string) (v : string)
  | SetThreshold (v : string) | SetRetention (v : string)
  | SetEnabled (channel : string) (v : string)
  | SetChannel (channel k : string) (v : string).

(** [setNotif({ ...notif, [c]: { ...notif[c]!, [k]: v } })]. *)
Definition set_in_channel (c k : string) (v : json) (n : obj) : obj :=
  obj_set c (JObj (obj_set k v (oentries (obj_get c n)))) n.

Definition update (a : Action) (w : World) : World :=
  match a with
  | SetMode m => setMode m w
  | SetJson t => setJsonText t w
  | Save => match w.(mode) with ModeForm => handleSaveForm w | ModeJson => handleSaveJson w end
  | SetGeneral k v => setGeneral (obj_set k (JStr v) w.(general)) w
  | SetThreshold v =>
    setGeneral (obj_set "escalationThreshold" (JNum (int_or v 5)) w.(general)) w
  | SetRetention v =>
    setGeneral (obj_set "resultRetentionDays" (JNum (int_or v 30)) w.(general)) w
  | SetEnabled c v =>
    setNotif (set_in_channel c "enabled" (JBool (bool_decide (v = "true"))) w.(notif)) w
  | SetChannel c k v => setNotif (set_in_channel c k (JStr v) w.(notif)) w
  end.

(** ** Rendering *)

(** A field's value as an attribute. *)
Definition shown (v : option json) : string := match v with Some v => js_String v | None => "" end.

Definition text_field (label value placeholder : string) (f : string → Action) : node Action :=
  FormField.FormField [Text label] [] [FormField.Input value placeholder false f].

(** [notif[c]?.enabled] as a condition. *)
Definition enabled (w : World) (c : string) : bool :=
  match oprop "enabled" (obj_get c w.(notif)) with Some v => json_truthy v | None => false end.

Definition channel_value (w : World) (c k : string) : string :=
  shown (oprop k (obj_get c w.(notif))).

Definition channel_card (w : World) (c title : string) (fields : list (node Action)) : node Action :=
  Card.Card "" None false [("marginBottom", Some "16")]
    [el "div" [("className", "flex items-center justify-between mb-4")]
       [el "div" [("className", "flex items-center gap-2")]
          [el "div" [] [Text title];
           Badge.Badge (if enabled w c then Badge.Vpass else Badge.Vneutral)
             [Text (if enabled w c then "Enabled" else "Disabled")]];
        el "label" [("className", "flex items-center gap-2")]
          [Elem "input" [("type", "checkbox"); ("checked", if enabled w c then "true" else "false")]
             false [on_value "change" (SetEnabled c)] [];
           Text "Enable"]];
     when (enabled w c) (el "div" [("className", "grid grid-2")] fields)].

Definition channel_field (w : World) (c label k placeholder : string) : node Action :=
  text_field label (channel_value w c k) placeholder (SetChannel c k).

Definition general_card (w : World) : node Action :=
  let g k := shown (obj_get k w.(general)) in
  Card.Card "" None false [("marginBottom", Some "16")]
    [el "div" [("className", "flex items-center gap-2 mb-4")] [el "div" [] [Text "General"]];
     el "div" [("className", "grid grid-2")]
       [FormField.FormField [Text "Default LLM Provider"] []
          [FormField.Select (g "defaultProvider")
             [("claude", "Claude"); ("gemini", "Gemini"); ("openai", "OpenAI")]
             (SetGeneral "defaultProvider")];
        text_field "Default Model" (g "defaultModel") "claude-sonnet-4-20250514"
          (SetGeneral "defaultModel");
        text_field "Escalation Threshold" (g "escalationThreshold") "" SetThreshold;
        text_field "Result Retention (days)" (g "resultRetentionDays") "" SetRetention]].

Definition form_cards (w : World) : list (node Action) :=
  [general_card w;
   channel_card w "slack" "Slack Notifications"
     [channel_field w "slack" "Channel" "channel" "#dtm-alerts";
      channel_field w "slack" "Webhook Secret Name" "webhookSecret" "dtm-slack-webhook"];
   channel_card w "github" "GitHub Issues"
     [channel_field w "github" "Owner" "owner" "my-org";
      channel_field w "github" "Repository" "repo" "my-repo";
      channel_field w "github" "Labels (comma-separated)" "labels" "dtm, alert";
      channel_field w "github" "Token Secret Name" "tokenSecret" "dtm-github-token"];
   channel_card w "jira" "Jira Tickets"
     [channel_field w "jira" "Jira URL" "url" "https://mycompany.atlassian.net";
      channel_field w "jira" "Project Key" "project" "OPS";
      FormField.FormField [Text "Issue Type"] []
        [FormField.Select (channel_value w "jira" "issueType")
           [("Bug", "Bug"); ("Task", "Task"); ("Story", "Story")] (SetChannel "jira" "issueType")];
      channel_field w "jira" "Credential Secret Name" "credentialSecret" "dtm-jira-creds"]].

Definition mode_button (w : World) (m : Mode) (label : string) : node Action :=
  let current := bool_decide (w.(mode) = m) in
  Elem "button"
    [("style:background", if current then "var(--accent-muted)" else "transparent");
     ("style:color", if current then "var(--accent)" else "var(--text-tertiary)")]
    false [on "click" (SetMode m)] [Text label].

Definition view (w : World) : node Action :=
  match w.(query) with
  | Loading => EmptyState.LoadingState
  | _ =>
    el "div" []
      [el "div" [("className", "page-header")]
         [el "div" []
            [el "div" [("className", "page-title")] [Text "Settings"];
             el "div" [("className", "page-subtitle")] [Text "DTM system configuration"]];
          el "div" [("className", "flex gap-2")]
            [el "div" [] [mode_button w ModeForm "Form"; mode_button w ModeJson "JSON"];
             Button.Button Button.Vprimary Button.Md Null w.(pending) [] Save
               [Text (if w.(pending) then "Saving..." else "Save Settings")]]];
       match w.(toast) with
       | Some (type, msg) =>
         let ok := bool_decide (type = Success) in
         el "div"
           [("style:background", if ok then "var(--success-muted)" else "var(--danger-muted)");
            ("style:color", if ok then "var(--success)" else "var(--danger)");
            ("style:border", "1px solid " +:+
              if ok then "rgba(34,197,94,0.2)" else "rgba(239,68,68,0.2)")]
           [Text msg]
       | None => Null
       end;
       match w.(mode) with
       | ModeJson =>
         Card.Card "" None false []
           [FormField.FormField [Text "Raw Configuration"] []
              [FormField.TextArea w.(jsonText) "" SetJson]]
       | ModeForm => el "fragment" [] (form_cards w)
       end]
  end.

Inductive step : relation World :=
  | step_ui w w' : ui_step view update w w' → step w w'
  | step_fetched w settings : step w (fetched settings w)
  | step_fetch_failed w : w.(query) = Loading → step w (setQuery Errored w)
  | step_settled w error : w.(pending) = true → step w (settled error w)
  | step_timer w k d : w.(timers) !! k = Some d → d <= w.(clock) → step w (run_timer k w)
  | step_wait w t :
    w.(clock) <= t → (∀ d, d ∈ w.(timers) → t <= d) → step w (set_clock t w).

(** ** Lemmas *)

Lemma obj_get_set k k' v l : obj_get k (obj_set k' v l) = if decide (k = k') then Some v else obj_get k l.
Proof.
  induction l as [|[k1 v1] l IH]; cbn.
  - by case_decide.
  - destruct (decide (k' = k1)) as [->|Hk]; cbn; [by repeat case_decide|].
    rewrite IH. repeat case_decide; congruence.
Qed.

(** Spreading gives every key of the second object its value there; with
    distinct keys that is the one [obj_get] finds. *)
Lemma obj_get_spread k old new :
  NoDup new.*1 →
  obj_get k (obj_spread old new) = match obj_get k new with Some v => Some v | None => obj_get k old end.
Proof.
  revert old. unfold obj_spread. induction new as [|[k1 v1] new IH]; intros old Hnd; [done|].
  cbn [foldl fst snd]. inversion Hnd as [|? ? Hk1 Hnd']; subst. rewrite IH by done. cbn [obj_get].
  rewrite obj_get_set. destruct (decide (k = k1)) as [->|]; [|done].
  assert (obj_get k1 new = None) as ->; [|done]. clear IH Hnd Hnd'. cbn in Hk1.
  induction new as [|[k2 v2] new IHn]; [done|]. cbn in *. rewrite decide_False by set_solver.
  apply IHn. set_solver.
Qed.

Lemma read_base_decimal acc s :
  read_base decimal_value 10 (Some acc) s = Some (read_digits_acc acc s).1.
Proof.
  revert acc. induction s as [|c s IH]; intros acc; [done|]. cbn. unfold decimal_value.
  destruct (Ascii.is_nat c); cbn; [apply IH|done].
Qed.

Lemma parseInt_pos (n : N) : (0 < n)%N →
  parseInt (pretty n) = Some (to_double (Z.of_N n)) ∧
  parseInt (String "-" (pretty n)) = Some (to_double (- Z.of_N n)).
Proof.
  intros Hn. destruct (pretty_go_leads n "" Hn) as (c & t & Hs & Hc & H0).
  assert (pretty n = String c t) as Hp.
  { unfold pretty, pretty_N. by rewrite decide_False by lia. }
  assert (read_base decimal_value 10 None (String c t) = Some n) as Hr.
  { pose proof (read_digits_pretty n) as Hr. rewrite Hp in Hr.
    change (read_base decimal_value 10 None (String c t)) with
      (match decimal_value c with
       | Some d => read_base decimal_value 10 (Some (0 + d)%N) t | None => None end).
    cbn [read_digits_acc] in Hr. unfold decimal_value.
    destruct (Ascii.is_nat c) as [d|] eqn:Hd.
    - cbn [fmap option_fmap option_map]. change (0 + N.of_nat d)%N with (10 * 0 + N.of_nat d)%N.
      by rewrite read_base_decimal, Hr.
    - unfold is_digit in Hc. rewrite Hd in Hc. by apply bool_decide_eq_true in Hc as []. }
  rewrite Hp. apply is_digit_cases in Hc. apply elem_of_cons in Hc as [->|Hc]; [done|].
  repeat (apply elem_of_cons in Hc as [->|Hc];
    [split; unfold parseInt; rewrite trim_start_solid by done; revert Hr;
     cbn -[read_base Z.of_N Z.opp to_double]; by intros ->|]).
  by apply elem_of_nil in Hc.
Qed.

(** ** Theorems *)

(** C9: the raw editor is faithful: saving the text it shows for a fetched
    document sends that very document, and saving any text sends what the text
    parses to, or, when it does not parse, sends nothing and says so. *)
Theorem raw_editor_roundtrip settings text w :
  json_wf settings → json_truthy settings = true →
  (∀ old, w.(query) = Loaded old → json_same old settings = false) →
  (update Save (setMode ModeJson (fetched settings w))).(log) =
    w.(log) ++ [Sent (api.updateSettings settings)] ∧
  let w' := update Save (setMode ModeJson (setJsonText text w)) in
  match JSON_parse text with
  | Some v => w'.(log) = w.(log) ++ [Sent (api.updateSettings v)] ∧ w'.(toast) = w.(toast)
  | None => w'.(log) = w.(log) ∧ w'.(toast) = Some (Error, "Invalid JSON format.")
  end.
Proof.
  intros Hwf Ht Hq. split.
  - assert (fetched settings w = seed settings (setQuery (Loaded settings) w)) as ->.
    { unfold fetched. destruct (query w) as [| |old]; [done..|]. by rewrite Hq. }
    unfold seed. rewrite Ht. cbn [negb]. cbn [update setMode mode]. unfold handleSaveJson. cbn.
    by rewrite parse_stringify.
  - cbn. unfold handleSaveJson. cbn. by destruct (JSON_parse text).
Qed.

(** C32: the form follows the server, not the user: an answer equal to the
    previous one up to the order of keys leaves everything as it is, but one that differs, fetched in
    the background, puts back every field the document has, also where the
    user has typed something that is not saved. *)
Theorem refetch_overwrites_form settings old g n w :
  w.(query) = Loaded old → json_truthy settings = true → json_same old settings = false →
  prop "general" settings = Some (JObj g) → NoDup g.*1 →
  prop "notification" settings = Some (JObj n) → NoDup n.*1 →
  (∀ same, json_same old same = true → fetched same w = w) ∧
  let w' := fetched settings w in
  w'.(jsonText) = JSON_stringify_2 settings ∧
  (∀ k v, obj_get k g = Some v → obj_get k w'.(general) = Some v) ∧
  (∀ k v, obj_get k n = Some v → obj_get k w'.(notif) = Some v) ∧
  (∀ k, obj_get k g = None → obj_get k w'.(general) = obj_get k w.(general)).
Proof.
  intros Hq Ht Hne Hg Hgn Hn Hnn. unfold fetched. rewrite Hq. split; [by intros same ->|].
  rewrite Hne. cbv zeta. unfold seed. rewrite Ht, Hg, Hn.
  cbn [negb json_truthy entries set_form setJsonText setQuery jsonText general notif].
  split_and!; [done|..]; intros k; [intros v Hk|intros v Hk|intros Hk];
    by rewrite obj_get_spread, Hk.
Qed.

(** C31: saving the form sends the two parts it edits - with every key the
    server had in them, also those the form does not show - and drops every
    other part of the document. *)
Theorem form_save_payload doc g n w :
  w = seed (JObj doc) (setQuery (Loaded (JObj doc)) initial) →
  obj_get "general" doc = Some (JObj g) → NoDup g.*1 →
  obj_get "notification" doc = Some (JObj n) → NoDup n.*1 →
  ∃ g' n', (update Save w).(log) =
    [Sent (api.updateSettings (JObj [("general", JObj g'); ("notification", JObj n')]))] ∧
  (∀ k v, obj_get k g = Some v → obj_get k g' = Some v) ∧
  (∀ k v, obj_get k n = Some v → obj_get k n' = Some v) ∧
  (∀ k, k ≠ "general" → k ≠ "notification" →
     obj_get k [("general", JObj g'); ("notification", JObj n')] = None).
Proof.
  intros -> Hg Hgn Hn Hnn. unfold seed. cbn [json_truthy negb prop]. rewrite Hg, Hn. cbn.
  exists (obj_spread default_general g), (obj_spread default_notif n). split_and!; [done|..].
  - intros k v Hk. by rewrite obj_get_spread, Hk.
  - intros k v Hk. by rewrite obj_get_spread, Hk.
  - intros k H1 H2. cbn. by rewrite !decide_False.
Qed.

(** The threshold field stores any number but zero that it is given in digits,
    negative ones included - its [min] of 1 is not checked, for there is no form
    to submit -, and 5 for zero and for an empty field. *)
Lemma threshold_as_typed z w :
  - 2 ^ 53 < z < 2 ^ 53 →
  obj_get "escalationThreshold" (update (SetThreshold (show_Z z)) w).(general) =
    Some (JNum (if z =? 0 then 5 else z)) ∧
  obj_get "escalationThreshold" (update (SetThreshold "") w).(general) = Some (JNum 5).
Proof.
  intros Hz. cbn [update setGeneral set_form general]. rewrite !obj_get_set, !decide_True by done.
  split; [|done]. do 2 f_equal. unfold int_or, show_Z.
  assert (to_double z = z) as Hd by (unfold to_double; by rewrite (proj2 (Z.ltb_lt _ _)) by lia).
  destruct z as [|p|p]; [done|..].
  - change (pretty (Z.pos p)) with (pretty (Npos p)).
    rewrite (proj1 (parseInt_pos (Npos p) ltac:(lia))). cbn [Z.of_N]. by rewrite Hd.
  - change (pretty (Z.neg p)) with (String "-" (pretty (Npos p))).
    rewrite (proj2 (parseInt_pos (Npos p) ltac:(lia))).
    change (- Z.of_N (Npos p)) with (Z.neg p). by rewrite Hd.
Qed.

(** A message is cleared by the timer of the one before it: shown while an
    older timer is pending, it disappears when that one is due, before its own
    four seconds are over. *)
Theorem toast_cut_short w k d type msg :
  w.(timers) !! k = Some d → w.(clock) < d < w.(clock) + 4000 →
  (∀ d', d' ∈ w.(timers) → d <= d') →
  ∃ w1 w2, step (showToast type msg w) w1 ∧ step w1 w2 ∧ w2.(toast) = None ∧
    w2.(clock) < w.(clock) + 4000.
Proof.
  intros Hk Hd Hmin. exists (set_clock d (showToast type msg w)).
  exists (run_timer k (set_clock d (showToast type msg w))).
  split_and!; [apply step_wait; cbn; [lia|]|eapply step_timer|done|cbn; lia].
  - intros d' [Hd'%Hmin| ->%list_elem_of_singleton]%elem_of_app; lia.
  - cbn. by apply lookup_app_l_Some.
  - done.
Qed.

(** ** Concrete runs *)

Definition sample_settings : json :=
  JObj [("general", JObj [("escalationThreshold", JNum 3); ("region", JStr "eu")]);
        ("notification", JObj [("slack", JObj [("enabled", JBool true)])]);
        ("experimental", JBool true)].

Lemma raw_editor_roundtrip_witness :
  (update Save (setMode ModeJson (fetched sample_settings initial))).(log) =
  [Sent (api.updateSettings sample_settings)].
Proof.
  refine (proj1 (raw_editor_roundtrip sample_settings "" initial _ eq_refl _)); [|discriminate].
  cbn. split_and!; try exact I; apply (bool_decide_unpack _); reflexivity.
Defined.

(** The user has typed 7; the background fetch brings 3. *)
Definition typed : World :=
  update (SetThreshold "7") (fetched (JObj [("general", JObj [])]) initial).

Lemma refetch_overwrites_form_witness :
  obj_get "escalationThreshold" (fetched sample_settings typed).(general) = Some (JNum 3).
Proof.
  refine (proj1 (proj2 (proj2 (refetch_overwrites_form sample_settings
    (JObj [("general", JObj [])]) _ _ typed eq_refl eq_refl _ eq_refl _ eq_refl _))) _ _ _).
  - reflexivity.
  - apply (bool_decide_unpack _). reflexivity.
  - apply (bool_decide_unpack _). reflexivity.
  - reflexivity.
Defined.

Lemma form_save_payload_witness :
  ∃ g' n',
    (update Save (seed sample_settings (setQuery (Loaded sample_settings) initial))).(log) =
      [Sent (api.updateSettings (JObj [("general", JObj g'); ("notification", JObj n')]))] ∧
    (∀ k v, obj_get k [("escalationThreshold", JNum 3); ("region", JStr "eu")] = Some v →
       obj_get k g' = Some v) ∧
    (∀ k v, obj_get k [("slack", JObj [("enabled", JBool true)])] = Some v →
       obj_get k n' = Some v) ∧
    (∀ k, k ≠ "general" → k ≠ "notification" →
       obj_get k [("general", JObj g'); ("notification", JObj n')] = None).
Proof.
  refine (form_save_payload [("general", JObj [("escalationThreshold", JNum 3); ("region", JStr "eu")]);
    ("notification", JObj [("slack", JObj [("enabled", JBool true)])]);
    ("experimental", JBool true)] _ _ _ eq_refl eq_refl _ eq_refl _);
    apply (bool_decide_unpack _); reflexivity.
Defined.

Definition first_message : World := set_clock 3000 (showToast Success "saved" initial).

Lemma toast_cut_short_witness :
  ∃ w1 w2, step (showToast Error "failed" first_message) w1 ∧ step w1 w2 ∧
    w2.(toast) = None ∧ w2.(clock) < 7000.
Proof.
  apply (toast_cut_short first_message 0 4000 Error "failed"); [reflexivity|cbn; lia|].
  intros d Hd. apply list_elem_of_singleton in Hd. subst. reflexivity.
Defined.
