(* ===== verification/Dashboard.v ===== *)
(** * The dashboard ([ui/src/pages/Dashboard.tsx], [ui/src/components/HealthRing.tsx])

    Totals over the policies, one card per policy, the eight latest results.
    The quotients behind the ring and the progress bars are IEEE doubles, which
    the Standard Library's [SpecFloat] computes exactly as the standard says;
    lengths stay numbers in the model instead of becoming attribute strings. *)
From Stdlib Require Import Ascii ZArith Lia SpecFloat.
From stdpp Require Import base list strings pretty gmap sets relations sorting.
From S2P Require Import Prelude JsStd Jsx Widgets Format Client PolicyForm Policies.
Local Open Scope Z_scope.

(** ** Doubles *)

Definition prec : Z := 53.
Definition emax : Z := 1024.

(** An integer as a double. *)
Definition dbl (z : Z) : spec_float := binary_normalize prec emax z 0 false.
Definition dbl_div : spec_float → spec_float → spec_float := SFdiv prec emax.
Definition dbl_mul : spec_float → spec_float → spec_float := SFmul prec emax.
Definition dbl_add : spec_float → spec_float → spec_float := SFadd prec emax.
Definition dbl_lt (a b : spec_float) : bool := SFltb a b.

(** [Math.round(x)]: the nearest integer, halves upwards. *)
Definition Math_round (x : spec_float) : num :=
  match x with
  | S754_zero _ => Some 0
  | S754_finite s m e =>
    let m := if s then Z.neg m else Z.pos m in
    Some (if 0 <=? e then m * 2 ^ e else (2 * m + 2 ^ (- e)) / 2 ^ (1 - e))
  | _ => None
  end.

(** [Math.PI]. *)
Definition PI : spec_float := S754_finite false 7074237752028440 (-51).

(** ** HealthRing.tsx *)

Record segment := { len : spec_float; color : string; offset : spec_float }.

Inductive ring :=
  | NoData
  | Ring (pct : num) (segments : list segment).

Definition circumference : spec_float := dbl_mul (dbl_mul (dbl 2) PI) (dbl 50).

(** [pct]. *)
Definition percent (pass total : Z) : num :=
  Math_round (dbl_mul (dbl_div (dbl pass) (dbl total)) (dbl 100)).

Definition health_ring (pass warn fail : Z) : ring :=
  let total := pass + warn + fail in
  if total =? 0 then NoData
  else
    let part n := dbl_mul (dbl_div (dbl n) (dbl total)) circumference in
    let passLen := part pass in
    let warnLen := part warn in
    let failLen := part fail in
    let offset := dbl_div (SFopp circumference) (dbl 4) in
    Ring (percent pass total)
      (filter (λ s, dbl_lt (dbl 0) s.(len))
         [{| len := passLen; color := "var(--success)"; offset := offset |};
          {| len := warnLen; color := "var(--warning)"; offset := dbl_add offset passLen |};
          {| len := failLen; color := "var(--danger)";
             offset := dbl_add (dbl_add offset passLen) warnLen |}]).

Definition HealthRing {A} (pass warn fail : Z) : node A :=
  match health_ring pass warn fail with
  | NoData => el "svg" [] [el "circle" [("stroke", "var(--border)")] []; el "text" [] [Text "N/A"]]
  | Ring pct segments =>
    el "svg"
      [("role", "img");
       ("aria-label", "Health: " +:+ show_num pct +:+ "% passing, " +:+ show_Z pass +:+ " pass, "
          +:+ show_Z warn +:+ " warn, " +:+ show_Z fail +:+ " fail")]
      ([el "circle" [("stroke", "var(--border)")] []]
       ++ map (λ s, el "circle" [("stroke", s.(color))] []) segments
       ++ [el "text" [] [Text (show_num pct); Text "%"]; el "text" [] [Text "HEALTHY"]])
  end.

(** ** ProgressBar *)

(** The bars with their widths in percent; [None] when nothing is drawn. *)
Definition progress (pass warn fail : Z) : option (list (spec_float * string)) :=
  let total := pass + warn + fail in
  if total =? 0 then None
  else
    let bar n color :=
      if 0 <? n then [(dbl_mul (dbl_div (dbl n) (dbl total)) (dbl 100), color)] else [] in
    Some (bar pass "var(--success)" ++ bar warn "var(--warning)" ++ bar fail "var(--danger)").

Definition ProgressBar {A} (pass warn fail : Z) : node A :=
  match progress pass warn fail with
  | Some bars => el "div" [] (map (λ b, el "div" [("style:background", b.2)] []) bars)
  | None => Null
  end.

(** ** Dashboard.tsx *)

Record Agg := { a_pass : Z; a_warn : Z; a_fail : Z }.

Definition agg (policies : list ChecklistPolicy) : Agg :=
  foldl (λ acc p,
    match (st ← p.(p_status); st.(p_summary)) with
    | Some s => {| a_pass := acc.(a_pass) + s.(pass); a_warn := acc.(a_warn) + s.(warn);
                   a_fail := acc.(a_fail) + s.(fail) |}
    | None => acc
    end) {| a_pass := 0; a_warn := 0; a_fail := 0 |} policies.

Definition totalChecks (policies : list ChecklistPolicy) : Z :=
  foldl (λ sum p, sum + Z.of_nat (length p.(p_spec).(Client.checks))) 0 policies.

Definition created (r : ChecklistResult) : num := getTime r.(r_metadata).(creationTimestamp).

Definition latest_first (a b : ChecklistResult) : num := num_sub (created b) (created a).

Definition latestResults (results : list ChecklistResult) : list ChecklistResult :=
  slice (js_sort latest_first results) 0 8.

Inductive Action := Navigate (to : string).

Section view.
Context (now : Z).

(** The badge of a policy card. *)
Definition policy_badge {A} (p : ChecklistPolicy) : node A :=
  match (st ← p.(p_status); st.(p_summary)) with
  | Some s =>
    if s.(fail) =? 0 then Badge.Badge Badge.Vpass [Text "Healthy"]
    else Badge.Badge Badge.Vfail [Text (show_Z s.(fail) +:+ " failing")]
  | None => Badge.Badge Badge.Vneutral [Text "No data"]
  end.

Definition policy_card (p : ChecklistPolicy) : node Action :=
  Card.Card "" (Some (Navigate "/policies")) true []
    [el "div" [("className", "flex items-center justify-between mb-4")]
       [el "div" [] [Text p.(p_metadata).(Client.name)]; policy_badge p];
     el "div" [("className", "flex items-center gap-3")]
       [el "span" [] [Text p.(p_spec).(llm).(Client.provider)];
        el "span" [] [Text (show_Z (Z.of_nat (length p.(p_spec).(Client.checks)))); Text " checks"];
        el "span" [("className", "mono")] [Text p.(p_spec).(schedule).(Client.fullScan)]];
     match (st ← p.(p_status); st.(p_summary)) with
     | Some s => el "div" [("className", "flex gap-2 mt-4")] [ProgressBar s.(pass) s.(warn) s.(fail)]
     | None => Null
     end;
     match (st ← p.(p_status); st.(lastFullScanTime)) with
     | Some t => when (truthy t)
                   (el "div" [] [el "svg" [("icon", "IconClock")] [];
                                 el "span" [] [Text "Last scan: "; Text (timeAgo now t)]])
     | None => Null
     end].

Definition count (f : Summary → Z) (r : ChecklistResult) : string :=
  show_Z (match r.(r_spec).(r_summary) with Some s => f s | None => 0 end).

Definition result_row (r : ChecklistResult) : node Action :=
  Elem "tr" [("key", r.(r_metadata).(Client.name))] false [on "click" (Navigate "/results")]
    [el "td" [("className", "mono link")] [Text r.(r_metadata).(Client.name)];
     el "td" [] [Text r.(r_spec).(policyRef)];
     el "td" [] [Badge.Badge (if decide (r.(r_spec).(scanType) = "FullScan") then Badge.Vinfo
                              else Badge.Vneutral) [Text r.(r_spec).(scanType)]];
     el "td" [] [Badge.VerdictBadge "PASS"; Text " "; Text (count pass r)];
     el "td" [] [Badge.VerdictBadge "WARN"; Text " "; Text (count warn r)];
     el "td" [] [Badge.VerdictBadge "FAIL"; Text " "; Text (count fail r)];
     el "td" [] [Text (ostr_or r.(phase) "-")];
     el "td" [] [Text (timeAgo now r.(r_metadata).(creationTimestamp))]].

Definition stat_cards (policies : list ChecklistPolicy) : node Action :=
  let a := agg policies in
  el "div" []
    [el "div" [("className", "grid grid-4")]
       [Card.StatCard (show_Z (Z.of_nat (length policies))) "Policies" (Some "var(--accent)");
        Card.StatCard (show_Z (totalChecks policies)) "Total Checks" None;
        Card.StatCard (show_Z a.(a_pass)) "Passing" (Some "var(--success)");
        Card.StatCard (show_Z a.(a_fail)) "Failing" (Some "var(--danger)")];
     Card.Card "" None false [("display", Some "flex")]
       [HealthRing a.(a_pass) a.(a_warn) a.(a_fail)]].

Definition recent_scans (results : list ChecklistResult) : node Action :=
  let latest := latestResults results in
  el "div" [("className", "section")]
    [el "div" [("className", "flex items-center justify-between mb-4")]
       [el "div" [("className", "section-title")] [Text "Recent Scans"];
        when (bool_decide (8 < length results)%nat)
          (Elem "span" [("className", "link")] false [on "click" (Navigate "/results")]
             [Text "View all"])];
     Card.Card "" None false [("padding", Some "0"); ("overflow", Some "hidden")]
       [if bool_decide (length latest = 0%nat)
        then EmptyState.EmptyState None "No scan results yet"
               (Some "Results will appear here after the first scan runs.") None
        else el "div" [("className", "table-wrap")]
               [el "table" []
                  [el "thead" []
                     [el "tr" [] (map (λ h, el "th" [] [Text h])
                        ["Result"; "Policy"; "Type"; "Pass"; "Warn"; "Fail"; "Phase"; "Time"])];
                   el "tbody" [] (map result_row latest)]]]].

(** [None] stands for a query that is loading; one that has failed leaves its
    default, the empty list. *)
Definition render (policies : option (list ChecklistPolicy))
    (results : option (list ChecklistResult)) : node Action :=
  match policies, results with
  | Some policies, Some results =>
    el "div" []
      [el "div" [("className", "page-header")]
         [el "div" []
            [el "div" [("className", "page-title")] [Text "Dashboard"];
             el "div" [("className", "page-subtitle")] [Text "Cluster verification overview"]]];
       if bool_decide (length policies = 0%nat)
       then EmptyState.EmptyState (Some (el "svg" [("icon", "IconPolicy")] []))
              "No policies configured"
              (Some "Create a ChecklistPolicy custom resource to start verifying your cluster.") None
       else el "fragment" []
              [stat_cards policies;
               el "div" [("className", "section")]
                 [el "div" [("className", "section-title")] [Text "Policy Status"];
                  el "div" [("className", "grid grid-3")] (map policy_card policies)];
               recent_scans results]]
  | _, _ => EmptyState.LoadingState
  end.
End view.

(** ** Lemmas *)

(** The percentage of [p] of [t] checks, tested. *)
Definition percent_ok (t p : nat) : bool :=
  let t' := Z.of_nat t in let p' := Z.of_nat p in
  match percent p' t' with
  | Some n =>
    (0 <=? n) && (n <=? 100) && (2 * Z.abs (n * t' - 100 * p') <=? t') &&
    Bool.eqb (n =? 100) (p =? t)%nat && Bool.eqb (n =? 0) (p =? 0)%nat
  | None => false
  end.

Lemma percent_ok_100 :
  forallb (λ t, forallb (percent_ok t) (seq 0 (S t))) (seq 1 100) = true.
Proof. vm_compute. reflexivity. Qed.

(** ** Theorems *)

(** C26: for up to a hundred checks the ring shows the true percentage rounded to
    the nearest integer, in doubles as the code computes it, and 100% only when
    every check passes, 0% only when none does.  Beyond that it can say 100%
    while a check fails: it does for 199 of 200. *)
Theorem ring_percent pass total :
  0 <= pass <= total → 0 < total <= 100 →
  (∃ n, percent pass total = Some n ∧ 0 <= n <= 100 ∧
    2 * Z.abs (n * total - 100 * pass) <= total ∧
    (n = 100 ↔ pass = total) ∧ (n = 0 ↔ pass = 0)) ∧
  percent 199 200 = Some 100.
Proof.
  intros Hp Ht. split; [|vm_compute; reflexivity].
  pose proof percent_ok_100 as Hall. rewrite forallb_forall in Hall.
  specialize (Hall (Z.to_nat total)). rewrite forallb_forall in Hall.
  specialize (Hall ltac:(apply in_seq; lia) (Z.to_nat pass) ltac:(apply in_seq; lia)).
  unfold percent_ok in Hall. rewrite !Z2Nat.id in Hall by lia.
  destruct (percent pass total) as [n|]; [|done]. exists n. bool_to_prop.
  repeat match goal with
  | H : Bool.eqb _ _ = true |- _ => apply Bool.eqb_prop in H
  end.
  split_and!; [done|done|done|done| |].
  - destruct (Z.eqb_spec n 100), (Nat.eqb_spec (Z.to_nat pass) (Z.to_nat total)); try done; lia.
  - destruct (Z.eqb_spec n 0), (Nat.eqb_spec (Z.to_nat pass) 0); try done; lia.
Qed.

(** C30: the dashboard lists the eight latest results: at most eight, all of
    them when there are no more, newest first, and no result it leaves out is
    newer than one it shows. *)
Theorem latest_results_newest results :
  Forall (λ r, is_Some (created r)) results →
  let newer a b := ∃ ta tb, created a = Some ta ∧ created b = Some tb ∧ tb <= ta in
  ∃ rest, latestResults results ++ rest ≡ₚ results ∧
    length (latestResults results) = Nat.min 8 (length results) ∧
    StronglySorted newer (latestResults results) ∧
    ∀ a b, a ∈ latestResults results → b ∈ rest → newer a b.
Proof.
  intros Hvalid. cbv zeta.
  pose proof (js_sort_descending created results Hvalid) as Hsorted.
  change (js_sort (descending created) results) with (js_sort latest_first results) in Hsorted.
  exists (drop 8 (js_sort latest_first results)).
  assert (latestResults results = take 8 (js_sort latest_first results)) as ->
    by (unfold latestResults; by rewrite slice_nonneg by lia).
  rewrite <-(take_drop 8 (js_sort latest_first results)) in Hsorted.
  apply StronglySorted_app in Hsorted as (Hcross & Hs & _).
  split_and!; [|rewrite length_take, length_js_sort; lia|done|].
  - by rewrite take_drop, js_sort_Permutation.
  - exact Hcross.
Qed.

(** The two pages disagree about a policy: when its last summary has no
    failure but the operator has marked it as degraded, the dashboard calls it
    Healthy and the policies page Error. *)
Theorem health_badges_disagree p st s c :
  p.(p_status) = Some st → st.(p_summary) = Some s → s.(fail) = 0 →
  c ∈ policy_conditions p → c.(c_type) = "Degraded" → c.(c_status) = "True" →
  text_of (@policy_badge Action p) = "Healthy" ∧ text_of (@ConditionBadge Action p) = "Error".
Proof.
  intros Hst Hs Hf Hc Ht Htrue. split.
  - unfold policy_badge. rewrite Hst. cbn. by rewrite Hs, Hf.
  - apply (badge_error p). apply Exists_exists. eauto.
Qed.

(** ** Concrete inputs *)

Lemma ring_percent_witness : ∃ n, percent 23 40 = Some n ∧ 0 <= n <= 100 ∧
  2 * Z.abs (n * 40 - 100 * 23) <= 40 ∧ (n = 100 ↔ 23 = 40) ∧ (n = 0 ↔ 23 = 0).
Proof. refine (proj1 (ring_percent 23 40 _ _)); lia. Defined.

Definition sample_result (name created : string) : ChecklistResult :=
  {| r_metadata := {| Client.name := name; Client.namespace := "ops"; creationTimestamp := created |};
     r_spec := {| policyRef := "nightly"; scanType := "FullScan"; startedAt := created;
                  completedAt := None; r_checks := None; r_summary := None |};
     phase := None |}.

Definition two_results : list ChecklistResult :=
  [sample_result "a" "2025-01-01T00:00:00Z"; sample_result "b" "2025-01-02T00:00:00Z"].

Lemma latest_results_newest_witness :
  ∃ rest, latestResults two_results ++ rest ≡ₚ two_results ∧
    length (latestResults two_results) = Nat.min 8 2 ∧
    StronglySorted (λ a b, ∃ ta tb, created a = Some ta ∧ created b = Some tb ∧ tb <= ta)
      (latestResults two_results) ∧
    ∀ a b, a ∈ latestResults two_results → b ∈ rest →
      ∃ ta tb, created a = Some ta ∧ created b = Some tb ∧ tb <= ta.
Proof.
  apply (latest_results_newest two_results).
  repeat constructor; vm_compute; eexists; reflexivity.
Defined.

Definition degraded_but_passing : ChecklistPolicy :=
  {| p_metadata := sample_policy.(p_metadata); p_spec := sample_policy.(p_spec);
     p_status := Some {| lastFullScanTime := None; lastRescanTime := None; lastResultName := None;
       p_summary := Some {| total := 1; pass := 1; warn := 0; fail := 0 |};
       conditions := Some [{| c_type := "Degraded"; c_status := "True"; c_reason := "ScanFailed";
                              c_message := "no key"; c_lastTransitionTime := None |}] |} |}.

Lemma health_badges_disagree_witness :
  text_of (@policy_badge Action degraded_but_passing) = "Healthy" ∧
  text_of (@ConditionBadge Action degraded_but_passing) = "Error".
Proof.
  eapply (health_badges_disagree degraded_but_passing); [reflexivity|reflexivity|reflexivity| | |];
    [apply list_elem_of_here|reflexivity|reflexivity].
Defined.
