(* ===== verification/Results.v ===== *)
(** * The results page ([ui/src/pages/Results.tsx])

    The list of scan results with its search, filters and pagination, and the
    detail view of one result.  The list is what the query returned last; it
    is refetched in the background, which is the step [refetch]. *)
From Stdlib Require Import Ascii ZArith Lia.
From stdpp Require Import base list strings pretty gmap sets relations sorting.
From S2P Require Import Prelude JsStd Jsx Widgets Format Client.
Local Open Scope Z_scope.

Definition PAGE_SIZE : Z := 20.

(** The state of [Results]; a selected result comes with the state of the
    detail view mounted for it, the set of expanded check ids. *)
Record State := {
  selected : option (ChecklistResult * gset string);
  search : string;
  filterPolicy : string;
  filterVerdict : string;
  filterType : string;
  page : Z
}.

Definition initial : State :=
  {| selected := None; search := ""; filterPolicy := ""; filterVerdict := "";
     filterType := ""; page := 0 |}.

(** ** The list *)

Definition created (r : ChecklistResult) : num := getTime r.(r_metadata).(creationTimestamp).

(** The comparator [(a, b) => b.created - a.created]. *)
Definition newest_first (a b : ChecklistResult) : num := num_sub (created b) (created a).

Definition matches_search (q : string) (r : ChecklistResult) : bool :=
  includes q (toLowerCase r.(r_metadata).(name)) ||
  includes q (toLowerCase r.(r_spec).(policyRef)).

Definition matches_verdict (v : string) (r : ChecklistResult) : bool :=
  match r.(r_spec).(r_summary) with
  | Some s =>
    if decide (v = "PASS") then (s.(fail) =? 0) && (s.(warn) =? 0)
    else if decide (v = "FAIL") then 0 <? s.(fail)
    else if decide (v = "WARN") then (0 <? s.(warn)) && (s.(fail) =? 0)
    else true
  | None =>
    if decide (v = "PASS") then false
    else if decide (v = "FAIL") then false
    else if decide (v = "WARN") then false
    else true
  end.

Definition filtered (results : list ChecklistResult) (s : State) : list ChecklistResult :=
  let list := js_sort newest_first results in
  let list :=
    if truthy s.(search)
    then filter (λ r, matches_search (toLowerCase s.(search)) r) list else list in
  let list :=
    if truthy s.(filterPolicy)
    then filter (λ r, r.(r_spec).(policyRef) = s.(filterPolicy)) list else list in
  let list :=
    if truthy s.(filterType)
    then filter (λ r, r.(r_spec).(scanType) = s.(filterType)) list else list in
  if truthy s.(filterVerdict)
  then filter (λ r, matches_verdict s.(filterVerdict) r) list else list.

(** [Math.ceil(filtered.length / PAGE_SIZE)]. *)
Definition totalPages (l : list ChecklistResult) : Z :=
  (Z.of_nat (length l) + PAGE_SIZE - 1) / PAGE_SIZE.

Definition paged (l : list ChecklistResult) (page : Z) : list ChecklistResult :=
  slice l (page * PAGE_SIZE) ((page + 1) * PAGE_SIZE).

Definition policyNames (results : list ChecklistResult) : list string :=
  js_sort string_cmp (js_uniq (map (λ r, r.(r_spec).(policyRef)) results)).

(** ** Handlers *)

Inductive Action :=
  | SetSearch (v : string) | SetPolicy (v : string) | SetType (v : string)
  | SetVerdict (v : string) | Select (r : ChecklistResult) | Previous | Next
  | Back | Toggle (id : string) | ExpandAll.

Definition setPage (p : Z) (s : State) : State :=
  {| selected := s.(selected); search := s.(search); filterPolicy := s.(filterPolicy);
     filterVerdict := s.(filterVerdict); filterType := s.(filterType); page := p |}.

Definition setSelected (o : option (ChecklistResult * gset string)) (s : State) : State :=
  {| selected := o; search := s.(search); filterPolicy := s.(filterPolicy);
     filterVerdict := s.(filterVerdict); filterType := s.(filterType); page := s.(page) |}.

Definition check_ids (r : ChecklistResult) : list string :=
  match r.(r_spec).(r_checks) with Some l => map cr_id l | None => [] end.

(** [toggle] of the detail view. *)
Definition toggle (id : string) (expanded : gset string) : gset string :=
  if decide (id ∈ expanded) then expanded ∖ {[id]} else expanded ∪ {[id]}.

(** [expandAll] of the detail view. *)
Definition expandAll (r : ChecklistResult) (expanded : gset string) : gset string :=
  if decide (size expanded = length (check_ids r)) then ∅ else list_to_set (check_ids r).

Definition on_detail (f : ChecklistResult → gset string → gset string) (s : State) : State :=
  match s.(selected) with
  | Some (r, e) => setSelected (Some (r, f r e)) s
  | None => s
  end.

Definition update (a : Action) (s : State) : State :=
  match a with
  | SetSearch v =>
    {| selected := s.(selected); search := v; filterPolicy := s.(filterPolicy);
       filterVerdict := s.(filterVerdict); filterType := s.(filterType); page := 0 |}
  | SetPolicy v =>
    {| selected := s.(selected); search := s.(search); filterPolicy := v;
       filterVerdict := s.(filterVerdict); filterType := s.(filterType); page := 0 |}
  | SetType v =>
    {| selected := s.(selected); search := s.(search); filterPolicy := s.(filterPolicy);
       filterVerdict := s.(filterVerdict); filterType := v; page := 0 |}
  | SetVerdict v =>
    {| selected := s.(selected); search := s.(search); filterPolicy := s.(filterPolicy);
       filterVerdict := v; filterType := s.(filterType); page := 0 |}
  | Select r => setSelected (Some (r, ∅)) s
  | Previous => setPage (s.(page) - 1) s
  | Next => setPage (s.(page) + 1) s
  | Back => setSelected None s
  | Toggle id => on_detail (λ _, toggle id) s
  | ExpandAll => on_detail expandAll s
  end.

(** ** Rendering *)

Section view.
(** The clock and the locale's date format. *)
Context (now : Z) (toLocaleString : string → string).

Definition duration (r : ChecklistResult) : string :=
  match r.(r_spec).(completedAt) with
  | Some c =>
    if truthy c && truthy r.(r_spec).(startedAt)
    then formatDuration (num_sub (getTime c) (getTime r.(r_spec).(startedAt)))
    else "-"
  | None => "-"
  end.

Definition count (f : Summary → Z) (r : ChecklistResult) : string :=
  show_Z (match r.(r_spec).(r_summary) with Some s => f s | None => 0 end).

Definition scan_badge {A} (r : ChecklistResult) : node A :=
  Badge.Badge (if decide (r.(r_spec).(scanType) = "FullScan") then Badge.Vinfo else Badge.Vneutral)
    [Text r.(r_spec).(scanType)].

Definition phase_variant (r : ChecklistResult) : Badge.Variant :=
  if decide (r.(phase) = Some "Completed") then Badge.Vpass
  else if decide (r.(phase) = Some "Failed") then Badge.Vfail
  else Badge.Vneutral.

Definition row (r : ChecklistResult) : node Action :=
  el "tr" [("key", r.(r_metadata).(name))]
    [el "td" [] [Elem "span" [("className", "link mono")] false [on "click" (Select r)]
                   [Text r.(r_metadata).(name)]];
     el "td" [] [Text r.(r_spec).(policyRef)];
     el "td" [] [scan_badge r];
     el "td" [("style:color", "var(--success)")] [Text (count pass r)];
     el "td" [("style:color", "var(--warning)")] [Text (count warn r)];
     el "td" [("style:color", "var(--danger)")] [Text (count fail r)];
     el "td" [] [Badge.Badge (phase_variant r) [Text (ostr_or r.(phase) "-")]];
     el "td" [("className", "mono")] [Text (duration r)];
     el "td" [] [el "span" [("className", "flex items-center gap-2")]
                   [el "svg" [("icon", "IconClock")] [];
                    Text (timeAgo now r.(r_metadata).(creationTimestamp))]]].

Definition select_el (label : option string) (value : string) (opts : list (string * string))
    (onChange : string → Action) : node Action :=
  Elem "select"
    ([("className", "toolbar-select"); ("value", value)]
     ++ match label with Some l => [("aria-label", l)] | None => [] end)
    false [on_value "change" onChange]
    (map (λ vl, el "option" [("value", vl.1)] [Text vl.2]) opts).

Definition toolbar (results : list ChecklistResult) (s : State) : node Action :=
  el "div" [("className", "toolbar")]
    [Elem "input" [("className", "toolbar-search"); ("placeholder", "Search results...");
                   ("aria-label", "Search results"); ("value", s.(search))]
       false [on_value "change" SetSearch] [];
     select_el (Some "Filter by policy") s.(filterPolicy)
       (("", "All Policies") :: map (λ n, (n, n)) (policyNames results)) SetPolicy;
     select_el None s.(filterType)
       [("", "All Types"); ("FullScan", "Full Scan"); ("Rescan", "Rescan")] SetType;
     select_el None s.(filterVerdict)
       [("", "All Status"); ("PASS", "All Pass"); ("WARN", "Has Warnings");
        ("FAIL", "Has Failures")] SetVerdict].

Definition pagination (total page : Z) : node Action :=
  when (1 <? total)
    (el "div" [("className", "flex items-center justify-between mt-4")]
       [el "span" [] [Text "Page "; Text (show_Z (page + 1)); Text " of "; Text (show_Z total)];
        el "div" [("className", "flex gap-2")]
          [Button.Button Button.Vsecondary Button.Sm Null (page =? 0) [] Previous
             [Text "Previous"];
           Button.Button Button.Vsecondary Button.Sm Null (total - 1 <=? page) [] Next
             [Text "Next"]]]).

Definition table_head : node Action :=
  el "thead" []
    [el "tr" []
       [el "th" [] [Text "Result"]; el "th" [] [Text "Policy"]; el "th" [] [Text "Type"];
        el "th" [] [Text "Pass "; HelpTooltip.tip "Checks that found no issues"];
        el "th" [] [Text "Warn ";
                    HelpTooltip.tip "Checks that found issues not requiring immediate action"];
        el "th" [] [Text "Fail ";
                    HelpTooltip.tip "Checks that found issues requiring immediate action"];
        el "th" [] [Text "Phase"]; el "th" [] [Text "Duration"]; el "th" [] [Text "Time"]]].

Definition table (rows : list ChecklistResult) : node Action :=
  Card.Card "" None false [("padding", Some "0"); ("overflow", Some "hidden")]
    [el "div" [("className", "table-wrap")]
       [el "table" [] [table_head; el "tbody" [] (map row rows)]]].

Definition list_view (results : list ChecklistResult) (s : State) : node Action :=
  let l := filtered results s in
  el "div" []
    [el "div" [("className", "page-header")]
       [el "div" []
          [el "div" [("className", "page-title")] [Text "Results"];
           el "div" [("className", "page-subtitle")]
             [Text (show_Z (Z.of_nat (length l))); Text " scan ";
              Text (if bool_decide (length l = 1%nat) then "result" else "results")]]];
     toolbar results s;
     if bool_decide (length l = 0%nat)
     then EmptyState.EmptyState (Some (el "svg" [("icon", "IconResult")] []))
            (if bool_decide (length results = 0%nat)
             then "No results yet" else "No matching results")
            (Some (if bool_decide (length results = 0%nat)
                   then "Results will appear here after a scan runs."
                   else "Try adjusting your filters."))
            None
     else el "fragment" []
            [table (paged l s.(page)); pagination (totalPages l) s.(page)]].

Definition VerdictDot {A} (verdict : string) : node A :=
  let color := if decide (verdict = "PASS") then Some "var(--success)"
               else if decide (verdict = "WARN") then Some "var(--warning)"
               else if decide (verdict = "FAIL") then Some "var(--danger)" else None in
  el "div" (style_attrs
    [("width", Some "10"); ("height", Some "10"); ("borderRadius", Some "50%");
     ("flexShrink", Some "0"); ("background", Some (ostr_or color "var(--text-tertiary)"));
     ("boxShadow", Some ("0 0 6px " +:+ ostr_or color "transparent"))]) [].

Definition tool_call (tc : ToolCall) : node Action :=
  el "div" []
    [el "div" []
       [el "span" [("className", "mono")] [Text tc.(toolName)];
        el "span" [("className", "mono")] [Text (JSON_stringify tc.(input))]];
     el "pre" [] [Text tc.(output)]].

Definition check_body (c : CheckResult) : node Action :=
  el "div" []
    [el "div" [] [el "div" [] [Text "Reasoning"]; el "div" [] [Text c.(reasoning)]];
     match c.(toolCalls) with
     | Some tcs =>
       when (bool_decide (0 < length tcs)%nat)
         (el "div" []
            [el "div" [] [Text "Tool Calls ("; Text (show_Z (Z.of_nat (length tcs))); Text ")"];
             el "div" [("className", "flex flex-col gap-2")] (map tool_call tcs)])
     | None => Null
     end;
     when (otruthy c.(failedSince))
       (el "div" [] [Text "Failing since: ";
                     Text (toLocaleString (ostr_or c.(failedSince) ""))])].

Definition check_card (expanded : gset string) (c : CheckResult) : node Action :=
  let isOpen := bool_decide (c.(cr_id) ∈ expanded) in
  Card.Card "" None false [("padding", Some "0"); ("overflow", Some "hidden")]
    [Elem "div" [("key", c.(cr_id))] false [on "click" (Toggle c.(cr_id))]
       [el "div" [("className", "flex items-center gap-3")]
          [VerdictDot c.(verdict);
           el "div" []
             [el "div" [("className", "flex items-center gap-2")]
                [el "span" [("className", "mono")] [Text c.(cr_id)];
                 when (otruthy c.(cr_severity))
                   (el "fragment" []
                      [Badge.SeverityBadge (ostr_or c.(cr_severity) "");
                       HelpTooltip.tip "Severity is the importance level defined by the user (info / warning / critical).\nIt is separate from the verdict and used for alert escalation."])];
              el "div" [] [Text c.(cr_description)]]];
        el "div" [("className", "flex items-center gap-3")]
          [Badge.VerdictBadge c.(verdict);
           HelpTooltip.tip ("Verdict determined by the LLM:" +:+ newline +:+
             "• PASS: No issues found" +:+ newline +:+
             "• WARN: Issues found, but no immediate action needed" +:+ newline +:+
             "• FAIL: Issues found, immediate action required");
           el "svg" [("icon", "IconChevron");
                     ("className", if isOpen then "rotate-90" else "")] []]];
     when isOpen (check_body c)].

Definition summary_card (value : Z) (color : option string) (label : string) : node Action :=
  Card.Card "" None false [("textAlign", Some "center"); ("padding", Some "16px 12px")]
    [el "div" (style_attrs [("color", color)]) [Text (show_Z value)];
     el "div" [] [Text label]].

(** The label of the button above the checks. *)
Definition expand_label (r : ChecklistResult) (expanded : gset string) : string :=
  if decide (size expanded = length (check_ids r)) then "Collapse All" else "Expand All".

Definition detail_view (r : ChecklistResult) (expanded : gset string) : node Action :=
  el "div" []
    [el "div" [("className", "page-header")]
       [el "div" [("className", "flex items-center gap-3")]
          [Button.Button Button.Vghost Button.Sm (el "svg" [("icon", "IconBack")] []) false []
             Back [];
           el "div" []
             [el "div" [("className", "page-title mono")] [Text r.(r_metadata).(name)];
              el "div" [("className", "page-subtitle flex items-center gap-3")]
                [el "span" [] [Text "Policy: "; Text r.(r_spec).(policyRef)];
                 scan_badge r;
                 Badge.Badge (if decide (r.(phase) = Some "Completed") then Badge.Vpass
                              else Badge.Vfail)
                   [Text (ostr_or r.(phase) "-")];
                 el "span" [] [Text "Duration: "; Text (duration r)]]]]];
     match r.(r_spec).(r_summary) with
     | Some sm =>
       el "div" [("className", "grid grid-4 mb-6")]
         [summary_card sm.(total) None "TOTAL";
          summary_card sm.(pass) (Some "var(--success)") "PASS";
          summary_card sm.(warn) (Some "var(--warning)") "WARN";
          summary_card sm.(fail) (Some "var(--danger)") "FAIL"]
     | None => Null
     end;
     el "div" [("className", "flex items-center justify-between mb-4")]
       [el "div" [("className", "section-title")] [Text "Check Results"];
        Button.Button Button.Vghost Button.Sm Null false [] ExpandAll
          [Text (expand_label r expanded)]];
     el "div" [("className", "flex flex-col gap-2")]
       (map (check_card expanded)
          match r.(r_spec).(r_checks) with Some cs => cs | None => [] end)].

(** [data = []] until the query has answered. *)
Definition render (isLoading : bool) (results : list ChecklistResult) (s : State) : node Action :=
  if isLoading then EmptyState.LoadingState
  else match s.(selected) with
       | Some (r, e) => detail_view r e
       | None => list_view results s
       end.
End view.

(** ** The page over time

    A user step acts on the rendered page; [refetch] is the query delivering a
    new list of results. *)
Section page.
Context (now : Z) (toLocaleString : string → string).

Definition user_step (results : list ChecklistResult) : relation State :=
  ui_step (render now toLocaleString false results) update.

Inductive step : relation (list ChecklistResult * State) :=
  | step_user results s s' :
    user_step results s s' → step (results, s) (results, s')
  | step_refetch results results' s : step (results, s) (results', s).
End page.

(** ** Lemmas *)

Section list_lemmas.
Implicit Types (results l : list ChecklistResult) (s : State) (r : ChecklistResult).

(** What a result must satisfy to be listed. *)
Definition matches s r : Prop :=
  (s.(search) ≠ "" → matches_search (toLowerCase s.(search)) r = true) ∧
  (s.(filterPolicy) ≠ "" → r.(r_spec).(policyRef) = s.(filterPolicy)) ∧
  (s.(filterType) ≠ "" → r.(r_spec).(scanType) = s.(filterType)) ∧
  (s.(filterVerdict) ≠ "" → matches_verdict s.(filterVerdict) r = true).

Lemma truthy_false t : truthy t = false → t = "".
Proof. by destruct t. Qed.

Lemma truthy_true t : truthy t = true → t ≠ "".
Proof. by destruct t. Qed.

Lemma elem_of_filtered results s r : r ∈ filtered results s ↔ r ∈ results ∧ matches s r.
Proof.
  unfold filtered, matches. cbv zeta.
  destruct (truthy s.(search)) eqn:H1, (truthy s.(filterPolicy)) eqn:H2,
    (truthy s.(filterType)) eqn:H3, (truthy s.(filterVerdict)) eqn:H4;
    rewrite ?list_elem_of_filter, elem_of_js_sort, ?Is_true_true;
    repeat match goal with
    | H : truthy _ = true |- _ => apply truthy_true in H
    | H : truthy _ = false |- _ => apply truthy_false in H
    end; naive_solver.
Qed.

Lemma filtered_sublist results s : sublist (filtered results s) (js_sort newest_first results).
Proof.
  unfold filtered. cbv zeta.
  repeat case_match; repeat first [reflexivity | etrans; [apply sublist_filter|]].
Qed.

Lemma filtered_length results s : (length (filtered results s) ≤ length results)%nat.
Proof.
  rewrite <-(length_js_sort newest_first results). apply sublist_length, filtered_sublist.
Qed.

Lemma filtered_no_filters results s :
  s.(search) = "" → s.(filterPolicy) = "" → s.(filterType) = "" → s.(filterVerdict) = "" →
  filtered results s = js_sort newest_first results.
Proof. intros H1 H2 H3 H4. unfold filtered. by rewrite H1, H2, H3, H4. Qed.
End list_lemmas.

Section paging_lemmas.
Implicit Types (l : list ChecklistResult).

Lemma paged_spec l p :
  0 <= p → paged l p = take (Z.to_nat PAGE_SIZE) (drop (Z.to_nat (p * PAGE_SIZE)) l).
Proof.
  intros Hp. unfold paged, PAGE_SIZE. rewrite slice_nonneg by lia. f_equal. lia.
Qed.

Lemma totalPages_bounds l :
  (totalPages l - 1) * PAGE_SIZE < Z.of_nat (length l) \/ totalPages l = 0.
Proof.
  unfold totalPages, PAGE_SIZE.
  pose proof (Z.div_mod (Z.of_nat (length l) + 20 - 1) 20 ltac:(lia)).
  pose proof (Z.mod_pos_bound (Z.of_nat (length l) + 20 - 1) 20 ltac:(lia)). lia.
Qed.

Lemma totalPages_le l : Z.of_nat (length l) <= totalPages l * PAGE_SIZE.
Proof.
  unfold totalPages, PAGE_SIZE.
  pose proof (Z.div_mod (Z.of_nat (length l) + 20 - 1) 20 ltac:(lia)).
  pose proof (Z.mod_pos_bound (Z.of_nat (length l) + 20 - 1) 20 ltac:(lia)). lia.
Qed.

Lemma totalPages_nonneg l : 0 <= totalPages l.
Proof. apply Z.div_pos; unfold PAGE_SIZE; lia. Qed.
End paging_lemmas.

(** What an enabled listener of the list view can do. *)
Lemma list_view_listeners now results s l d a :
  l ∈ listeners (list_view now results s) → l.(act) d = Some a →
  (a = SetSearch d ∨ a = SetPolicy d ∨ a = SetType d ∨ a = SetVerdict d) ∨
  (∃ r, a = Select r ∧ r ∈ paged (filtered results s) s.(page)) ∨
  (a = Previous ∧ 1 < totalPages (filtered results s) ∧ s.(page) ≠ 0) ∨
  (a = Next ∧ s.(page) < totalPages (filtered results s) - 1).
Proof.
  intros Hl Ha. unfold list_view in Hl. cbv zeta in Hl. inv_ui Hl.
  - left. unfold toolbar, select_el in Hl. inv_ui Hl; subst; injection Ha as <-; auto.
  - right; left. unfold table, row, scan_badge, table_head in Hl. inv_ui Hl; subst; try discriminate Ha.
    injection Ha as <-. eauto.
  - right; right. unfold pagination in Hl. inv_ui Hl; subst; injection Ha as <-; bool_to_prop; auto.
Qed.

Lemma detail_view_listeners loc r e l d a :
  l ∈ listeners (detail_view loc r e) → l.(act) d = Some a →
  a = Back ∨ (∃ id, a = Toggle id ∧ id ∈ check_ids r) ∨ a = ExpandAll.
Proof.
  intros Hl Ha. unfold detail_view, scan_badge, check_ids in *. inv_ui Hl.
  - subst. injection Ha as <-. auto.
  - destruct (r_summary (r_spec r)); unfold summary_card in Hl; inv_ui Hl.
  - subst. injection Ha as <-. auto.
  - destruct (r_checks (r_spec r)) as [cs|]; [|by match goal with H : _ ∈ [] |- _ => inversion H end].
    match goal with H : ?c ∈ cs |- _ => rename c into ck end.
    unfold check_card, VerdictDot in Hl. cbv zeta in Hl. inv_ui Hl; subst; try discriminate Ha.
    + injection Ha as <-. right; left. exists (cr_id ck).
      split; [done|]. rewrite list_elem_of_fmap. eauto.
    + unfold check_body, tool_call in Hl. inv_ui Hl.
      destruct (toolCalls ck); inv_ui Hl.
Qed.

Lemma sorted_newest_first results :
  Forall (λ r, is_Some (created r)) results →
  StronglySorted (λ a b, ∃ ta tb, created a = Some ta ∧ created b = Some tb ∧ tb <= ta)
    (js_sort newest_first results).
Proof. apply js_sort_descending. Qed.

(** ** Properties *)

(** C10: the list shows exactly the results that satisfy every filter that is
    set, and, when the creation timestamps are valid, newest first. *)
Theorem filtered_correct results s :
  (∀ r, r ∈ filtered results s ↔ r ∈ results ∧ matches s r) ∧
  (Forall (λ r, is_Some (created r)) results →
   StronglySorted (λ a b, ∃ ta tb, created a = Some ta ∧ created b = Some tb ∧ tb <= ta)
     (filtered results s)).
Proof.
  split; [intros r; apply elem_of_filtered|]. intros Hvalid.
  eapply StronglySorted_sublist; [apply filtered_sublist|]. by apply sorted_newest_first.
Qed.

(** C20: the pages cut the list without loss, overlap or reordering, and every
    page but possibly the last one is shown full, none empty. *)
Theorem pages_partition l :
  concat (map (paged l) (seqZ 0 (totalPages l))) = l ∧
  ∀ p, 0 <= p < totalPages l →
    Z.of_nat (length (paged l p)) =
      (if p =? totalPages l - 1 then Z.of_nat (length l) - p * PAGE_SIZE else PAGE_SIZE) ∧
    paged l p ≠ [].
Proof.
  pose proof (totalPages_bounds l) as Hb. pose proof (totalPages_le l) as Hle.
  pose proof (totalPages_nonneg l) as Hn. split.
  - assert (map (paged l) (seqZ 0 (totalPages l)) =
      map (λ p, take 20 (drop (p * 20) l)) (seq 0 (Z.to_nat (totalPages l)))) as ->.
    { unfold seqZ. change (map (paged l) ?k) with (paged l <$> k). rewrite <-list_fmap_compose.
      apply list_fmap_ext. intros i p _. cbn. rewrite paged_spec by lia.
      unfold PAGE_SIZE. do 2 f_equal. lia. }
    rewrite concat_chunks. apply take_ge. unfold PAGE_SIZE in *. lia.
  - intros p Hp. rewrite paged_spec by lia.
    assert (Z.of_nat (length (take (Z.to_nat PAGE_SIZE) (drop (Z.to_nat (p * PAGE_SIZE)) l))) =
      (if p =? totalPages l - 1 then Z.of_nat (length l) - p * PAGE_SIZE else PAGE_SIZE)) as Hlen.
    { rewrite length_take, length_drop. unfold PAGE_SIZE in *.
      destruct (Z.eqb_spec p (totalPages l - 1)); nia. }
    split; [done|]. intros Hnil. rewrite Hnil in Hlen. unfold PAGE_SIZE in *.
    destruct (Z.eqb_spec p (totalPages l - 1)); cbn in Hlen; nia.
Qed.

(** The page shown exists, or it is the first one. *)
Definition page_ok (results : list ChecklistResult) (s : State) : Prop :=
  s.(page) = 0 ∨ 0 <= s.(page) < totalPages (filtered results s).

Lemma page_ok_same results s s' :
  s'.(page) = s.(page) → filtered results s' = filtered results s →
  page_ok results s → page_ok results s'.
Proof. unfold page_ok. by intros -> ->. Qed.

Lemma page_ok_update now loc results s l d a :
  page_ok results s → l ∈ listeners (render now loc false results s) → l.(act) d = Some a →
  page_ok results (update a s).
Proof.
  intros Hs Hl Ha. unfold render in Hl. destruct (selected s) as [[r e]|] eqn:Hsel.
  - destruct (detail_view_listeners _ _ _ _ _ _ Hl Ha) as [->|[(id & -> & _)| ->]].
    + by apply (page_ok_same _ s).
    + apply (page_ok_same _ s); cbn; unfold on_detail; by rewrite ?Hsel.
    + apply (page_ok_same _ s); cbn; unfold on_detail; by rewrite ?Hsel.
  - destruct (list_view_listeners _ _ _ _ _ _ Hl Ha)
      as [[->|[->|[->| ->]]]|[(r & -> & _)|[(-> & _ & Hp)|[-> Hp]]]];
      try (by left); [by apply (page_ok_same _ s)|..]; right; cbn;
      change (filtered results (setPage _ s)) with (filtered results s);
      destruct Hs; lia.
Qed.

(** C5: while the list of results stays the same, nothing the user does leads
    to a page that does not exist: paging, searching, filtering and looking at
    details keep the page number in range, so that a table with matching
    results is never shown empty. *)
Theorem page_in_range now loc results s :
  rtc (user_step now loc results) initial s →
  page_ok results s ∧ (filtered results s ≠ [] → paged (filtered results s) s.(page) ≠ []).
Proof.
  intros Hr. assert (page_ok results s) as Hok.
  { revert Hr. apply (ui_invariant _ _ (page_ok results)); [|by left].
    intros s1 l d a. apply page_ok_update. }
  split; [done|]. intros Hne. pose proof (totalPages_le (filtered results s)) as Hle.
  pose proof (totalPages_nonneg (filtered results s)). unfold PAGE_SIZE in *.
  assert (0 < Z.of_nat (length (filtered results s))).
  { assert (length (filtered results s) ≠ 0%nat) by (by intros ?%nil_length_inv). lia. }
  apply pages_partition. destruct Hok; nia.
Qed.

(** The page [Next] leads to from the first one, when there are more results
    than fit. *)
Lemma next_enabled now loc results s :
  s.(selected) = None → s.(page) = 0 → PAGE_SIZE < Z.of_nat (length (filtered results s)) →
  user_step now loc results s (setPage 1 s).
Proof.
  intros Hsel Hp Hlen. assert (setPage 1 s = update Next s) as -> by (cbn; by rewrite Hp).
  apply (ui_event _ _ _ [2; 1; 1; 1]%nat "click" "" Next).
  unfold render, list_view, pagination. rewrite Hsel. cbv zeta.
  assert (1 < totalPages (filtered results s)) as Htotal.
  { pose proof (totalPages_le (filtered results s)). unfold PAGE_SIZE in *. lia. }
  rewrite (bool_decide_eq_false_2 (length (filtered results s) = 0%nat))
    by (unfold PAGE_SIZE in *; lia).
  rewrite (proj2 (Z.ltb_lt _ _) Htotal), Hp.
  assert ((totalPages (filtered results s) - 1 <=? 0) = false) as -> by (apply Z.leb_gt; lia).
  cbn. apply list_elem_of_singleton. reflexivity.
Qed.

(** But the list is refetched in the background without the page number
    being checked: when the user is on the second page and the results shrink
    to a single page, the table is empty although there are results, and the
    button that would lead back is gone. *)
Theorem stale_page_blank now loc results results' :
  PAGE_SIZE < Z.of_nat (length results) → 0 < Z.of_nat (length results') <= PAGE_SIZE →
  ∃ s, rtc (step now loc) (results, initial) (results', s) ∧
    filtered results' s ≠ [] ∧ paged (filtered results' s) s.(page) = [] ∧
    ∀ l d, l ∈ listeners (render now loc false results' s) → l.(act) d ≠ Some Previous.
Proof.
  intros Hlen Hlen'. exists (setPage 1 initial).
  assert (∀ rs, length (filtered rs (setPage 1 initial)) = length rs) as Hfl.
  { intros rs. rewrite filtered_no_filters by done. apply length_js_sort. }
  split_and!.
  - eapply rtc_l; [|apply rtc_once, step_refetch]. apply step_user, next_enabled; [done..|].
    rewrite filtered_no_filters by done. by rewrite length_js_sort.
  - intros Hnil. specialize (Hfl results'). rewrite Hnil in Hfl. cbn in Hfl. lia.
  - rewrite paged_spec by done. rewrite drop_ge; [done|].
    rewrite Hfl. unfold PAGE_SIZE in *. cbn. lia.
  - intros l d Hl Ha. unfold render in Hl. cbn [selected setPage initial] in Hl.
    pose proof (totalPages_bounds (filtered results' (setPage 1 initial))) as Hb.
    rewrite Hfl in Hb. unfold PAGE_SIZE in *.
    destruct (list_view_listeners _ _ _ _ _ _ Hl Ha)
      as [[Heq|[Heq|[Heq|Heq]]]|[(r & Heq & _)|[(_ & Hp & _)|[Heq _]]]];
      try discriminate Heq. change {| page := 1 |} with (setPage 1 initial) in Hp. lia.
Qed.

(** A result whose summary counts are not negative is listed under exactly
    one of the three status filters, and a result without a summary under none
    of them. *)
Theorem verdict_filters_partition r :
  match r.(r_spec).(r_summary) with
  | Some s =>
    0 <= s.(warn) → 0 <= s.(fail) →
    filter (λ v, matches_verdict v r) ["PASS"; "WARN"; "FAIL"] =
      [if 0 <? s.(fail) then "FAIL" else if 0 <? s.(warn) then "WARN" else "PASS"]
  | None => filter (λ v, matches_verdict v r) ["PASS"; "WARN"; "FAIL"] = []
  end.
Proof.
  unfold matches_verdict. destruct (r_summary (r_spec r)) as [[t p w f]|]; [|done].
  cbn [warn fail]. intros Hw Hf. rewrite !filter_cons, filter_nil. cbn.
  destruct (Z.eqb_spec f 0), (Z.eqb_spec w 0), (Z.ltb_spec 0 f), (Z.ltb_spec 0 w);
    try lia; done.
Qed.

(** The expanded checks are checks of the result shown. *)
Definition expanded_ok (s : State) : Prop :=
  match s.(selected) with
  | Some (r, e) => e ⊆ list_to_set (check_ids r)
  | None => True
  end.

Lemma expanded_ok_step now loc rs1 s1 rs2 s2 :
  expanded_ok s1 → step now loc (rs1, s1) (rs2, s2) → expanded_ok s2.
Proof.
  intros Hs Hstep. inversion Hstep as [rs s s' Hu|]; subst; [|done].
  destruct Hu as [s path e d a Ha]. apply dispatch_listener in Ha as (l & Hl & _ & Ha).
  unfold render in Hl. unfold expanded_ok in *. destruct (selected s) as [[r e0]|] eqn:Hsel.
  - destruct (detail_view_listeners _ _ _ _ _ _ Hl Ha) as [->|[(id & -> & Hid)| ->]]; cbn.
    + done.
    + unfold on_detail. rewrite Hsel. cbn. unfold toggle. case_decide; set_solver.
    + unfold on_detail. rewrite Hsel. cbn. unfold expandAll. case_decide; set_solver.
  - destruct (list_view_listeners _ _ _ _ _ _ Hl Ha)
      as [[->|[->|[->| ->]]]|[(r & -> & _)|[(-> & _)|[-> _]]]]; cbn;
      rewrite ?Hsel; set_solver.
Qed.

Lemma expanded_ok_reachable now loc results results' s :
  rtc (step now loc) (results, initial) (results', s) → expanded_ok s.
Proof.
  intros Hr.
  apply (rtc_invariant (step now loc) (λ w, expanded_ok w.2) (results, initial) (results', s));
    [done| |done].
  intros [rs1 s1] [rs2 s2]. cbn. apply expanded_ok_step.
Qed.

(** In the detail view of a result with distinct check ids the button does
    what it says: "Expand All" opens every check and becomes "Collapse All";
    "Collapse All" is shown exactly when every check is open, and closes them. *)
Theorem expand_all_label now loc results results' s r e :
  rtc (step now loc) (results, initial) (results', s) →
  s.(selected) = Some (r, e) → NoDup (check_ids r) →
  (expand_label r e = "Collapse All" ↔ e = list_to_set (check_ids r)) ∧
  (expand_label r e = "Collapse All" → expandAll r e = ∅) ∧
  (expand_label r e = "Expand All" →
     expandAll r e = list_to_set (check_ids r) ∧
     expand_label r (expandAll r e) = "Collapse All").
Proof.
  intros Hr Hsel Hnd. apply expanded_ok_reachable in Hr as He.
  unfold expanded_ok in He. rewrite Hsel in He. unfold expand_label, expandAll.
  pose proof (size_list_to_set (C := gset string) _ Hnd) as Hsize.
  split_and!.
  - case_decide as Hd; split; try done.
    + intros _. by apply size_full_list.
    + intros ->. by destruct Hd.
  - by case_decide.
  - case_decide; [done|]. intros _. split; [done|]. by rewrite decide_True.
Qed.

(** With two checks of the same id the button never becomes "Collapse
    All": in every reachable detail view of such a result it reads "Expand
    All", and pressing it opens everything, again and again. *)
Theorem expand_all_duplicates now loc results results' s r e :
  rtc (step now loc) (results, initial) (results', s) →
  s.(selected) = Some (r, e) → ¬ NoDup (check_ids r) →
  expand_label r e = "Expand All" ∧ expandAll r e = list_to_set (check_ids r).
Proof.
  intros Hr Hsel Hdup. apply expanded_ok_reachable in Hr as He.
  unfold expanded_ok in He. rewrite Hsel in He.
  pose proof (size_list_to_set_dup _ Hdup) as Hlt. pose proof (subseteq_size _ _ He) as Hle.
  unfold expand_label, expandAll. by rewrite !decide_False by lia.
Qed.

(** ** Witnesses *)

Definition sample_result (name created : string) (ids : list string) : ChecklistResult :=
  {| r_metadata := {| name := name; namespace := "dtm-system"; creationTimestamp := created |};
     r_spec := {| policyRef := "prod"; scanType := "FullScan"; startedAt := created;
                  completedAt := None;
                  r_checks := Some (map (λ i, {| cr_id := i; cr_description := ""; verdict := "FAIL";
                    reasoning := ""; cr_severity := None; failedSince := None;
                    toolCalls := None |}) ids);
                  r_summary := Some {| total := 2; pass := 1; warn := 0; fail := 1 |} |};
     phase := Some "Completed" |}.

Definition two_results : list ChecklistResult :=
  [sample_result "a" "2026-03-01T12:00:00Z" ["x"; "y"];
   sample_result "b" "2026-03-02T12:00:00Z" ["x"; "x"]].

Definition many_results (n : nat) : list ChecklistResult :=
  replicate n (sample_result "a" "2026-03-01T12:00:00Z" ["x"]).

Definition no_locale (s : string) : string := s.

Lemma filtered_correct_witness :
  filtered two_results initial = rev two_results ∧
  StronglySorted (λ a b, ∃ ta tb, created a = Some ta ∧ created b = Some tb ∧ tb <= ta)
    (filtered two_results initial).
Proof.
  split; [vm_compute; reflexivity|].
  apply (proj2 (filtered_correct two_results initial)). repeat constructor; eexists; vm_compute; reflexivity.
Defined.

Lemma pages_partition_witness :
  paged (many_results 21) 1 ≠ [] ∧ length (paged (many_results 21) 1) = 1%nat.
Proof.
  split; [|vm_compute; reflexivity].
  apply (proj2 (pages_partition (many_results 21))). vm_compute. split; [discriminate|reflexivity].
Defined.

Lemma second_page_step :
  user_step 0 no_locale (many_results 21) initial (update Next initial).
Proof.
  apply (ui_event _ _ _ [2; 1; 1; 1]%nat "click" "" Next). vm_compute. apply list_elem_of_here.
Qed.

Lemma page_in_range_witness : page_ok (many_results 21) (update Next initial).
Proof.
  refine (proj1 (page_in_range 0 no_locale (many_results 21) _ _)).
  apply rtc_once. exact second_page_step.
Defined.

Lemma stale_page_blank_witness :
  ∃ s, rtc (step 0 no_locale) (many_results 21, initial) (many_results 3, s) ∧
    filtered (many_results 3) s ≠ [] ∧ paged (filtered (many_results 3) s) s.(page) = [] ∧
    ∀ l d, l ∈ listeners (render 0 no_locale false (many_results 3) s) → l.(act) d ≠ Some Previous.
Proof. apply stale_page_blank; vm_compute; [reflexivity|split; [reflexivity|discriminate]]. Defined.

Lemma verdict_filters_partition_witness :
  filter (λ v, matches_verdict v (sample_result "a" "" [])) ["PASS"; "WARN"; "FAIL"] = ["FAIL"].
Proof.
  refine (verdict_filters_partition (sample_result "a" "" []) _ _); vm_compute; discriminate.
Defined.

Lemma select_step r :
  r ∈ two_results →
  rtc (step 0 no_locale) (two_results, initial) (two_results, update (Select r) initial).
Proof.
  intros Hr. apply rtc_once, step_user.
  unfold two_results in Hr. apply elem_of_cons in Hr as [->|[->|Hr]%elem_of_cons]; [| |inversion Hr].
  - apply (ui_event _ _ _ [2; 0; 0; 0; 1; 1; 0; 0]%nat "click" "" (Select _)).
    vm_compute. apply list_elem_of_here.
  - apply (ui_event _ _ _ [2; 0; 0; 0; 1; 0; 0; 0]%nat "click" "" (Select _)).
    vm_compute. apply list_elem_of_here.
Qed.

Lemma expand_all_label_witness :
  expandAll (sample_result "a" "2026-03-01T12:00:00Z" ["x"; "y"]) ∅ = list_to_set ["x"; "y"].
Proof.
  refine (proj1 (proj2 (proj2 (expand_all_label 0 no_locale two_results two_results _
    (sample_result "a" "2026-03-01T12:00:00Z" ["x"; "y"]) ∅
    (select_step _ _) eq_refl _)) _)).
  - apply list_elem_of_here.
  - apply (bool_decide_unpack _). vm_compute. exact I.
  - vm_compute. reflexivity.
Defined.

Lemma expand_all_duplicates_witness :
  expand_label (sample_result "b" "2026-03-02T12:00:00Z" ["x"; "x"]) ∅ = "Expand All".
Proof.
  refine (proj1 (expand_all_duplicates 0 no_locale two_results two_results _
    (sample_result "b" "2026-03-02T12:00:00Z" ["x"; "x"]) ∅
    (select_step _ _) eq_refl _)).
  - apply list_elem_of_further, list_elem_of_here.
  - apply (bool_decide_unpack _). vm_compute. exact I.
Defined.
