(* ===== verification/GoStd.v ===== *)
(** * The Go built-ins the operator uses

    - [int32] arithmetic wraps around;
    - a string is the sequence of its bytes, as in Go; [strings.ToUpper] maps
      the letters of ASCII and the two letters outside it whose upper case is in
      ASCII, [strings.ToLower] the letters of ASCII; other letters stay as they
      are, which is exact for the question whether, and in what order, patterns
      of ASCII occur in a text, the only one asked;
    - a pair of a result and an error is a value of [res]: the callers of the
      operator look at the result only if the error is nil. *)
From Stdlib Require Import Ascii ZArith Lia.
From stdpp Require Import base list strings pretty gmap sets relations.
From S2P Require Import Prelude.
Local Open Scope Z_scope.

(** ** Integers *)

(** An [int32]. *)
Definition wrap32 (z : Z) : Z := (z + 2 ^ 31) mod 2 ^ 32 - 2 ^ 31.

Lemma wrap32_small z : - 2 ^ 31 <= z < 2 ^ 31 → wrap32 z = z.
Proof. intros Hz. unfold wrap32. rewrite Z.mod_small by lia. lia. Qed.

(** ** Results with an error *)

Inductive res (A : Type) := Ok (a : A) | Err (e : string).
Arguments Ok {A}.
Arguments Err {A}.

(** [fmt.Errorf("prefix: %w", err)]. *)
Definition wrap_error {A} (prefix : string) (e : string) : res A := Err (prefix +:+ ": " +:+ e).

(** ** Strings *)

Definition nl : string := String (ascii_of_N 10) "".

Definition byte (n : N) : ascii := ascii_of_N n.

(** [strings.HasPrefix]. *)
Fixpoint HasPrefix (s pre : string) {struct pre} : bool :=
  match pre, s with
  | EmptyString, _ => true
  | String a pre, String b s => bool_decide (a = b) && HasPrefix s pre
  | String _ _, EmptyString => false
  end.

(** [strings.Index]; absence is -1 in Go. *)
Fixpoint Index (s sub : string) : option nat :=
  if HasPrefix s sub then Some O
  else match s with EmptyString => None | String _ s => S <$> Index s sub end.

(** [strings.Contains]. *)
Definition Contains (s sub : string) : bool := bool_decide (is_Some (Index s sub)).

(** The slice [s[n:]]. *)
Fixpoint slice_from (n : nat) (s : string) : string :=
  match n, s with
  | O, _ => s
  | S n, String _ s => slice_from n s
  | S _, EmptyString => EmptyString
  end.

(** [strings.Join]. *)
Fixpoint Join (l : list string) (sep : string) : string :=
  match l with
  | [] => ""
  | [s] => s
  | s :: l => s +:+ sep +:+ Join l sep
  end.

Definition upper_byte (c : ascii) : ascii :=
  let n := N_of_ascii c in
  if ((97 <=? n) && (n <=? 122))%N then ascii_of_N (n - 32) else c.

(** [strings.ToUpper]: the dotless i (C4 B1) and the long s (C5 BF) become
    letters of ASCII. *)
Fixpoint ToUpper (s : string) : string :=
  match s with
  | EmptyString => EmptyString
  | String a s' =>
    match s' with
    | String b s'' =>
      if bool_decide (a = byte 196 ∧ b = byte 177) then String "I" (ToUpper s'')
      else if bool_decide (a = byte 197 ∧ b = byte 191) then String "S" (ToUpper s'')
      else String (upper_byte a) (ToUpper s')
    | EmptyString => String (upper_byte a) EmptyString
    end
  end.

(** [strings.ToLower], on the letters of ASCII. *)
Fixpoint ToLower (s : string) : string :=
  match s with
  | EmptyString => EmptyString
  | String c s =>
    let n := N_of_ascii c in
    String (if ((65 <=? n) && (n <=? 90))%N then ascii_of_N (n + 32) else c) (ToLower s)
  end.

(** [unicode.IsSpace]: white space outside ASCII is U+0085, U+00A0 and the
    wide ones. *)
Definition space_char : string → option string :=
  space_of ascii_space (λ a b, ((a =? 194) && ((b =? 133) || (b =? 160)))%N%bool) wide_space.

(** [strings.TrimSpace]. *)
Definition TrimSpace : string → string := trim_both space_char.

(** ** Lemmas *)

Lemma HasPrefix_spec s pre : HasPrefix s pre = true ↔ ∃ t, s = pre +:+ t.
Proof.
  revert s. induction pre as [|a pre IH]; intros [|b s]; simpl.
  - split; [by exists EmptyString|done].
  - split; [by exists (String b s)|done].
  - split; [done|]. intros [t ?]. discriminate.
  - rewrite andb_true_iff, bool_decide_eq_true, IH. split.
    + intros [-> [t ->]]. by exists t.
    + intros [t [= -> ->]]. eauto.
Qed.

Lemma HasPrefix_app pre t : HasPrefix (pre +:+ t) pre = true.
Proof. apply HasPrefix_spec. eauto. Qed.

(** [Index] finds an occurrence. *)
Lemma Index_Some s sub i :
  Index s sub = Some i → ∃ a b, s = a +:+ sub +:+ b ∧ String.length a = i.
Proof.
  revert i. induction s as [|c s IH]; intros i; cbn [Index]; case_match eqn:Hp.
  1, 3: intros [= <-]; apply HasPrefix_spec in Hp as [t ->]; by exists EmptyString, t.
  - done.
  - intros (j & Hj & ->)%fmap_Some. destruct (IH _ Hj) as (a & b & -> & <-).
    by exists (String c a), b.
Qed.

(** It finds one if there is one, at the first place. *)
Lemma Index_app a sub b :
  ∃ i, Index (a +:+ sub +:+ b) sub = Some i ∧ (i ≤ String.length a)%nat.
Proof.
  induction a as [|c a (i & Hi & Hle)].
  - exists O. change (EmptyString +:+ sub +:+ b) with (sub +:+ b).
    destruct (sub +:+ b) as [|c s] eqn:Hs; cbn [Index];
      pose proof (HasPrefix_app sub b) as Hp; rewrite Hs in Hp; rewrite Hp; split; done || lia.
  - rewrite string_app_cons. cbn [Index]. case_match; [exists O; split; [done|lia]|].
    rewrite Hi. exists (S i). split; [done|]. cbn. lia.
Qed.

Lemma Contains_spec s sub : Contains s sub = true ↔ ∃ a b, s = a +:+ sub +:+ b.
Proof.
  unfold Contains. rewrite bool_decide_eq_true. split.
  - intros [i (a & b & Hs & _)%Index_Some]. eauto.
  - intros (a & b & ->). destruct (Index_app a sub b) as (i & -> & _). done.
Qed.

Lemma Contains_false s sub : Contains s sub = false ↔ Index s sub = None.
Proof. unfold Contains. rewrite bool_decide_eq_false, eq_None_not_Some. done. Qed.

Lemma slice_from_app a b : slice_from (String.length a) (a +:+ b) = b.
Proof. induction a; [by destruct b|done]. Qed.

Lemma slice_from_short n a b :
  (n ≤ String.length a)%nat → slice_from n (a +:+ b) = slice_from n a +:+ b.
Proof.
  revert a. induction n as [|n IH]; intros [|c a]; cbn; try done; try lia. intros Hn.
  apply IH. lia.
Qed.

(** A string is not found where its first character is not. *)
Lemma Index_skip t c sub s :
  string_forallb (λ d, bool_decide (d ≠ c)) t = true →
  Index (t +:+ s) (String c sub) = (λ i, String.length t + i)%nat <$> Index s (String c sub).
Proof.
  induction t as [|d t IH]; cbn [string_forallb].
  - intros _. change (EmptyString +:+ s) with s. by destruct (Index s _).
  - intros [Hd Ht]%andb_true_iff. apply bool_decide_eq_true in Hd.
    rewrite string_app_cons. cbn [Index HasPrefix]. rewrite bool_decide_false by done.
    rewrite andb_false_l, IH by done. by destruct (Index s _).
Qed.

Lemma string_app_eq (a b c d : string) :
  a +:+ b = c +:+ d →
  (∃ t, a = c +:+ t ∧ d = t +:+ b) ∨ (∃ t, c = a +:+ t ∧ b = t +:+ d).
Proof.
  revert c. induction a as [|x a IH]; intros [|y c].
  - intros. left. by exists EmptyString.
  - intros H. right. by exists (String y c).
  - intros H. left. by exists (String x a).
  - intros [= -> Heq]. destruct (IH _ Heq) as [(t & -> & ->)|(t & -> & ->)]; eauto.
Qed.

Definition is_ascii (c : ascii) : bool := (N_of_ascii c <? 128)%N.

Lemma ToUpper_ascii c s :
  is_ascii c = true → ToUpper (String c s) = String (upper_byte c) (ToUpper s).
Proof.
  intros Hc. destruct s as [|b s]; [done|]. cbn [ToUpper].
  rewrite !bool_decide_false; [done|..]; intros [-> _]; done.
Qed.

Lemma ToUpper_2 x y s :
  ToUpper (String x (String y s)) =
  if bool_decide (x = byte 196 ∧ y = byte 177) then String "I" (ToUpper s)
  else if bool_decide (x = byte 197 ∧ y = byte 191) then String "S" (ToUpper s)
  else String (upper_byte x) (ToUpper (String y s)).
Proof. done. Qed.

(** Case mapping goes through an ASCII character. *)
Lemma ToUpper_app a c b :
  is_ascii c = true → ToUpper (a +:+ String c b) = ToUpper a +:+ ToUpper (String c b).
Proof.
  intros Hc. remember (String.length a) as n eqn:Hn. revert a Hn.
  induction (lt_wf n) as [n _ IH]. intros [|x [|y a]] Hn; [done| |].
  - change (String x "" +:+ String c b) with (String x (String c b)). cbn [ToUpper].
    rewrite !bool_decide_false; [done|..]; intros [_ ->]; done.
  - change (String x (String y a) +:+ String c b) with (String x (String y (a +:+ String c b))).
    specialize (IH (String.length a)) as IHa. specialize (IH (String.length (String y a))) as IHy.
    rewrite !ToUpper_2, IHa by (cbn in Hn; lia || done).
    change (String y (a +:+ String c b)) with (String y a +:+ String c b).
    rewrite (IHy ltac:(cbn in *; lia) (String y a) eq_refl).
    by repeat case_bool_decide.
Qed.

Lemma ToUpper_app_ascii a b :
  string_forallb is_ascii a = true → ToUpper (a +:+ b) = ToUpper a +:+ ToUpper b.
Proof.
  induction a as [|c a IH]; [done|]. cbn [string_forallb]. intros [Hc Ha]%andb_true_iff.
  rewrite string_app_cons, !ToUpper_ascii, IH by done. done.
Qed.

(** A property of bytes that case mapping keeps. *)
Lemma ToUpper_forallb p s :
  (∀ c, p c = true → p (upper_byte c) = true) → p "I"%char = true → p "S"%char = true →
  string_forallb p s = true → string_forallb p (ToUpper s) = true.
Proof.
  intros Hp HI HS. remember (String.length s) as n eqn:Hn. revert s Hn.
  induction (lt_wf n) as [n _ IH]. intros [|x [|y a]] Hn; [done| |].
  - cbn. rewrite !andb_true_r. apply Hp.
  - cbn [string_forallb]. intros [Hx [Hy Ha]%andb_true_iff]%andb_true_iff.
    rewrite ToUpper_2. repeat case_bool_decide; cbn [string_forallb].
    + rewrite HI. apply (IH (String.length a)); [cbn in Hn; lia|done..].
    + rewrite HS. apply (IH (String.length a)); [cbn in Hn; lia|done..].
    + rewrite (Hp x Hx). apply (IH (String.length (String y a))); [cbn in *; lia|done|].
      cbn. by rewrite Hy, Ha.
Qed.

(** ** Texts of lines *)

Fixpoint unlines (l : list string) : string :=
  match l with [] => "" | s :: l => s +:+ nl +:+ unlines l end.

Lemma unlines_app l k : unlines (l ++ k) = unlines l +:+ unlines k.
Proof. induction l as [|s l IH]; [done|]. cbn. by rewrite IH, !string_app_assoc. Qed.

Lemma ToUpper_unlines l : ToUpper (unlines l) = unlines (map ToUpper l).
Proof.
  induction l as [|s l IH]; [done|]. cbn [unlines map].
  change (nl +:+ unlines l) with (String (ascii_of_N 10) (unlines l)).
  rewrite ToUpper_app, ToUpper_ascii, IH by done. done.
Qed.

Definition in_line (c : ascii) : bool := bool_decide (c ≠ ascii_of_N 10).

(** A string without a newline occurs in a text within one line of it. *)
Lemma unlines_occurrence l sub a b :
  string_forallb in_line sub = true → sub ≠ "" → unlines l = a +:+ sub +:+ b →
  ∃ l1 s l2 a' b', l = l1 ++ s :: l2 ∧ s = a' +:+ sub +:+ b' ∧
    b = b' +:+ nl +:+ unlines l2.
Proof.
  intros Hsub Hne. revert a. induction l as [|s l IH]; intros a; cbn [unlines].
  - intros Heq. destruct a; [|done]. by destruct sub.
  - intros [(t & -> & Ht)|(t & -> & Ht)]%string_app_eq.
    + apply string_app_eq in Ht as [(t' & -> & Ht)|(t' & -> & Ht)].
      * destruct t' as [|c t']; cbn in Ht.
        -- exists [], (a +:+ t), l, a, "". rewrite !string_app_nil_r. done.
        -- injection Ht as <- Ht. rewrite string_forallb_app in Hsub. cbn in Hsub.
           by rewrite andb_false_r in Hsub.
      * exists [], (a +:+ sub +:+ t'), l, a, t'. done.
    + destruct t as [|c t]; cbn in Ht.
      * destruct sub as [|c sub]; [done|]. injection Ht as <- Ht. by cbn in Hsub.
      * injection Ht as _ Ht. destruct (IH _ Ht) as (l1 & s' & l2 & a' & b' & -> & -> & ->).
        by exists (s :: l1), (a' +:+ sub +:+ b'), l2, a', b'.
Qed.

(** ** White space *)

Lemma space_char_solid c s : is_solid c = true → space_char (String c s) = None.
Proof.
  intros Hc. apply space_of_solid; [done| |by apply wide_space_ascii].
  intros b. by rewrite (is_solid_neq c 194) by done.
Qed.

Lemma trim_front_solid c s :
  is_solid c = true → trim_front space_char (String c s) = String c s.
Proof. intros Hc. by apply trim_front_none, space_char_solid. Qed.

Lemma trim_right_solid p s :
  string_forallb is_solid p = true →
  trim_right space_char (p +:+ s) = p +:+ trim_right space_char s.
Proof.
  induction p as [|c p IH]; [done|]. cbn [string_forallb]. intros [Hc Hp]%andb_true_iff.
  rewrite !string_app_cons. cbn [trim_right]. rewrite trim_front_solid by done.
  rewrite bool_decide_false by done. by rewrite IH.
Qed.
