(* ===== verification/StateStore.v ===== *)
(** * The alert state machine of the operator ([operator/internal/state/store.go])

    One state per policy and check.  Every method of the store takes its mutex
    for its whole body, so concurrent calls are a sequence of atomic ones; the
    clock reading of a call is one of its arguments.  The specification
    below says what the store remembers of a history of verdicts, and
    [store_refines_history] that it remembers just that. *)
From Stdlib Require Import Ascii ZArith Lia.
From stdpp Require Import base list strings gmap sets relations.
From S2P Require Import Prelude GoStd.
Local Open Scope Z_scope.

Inductive AlertState := StateUnknown | StateFiring | StateResolved | StateEscalated.

#[export] Instance AlertState_eq_dec : EqDecision AlertState.
Proof. solve_decision. Defined.

(** Times are nanoseconds; the zero [time.Time] is the first of January of
    year 1. *)
Definition zero_time : Z := -62135596800 * 10 ^ 9.

Record CheckState := {
  State : AlertState;
  FailedSince : Z;
  RetryCount : Z;
  LastUpdated : Z
}.

Record Transition := {
  t_CheckID : string;
  t_PolicyRef : string;
  From : AlertState;
  To : AlertState;
  t_State : CheckState
}.

Record Store := {
  checks : gmap string (gmap string CheckState);
  escalationThreshold : Z
}.

Definition NewStore (threshold : Z) : Store :=
  {| checks := ∅; escalationThreshold := if threshold <=? 0 then 5 else threshold |}.

Definition fresh : CheckState :=
  {| State := StateUnknown; FailedSince := zero_time; RetryCount := 0; LastUpdated := zero_time |}.

(** [s.checks[policyRef][checkID]], if both are present. *)
Definition lookup_check (s : Store) (policyRef checkID : string) : option CheckState :=
  m ← s.(checks) !! policyRef; m !! checkID.

(** Writing through the pointer [getOrCreate] returns. *)
Definition put (policyRef checkID : string) (cs : CheckState) (s : Store) : Store :=
  {| checks := <[policyRef := <[checkID := cs]> (default ∅ (s.(checks) !! policyRef))]> s.(checks);
     escalationThreshold := s.(escalationThreshold) |}.

Definition getOrCreate (s : Store) (policyRef checkID : string) : CheckState :=
  default fresh (lookup_check s policyRef checkID).

Definition RecordFail (now : Z) (policyRef checkID : string) (s : Store) :
    Store * option Transition :=
  let cs := getOrCreate s policyRef checkID in
  let transition to cs := Some {| t_CheckID := checkID; t_PolicyRef := policyRef;
                                  From := (getOrCreate s policyRef checkID).(State); To := to;
                                  t_State := cs |} in
  match cs.(State) with
  | StateUnknown | StateResolved =>
    let cs := {| State := StateFiring; FailedSince := now; RetryCount := 0; LastUpdated := now |} in
    (put policyRef checkID cs s, transition StateFiring cs)
  | StateFiring =>
    let n := wrap32 (cs.(RetryCount) + 1) in
    if s.(escalationThreshold) <=? n then
      let cs := {| State := StateEscalated; FailedSince := cs.(FailedSince); RetryCount := n;
                   LastUpdated := now |} in
      (put policyRef checkID cs s, transition StateEscalated cs)
    else
      (put policyRef checkID {| State := StateFiring; FailedSince := cs.(FailedSince);
                                RetryCount := n; LastUpdated := now |} s, None)
  | StateEscalated =>
    (put policyRef checkID {| State := StateEscalated; FailedSince := cs.(FailedSince);
                              RetryCount := wrap32 (cs.(RetryCount) + 1); LastUpdated := now |} s,
     None)
  end.

Definition RecordPass (now : Z) (policyRef checkID : string) (s : Store) :
    Store * option Transition :=
  let cs := getOrCreate s policyRef checkID in
  match cs.(State) with
  | StateFiring | StateEscalated =>
    let cs' := {| State := StateResolved; FailedSince := cs.(FailedSince); RetryCount := 0;
                  LastUpdated := now |} in
    (put policyRef checkID cs' s,
     Some {| t_CheckID := checkID; t_PolicyRef := policyRef; From := cs.(State);
             To := StateResolved; t_State := cs' |})
  | _ => (put policyRef checkID cs s, None)
  end.

Definition failing (cs : CheckState) : bool :=
  match cs.(State) with StateFiring | StateEscalated => true | _ => false end.

(** [FailedChecks]: in Go the order of the ids is that of a map, that is, any;
    the result is the set of them. *)
Definition FailedChecks (policyRef : string) (s : Store) : gset string :=
  dom (filter (λ kv, failing kv.2 = true) (default ∅ (s.(checks) !! policyRef))).

Definition GetState (policyRef checkID : string) (s : Store) : option CheckState :=
  lookup_check s policyRef checkID.

Definition RestoreFromFailedSince (now : Z) (policyRef checkID : string) (failedSince : Z)
    (s : Store) : Store :=
  let cs := getOrCreate s policyRef checkID in
  put policyRef checkID {| State := StateFiring; FailedSince := failedSince;
                           RetryCount := cs.(RetryCount); LastUpdated := now |} s.

(** ** A run of the store *)

(** A call of [RecordFail] or [RecordPass]. *)
Record call := { c_policy : string; c_check : string; c_fail : bool; c_now : Z }.

Definition record (c : call) (s : Store) : Store * option Transition :=
  if c.(c_fail) then RecordFail c.(c_now) c.(c_policy) c.(c_check) s
  else RecordPass c.(c_now) c.(c_policy) c.(c_check) s.

Definition run (cs : list call) (s : Store) : Store := foldl (λ s c, (record c s).1) s cs.

(** ** Specification *)

(** What one check's history - a list of failed or passed and when - amounts to:
    whether it has ever failed, and the times of the failures since it last
    passed, the first of them first. *)
Record Trail := { ever : bool; fails : list Z }.

Definition trail_step (t : Trail) (c : call) : Trail :=
  if c.(c_fail) then {| ever := true; fails := t.(fails) ++ [c.(c_now)] |}
  else {| ever := t.(ever); fails := [] |}.

Definition trail (h : list call) : Trail := foldl trail_step {| ever := false; fails := [] |} h.

Definition spec_state (threshold : Z) (t : Trail) : AlertState :=
  match t.(fails) with
  | [] => if t.(ever) then StateResolved else StateUnknown
  | l => if Z.of_nat (length l) <=? threshold then StateFiring else StateEscalated
  end.

(** The notification a call gives rise to, from the trail before it. *)
Definition spec_transition (threshold : Z) (t : Trail) (fail : bool) : option AlertState :=
  match fail, t.(fails) with
  | true, [] => Some StateFiring
  | true, l => if Z.of_nat (length l) =? threshold then Some StateEscalated else None
  | false, [] => None
  | false, _ => Some StateResolved
  end.

(** The calls about one check. *)
Definition about (p i : string) (h : list call) : list call :=
  filter (λ c, c.(c_policy) = p ∧ c.(c_check) = i) h.

(** ** Lemmas *)

Arguments lookup_check : simpl never.
Arguments put : simpl never.
Arguments spec_state : simpl never.

Lemma lookup_put p i cs s p' i' :
  lookup_check (put p i cs s) p' i' =
  if decide (p = p' ∧ i = i') then Some cs else lookup_check s p' i'.
Proof.
  unfold lookup_check, put. cbn [checks]. destruct (decide (p = p')) as [->|Hp].
  - rewrite lookup_insert_eq. cbn. destruct (decide (i = i')) as [->|Hi].
    + by rewrite lookup_insert_eq, decide_True by done.
    + rewrite lookup_insert_ne, decide_False by (done || tauto).
      by destruct (checks s !! p') as [m|]; cbn; rewrite ?lookup_empty.
  - by rewrite lookup_insert_ne, decide_False by (done || tauto).
Qed.

(** The stored state of a check matches a trail. *)
Definition matches (threshold : Z) (cs : CheckState) (t : Trail) : Prop :=
  cs.(State) = spec_state threshold t ∧
  match t.(fails) with
  | [] => True
  | first :: _ =>
    t.(ever) = true ∧ cs.(FailedSince) = first ∧
    (cs.(State) = StateFiring → cs.(RetryCount) = Z.of_nat (length t.(fails)) - 1)
  end.

Lemma spec_state_cons k e x l :
  spec_state k {| ever := e; fails := x :: l |} =
  if Z.of_nat (S (length l)) <=? k then StateFiring else StateEscalated.
Proof. done. Qed.

Lemma matches_firing k cs x l :
  cs.(State) = StateFiring → Z.of_nat (S (length l)) <= k → cs.(FailedSince) = x →
  cs.(RetryCount) = Z.of_nat (length l) → matches k cs {| ever := true; fails := x :: l |}.
Proof.
  intros Hs Hl Hx Hr. split; cbn [fails ever].
  - rewrite spec_state_cons, (proj2 (Z.leb_le _ _)) by done. done.
  - split_and!; [done..|]. intros _. cbn [length]. lia.
Qed.

Lemma matches_escalated k cs x l :
  cs.(State) = StateEscalated → k < Z.of_nat (S (length l)) → cs.(FailedSince) = x →
  matches k cs {| ever := true; fails := x :: l |}.
Proof.
  intros Hs Hl Hx. split; cbn [fails ever].
  - rewrite spec_state_cons, (proj2 (Z.leb_gt _ _)) by done. done.
  - split_and!; [done..|]. by rewrite Hs.
Qed.

Lemma matches_quiet k cs e :
  cs.(State) = (if e : bool then StateResolved else StateUnknown) →
  matches k cs {| ever := e; fails := [] |}.
Proof. by split. Qed.

(** What a call changes in the store. *)
Lemma record_frame c s :
  let r := record c s in
  r.1.(escalationThreshold) = s.(escalationThreshold) ∧
  (∀ p i, (p, i) ≠ (c.(c_policy), c.(c_check)) → lookup_check r.1 p i = lookup_check s p i).
Proof.
  assert (∀ cs p i, (p, i) ≠ (c.(c_policy), c.(c_check)) →
    lookup_check (put (c_policy c) (c_check c) cs s) p i = lookup_check s p i) as Hput.
  { intros cs p i Hne. rewrite lookup_put, decide_False; [done|]. intros [Hp Hi].
    apply Hne. congruence. }
  cbv zeta. unfold record, RecordFail, RecordPass.
  repeat case_match; cbn [fst]; (split; [done|apply Hput]).
Qed.

(** A call about a check moves its trail and notifies as specified. *)
Lemma record_matches c s t :
  let k := s.(escalationThreshold) in
  0 < k < 2 ^ 31 → matches k (getOrCreate s c.(c_policy) c.(c_check)) t →
  let r := record c s in
  (∃ cs, lookup_check r.1 c.(c_policy) c.(c_check) = Some cs ∧ matches k cs (trail_step t c)) ∧
  To <$> r.2 = spec_transition k t c.(c_fail).
Proof.
  cbv zeta. intros Hb [Hst Hf]. remember (getOrCreate s (c_policy c) (c_check c)) as cs eqn:Hcs.
  assert (∀ cs', lookup_check (put (c_policy c) (c_check c) cs' s) (c_policy c) (c_check c)
    = Some cs') as Hput by (intros cs'; by rewrite lookup_put, decide_True).
  unfold record, trail_step, spec_transition, RecordFail, RecordPass. rewrite <-Hcs.
  destruct t as [e [|x l]]; cbn [ever fails] in *.
  - assert (cs.(State) = if e then StateResolved else StateUnknown) as Hu by done.
    rewrite Hu. destruct (c_fail c), e; cbn [fst snd];
      (split; [eexists; split; [apply Hput|]|done]);
      first [by apply matches_quiet|apply matches_firing; cbn; lia || done].
  - destruct Hf as (-> & Hsince & Hretry). rewrite spec_state_cons in Hst.
    destruct (Z.leb_spec (Z.of_nat (S (length l))) (escalationThreshold s)) as [Hle|Hgt];
      rewrite Hst; destruct (c_fail c); cbn [fst snd app].
    + rewrite (Hretry Hst). cbn [length].
      replace (Z.of_nat (S (length l)) - 1 + 1) with (Z.of_nat (S (length l))) by lia.
      rewrite wrap32_small by lia.
      destruct (Z.leb_spec (escalationThreshold s) (Z.of_nat (S (length l)))) as [Heq|Hlt];
        cbn [fst snd]; (split; [eexists; split; [apply Hput|]|]).
      * apply matches_escalated; [done| |done]. rewrite length_app. cbn. lia.
      * by rewrite (proj2 (Z.eqb_eq _ _)) by lia.
      * apply matches_firing; cbn [FailedSince RetryCount]; try done; rewrite length_app; cbn; lia.
      * by rewrite (proj2 (Z.eqb_neq _ _)) by lia.
    + split; [eexists; split; [apply Hput|by apply matches_quiet]|done].
    + split; [eexists; split; [apply Hput|]|].
      * apply matches_escalated; [done| |done]. rewrite length_app. cbn. lia.
      * cbn [length]. by rewrite (proj2 (Z.eqb_neq _ _)) by lia.
    + split; [eexists; split; [apply Hput|by apply matches_quiet]|done].
Qed.

Lemma trail_snoc h c : trail (h ++ [c]) = trail_step (trail h) c.
Proof. unfold trail. by rewrite foldl_app. Qed.

Lemma run_snoc h c s : run (h ++ [c]) s = (record c (run h s)).1.
Proof. unfold run. by rewrite foldl_app. Qed.

Lemma about_snoc p i h c :
  about p i (h ++ [c]) = about p i h ++ (if decide (c.(c_policy) = p ∧ c.(c_check) = i) then [c] else []).
Proof. unfold about. rewrite filter_app. by f_equal. Qed.

Lemma run_threshold h s : (run h s).(escalationThreshold) = s.(escalationThreshold).
Proof.
  induction h as [|c h IH] using rev_ind; [done|]. rewrite run_snoc.
  by rewrite (proj1 (record_frame c _)).
Qed.

Lemma threshold_range threshold :
  threshold < 2 ^ 31 → 0 < (NewStore threshold).(escalationThreshold) < 2 ^ 31.
Proof. intros Ht. cbn. destruct (Z.leb_spec threshold 0); lia. Qed.

(** A stored check, or the state it would be created with, matches the trail of
    its history. *)
Definition remembers (k : Z) (o : option CheckState) (h : list call) : Prop :=
  (o = None ↔ h = []) ∧ matches k (default fresh o) (trail h).

Lemma run_remembers threshold h p i :
  threshold < 2 ^ 31 →
  remembers (NewStore threshold).(escalationThreshold)
    (lookup_check (run h (NewStore threshold)) p i) (about p i h).
Proof.
  intros Ht%threshold_range. induction h as [|c h IH] using rev_ind; [by repeat split|].
  rewrite run_snoc, about_snoc. destruct IH as [Hnone Hm].
  pose proof (run_threshold h (NewStore threshold)) as Hk.
  case_decide as Hc.
  - destruct Hc as [<- <-].
    destruct (record_matches c (run h (NewStore threshold)) (trail (about (c_policy c) (c_check c) h)))
      as [(cs & -> & Hcs) _]; [by rewrite Hk..|].
    rewrite Hk in Hcs. split; [|by rewrite trail_snoc].
    split; [done|]. intros Happ. by apply app_eq_nil in Happ as [_ [=]].
  - rewrite app_nil_r, (proj2 (record_frame c _)); [done|]. intros [=]. apply Hc. done.
Qed.

(** What a report gives rise to, and what it leaves in the store. *)
Lemma notified_at threshold h c :
  threshold < 2 ^ 31 →
  To <$> (record c (run h (NewStore threshold))).2 =
    spec_transition (NewStore threshold).(escalationThreshold)
      (trail (about c.(c_policy) c.(c_check) h)) c.(c_fail).
Proof.
  intros Ht. pose proof (run_remembers threshold h c.(c_policy) c.(c_check) Ht) as [_ Hm].
  pose proof (run_threshold h (NewStore threshold)) as Hk.
  pose proof (threshold_range threshold Ht) as Hrange.
  destruct (record_matches c (run h (NewStore threshold)) (trail (about (c_policy c) (c_check c) h)))
    as [_ Hto]; [by rewrite Hk..|]. by rewrite Hk in Hto.
Qed.

Lemma fails_since threshold h c :
  threshold < 2 ^ 31 → c.(c_fail) = true →
  ∃ cs rest, GetState c.(c_policy) c.(c_check) (run (h ++ [c]) (NewStore threshold)) = Some cs ∧
    (trail (about c.(c_policy) c.(c_check) (h ++ [c]))).(fails) = cs.(FailedSince) :: rest.
Proof.
  intros Ht Hc. pose proof (run_remembers threshold (h ++ [c]) c.(c_policy) c.(c_check) Ht)
    as [Hnone [_ Hm]].
  unfold GetState. rewrite about_snoc, decide_True in * by done.
  destruct (lookup_check _ _ _) as [cs|].
  2: { by destruct (app_cons_not_nil _ [] c (eq_sym (proj1 Hnone eq_refl))). }
  cbn in Hm. rewrite trail_snoc in *. unfold trail_step in *. rewrite Hc in *. cbn [fails] in *.
  destruct (fails _ ++ [c_now c]) as [|first rest] eqn:Hf; [by destruct (fails _)|].
  destruct Hm as (_ & <- & _). eauto.
Qed.

(** ** Theorems *)

(** C1: the store is a faithful summary of the verdicts it was told: after any
    interleaving of calls about any policies and checks, a check has a state
    exactly if it was ever reported; the state is UNKNOWN while it has only
    passed, RESOLVED when it has passed since it last failed, FIRING up to the
    threshold of consecutive failures and ESCALATED beyond it; [FailedSince] is
    the first of these failures; and the failed checks of the policy are those
    whose last report is a failure. *)
Theorem store_refines_history threshold h p i :
  threshold < 2 ^ 31 →
  let s := run h (NewStore threshold) in
  let k := if threshold <=? 0 then 5 else threshold in
  let t := trail (about p i h) in
  match GetState p i s with
  | None => about p i h = []
  | Some cs =>
    about p i h ≠ [] ∧ cs.(State) = spec_state k t ∧
    ∀ first rest, t.(fails) = first :: rest → cs.(FailedSince) = first
  end ∧
  (i ∈ FailedChecks p s ↔ t.(fails) ≠ []).
Proof.
  intros Ht. cbv zeta. pose proof (run_remembers threshold h p i Ht) as [Hnone [Hst Hf]].
  change (escalationThreshold (NewStore threshold)) with
    (if threshold <=? 0 then 5 else threshold) in Hst, Hf.
  unfold GetState. split.
  - destruct (lookup_check _ p i) as [cs|]; [|by apply Hnone]. cbn in Hst, Hf.
    split_and!; [by intros Hh%Hnone|done|]. intros first rest Hfr. rewrite Hfr in Hf. apply Hf.
  - unfold FailedChecks. rewrite elem_of_dom.
    assert (default ∅ (checks (run h (NewStore threshold)) !! p) !! i =
      lookup_check (run h (NewStore threshold)) p i) as Hl.
    { unfold lookup_check. destruct (checks _ !! p) as [m|]; cbn; [done|]. apply lookup_empty. }
    transitivity (failing (default fresh (lookup_check (run h (NewStore threshold)) p i)) = true).
    + rewrite <-Hl. split.
      * intros [cs [-> Hcs]%map_lookup_filter_Some]. exact Hcs.
      * destruct (_ !! i) as [cs|] eqn:Hi; [|done]. intros Hcs. exists cs.
        by apply map_lookup_filter_Some.
    + unfold failing. rewrite Hst. unfold spec_state.
      destruct (fails (trail (about p i h))) as [|x l].
      * destruct (ever _); (split; [done|by intros []]).
      * by destruct (Z.of_nat _ <=? _).
Qed.

(** C16: a report gives rise to a notification exactly at the first failure
    (FIRING), at the failure after [threshold] consecutive ones (ESCALATED), and
    at the first pass after a failure (RESOLVED); every other report, in
    particular a repeated failure, is silent. *)
Theorem notified_exactly threshold h c :
  threshold < 2 ^ 31 →
  let k := if threshold <=? 0 then 5 else threshold in
  let t := trail (about c.(c_policy) c.(c_check) h) in
  let o := (record c (run h (NewStore threshold))).2 in
  (∀ to, To <$> o = Some to ↔
     match to with
     | StateFiring => c.(c_fail) = true ∧ t.(fails) = []
     | StateEscalated => c.(c_fail) = true ∧ Z.of_nat (length t.(fails)) = k
     | StateResolved => c.(c_fail) = false ∧ t.(fails) ≠ []
     | StateUnknown => False
     end) ∧
  (∀ tr, o = Some tr → tr.(t_CheckID) = c.(c_check) ∧ tr.(t_PolicyRef) = c.(c_policy) ∧
     tr.(From) = spec_state k t).
Proof.
  intros Ht. cbv zeta.
  pose proof (run_remembers threshold h c.(c_policy) c.(c_check) Ht) as [_ Hm].
  pose proof (run_threshold h (NewStore threshold)) as Hk.
  pose proof (threshold_range threshold Ht) as Hrange.
  change (escalationThreshold (NewStore threshold)) with
    (if threshold <=? 0 then 5 else threshold) in Hk, Hm, Hrange.
  pose proof (notified_at threshold h c Ht) as Hto.
  change (escalationThreshold (NewStore threshold)) with
    (if threshold <=? 0 then 5 else threshold) in Hto. split.
  - intros to. rewrite Hto. unfold spec_transition.
    clear Hm Hk Hto. revert Hrange. generalize (if threshold <=? 0 then 5 else threshold) as k.
    intros k Hrange.
    destruct (c_fail c), (fails (trail _)) as [|x l]; cbn [length];
      try (destruct (Z.eqb_spec (Z.of_nat (S (length l))) k)); destruct to;
      (split; [intros [=]|intros []]); try done; try (split; done); lia.
  - destruct Hm as [Hst _].
    change (default fresh (lookup_check (run h (NewStore threshold)) (c_policy c) (c_check c)))
      with (getOrCreate (run h (NewStore threshold)) (c_policy c) (c_check c)) in Hst.
    intros tr. rewrite <-Hst. unfold record, RecordFail, RecordPass.
    repeat case_match; cbn; intros [= <-]; done.
Qed.

(** ** Concrete histories *)

Definition fail_at (t : Z) : call := {| c_policy := "p"; c_check := "pods"; c_fail := true; c_now := t |}.
Definition six_fails : list call := map fail_at [1; 2; 3; 4; 5; 6].

Lemma store_refines_history_witness :
  match GetState "p" "pods" (run six_fails (NewStore 5)) with
  | None => about "p" "pods" six_fails = []
  | Some cs =>
    about "p" "pods" six_fails ≠ [] ∧ cs.(State) = StateEscalated ∧
    ∀ first rest, (trail (about "p" "pods" six_fails)).(fails) = first :: rest →
      cs.(FailedSince) = first
  end.
Proof. refine (proj1 (store_refines_history 5 six_fails "p" "pods" _)). reflexivity. Defined.

(** With a threshold of five, the sixth failure escalates. *)
Lemma notified_exactly_witness :
  To <$> (record (fail_at 6) (run (map fail_at [1; 2; 3; 4; 5]) (NewStore 5))).2 =
    Some StateEscalated.
Proof.
  refine (proj2 (proj1 (notified_exactly 5 (map fail_at [1; 2; 3; 4; 5]) (fail_at 6) _)
    StateEscalated) _); [reflexivity|]. split; reflexivity.
Defined.
