(* ===== verification/Tool.v ===== *)
(** * The tool registry ([operator/internal/engine/tool/registry.go], [cache.go])

    The tools are functions of the cluster, a state [W] of which nothing is
    known: a tool may answer differently each time it is asked.  The cache of a
    scan is a map from a hash of the call; [cache_refines_memo] says when it is
    as good as a map from the call itself. *)
From Stdlib Require Import Ascii ZArith Lia.
From stdpp Require Import base list strings pretty gmap sets relations.
From S2P Require Import Prelude GoStd.

(** ** Registry *)

Record ToolParameter := {
  pa_Name : string; pa_Type : string; pa_Description : string; Required : bool
}.

Record ToolDefinition := {
  d_Name : string; d_Description : string; d_Parameters : list ToolParameter
}.

(** A tool: the raw JSON of its arguments and the cluster give the cluster
    afterwards and the output. *)
Definition Func (W : Type) : Type := string → W → W * res string.

Record registeredTool (W : Type) := { def : ToolDefinition; fn : Func W }.
Arguments def {W}.
Arguments fn {W}.

Record Registry (W : Type) := { tools : gmap string (registeredTool W) }.
Arguments tools {W}.

Definition NewRegistry {W} : Registry W := {| tools := ∅ |}.

(** A tool with the name of an earlier one replaces it. *)
Definition Register {W} (d : ToolDefinition) (f : Func W) (r : Registry W) : Registry W :=
  {| tools := <[d.(d_Name) := {| def := d; fn := f |}]> r.(tools) |}.

(** In Go the order is that of a map, that is, any. *)
Definition Definitions {W} (r : Registry W) : list ToolDefinition :=
  (λ kt, kt.2.(def)) <$> map_to_list r.(tools).

Definition Call {W} (r : Registry W) (name params : string) (w : W) : W * res string :=
  match r.(tools) !! name with
  | None => (w, Err ("tool not found: " +:+ name))
  | Some t => t.(fn) params w
  end.

(** ** Cache *)

(** The state a scan works on: its cache, and the cluster. *)
Record Scan (W : Type) := { cache : gmap string string; world : W }.
Arguments cache {W}.
Arguments world {W}.
Arguments Build_Scan {W}.

(** [NewCachingRegistry]. *)
Definition start {W} (w : W) : Scan W := {| cache := ∅; world := w |}.

Section caching.
Context {W : Type}.
(** The first sixteen bytes of the SHA-256 sum, in hexadecimal. *)
Variable sum : string → string.
Variable inner : Registry W.

Definition cacheKey (name params : string) : string := sum (name +:+ "|" +:+ params).

(** [CachingRegistry.Call]; failures are not cached. *)
Definition CachedCall (name params : string) (s : Scan W) : Scan W * res string :=
  let key := cacheKey name params in
  match s.(cache) !! key with
  | Some result => (s, Ok result)
  | None =>
    let (w, r) := Call inner name params s.(world) in
    match r with
    | Err e => ({| cache := s.(cache); world := w |}, Err e)
    | Ok result => ({| cache := <[key := result]> s.(cache); world := w |}, Ok result)
    end
  end.

Definition Hashes (s : Scan W) : gmap string string := sum <$> s.(cache).

(** The calls of a scan, in order. *)
Fixpoint run_calls (qs : list (string * string)) (s : Scan W) : Scan W * list (res string) :=
  match qs with
  | [] => (s, [])
  | q :: qs =>
    let (s, r) := CachedCall q.1 q.2 s in
    let (s, rs) := run_calls qs s in (s, r :: rs)
  end.

(** ** Specification *)

(** What the cache stands for: the first success of every call. *)
Fixpoint run_memo (qs : list (string * string)) (m : gmap (string * string) string) (w : W) :
    W * list (res string) :=
  match qs with
  | [] => (w, [])
  | q :: qs =>
    match m !! q with
    | Some result => let (w, rs) := run_memo qs m w in (w, Ok result :: rs)
    | None =>
      let (w, r) := Call inner q.1 q.2 w in
      let (w, rs) := run_memo qs (match r with Ok result => <[q := result]> m | Err _ => m end) w in
      (w, r :: rs)
    end
  end.

(** ** Lemmas *)

Lemma run_calls_memo all qs s m :
  (∀ q q', q ∈ all → q' ∈ all → cacheKey q.1 q.2 = cacheKey q'.1 q'.2 → q = q') →
  qs ⊆ all →
  (∀ q, q ∈ all → s.(cache) !! cacheKey q.1 q.2 = m !! q) →
  let o := run_calls qs s in
  (o.1.(world), o.2) = run_memo qs m s.(world).
Proof.
  intros Hinj. revert s m. induction qs as [|q qs IH]; intros s m Hsub Hm; [done|].
  assert (q ∈ all) as Hq by (apply Hsub, list_elem_of_here).
  assert (qs ⊆ all) as Hqs by (intros x Hx; by apply Hsub, list_elem_of_further).
  cbn [run_calls run_memo]. unfold CachedCall. rewrite (Hm q Hq).
  destruct (m !! q) as [result|] eqn:Hmq.
  - specialize (IH s m Hqs Hm). destruct (run_calls qs s) as [s' rs]. cbn in *.
    by rewrite <-IH.
  - destruct (Call _ _ _ _) as [w [result|e]]; cbv zeta.
    + specialize (IH {| cache := <[cacheKey q.1 q.2:=result]> s.(cache); world := w |}
        (<[q := result]> m) Hqs). cbn [world] in IH.
      destruct (run_calls _ _) as [s' rs]. cbn in *. rewrite <-IH; [done|].
      intros q' Hq'. destruct (decide (q = q')) as [->|Hne].
      * by rewrite !lookup_insert_eq.
      * rewrite !lookup_insert_ne by (done || (intros Heq; by apply Hne, Hinj)). by apply Hm.
    + specialize (IH {| cache := s.(cache); world := w |} m Hqs Hm). cbn [world] in IH.
      destruct (run_calls _ _) as [s' rs]. cbn in *. by rewrite <-IH.
Qed.

Lemma CachedCall_hit name params result s :
  s.(cache) !! cacheKey name params = Some result → CachedCall name params s = (s, Ok result).
Proof. unfold CachedCall. by intros ->. Qed.

(** A cached result stays for the rest of the scan. *)
Lemma CachedCall_mono key name params result s :
  s.(cache) !! key = Some result →
  (CachedCall name params s).1.(cache) !! key = Some result.
Proof.
  intros Hk. unfold CachedCall. destruct (s.(cache) !! cacheKey _ _) eqn:Hc; [done|].
  destruct (Call _ _ _ _) as [w [r|e]]; [|done]. cbn [fst cache].
  rewrite lookup_insert_ne; [done|]. congruence.
Qed.

Lemma run_calls_mono key qs result s :
  s.(cache) !! key = Some result → (run_calls qs s).1.(cache) !! key = Some result.
Proof.
  revert s. induction qs as [|q qs IH]; intros s Hk; [done|]. cbn [run_calls].
  pose proof (CachedCall_mono key q.1 q.2 result s Hk) as Hk'.
  destruct (CachedCall _ _ _) as [s' r]. specialize (IH s' Hk').
  by destruct (run_calls qs s').
Qed.

Lemma CachedCall_caches name params result s s' :
  CachedCall name params s = (s', Ok result) → s'.(cache) !! cacheKey name params = Some result.
Proof.
  unfold CachedCall. destruct (s.(cache) !! cacheKey _ _) eqn:Hc; [by intros [= <- <-]|].
  destruct (Call _ _ _ _) as [w [r|e]]; [|done]. intros [= <- <-]. apply lookup_insert_eq.
Qed.
End caching.

(** ** Theorems *)

(** C18: in a scan whose different calls have different hashes, the cache is the
    map from a call to its first success: the answers, and what is asked of the
    cluster, are those of the memo table, so a call is answered by another call's
    result never, and a call that has succeeded is not made again. *)
Theorem cache_refines_memo {W} (sum : string → string) (inner : Registry W) qs w :
  (∀ q q', q ∈ qs → q' ∈ qs →
    cacheKey sum q.1 q.2 = cacheKey sum q'.1 q'.2 → q = q') →
  let o := run_calls sum inner qs (start w) in
  (o.1.(world), o.2) = run_memo inner qs ∅ w.
Proof. intros Hinj. by apply (run_calls_memo sum inner qs). Qed.

(** Whatever the hash, a call that has succeeded in a scan gives the same
    result again, without touching the cluster, however the cluster has changed
    and whatever was called in between. *)
Theorem cached_call_repeats {W} (sum : string → string) (inner : Registry W) name params qs s s1 result :
  CachedCall sum inner name params s = (s1, Ok result) →
  let s2 := (run_calls sum inner qs s1).1 in
  CachedCall sum inner name params s2 = (s2, Ok result).
Proof.
  intros Hc%CachedCall_caches. cbv zeta.
  by apply CachedCall_hit, run_calls_mono.
Qed.

(** ** A concrete registry *)

(** A tool that counts how often it was called. *)
Definition counter : Registry nat :=
  Register {| d_Name := "count"; d_Description := ""; d_Parameters := [] |}
    (λ _ n, (S n, Ok (pretty (N.of_nat n)))) NewRegistry.

Definition three_calls : list (string * string) :=
  [("count", "{}"); ("missing", "{}"); ("count", "{}")].

Lemma cache_refines_memo_witness :
  run_memo counter three_calls ∅ 0 = (1, [Ok "0"; Err "tool not found: missing"; Ok "0"]) ∧
  (let o := run_calls (λ s, s) counter three_calls (start 0) in
   (o.1.(world), o.2) = run_memo counter three_calls ∅ 0).
Proof.
  split; [vm_compute; reflexivity|]. apply (cache_refines_memo (λ s, s) counter three_calls 0).
  intros q q' Hq Hq'.
  repeat (apply elem_of_cons in Hq as [->|Hq]; [|]); try (by apply not_elem_of_nil in Hq);
  repeat (apply elem_of_cons in Hq' as [->|Hq']; [|]); try (by apply not_elem_of_nil in Hq');
  vm_compute; congruence.
Defined.

Lemma cached_call_repeats_witness :
  let s2 := (run_calls (λ s, s) counter [("missing", "")] {| cache := <["count|{}":="7"]> ∅; world := 8 |}).1 in
  CachedCall (λ s, s) counter "count" "{}" s2 = (s2, Ok "7").
Proof.
  apply (cached_call_repeats (λ s, s) counter "count" "{}" [("missing", "")] (start 7)
    {| cache := <["count|{}":="7"]> ∅; world := 8 |} "7").
  vm_compute. reflexivity.
Defined.
