(* ===== verification/Llm.v ===== *)
(** * The language-model interface ([operator/internal/engine/llm/adapter.go])

    What the engine promises an adapter and gets from it.  A call may change
    the state [S] of a scan - the cache of its tools and all of the world
    outside, the model included - and the engine's theorems hold for every
    instance of the interface. *)
From Stdlib Require Import Ascii ZArith Lia.
From stdpp Require Import base list strings pretty gmap sets relations.
From S2P Require Import Prelude GoStd Tool.

Definition VerdictPass : string := "PASS".
Definition VerdictWarn : string := "WARN".
Definition VerdictFail : string := "FAIL".

Record VerifyRequest := {
  CheckID : string;
  q_Description : string;
  Tools : list ToolDefinition;
  Namespaces : list string;
  Snapshot : string
}.

Record ToolCallRecord := { ToolName : string; Input : string; Output : string }.

Record VerifyResponse := {
  v_Verdict : string; v_Reasoning : string; v_ToolCalls : list ToolCallRecord
}.

Record BatchVerifyRequest := {
  b_Checks : list VerifyRequest;
  b_Tools : list ToolDefinition;
  b_Namespaces : list string;
  b_Snapshot : string
}.

(** [ToolCaller]: a tool's name and input. *)
Definition ToolCaller (S : Type) : Type := string → string → S → S * res string.

(** [Adapter]. *)
Class Adapter (S : Type) := {
  Verify : VerifyRequest → ToolCaller S → S → S * res VerifyResponse;
  BatchVerify : BatchVerifyRequest → ToolCaller S → S → S * res (list VerifyResponse)
}.
