(* ===== verification/Claude.v ===== *)
(** * The Claude adapter ([operator/internal/engine/llm/claude.go])

    The conversation with the Messages API - at most ten requests, the tools run
    between them - and the reading of verdicts out of the model's prose.  The
    network and the JSON decoder are parameters; a block of a response is what
    the decoder made of it. *)
From Stdlib Require Import Ascii ZArith Lia.
From stdpp Require Import base list strings pretty gmap sets relations.
From S2P Require Import Prelude GoStd Tool Llm.
Local Open Scope Z_scope.

(** ** Data *)

Definition claudeDefaultModel : string := "claude-haiku-4-5-20251001".

Record ClaudeAdapter := { apiKey : string; model : string }.

Definition NewClaudeAdapter (apiKey model : string) : ClaudeAdapter :=
  {| apiKey := apiKey;
     model := if bool_decide (model = "") then claudeDefaultModel else model |}.

(** The parts of a message: text, a tool the model wants to use (its id, name
    and raw input), and what the tool answered. *)
Inductive Content :=
  | TextBlock (text : string)
  | ToolUseBlock (id name input : string)
  | ToolResultBlock (tool_use_id content : string).

Record claudeMessage := { Role : string; content : list Content }.

(** The JSON schema of a tool's input: the type and description of every
    property, and which are required. *)
Record Schema := { properties : gmap string (string * string); required : list string }.

Record claudeTool := { ct_Name : string; ct_Description : string; InputSchema : Schema }.

Record claudeRequest := {
  rq_Model : string;
  MaxTokens : Z;
  System : list string;
  Messages : list claudeMessage;
  rq_Tools : list claudeTool
}.

(** A block of a response: a text, a use of a tool, or anything else - another
    type, or a block that does not decode. *)
Inductive Block :=
  | RText (text : string)
  | RToolUse (id name input : string)
  | ROther.

Record claudeResponse := { r_Content : list Block; StopReason : string }.

(** What comes of sending a request. *)
Inductive http := SendError (e : string) | ReadError (e : string) | Answer (status : Z) (body : string).

(** ** Requests *)

Definition buildJSONSchema (params : list ToolParameter) : Schema :=
  {| properties := foldl (λ m p, <[p.(pa_Name) := (p.(pa_Type), p.(pa_Description))]> m) ∅ params;
     required := pa_Name <$> filter (λ p, p.(Required) = true) params |}.

Definition convertTools (defs : list ToolDefinition) : list claudeTool :=
  map (λ d, {| ct_Name := d.(d_Name); ct_Description := d.(d_Description);
               InputSchema := buildJSONSchema d.(d_Parameters) |}) defs.

Definition buildSystemPrompt (namespaces : list string) : string :=
  let nsText := match namespaces with [] => "all namespaces" | _ => Join namespaces ", " end in
  "You are a Kubernetes cluster verification agent. Your job is to verify checks against a live Kubernetes cluster using the provided tools.

Rules:
1. Use the available tools to gather evidence before making a verdict.
2. Always base your verdict on actual data from the cluster, not assumptions.
3. Your final response MUST contain exactly one verdict line in this format: VERDICT: PASS, VERDICT: WARN, or VERDICT: FAIL
4. Provide clear reasoning explaining why you reached your verdict.
5. You are operating in a read-only capacity. You cannot modify the cluster.
6. Target namespace(s): " +:+ nsText +:+ "

Be thorough but efficient - use the minimum number of tool calls needed to verify the check.".

Definition buildSystemBlocks (namespaces : list string) : list string :=
  [buildSystemPrompt namespaces].

Definition user_text (req : VerifyRequest) : string :=
  "Please verify the following check and determine if it PASSES, has WARNINGS, or FAILS."
  +:+ nl +:+ nl +:+ "Check ID: " +:+ req.(CheckID) +:+ nl
  +:+ "Check Description: " +:+ req.(q_Description) +:+ nl +:+ nl
  +:+ "Use the available tools to gather evidence from the Kubernetes cluster, then provide your verdict as exactly one of: PASS, WARN, or FAIL, along with your reasoning."
  +:+ (if bool_decide (req.(Snapshot) = "") then ""
       else nl +:+ nl +:+ "## Pre-collected Cluster Snapshot" +:+ nl
            +:+ "The following data was already gathered. Use it as a starting point — call additional tools only if needed."
            +:+ nl +:+ nl +:+ req.(Snapshot)).

Definition batch_text (req : BatchVerifyRequest) : string :=
  "You will verify multiple checks against a Kubernetes cluster. For EACH check, provide a verdict."
  +:+ nl +:+ nl
  +:+ (if bool_decide (req.(b_Snapshot) = "") then ""
       else "## Pre-collected Cluster Snapshot" +:+ nl +:+ req.(b_Snapshot) +:+ nl +:+ nl)
  +:+ String.concat "" (imap (λ i c, "### Check " +:+ pretty (N.of_nat (i + 1)) +:+ nl
                            +:+ "- ID: " +:+ c.(CheckID) +:+ nl
                            +:+ "- Description: " +:+ c.(q_Description) +:+ nl +:+ nl) req.(b_Checks))
  +:+ "For each check, output a line in exactly this format:" +:+ nl
  +:+ "CHECK <id>: VERDICT: PASS|WARN|FAIL" +:+ nl +:+ "Followed by your reasoning." +:+ nl.

(** ** Reading verdicts *)

(** The text blocks of a response, one after the other. *)
Definition fullText (resp : claudeResponse) : string :=
  foldl (λ sb b, match b with RText t => sb +:+ t | _ => sb end) "" resp.(r_Content).

Definition verdict_of_text (text : string) : string :=
  let upperText := ToUpper text in
  if Contains upperText "VERDICT: PASS" then VerdictPass
  else if Contains upperText "VERDICT: WARN" then VerdictWarn
  else if Contains upperText "VERDICT: FAIL" then VerdictFail
  else VerdictFail.

Definition parseVerdict (resp : claudeResponse) (toolCalls : list ToolCallRecord) : VerifyResponse :=
  let text := fullText resp in
  {| v_Verdict := verdict_of_text text; v_Reasoning := text; v_ToolCalls := toolCalls |}.

(** The verdict at the start of a text. *)
Definition leading_verdict (after : string) : string :=
  let after := TrimSpace after in
  if HasPrefix after "PASS" then VerdictPass
  else if HasPrefix after "WARN" then VerdictWarn
  else VerdictFail.

Definition marker (id : string) : string := ToUpper ("CHECK " +:+ id +:+ ": VERDICT:").

Definition batch_verdict (upperText id : string) : string :=
  match Index upperText (marker id) with
  | Some idx => leading_verdict (slice_from (idx + String.length (marker id)) upperText)
  | None =>
    match Index upperText (ToUpper id) with
    | Some idx =>
      let remaining := slice_from idx upperText in
      match Index remaining "VERDICT:" with
      | Some vi => leading_verdict (slice_from (vi + 8) remaining)
      | None => VerdictFail
      end
    | None => VerdictFail
    end
  end.

Definition parseBatchVerdicts (resp : claudeResponse) (checks : list VerifyRequest)
    (toolCalls : list ToolCallRecord) : list VerifyResponse :=
  let text := fullText resp in
  map (λ check, {| v_Verdict := batch_verdict (ToUpper text) check.(CheckID);
                   v_Reasoning := text; v_ToolCalls := toolCalls |}) checks.

(** ** The conversation *)

Section conversation.
Context {S : Type} (a : ClaudeAdapter).
(** Sending a request with the key - marshalling it and building the HTTP request
    do not fail, for every raw JSON in it comes from a decoder or is empty -, and
    [json.Unmarshal] of a body. *)
Variable Do : string → claudeRequest → S → S * http.
Variable Unmarshal : string → res claudeResponse.

(** The part of [callAPI] after the request. *)
Definition read_answer (h : http) : res claudeResponse :=
  match h with
  | SendError e => wrap_error "sending request" e
  | ReadError e => wrap_error "reading response" e
  | Answer status body =>
    if status =? 200 then
      match Unmarshal body with
      | Ok resp => Ok resp
      | Err e => wrap_error "unmarshaling response" e
      end
    else Err ("API error (status " +:+ pretty status +:+ "): " +:+ body)
  end.

Definition callAPI (req : claudeRequest) (s : S) : S * res claudeResponse :=
  let (s, h) := Do a.(apiKey) req s in (s, read_answer h).

(** The assistant's content, the results for it, and the record of the calls. *)
Definition Turn : Type := list Content * list Content * list ToolCallRecord.

(** One block of [processToolUse]; a failing tool is reported to the model. *)
Definition process_block (callTool : ToolCaller S) (st : S * Turn) (b : Block) : S * Turn :=
  let '(s, (assistantContent, toolResults, toolCalls)) := st in
  match b with
  | RText text => (s, (assistantContent ++ [TextBlock text], toolResults, toolCalls))
  | RToolUse id name input =>
    let (s, r) := callTool name input s in
    let resultContent := match r with Ok output => output | Err e => "Error: " +:+ e end in
    (s, (assistantContent ++ [ToolUseBlock id name input],
         toolResults ++ [ToolResultBlock id resultContent],
         toolCalls ++ [{| ToolName := name; Input := input; Output := resultContent |}]))
  | ROther => st
  end.

Definition processToolUse (callTool : ToolCaller S) (resp : claudeResponse) (s : S) : S * Turn :=
  foldl (process_block callTool) (s, ([], [], [])) resp.(r_Content).

(** The loop of [Verify] and of [BatchVerify], which differ in the texts of
    their errors and in how they read the last response. *)
Fixpoint converse {A} (fuel : nat) (callTool : ToolCaller S) (api_error limit_error : string)
    (finish : claudeResponse → list ToolCallRecord → A) (system : list string)
    (tools : list claudeTool) (messages : list claudeMessage)
    (allToolCalls : list ToolCallRecord) (s : S) : S * res A :=
  match fuel with
  | O => (s, Err limit_error)
  | Datatypes.S fuel =>
    let (s, r) := callAPI {| rq_Model := a.(model); MaxTokens := 4096; System := system;
                             Messages := messages; rq_Tools := tools |} s in
    match r with
    | Err e => (s, wrap_error api_error e)
    | Ok resp =>
      if bool_decide (resp.(StopReason) = "tool_use") then
        let '(s, (assistantContent, toolResults, toolCalls)) := processToolUse callTool resp s in
        converse fuel callTool api_error limit_error finish system tools
          (messages ++ [{| Role := "assistant"; content := assistantContent |};
                        {| Role := "user"; content := toolResults |}])
          (allToolCalls ++ toolCalls) s
      else (s, Ok (finish resp allToolCalls))
    end
  end.

Definition claude_Verify (req : VerifyRequest) (callTool : ToolCaller S) (s : S) :
    S * res VerifyResponse :=
  converse 10 callTool "claude API call" "exceeded maximum tool call iterations" parseVerdict
    (buildSystemBlocks req.(Namespaces)) (convertTools req.(Tools))
    [{| Role := "user"; content := [TextBlock (user_text req)] |}] [] s.

Definition claude_BatchVerify (req : BatchVerifyRequest) (callTool : ToolCaller S) (s : S) :
    S * res (list VerifyResponse) :=
  converse 10 callTool "claude batch API call" "exceeded maximum tool call iterations in batch"
    (λ resp calls, parseBatchVerdicts resp req.(b_Checks) calls)
    (buildSystemBlocks req.(b_Namespaces)) (convertTools req.(b_Tools))
    [{| Role := "user"; content := [TextBlock (batch_text req)] |}] [] s.

#[export] Instance claude_adapter : Adapter S :=
  {| Verify := claude_Verify; BatchVerify := claude_BatchVerify |}.
End conversation.

(** ** Specification: an answer in the format the prompt asks for *)

(** What the model says of one check, and the lines of its reasoning. *)
Record Line := { l_id : string; l_verdict : string; l_reason : list string }.

Definition header (e : Line) : string :=
  "CHECK " +:+ e.(l_id) +:+ ": VERDICT: " +:+ e.(l_verdict).

Definition lines_of (answer : list Line) : list string :=
  concat (map (λ e, header e :: e.(l_reason)) answer).

Definition render (answer : list Line) : string := unlines (lines_of answer).

(** The characters of an id: ASCII, without space, colon and end of line. *)
Definition id_char (c : ascii) : bool :=
  let n := N_of_ascii c in ((n <? 128) && negb ((n =? 32) || (n =? 58) || (n =? 10)))%N.

(** The ids differ by more than their case, the verdicts are those asked for,
    and no line of reasoning quotes a verdict line. *)
Definition well_formed (answer : list Line) : Prop :=
  NoDup (map (λ e, ToUpper e.(l_id)) answer) ∧
  Forall (λ e, string_forallb id_char e.(l_id) = true ∧
               e.(l_verdict) ∈ [VerdictPass; VerdictWarn; VerdictFail]) answer ∧
  (∀ e e' line, e ∈ answer → e' ∈ answer → line ∈ e.(l_reason) →
     Contains (ToUpper line) (marker e'.(l_id)) = false).

(** ** Specification: the requests of a conversation *)

Section log.
Context {S : Type}.

(** The state of a scan, and what was sent and what came back. *)
Definition Logged : Type := S * list (claudeRequest * http).

Definition log_Do (Do : string → claudeRequest → S → S * http) (key : string)
    (req : claudeRequest) (s : Logged) : Logged * http :=
  let (s', h) := Do key req s.1 in ((s', s.2 ++ [(req, h)]), h).

Definition log_tool (callTool : ToolCaller S) : ToolCaller Logged :=
  λ name input s, let (s', r) := callTool name input s.1 in ((s', s.2), r).
End log.

(** The tools a response asks for: id, name and input. *)
Definition block_use (b : Block) : option (string * string * string) :=
  match b with RToolUse id name input => Some (id, name, input) | _ => None end.

Definition uses_of (resp : claudeResponse) : list (string * string * string) :=
  omap block_use resp.(r_Content).

(** The ids of the uses and of the results in a message. *)
Definition use_id (c : Content) : option string :=
  match c with ToolUseBlock id _ _ => Some id | _ => None end.

Definition result_id (c : Content) : option string :=
  match c with ToolResultBlock id _ => Some id | _ => None end.

Definition asked (m : claudeMessage) : list string := omap use_id m.(content).

Definition answered (m : claudeMessage) : list string := omap result_id m.(content).

(** The protocol of the Messages API: the user begins, the roles alternate, and
    the results in a message are those of the uses before it, in order. *)
Inductive Alternating : list claudeMessage → Prop :=
  | alternating_first m : m.(Role) = "user" → Alternating [m]
  | alternating_round ms m m' :
    Alternating ms → m.(Role) = "assistant" → m'.(Role) = "user" → answered m' = asked m →
    Alternating (ms ++ [m; m']).

Definition call_of (u : string * string * string) : string * string := (u.1.2, u.2).

(** A request was answered with a use of tools. *)
Definition used_tools (Unmarshal : string → res claudeResponse) (e : claudeRequest * http) : Prop :=
  ∃ resp, read_answer Unmarshal e.2 = Ok resp ∧ resp.(StopReason) = "tool_use".

Definition uses (Unmarshal : string → res claudeResponse) (e : claudeRequest * http) :
    list (string * string) :=
  match read_answer Unmarshal e.2 with
  | Ok resp => map call_of (uses_of resp)
  | Err _ => []
  end.

Definition recorded (tc : ToolCallRecord) : string * string := (tc.(ToolName), tc.(Input)).

(** What a conversation of at most [n] requests comes to, from its log: every
    request but the last was answered with a use of tools; [calls] are those
    made before. *)
Definition conversed {A} (Unmarshal : string → res claudeResponse) (n : nat)
    (api_error limit_error : string) (finish : claudeResponse → list ToolCallRecord → A)
    (calls : list (string * string)) (log : list (claudeRequest * http)) (r : res A) : Prop :=
  ∃ before rq h,
    log = before ++ [(rq, h)] ∧ (length log ≤ n)%nat ∧
    Forall (used_tools Unmarshal) before ∧ Forall (λ e, Alternating e.1.(Messages)) log ∧
    match read_answer Unmarshal h with
    | Err e => r = wrap_error api_error e
    | Ok resp =>
      if decide (resp.(StopReason) = "tool_use")
      then length log = n ∧ r = Err limit_error
      else ∃ made, map recorded made = calls ++ concat (map (uses Unmarshal) before) ∧
                   r = Ok (finish resp made)
    end.

(** ** Lemmas *)

(** The three verdicts, one after the other. *)
Ltac each_verdict Hv :=
  repeat (apply elem_of_cons in Hv as [->|Hv]; [|]); [..|by apply not_elem_of_nil in Hv].

Arguments marker : simpl never.
Arguments header : simpl never.

Lemma upper_id_char id :
  string_forallb id_char id = true → string_forallb id_char (ToUpper id) = true.
Proof.
  apply ToUpper_forallb; [|done..]. intros c. unfold id_char, upper_byte. cbv zeta.
  destruct ((97 <=? N_of_ascii c) && (N_of_ascii c <=? 122))%N eqn:Hr; [|done]. intros _.
  apply andb_true_iff in Hr as [H1%N.leb_le H2%N.leb_le]. rewrite N_ascii_embedding by lia.
  rewrite andb_true_iff, N.ltb_lt, negb_true_iff, !orb_false_iff, !N.eqb_neq. lia.
Qed.

Lemma marker_eq id : marker id = "CHECK " +:+ ToUpper id +:+ ": VERDICT:".
Proof.
  unfold marker. rewrite ToUpper_app_ascii by done.
  change (": VERDICT:") with (String ":" " VERDICT:"). rewrite ToUpper_app by done. done.
Qed.

Lemma header_upper e :
  e.(l_verdict) ∈ [VerdictPass; VerdictWarn; VerdictFail] →
  ToUpper (header e) = "CHECK " +:+ ToUpper e.(l_id) +:+ ": VERDICT: " +:+ e.(l_verdict).
Proof.
  intros Hv. unfold header. rewrite ToUpper_app_ascii by done.
  change (": VERDICT: " +:+ l_verdict e) with (String ":" (" VERDICT: " +:+ l_verdict e)).
  rewrite ToUpper_app by done. f_equal.
  by each_verdict Hv.
Qed.

Definition no_colon (c : ascii) : bool := bool_decide (c ≠ ":"%char).

Lemma id_no_colon s : string_forallb id_char s = true → string_forallb no_colon s = true.
Proof.
  apply string_forallb_impl. intros c. unfold no_colon. rewrite bool_decide_eq_true. by intros Hc ->.
Qed.

(** A marker stands in a verdict line only at its start. *)
Lemma marker_in_header I J v a b :
  string_forallb id_char I = true → string_forallb id_char J = true →
  v ∈ [VerdictPass; VerdictWarn; VerdictFail] →
  "CHECK " +:+ J +:+ ": VERDICT: " +:+ v = a +:+ ("CHECK " +:+ I +:+ ": VERDICT:") +:+ b →
  I = J ∧ b = " " +:+ v.
Proof.
  intros HI HJ Hv.
  rewrite <-(string_app_assoc "CHECK " J). intros Heq.
  apply string_app_eq in Heq as [(t & Ha & Hb)|(t & -> & Ht)].
  - (* it starts within the line's beginning *)
    rewrite !string_app_assoc in Hb.
    assert (string_forallb no_colon t = true) as Ht.
    { assert (string_forallb no_colon (a +:+ t) = true) as Hat
        by (rewrite <-Ha, string_forallb_app, (id_no_colon J) by done; done).
      rewrite string_forallb_app in Hat. by apply andb_true_iff in Hat as [_ ?]. }
    rewrite <-(string_app_assoc "CHECK " I) in Hb.
    change (("CHECK " +:+ I) +:+ String ":" (" VERDICT:" +:+ b) =
            t +:+ String ":" (" VERDICT: " +:+ v)) in Hb.
    apply (separator_inj no_colon) in Hb as (<- & _ & Hb); [|done|done| |done].
    2: { by rewrite string_forallb_app, (id_no_colon I) by done. }
    injection Hb as Hb. change (b = " " +:+ v) in Hb. split; [|done].
    change ("CHECK " +:+ J) with ("CHECK" +:+ String " " J) in Ha.
    change ("CHECK " +:+ I) with ("CHECK" +:+ String " " I) in Ha.
    rewrite <-string_app_assoc in Ha.
    apply string_app_eq in Ha as [(k & Hk & HJk)|(k & Hk & HJk)].
    + apply (f_equal String.length) in Hk. rewrite !string_length_app in Hk. cbn in Hk.
      assert (k = "") as -> by (destruct k; [done|cbn in Hk; lia]). change (String " " I = String " " J) in HJk; by injection HJk.
    + destruct k as [|c k]; [change (String " " J = String " " I) in HJk; by injection HJk|].
      rewrite string_app_cons in HJk. injection HJk as <- ->.
      rewrite string_forallb_app in HJ. cbn in HJ. by rewrite andb_false_r in HJ.
  - (* or within its end *)
    exfalso. assert (Contains (": VERDICT: " +:+ v) "CHECK " = true) as Hc.
    { apply Contains_spec. rewrite Ht, !string_app_assoc. eauto. }
    by each_verdict Hv.
Qed.

Lemma leading_verdict_line v rest :
  v ∈ [VerdictPass; VerdictWarn; VerdictFail] → leading_verdict (" " +:+ v +:+ nl +:+ rest) = v.
Proof.
  intros Hv. unfold leading_verdict. generalize (nl +:+ rest). intros t.
  assert (TrimSpace (" " +:+ v +:+ t) = v +:+ trim_right space_char t) as ->; [|by each_verdict Hv].
  unfold TrimSpace, trim_both.
  change (trim_front space_char _) with (trim_front space_char (v +:+ t)).
  assert (∃ c v', v = String c v' ∧ is_solid c = true ∧ string_forallb is_solid v = true)
    as (c & v' & -> & Hc & Hs) by (each_verdict Hv; eexists _, _; split_and!; reflexivity).
  rewrite string_app_cons, trim_front_solid by done.
  by rewrite <-string_app_cons, trim_right_solid.
Qed.

(** What a marker found in an answer belongs to. *)
Lemma marker_found answer id a b :
  Forall (λ e, string_forallb id_char e.(l_id) = true ∧
               e.(l_verdict) ∈ [VerdictPass; VerdictWarn; VerdictFail]) answer →
  string_forallb id_char id = true →
  (∀ e line, e ∈ answer → line ∈ e.(l_reason) → Contains (ToUpper line) (marker id) = false) →
  ToUpper (render answer) = a +:+ marker id +:+ b →
  ∃ e rest, e ∈ answer ∧ ToUpper e.(l_id) = ToUpper id ∧ b = " " +:+ e.(l_verdict) +:+ nl +:+ rest.
Proof.
  intros Hall Hid Hreason Heq. rewrite Forall_forall in Hall.
  unfold render in Heq. rewrite ToUpper_unlines in Heq.
  apply unlines_occurrence in Heq as (l1 & s & l2 & a' & b' & Hl & Hs & ->); cycle 1.
  { rewrite marker_eq, !string_forallb_app.
    rewrite (string_forallb_impl id_char in_line (ToUpper id)); [done| |by apply upper_id_char].
    intros c. unfold in_line. rewrite bool_decide_eq_true. by intros Hc ->. }
  { by rewrite marker_eq. }
  assert (s ∈ map ToUpper (lines_of answer)) as Hin by (rewrite Hl; set_solver).
  apply list_elem_of_fmap in Hin as (line & -> & Hline). unfold lines_of in Hline.
  apply list_elem_of_In, in_concat in Hline as (ls & (e & <- & He%list_elem_of_In)%in_map_iff & Hline).
  destruct Hline as [<-|Hline%list_elem_of_In].
  - destruct (Hall e He) as [Hid' Hv']. rewrite header_upper, marker_eq in Hs by done.
    apply marker_in_header in Hs as [Hids ->]; [|by apply upper_id_char..|done].
    exists e, (unlines l2). by rewrite string_app_assoc.
  - assert (Contains (ToUpper line) (marker id) = true) as Hc
      by (apply Contains_spec; rewrite Hs; eauto).
    by rewrite (Hreason e line He Hline) in Hc.
Qed.


(** The first "VERDICT:" after a text that has none, nor a colon. *)
Lemma next_verdict t v rest :
  string_forallb no_colon t = true → Contains t "VERDICT" = false →
  Index (t +:+ ": VERDICT: " +:+ v +:+ rest) "VERDICT:" = Some (String.length t + 2)%nat.
Proof.
  intros Ht Hno.
  destruct (Index_app (t +:+ ": ") "VERDICT:" (" " +:+ v +:+ rest)) as (i & Hi & Hle).
  rewrite string_length_app in Hle. cbn in Hle.
  rewrite string_app_assoc in Hi. change (": " +:+ "VERDICT:" +:+ " " +:+ v +:+ rest) with
    (": VERDICT: " +:+ v +:+ rest) in Hi. rewrite Hi. f_equal.
  apply Index_Some in Hi as (a & b & Heq & <-).
  apply string_app_eq in Heq as [(k & -> & Hk)|(k & -> & Hk)].
  - exfalso. change ("VERDICT:" +:+ b) with ("VERDICT" +:+ String ":" b) in Hk.
    change (": VERDICT: " +:+ v +:+ rest) with (String ":" (" VERDICT: " +:+ v +:+ rest)) in Hk.
    rewrite string_forallb_app in Ht. apply andb_true_iff in Ht as [_ Hk'].
    apply (separator_inj no_colon) in Hk as (<- & _ & _); [|done..].
    assert (Contains (a +:+ "VERDICT") "VERDICT" = true) as Hc; [|congruence].
    apply Contains_spec. exists a, "". by rewrite string_app_nil_r.
  - rewrite string_length_app in *. destruct k as [|c [|d k]].
    + discriminate Hk.
    + injection Hk. done.
    + cbn in *. lia.
Qed.

(** One block, and then all of them. *)
Lemma process_block_answers {S} (callTool : ToolCaller S) b (st : Logged * Turn) :
  omap result_id st.2.1.2 = omap use_id st.2.1.1 →
  let o := process_block (log_tool callTool) st b in
  o.1.2 = st.1.2 ∧ omap result_id o.2.1.2 = omap use_id o.2.1.1 ∧
  map recorded o.2.2 = map recorded st.2.2 ++ map call_of (omap block_use [b]).
Proof.
  destruct st as [[s l] [[ac tr] tc]]. cbn. intros Hm.
  destruct b as [t|id name input|]; cbn.
  - by rewrite omap_app, Hm, !app_nil_r.
  - unfold log_tool. cbn. destruct (callTool name input s) as [s' r]. cbn. by rewrite map_app, !omap_app, Hm.
  - by rewrite app_nil_r.
Qed.

Lemma process_blocks {S} (callTool : ToolCaller S) bs (st : Logged * Turn) :
  omap result_id st.2.1.2 = omap use_id st.2.1.1 →
  let o := foldl (process_block (log_tool callTool)) st bs in
  o.1.2 = st.1.2 ∧ omap result_id o.2.1.2 = omap use_id o.2.1.1 ∧
  map recorded o.2.2 = map recorded st.2.2 ++ map call_of (omap block_use bs).
Proof.
  cbv zeta. revert st. induction bs as [|b bs IH]; intros st Hm; [by rewrite app_nil_r|].
  cbn [foldl]. destruct (process_block_answers callTool b st Hm) as (H1 & H2 & H3).
  destruct (IH _ H2) as (IH1 & IH2 & IH3). rewrite IH1, IH2, IH3, H1, H3, <-app_assoc, <-map_app.
  by rewrite <-omap_app.
Qed.

(** A turn answers every use of a tool, and records it. *)
Lemma processToolUse_answers {S} (callTool : ToolCaller S) resp s l :
  let o := processToolUse (log_tool callTool) resp (s, l) in
  o.1.2 = l ∧
  (∀ ra ru, answered {| Role := ru; content := o.2.1.2 |} = asked {| Role := ra; content := o.2.1.1 |}) ∧
  map recorded o.2.2 = map call_of (uses_of resp).
Proof.
  cbv zeta. destruct (process_blocks callTool resp.(r_Content) ((s, l), ([], [], [])))
    as (H1 & H2 & H3); [done|].
  split_and!; [exact H1|intros ra ru; exact H2|exact H3].
Qed.

Lemma converse_conversed {S A} a (Do : string → claudeRequest → S → S * http) Unmarshal
    (callTool : ToolCaller S) n api_error limit_error
    (finish : claudeResponse → list ToolCallRecord → A) system tools messages calls s l :
  Alternating messages →
  let o := converse a (log_Do Do) Unmarshal (Datatypes.S n) (log_tool callTool) api_error limit_error
             finish system tools messages calls (s, l) in
  ∃ log, o.1.2 = l ++ log ∧
    conversed Unmarshal (Datatypes.S n) api_error limit_error finish (map recorded calls) log o.2.
Proof.
  revert messages calls s l. induction n as [n IH] using lt_wf_ind. intros messages calls s l Hm.
  cbv zeta. cbn [converse].
  unfold callAPI, log_Do. cbn [fst snd].
  match goal with |- context [Do ?k ?r s] => set (rq := r); destruct (Do k rq s) as [s' h] end.
  assert (Alternating (Messages rq)) as Hrq by done.
  destruct (read_answer Unmarshal h) as [resp|e] eqn:Hr.
  - case_bool_decide as Hstop.
    + pose proof (processToolUse_answers callTool resp s' (l ++ [(rq, h)])) as (Hl & Hans & Hrec).
      destruct (processToolUse _ _ _) as [[s'' l''] [[ac tr] tc]]. cbn in Hl, Hrec, Hans. subst l''.
      assert (used_tools Unmarshal (rq, h)) as Hused by (by exists resp).
      destruct n as [|n].
      * cbn [converse fst snd]. exists [(rq, h)]. split; [done|].
        exists [], rq, h. rewrite Hr, decide_True by done. split_and!; auto.
      * destruct (IH n ltac:(lia) (messages ++ [{| Role := "assistant"; content := ac |};
          {| Role := "user"; content := tr |}]) (calls ++ tc) s'' (l ++ [(rq, h)]))
          as (log & Hlog & before & rq' & h' & -> & Hlen & Hbefore & Halt & Hout).
        { apply alternating_round; [done..|exact (Hans "assistant" "user")]. }
        exists ((rq, h) :: before ++ [(rq', h')]). split.
        { etrans; [exact Hlog|]. by rewrite <-app_assoc. }
        exists ((rq, h) :: before), rq', h'. split_and!; [done| |by constructor|by constructor|].
        { cbn in *. lia. }
        destruct (read_answer Unmarshal h') as [resp'|e']; [|done].
        case_decide.
        -- destruct Hout as [Hlen' ?]. split; [|done]. cbn in *. lia.
        -- destruct Hout as (made & Hmade & ?). exists made. split; [|done].
           rewrite Hmade, map_app, Hrec, <-app_assoc. f_equal. cbn [map concat]. f_equal.
           unfold uses. cbn [snd]. by rewrite Hr.
    + cbn [fst snd]. exists [(rq, h)]. split; [done|]. exists [], rq, h.
      rewrite Hr, decide_False by done. split_and!; auto; [cbn; lia|].
      exists calls. by rewrite app_nil_r.
  - cbn [fst snd]. exists [(rq, h)]. split; [done|]. exists [], rq, h. rewrite Hr.
    split_and!; auto. cbn. lia.
Qed.

(** ** Theorems *)


(** C35: a check the answer says nothing of does not fail: if its id is the
    beginning of the id of the first check that is answered, it takes that
    check's verdict, be it PASS. *)
Theorem borrowed_verdict e others id c suffix :
  let answer := e :: others in
  e.(l_id) = id +:+ String c suffix → is_ascii c = true →
  well_formed answer → (∀ e', e' ∈ answer → ToUpper e'.(l_id) ≠ ToUpper id) →
  (∀ e' line, e' ∈ answer → line ∈ e'.(l_reason) → Contains (ToUpper line) (marker id) = false) →
  Contains (ToUpper e.(l_id)) "VERDICT" = false →
  batch_verdict (ToUpper (render answer)) id = e.(l_verdict).
Proof.
  cbv zeta. intros Hid Hc (Hnd & Hall & _) Hdiff Hreason Hno.
  assert (e ∈ e :: others) as He by apply list_elem_of_here.
  pose proof Hall as Hall'. rewrite Forall_forall in Hall'. destruct (Hall' e He) as [Hok Hv].
  assert (string_forallb id_char id = true) as Hidok.
  { rewrite Hid, string_forallb_app in Hok. by apply andb_true_iff in Hok as [? _]. }
  unfold batch_verdict. destruct (Index _ (marker id)) as [idx|] eqn:Hidx.
  { exfalso. apply Index_Some in Hidx as (a & b & Heq & _).
    apply marker_found in Heq as (e' & rest & He' & Hids & _); [|done..]. by apply (Hdiff e'). }
  clear Hidx.
  unfold render, lines_of. cbn [map concat app]. rewrite ToUpper_unlines. cbn [map unlines].
  rewrite header_upper by done. generalize (unlines (map ToUpper (l_reason e ++ concat (map
    (λ e0, header e0 :: l_reason e0) others)))). intros rest.
  assert (string_forallb no_colon (ToUpper e.(l_id)) = true) as Hcolon
    by by apply id_no_colon, upper_id_char.
  rewrite Hid, ToUpper_app in Hcolon, Hno |- * by done.
  revert Hcolon Hno. generalize (ToUpper (String c suffix)). intros S Hcolon Hno.
  rewrite !string_app_assoc. change (": VERDICT: " +:+ e.(l_verdict) +:+ nl +:+ rest) with
    (": VERDICT: " +:+ e.(l_verdict) +:+ (nl +:+ rest)).
  destruct (Index_app "CHECK " (ToUpper id) (S +:+ ": VERDICT: " +:+ l_verdict e +:+ nl +:+ rest))
    as (idx & -> & Hle).
  rewrite slice_from_short by done.
  assert (string_forallb no_colon (slice_from idx "CHECK ") = true ∧
          string_forallb (λ d, bool_decide (d ≠ "V"%char)) (slice_from idx "CHECK ") = true)
    as [Hcheck HV] by (clear; do 7 (destruct idx as [|idx]; [done|]); done).
  remember (slice_from idx "CHECK " +:+ ToUpper id +:+ S) as t eqn:Ht.
  assert (string_forallb no_colon t = true) as Htc by (by rewrite Ht, string_forallb_app, Hcheck).
  assert (Contains t "VERDICT" = false) as Htv.
  { apply Contains_false. rewrite Ht, Index_skip by done. apply Contains_false in Hno. by rewrite Hno. }
  rewrite <-!string_app_assoc, (string_app_assoc _ (ToUpper id)), <-Ht.
  rewrite !(string_app_assoc t), !(string_app_assoc ": VERDICT: "), next_verdict by done.
  change (": VERDICT: " +:+ ?x) with (": VERDICT:" +:+ " " +:+ x).
  rewrite <-(string_app_assoc t).
  replace (String.length t + 2 + 8)%nat with (String.length (t +:+ ": VERDICT:"))
    by (rewrite string_length_app; cbn; lia).
  rewrite slice_from_app, string_app_assoc. by apply leading_verdict_line.
Qed.

(** C17: a verification is a conversation of at most ten requests that keeps to
    the protocol of the API: every request alternates user and assistant and
    answers, in order, the uses of tools of the message before.  It ends with the
    first response that asks for no tool, whose text gives the verdict, and the
    evidence is the tools the earlier responses asked for, in order; with an
    error of the API, which is reported; or after ten uses of tools. *)
Theorem verify_conversation {S} a (Do : string → claudeRequest → S → S * http) Unmarshal
    (callTool : ToolCaller S) req s :
  let o := claude_Verify a (log_Do Do) Unmarshal req (log_tool callTool) (s, []) in
  conversed Unmarshal 10 "claude API call" "exceeded maximum tool call iterations" parseVerdict []
    o.1.2 o.2.
Proof.
  cbv zeta. edestruct (converse_conversed a Do Unmarshal callTool 9 "claude API call"
    "exceeded maximum tool call iterations" parseVerdict) as (log & Hlog & Hc);
    [|unfold claude_Verify; rewrite Hlog; exact Hc].
  by constructor.
Qed.

(** The verdict of a single check is the most favourable one its text
    mentions, in any letter case: an answer that names a pass anywhere passes,
    even if its verdict line says FAIL; without any it fails. *)
Theorem verdict_is_best_mentioned resp calls :
  let says v := ∃ a b, ToUpper (fullText resp) = a +:+ ("VERDICT: " +:+ v) +:+ b in
  let v := (parseVerdict resp calls).(v_Verdict) in
  (v = VerdictPass ↔ says "PASS") ∧
  (v = VerdictWarn ↔ says "WARN" ∧ ¬ says "PASS") ∧
  (v = VerdictFail ↔ ¬ says "WARN" ∧ ¬ says "PASS").
Proof.
  cbv zeta. cbn [parseVerdict v_Verdict]. unfold verdict_of_text. cbv zeta.
  rewrite <-!Contains_spec.
  change ("VERDICT: " +:+ "PASS") with "VERDICT: PASS".
  change ("VERDICT: " +:+ "WARN") with "VERDICT: WARN".
  generalize (ToUpper (fullText resp)). intros text.
  destruct (Contains text "VERDICT: PASS"), (Contains text "VERDICT: WARN"), (Contains text "VERDICT: FAIL");
    split_and!; split; try done; intros []; done.
Qed.

(** ** Concrete conversations *)

(** Two checks answered in the other order, and a third not at all. *)
Definition two_lines : list Line :=
  [{| l_id := "check-10"; l_verdict := "PASS"; l_reason := ["All nodes are ready."] |};
   {| l_id := "check-2"; l_verdict := "FAIL"; l_reason := ["Two pods are pending."; ""] |}].



Lemma two_lines_well_formed : well_formed two_lines.
Proof.
  split_and!.
  - apply (bool_decide_unpack _). vm_compute. reflexivity.
  - apply (bool_decide_unpack _). vm_compute. reflexivity.
  - intros e e' line He He' Hline.
    repeat (apply elem_of_cons in He as [->|He]; [|]); try by apply not_elem_of_nil in He.
    all: repeat (apply elem_of_cons in He' as [->|He']; [|]); try by apply not_elem_of_nil in He'.
    all: repeat (apply elem_of_cons in Hline as [->|Hline]; [|]); try by apply not_elem_of_nil in Hline.
    all: vm_compute; reflexivity.
Qed.


(** check-1 is not mentioned, and passes because check-10 does. *)
Lemma borrowed_verdict_witness :
  batch_verdict (ToUpper (render two_lines)) "check-1" = "PASS".
Proof.
  refine (borrowed_verdict {| l_id := "check-10"; l_verdict := "PASS";
      l_reason := ["All nodes are ready."] |}
    [{| l_id := "check-2"; l_verdict := "FAIL"; l_reason := ["Two pods are pending."; ""] |}]
    "check-1" "0" "" _ _ two_lines_well_formed _ _ _); [reflexivity|reflexivity| | |reflexivity].
  - intros e' He'. repeat (apply elem_of_cons in He' as [->|He']; [discriminate|]).
    by apply not_elem_of_nil in He'.
  - intros e' line He' Hline.
    repeat (apply elem_of_cons in He' as [->|He']; [|]); try by apply not_elem_of_nil in He'.
    all: repeat (apply elem_of_cons in Hline as [->|Hline]; [|]); try by apply not_elem_of_nil in Hline.
    all: vm_compute; reflexivity.
Defined.
