(* ===== verification/Engine.v ===== *)
(** * The verification engine of the operator ([operator/internal/engine/engine.go])

    One scan: the snapshot, the reuse of the previous verdicts when the snapshot
    is the same, the batches, the summary.  The engine is a client of the
    interface [Llm.Adapter] and of the tool cache; SHA-256 is a parameter.  Two
    scans of one policy can overlap in Go; a scan here reads the remembered
    verdicts at its start and writes them at its end without another between. *)
From Stdlib Require Import Ascii ZArith Lia.
From stdpp Require Import base list strings pretty gmap sets relations.
From S2P Require Import Prelude GoStd Tool Llm.
Local Open Scope Z_scope.

(** ** Data *)

Record CheckItem := { ID : string; Description : string; Severity : string }.

Record CheckResult := {
  r_ID : string; r_Description : string; r_Severity : string;
  Verdict : string; Reasoning : string; Evidence : option (list ToolCallRecord);
  r_FailedSince : option Z
}.

Record ScanSummary := { Total : Z; Pass : Z; Warn : Z; Fail : Z }.

Record ResultSpec := {
  PolicyRef : string; ScanType : string; StartedAt : Z; CompletedAt : Z;
  Checks : list CheckResult; Summary : ScanSummary
}.

(** The part of a policy the engine reads. *)
Record Policy := {
  p_Name : string; p_Namespace : string; TargetNamespaces : list string;
  p_Checks : list CheckItem
}.

(** The state of an [Engine]. *)
Record Engine := {
  snapshotHashes : gmap string string;
  lastResults : gmap string (gmap string string)
}.

Definition New : Engine := {| snapshotHashes := ∅; lastResults := ∅ |}.

(** ** Operations *)

Definition batchSize : nat := 5.

Definition snapshotTools : list (string * string) :=
  [("list_pods", "{}"); ("list_nodes", "{}"); ("get_events", "{}")].

Definition convertEvidence (tcs : list ToolCallRecord) : option (list ToolCallRecord) :=
  match tcs with [] => None | _ => Some tcs end.

Definition result_of (c : CheckItem) (verdict reasoning : string)
    (evidence : option (list ToolCallRecord)) : CheckResult :=
  {| r_ID := c.(ID); r_Description := c.(Description); r_Severity := c.(Severity);
     Verdict := verdict; Reasoning := reasoning; Evidence := evidence; r_FailedSince := None |}.

Definition with_response (c : CheckItem) (r : VerifyResponse) : CheckResult :=
  result_of c r.(v_Verdict) r.(v_Reasoning) (convertEvidence r.(v_ToolCalls)).

Definition count (v : string) (l : list CheckResult) : Z :=
  foldl (λ n r, if decide (r.(Verdict) = v) then wrap32 (n + 1) else n) 0 l.

Definition computeSummary (l : list CheckResult) : ScanSummary :=
  {| Total := wrap32 (Z.of_nat (length l)); Pass := count VerdictPass l;
     Warn := count VerdictWarn l; Fail := count VerdictFail l |}.

Definition policyKey (p : Policy) : string := p.(p_Namespace) +:+ "/" +:+ p.(p_Name).

Definition reused (prev : gmap string string) (c : CheckItem) : CheckResult :=
  result_of c (default "" (prev !! c.(ID))) "Snapshot unchanged — previous verdict reused." None.

Definition spec_of (p : Policy) (started completed : Z) (results : list CheckResult) : ResultSpec :=
  {| PolicyRef := p.(p_Name); ScanType := ""; StartedAt := started; CompletedAt := completed;
     Checks := results; Summary := computeSummary results |}.

(** The verdicts of the previous scan, when they can be reused: the snapshot is
    the same and every check has one. *)
Definition reusable (e : Engine) (key hash : string) (checks : list CheckItem) :
    option (gmap string string) :=
  if bool_decide (default "" (e.(snapshotHashes) !! key) = hash) then
    prev ← e.(lastResults) !! key;
    if bool_decide (0 < length checks)%nat && forallb (λ c, bool_decide (is_Some (prev !! c.(ID)))) checks
    then Some prev else None
  else None.

(** The engine after a scan with the model. *)
Definition remember (key hash : string) (results : list CheckResult) (e : Engine) : Engine :=
  {| snapshotHashes := <[key := hash]> e.(snapshotHashes);
     lastResults :=
       <[key := foldl (λ m r, <[r.(r_ID) := r.(Verdict)]> m) ∅ results]> e.(lastResults) |}.

Section scan.
Context {W : Type} `{Adapter (Scan W)}.
(** The first sixteen bytes of the SHA-256 sum, in hexadecimal. *)
Variable sum : string → string.
Variable registry : Registry W.

Definition call : ToolCaller (Scan W) := CachedCall sum registry.

(** A tool that fails is left out. *)
Definition collectSnapshot (s : Scan W) : Scan W * string :=
  foldl (λ st tool,
    let '(s, sb) := st in
    let (s, r) := call tool.1 tool.2 s in
    match r with
    | Ok result => (s, sb +:+ "### " +:+ tool.1 +:+ nl +:+ result +:+ nl +:+ nl)
    | Err _ => (s, sb)
    end) (s, "") snapshotTools.

Section batches.
Variables (toolDefs : list ToolDefinition) (namespaces : list string) (snapshot : string).

(** The request for one check, and for one of several. *)
Definition single_request (c : CheckItem) : VerifyRequest :=
  {| CheckID := c.(ID); q_Description := c.(Description); Tools := toolDefs;
     Namespaces := namespaces; Snapshot := snapshot |}.

Definition batch_item (c : CheckItem) : VerifyRequest :=
  {| CheckID := c.(ID); q_Description := c.(Description); Tools := []; Namespaces := [];
     Snapshot := "" |}.

Definition batch_request (batch : list CheckItem) : BatchVerifyRequest :=
  {| b_Checks := map batch_item batch; b_Tools := toolDefs; b_Namespaces := namespaces;
     b_Snapshot := snapshot |}.

(** The results of several checks from the responses, by position. *)
Definition batch_results (batch : list CheckItem) (responses : list VerifyResponse) :
    list CheckResult :=
  imap (λ j c, match responses !! j with
               | Some r => with_response c r
               | None => result_of c VerdictFail "No response from batch for this check." None
               end) batch.

Definition run_batch (batch : list CheckItem) (s : Scan W) : Scan W * list CheckResult :=
  match batch with
  | [check] =>
    let (s, r) := Verify (single_request check) call s in
    (s, match r with
        | Err e => [result_of check VerdictFail ("LLM API error: " +:+ e) None]
        | Ok r => [with_response check r]
        end)
  | _ =>
    let (s, r) := BatchVerify (batch_request batch) call s in
    (s, match r with
        | Err e => map (λ c, result_of c VerdictFail ("LLM batch API error: " +:+ e) None) batch
        | Ok responses => batch_results batch responses
        end)
  end.

(** [for i := 0; i < len(checks); i += batchSize]; the number of checks bounds
    the number of batches. *)
Fixpoint run_batches (fuel i : nat) (checks : list CheckItem) (s : Scan W) :
    Scan W * list CheckResult :=
  match fuel with
  | O => (s, [])
  | Datatypes.S fuel =>
    if bool_decide (i < length checks)%nat then
      let (s, results) := run_batch (take batchSize (drop i checks)) s in
      let (s, more) := run_batches fuel (i + batchSize) checks s in
      (s, results ++ more)
    else (s, [])
  end.
End batches.

(** [RunChecks], with the two readings of the clock; it never fails. *)
Definition RunChecks (started completed : Z) (p : Policy) (checks : list CheckItem)
    (e : Engine) (w : W) : W * (Engine * ResultSpec) :=
  let (s, snapshot) := collectSnapshot (start w) in
  let key := policyKey p in
  let hash := sum snapshot in
  match reusable e key hash checks with
  | Some prev => (s.(world), (e, spec_of p started completed (map (reused prev) checks)))
  | None =>
    let (s, results) := run_batches (Definitions registry) p.(TargetNamespaces) snapshot
                          (length checks) 0 checks s in
    (s.(world), (remember key hash results e, spec_of p started completed results))
  end.
End scan.

(** ** Lemmas *)

Definition describes (r : CheckResult) : CheckItem :=
  {| ID := r.(r_ID); Description := r.(r_Description); Severity := r.(r_Severity) |}.

Lemma describes_result c v t ev : describes (result_of c v t ev) = c.
Proof. by destruct c. Qed.

Lemma describes_all (f : CheckItem → CheckResult) l :
  (∀ c, describes (f c) = c) → map describes (map f l) = l.
Proof. intros Hf. rewrite map_map, (map_ext _ id) by done. apply map_id. Qed.

Lemma batch_results_describes batch responses :
  map describes (batch_results batch responses) = batch.
Proof.
  unfold batch_results. change (map describes) with (fmap (M:=list) describes).
  rewrite fmap_imap, (imap_ext _ (λ _ c, c)).
  - clear. induction batch as [|c l IH]; [done|]. cbn. f_equal. exact IH.
  - intros j c _. cbn. case_match; apply describes_result.
Qed.

Section scan_lemmas.
Context {W : Type} `{Adapter (Scan W)} (sum : string → string) (registry : Registry W).

Lemma run_batch_describes defs ns sn batch (s : Scan W) :
  map describes (run_batch sum registry defs ns sn batch s).2 = batch.
Proof.
  assert (map describes (let (s, r) := BatchVerify (batch_request defs ns sn batch) (call sum registry) s in
    (s, match r with
        | Err e => map (λ c, result_of c VerdictFail ("LLM batch API error: " +:+ e) None) batch
        | Ok responses => batch_results batch responses
        end)).2 = batch) as Hmany.
  { destruct (BatchVerify _ _ _) as [s' [responses|e]]; cbn [snd].
    - apply batch_results_describes.
    - apply describes_all. intros. apply describes_result. }
  unfold run_batch. destruct batch as [|c [|c' batch]]; [exact Hmany| |exact Hmany].
  destruct (Verify _ _ _) as [s' [r|e]]; cbn; by rewrite ?describes_result; destruct c.
Qed.

Lemma run_batches_describes defs ns sn fuel i checks (s : Scan W) :
  (length checks <= i + fuel)%nat →
  map describes (run_batches sum registry defs ns sn fuel i checks s).2 = drop i checks.
Proof.
  revert i s. induction fuel as [|fuel IH]; intros i s Hi; cbn [run_batches].
  - by rewrite drop_ge by lia.
  - case_bool_decide as Hlt; [|by rewrite drop_ge by lia].
    pose proof (run_batch_describes defs ns sn (take batchSize (drop i checks)) s) as Hb.
    destruct (run_batch _ _ _ _ _ _ s) as [s' results]. cbn in Hb.
    specialize (IH (i + batchSize)%nat s' ltac:(unfold batchSize; lia)).
    destruct (run_batches _ _ _ _ _ _ _ _ _) as [s'' more]. cbn in IH |- *.
    rewrite map_app, Hb, IH.
    by rewrite <-(take_drop batchSize (drop i checks)) at 2; rewrite drop_drop.
Qed.
End scan_lemmas.

Lemma count_app_wrap v l n :
  0 <= n → n + Z.of_nat (length l) < 2 ^ 31 →
  foldl (λ n r, if decide (r.(Verdict) = v) then wrap32 (n + 1) else n) n l =
  n + Z.of_nat (length (filter (λ r, r.(Verdict) = v) l)).
Proof.
  revert n. induction l as [|r l IH]; intros n Hn Hl; [cbn; lia|].
  rewrite filter_cons. cbn [foldl length] in *.
  case_decide; [rewrite wrap32_small by lia|]; rewrite IH by lia; cbn [length]; lia.
Qed.

Lemma count_spec v l :
  Z.of_nat (length l) < 2 ^ 31 →
  count v l = Z.of_nat (length (filter (λ r, r.(Verdict) = v) l)).
Proof. intros Hl. unfold count. rewrite count_app_wrap by lia. lia. Qed.

(** The three verdicts partition the results that have one of them. *)
Lemma verdicts_partition l :
  let n v := length (filter (λ r, r.(Verdict) = v) l) in
  (n VerdictPass + n VerdictWarn + n VerdictFail ≤ length l)%nat ∧
  ((n VerdictPass + n VerdictWarn + n VerdictFail)%nat = length l ↔
   Forall (λ r, r.(Verdict) ∈ [VerdictPass; VerdictWarn; VerdictFail]) l).
Proof.
  cbv zeta. induction l as [|r l [IHle IH]]; [done|]. rewrite !filter_cons, Forall_cons.
  unfold VerdictPass, VerdictWarn, VerdictFail in *.
  destruct (decide (Verdict r = "PASS")) as [E|], (decide (Verdict r = "WARN")) as [E'|],
    (decide (Verdict r = "FAIL")) as [E''|]; try congruence; cbn [length].
  4: { split; [lia|]. split; [lia|]. intros [Hr _]. by set_solver. }
  all: (split; [lia|]); rewrite <-IH; split; [intros; split; [set_solver|lia]|intros [_ ?]; lia].
Qed.

(** The verdicts [remember] stores: those of the results, when the ids differ. *)
Lemma verdict_map_lookup (m : gmap string string) l :
  let vs := foldl (λ m r, <[r.(r_ID) := r.(Verdict)]> m) m l in
  (∀ i, i ∉ map r_ID l → vs !! i = m !! i) ∧
  (NoDup (map r_ID l) → ∀ r, r ∈ l → vs !! r.(r_ID) = Some r.(Verdict)).
Proof.
  cbv zeta. revert m. induction l as [|r l IH]; intros m; cbn [foldl map].
  - split; [done|]. intros _ r Hr. by apply not_elem_of_nil in Hr.
  - destruct (IH (<[r.(r_ID) := r.(Verdict)]> m)) as [IH1 IH2]. split.
    + intros i [Hne Hi]%not_elem_of_cons. rewrite IH1 by done. by apply lookup_insert_ne.
    + intros [Hr Hnd]%NoDup_cons r' [->|Hr']%elem_of_cons; [|by apply IH2].
      rewrite IH1 by done. apply lookup_insert_eq.
Qed.

Lemma describes_ids l : map ID (map describes l) = map r_ID l.
Proof. by rewrite map_map. Qed.

(** What a scan comes to. *)
Lemma RunChecks_cases {W} `{Adapter (Scan W)} sum (registry : Registry W) t t' p checks e w :
  let o := RunChecks sum registry t t' p checks e w in
  let '(s, snapshot) := collectSnapshot sum registry (start w) in
  (∃ prev, reusable e (policyKey p) (sum snapshot) checks = Some prev ∧
     o = (s.(world), (e, spec_of p t t' (map (reused prev) checks)))) ∨
  (∃ s' results,
     run_batches sum registry (Definitions registry) p.(TargetNamespaces) snapshot
       (length checks) 0 checks s = (s', results) ∧
     o = (s'.(world), (remember (policyKey p) (sum snapshot) results e, spec_of p t t' results))).
Proof.
  cbv zeta. unfold RunChecks. destruct (collectSnapshot _ _ _) as [s snapshot].
  destruct (reusable _ _ _ _) as [prev|]; [left; by exists prev|].
  right. destruct (run_batches _ _ _ _ _ _ _ _ _) as [s' results]. by exists s', results.
Qed.

Lemma RunChecks_describes {W} `{Adapter (Scan W)} sum (registry : Registry W) t t' p checks e w :
  let o := RunChecks sum registry t t' p checks e w in
  map describes o.2.2.(Checks) = checks ∧
  o.2.2 = spec_of p t t' o.2.2.(Checks).
Proof.
  pose proof (RunChecks_cases sum registry t t' p checks e w) as Hc. cbv zeta in *.
  destruct (collectSnapshot _ _ _) as [s snapshot].
  destruct Hc as [(prev & _ & ->)|(s' & results & Hrun & ->)]; cbn [fst snd Checks spec_of].
  - split; [|done]. apply describes_all. intros c. apply describes_result.
  - split; [|done].
    pose proof (run_batches_describes sum registry (Definitions registry) p.(TargetNamespaces)
      snapshot (length checks) 0 checks s ltac:(lia)) as Hd. by rewrite Hrun in Hd.
Qed.

(** The verdicts a scan leaves behind are those of its results. *)
Lemma RunChecks_remembers {W} `{Adapter (Scan W)} sum (registry : Registry W) t t' p checks e w :
  let o := RunChecks sum registry t t' p checks e w in
  NoDup (map ID checks) →
  default "" (o.2.1.(snapshotHashes) !! policyKey p) =
    sum (collectSnapshot sum registry (start w)).2 ∧
  ∃ vs, o.2.1.(lastResults) !! policyKey p = Some vs ∧
    ∀ r, r ∈ o.2.2.(Checks) → vs !! r.(r_ID) = Some r.(Verdict).
Proof.
  pose proof (RunChecks_cases sum registry t t' p checks e w) as Hc.
  pose proof (RunChecks_describes sum registry t t' p checks e w) as [Hd _]. cbv zeta in *.
  destruct (collectSnapshot _ _ _) as [s snapshot]. intros Hnd.
  destruct Hc as [(prev & Hr & Ho)|(s' & results & _ & Ho)]; rewrite Ho in *; clear Ho;
    cbn [fst snd Checks spec_of remember snapshotHashes lastResults] in *.
  - unfold reusable in Hr. case_bool_decide as Hh; [|done]. split; [done|].
    destruct (lastResults e !! policyKey p) as [vs|]; [|done]. cbn in Hr.
    exists vs. split; [done|]. case_match eqn:Hall; [|done]. injection Hr as ->.
    apply andb_true_iff in Hall as [_ Hall]. rewrite forallb_forall in Hall.
    intros r (c & -> & Hc)%list_elem_of_fmap. specialize (Hall c ltac:(by apply list_elem_of_In)).
    apply bool_decide_eq_true in Hall as [v Hv]. cbn. by rewrite Hv.
  - rewrite !lookup_insert_eq. split; [done|]. eexists. split; [done|].
    apply (verdict_map_lookup ∅ results). by rewrite <-describes_ids, Hd.
Qed.

Lemma reusable_spec e key hash checks prev :
  default "" (e.(snapshotHashes) !! key) = hash → e.(lastResults) !! key = Some prev →
  checks ≠ [] → (∀ c, c ∈ checks → is_Some (prev !! c.(ID))) →
  reusable e key hash checks = Some prev.
Proof.
  intros Hh Hp Hne Hall. unfold reusable. rewrite bool_decide_true, Hp by done. cbn.
  rewrite bool_decide_true by (destruct checks; [done|cbn; lia]).
  rewrite (proj2 (forallb_forall _ _)); [done|].
  intros c Hc. apply bool_decide_eq_true, Hall. by apply list_elem_of_In.
Qed.

Section sources.
Context {W : Type} `{Adapter (Scan W)} (sum : string → string) (registry : Registry W).

Lemma run_batches_elem defs ns sn fuel i checks (s : Scan W) r :
  r ∈ (run_batches sum registry defs ns sn fuel i checks s).2 →
  ∃ k s', r ∈ (run_batch sum registry defs ns sn
                 (take batchSize (drop (i + k * batchSize) checks)) s').2.
Proof.
  revert i s. induction fuel as [|fuel IH]; intros i s; cbn [run_batches];
    [by intros ?%not_elem_of_nil|].
  case_bool_decide; [|by intros ?%not_elem_of_nil].
  specialize (IH (i + batchSize)%nat (run_batch sum registry defs ns sn (take batchSize (drop i checks)) s).1).
  destruct (run_batch _ _ _ _ _ (take _ _) s) as [s' results] eqn:Hb. cbn [fst] in IH.
  destruct (run_batches _ _ _ _ _ _ _ _ _) as [s'' more].
  intros [Hr|Hr]%elem_of_app.
  - exists 0%nat, s. rewrite Nat.mul_0_l, Nat.add_0_r. by rewrite Hb.
  - destruct (IH Hr) as (k & s1 & Hk). exists (S k), s1.
    by replace (i + S k * batchSize)%nat with (i + batchSize + k * batchSize)%nat by lia.
Qed.

(** A result that is not a failure comes from a response. *)
Lemma run_batch_source defs ns sn batch (s : Scan W) r :
  r ∈ (run_batch sum registry defs ns sn batch s).2 → r.(Verdict) ≠ VerdictFail →
  (batch = [describes r] ∧
   ∃ s s' resp, Verify (single_request defs ns sn (describes r)) (call sum registry) s =
     (s', Ok resp) ∧ resp.(v_Verdict) = r.(Verdict)) ∨
  (∃ j s s' resps, BatchVerify (batch_request defs ns sn batch) (call sum registry) s =
     (s', Ok resps) ∧ batch !! j = Some (describes r) ∧
     v_Verdict <$> resps !! j = Some r.(Verdict)).
Proof.
  intros Hr Hv.
  assert (r ∈ (let (s, r) := BatchVerify (batch_request defs ns sn batch) (call sum registry) s in
    (s, match r with
        | Err e => map (λ c, result_of c VerdictFail ("LLM batch API error: " +:+ e) None) batch
        | Ok responses => batch_results batch responses
        end)).2 → ∃ j s s' resps,
      BatchVerify (batch_request defs ns sn batch) (call sum registry) s = (s', Ok resps) ∧
      batch !! j = Some (describes r) ∧ v_Verdict <$> resps !! j = Some r.(Verdict)) as Hmany.
  { clear Hr. destruct (BatchVerify _ _ _) as [s' [responses|e]] eqn:Hb; cbn [snd]; intros Hr.
    - apply elem_of_lookup_imap in Hr as (j & c & -> & Hj). exists j, s, s', responses.
      split; [done|]. destruct (responses !! j) as [resp|]; [|done].
      unfold with_response. by rewrite describes_result.
    - by apply list_elem_of_fmap in Hr as (c & -> & _). }
  unfold run_batch in Hr. destruct batch as [|c [|c' batch]]; [by right; apply Hmany| |by right; apply Hmany].
  left. destruct (Verify _ _ _) as [s' [resp|e]] eqn:Hvf; cbn [snd] in Hr;
    apply list_elem_of_singleton in Hr as ->; [|done].
  unfold with_response. rewrite describes_result. split; [done|]. by exists s, s', resp.
Qed.
End sources.

(** ** Theorems *)

(** C34: a scan always answers: whatever the tools and the model do, its results
    are those of exactly the checks it was given, in their order, and the summary
    counts them; the three counts add up to the total if and only if every
    verdict is one of the three. *)
Theorem run_checks_complete {W} `{Adapter (Scan W)} sum (registry : Registry W) t t' p checks e w :
  Z.of_nat (length checks) < 2 ^ 31 →
  let spec := (RunChecks sum registry t t' p checks e w).2.2 in
  map describes spec.(Checks) = checks ∧ spec.(PolicyRef) = p.(p_Name) ∧
  let n v := Z.of_nat (length (filter (λ r, r.(Verdict) = v) spec.(Checks))) in
  spec.(Summary) = {| Total := Z.of_nat (length checks); Pass := n VerdictPass;
                      Warn := n VerdictWarn; Fail := n VerdictFail |} ∧
  (n VerdictPass + n VerdictWarn + n VerdictFail = Z.of_nat (length checks) ↔
   ∀ r, r ∈ spec.(Checks) → r.(Verdict) ∈ [VerdictPass; VerdictWarn; VerdictFail]).
Proof.
  intros Hlen. pose proof (RunChecks_describes sum registry t t' p checks e w) as [Hd ->].
  cbv zeta in *. cbn [Checks PolicyRef Summary spec_of].
  revert Hd. generalize (Checks (RunChecks sum registry t t' p checks e w).2.2). intros results <-.
  rewrite length_map in *. split_and!; [done..| |].
  - unfold computeSummary. by rewrite wrap32_small, !count_spec by lia.
  - rewrite <-Forall_forall, <-(proj2 (verdicts_partition _)). lia.
Qed.

(** C12: nothing passes by itself: a result that is not a failure has the verdict
    remembered from the scan before, or that of a response of the model to a
    request about this very check: alone, if it is the only one of its batch of
    five consecutive checks, or at its place of the batch. *)
Theorem verdict_from_model {W} `{Adapter (Scan W)} sum (registry : Registry W) t t' p checks e w r :
  let sn := (collectSnapshot sum registry (start w)).2 in
  let defs := Definitions registry in
  r ∈ (RunChecks sum registry t t' p checks e w).2.2.(Checks) → r.(Verdict) ≠ VerdictFail →
  (∃ prev, e.(lastResults) !! policyKey p = Some prev ∧ prev !! r.(r_ID) = Some r.(Verdict)) ∨
  (∃ k, let batch := take batchSize (drop (k * batchSize) checks) in
   (batch = [describes r] ∧ ∃ s s' resp,
      Verify (single_request defs p.(TargetNamespaces) sn (describes r)) (call sum registry) s =
        (s', Ok resp) ∧ resp.(v_Verdict) = r.(Verdict)) ∨
   (∃ j s s' resps,
      BatchVerify (batch_request defs p.(TargetNamespaces) sn batch) (call sum registry) s =
        (s', Ok resps) ∧ batch !! j = Some (describes r) ∧
      v_Verdict <$> resps !! j = Some r.(Verdict))).
Proof.
  cbv zeta. pose proof (RunChecks_cases sum registry t t' p checks e w) as Hc. cbv zeta in Hc.
  destruct (collectSnapshot _ _ _) as [s sn]. intros Hr Hv.
  destruct Hc as [(prev & Hre & Ho)|(s' & results & Hrun & Ho)]; rewrite Ho in Hr; clear Ho;
    cbn [fst snd Checks spec_of] in *.
  - left. apply list_elem_of_fmap in Hr as (c & -> & Hc). unfold reusable in Hre.
    case_bool_decide; [|done]. destruct (lastResults e !! policyKey p) as [vs|]; [|done].
    exists vs. split; [done|]. cbn in Hre. case_match eqn:Hall; [|done]. injection Hre as ->.
    apply andb_true_iff in Hall as [_ Hall]. rewrite forallb_forall in Hall.
    specialize (Hall c ltac:(by apply list_elem_of_In)).
    apply bool_decide_eq_true in Hall as [v Hp]. cbn. by rewrite Hp.
  - right. destruct (run_batches_elem sum registry (Definitions registry) p.(TargetNamespaces) sn
      (length checks) 0 checks s r) as (k & s1 & Hb); [by rewrite Hrun|].
    exists k. by apply run_batch_source in Hb.
Qed.

(** C13: while the snapshot stays the same the model is not asked again: a later
    scan of checks of the same policy, with whatever model, repeats the verdicts
    of the earlier one - also the failures it reported because the model could
    not be reached - and leaves the engine as it was. *)
Theorem unchanged_snapshot_reuses {W} (A B : Adapter (Scan W)) sum (registry : Registry W)
    t1 t2 t3 t4 p p' checks checks' e w w' :
  policyKey p' = policyKey p → NoDup (map ID checks) →
  checks' ≠ [] → map ID checks' ⊆ map ID checks →
  let o := @RunChecks W A sum registry t1 t2 p checks e w in
  let o' := @RunChecks W B sum registry t3 t4 p' checks' o.2.1 w' in
  let now := collectSnapshot sum registry (start w') in
  sum now.2 = sum (collectSnapshot sum registry (start w)).2 →
  o'.1 = now.1.(world) ∧ o'.2.1 = o.2.1 ∧
  ∀ r', r' ∈ o'.2.2.(Checks) →
    ∃ r, r ∈ o.2.2.(Checks) ∧ r.(r_ID) = r'.(r_ID) ∧ r.(Verdict) = r'.(Verdict).
Proof.
  intros Hkey Hnd Hne Hsub. cbv zeta. intros Hsum.
  pose proof (@RunChecks_remembers W A sum registry t1 t2 p checks e w Hnd) as (Hh & vs & Hvs & Hlook).
  pose proof (@RunChecks_describes W A sum registry t1 t2 p checks e w) as [Hd _].
  revert Hh Hvs Hlook Hd. rewrite <-Hsum, <-Hkey.
  destruct (@RunChecks W A sum registry t1 t2 p checks e w) as [w1 [e1 r1]]. cbn [fst snd].
  intros Hh Hvs Hlook Hd.
  assert (∀ c, c ∈ checks' → ∃ r, r ∈ r1.(Checks) ∧ r.(r_ID) = c.(ID)) as Hfind.
  { intros c Hc. assert (c.(ID) ∈ map r_ID r1.(Checks)) as Hin.
    { rewrite <-describes_ids, Hd. apply Hsub. by apply list_elem_of_fmap_2. }
    apply list_elem_of_fmap in Hin as (r & ? & ?). by exists r. }
  unfold RunChecks. destruct (collectSnapshot sum registry (start w')) as [s sn] eqn:Hsn.
  cbn [fst snd] in *.
  rewrite (reusable_spec e1 (policyKey p') (sum sn) checks' vs); [|done..|].
  - cbn [fst snd Checks spec_of]. split_and!; [done..|].
    intros r' (c & -> & Hc)%list_elem_of_fmap. destruct (Hfind c Hc) as (r & Hr & Hid).
    exists r. split_and!; [done..|]. cbn. by rewrite <-Hid, Hlook.
  - intros c Hc. destruct (Hfind c Hc) as (r & Hr & <-). by rewrite Hlook.
Qed.

(** ** Concrete scans *)

(** A model that always passes, and one that cannot be reached. *)
Definition passing : Adapter (Scan nat) :=
  {| Verify _ _ s := (s, Ok {| v_Verdict := VerdictPass; v_Reasoning := ""; v_ToolCalls := [] |});
     BatchVerify q _ s :=
       (s, Ok (map (λ _, {| v_Verdict := VerdictPass; v_Reasoning := ""; v_ToolCalls := [] |})
                 q.(b_Checks))) |}.

Definition unreachable : Adapter (Scan nat) :=
  {| Verify _ _ s := (s, Err "timeout"); BatchVerify _ _ s := (s, Err "timeout") |}.

Definition pods_tool : Registry nat :=
  Register {| d_Name := "list_pods"; d_Description := ""; d_Parameters := [] |}
    (λ _ n, (Datatypes.S n, Ok "api-0 Running")) NewRegistry.

Definition check_item (id : string) : CheckItem :=
  {| ID := id; Description := "all is well"; Severity := "warning" |}.

Definition two_checks : Policy :=
  {| p_Name := "p"; p_Namespace := "default"; TargetNamespaces := [];
     p_Checks := [check_item "check-1"; check_item "check-2"] |}.

Definition first_scan (A : Adapter (Scan nat)) : nat * (Engine * ResultSpec) :=
  RunChecks (λ s, s) pods_tool 1 2 two_checks two_checks.(p_Checks) New 0%nat.

Lemma run_checks_complete_witness :
  map describes (first_scan unreachable).2.2.(Checks) = two_checks.(p_Checks).
Proof.
  refine (proj1 (@run_checks_complete nat unreachable (λ s, s) pods_tool 1 2 two_checks
    two_checks.(p_Checks) New 0%nat _)). reflexivity.
Defined.

(** The model of the later scan would pass the check; it is not asked. *)
Lemma unchanged_snapshot_reuses_witness :
  let o := first_scan unreachable in
  let o' := @RunChecks nat passing (λ s, s) pods_tool 3 4 two_checks [check_item "check-2"] o.2.1 7%nat in
  o'.2.1 = o.2.1 ∧
  ∀ r', r' ∈ o'.2.2.(Checks) → ∃ r, r ∈ o.2.2.(Checks) ∧ r.(r_ID) = r'.(r_ID) ∧ r.(Verdict) = r'.(Verdict).
Proof.
  refine (proj2 (unchanged_snapshot_reuses unreachable passing (λ s, s) pods_tool 1 2 3 4
    two_checks two_checks two_checks.(p_Checks) [check_item "check-2"] New 0%nat 7%nat _ _ _ _ _)).
  - reflexivity.
  - apply (bool_decide_unpack _). vm_compute. reflexivity.
  - discriminate.
  - intros i Hi. exact (list_elem_of_further _ _ _ Hi).
  - vm_compute. reflexivity.
Defined.

Lemma verdict_from_model_witness :
  let r := with_response (check_item "check-1")
             {| v_Verdict := VerdictPass; v_Reasoning := ""; v_ToolCalls := [] |} in
  let sn := (collectSnapshot (λ s, s) pods_tool (start 0%nat)).2 in
  (∃ prev, New.(lastResults) !! policyKey two_checks = Some prev ∧ prev !! r.(r_ID) = Some r.(Verdict)) ∨
  (∃ k, let batch := take batchSize (drop (k * batchSize) two_checks.(p_Checks)) in
   (batch = [describes r] ∧ ∃ s s' resp,
      @Verify _ passing (single_request (Definitions pods_tool) [] sn (describes r))
        (call (λ s, s) pods_tool) s = (s', Ok resp) ∧ resp.(v_Verdict) = r.(Verdict)) ∨
   (∃ j s s' resps,
      @BatchVerify _ passing (batch_request (Definitions pods_tool) [] sn batch)
        (call (λ s, s) pods_tool) s = (s', Ok resps) ∧ batch !! j = Some (describes r) ∧
      v_Verdict <$> resps !! j = Some r.(Verdict))).
Proof.
  refine (@verdict_from_model nat passing (λ s, s) pods_tool 1 2 two_checks two_checks.(p_Checks)
    New 0%nat _ _ _).
  - apply (list_elem_of_lookup_2 _ 0%nat). vm_compute. reflexivity.
  - discriminate.
Defined.
