(* ===== verification/Scheduler.v ===== *)
(** * The scheduler of the operator ([operator/internal/scheduler/scheduler.go])

    Full scans and rescans of one policy: the engine's results go through the
    alert store, every transition is dispatched ([operator/internal/notify/
    notifier.go]), the result is created and the policy's status updated.  The
    cron library, the API server and [meta.SetStatusCondition] are not part of
    the program: the times, the server's errors and the condition setter are
    parameters, the last with its documented behaviour as the class
    [StatusConditions].  Scans are steps without another scan in between. *)
From Stdlib Require Import Ascii ZArith Lia.
From stdpp Require Import base list strings pretty gmap sets relations.
From S2P Require Import Prelude Jsx Client Policies GoStd StateStore Tool Llm Engine.
Local Open Scope Z_scope.

(** ** Data *)

Definition ScanTypeFull : string := "FullScan".
Definition ScanTypeRescan : string := "Rescan".

(** [notify.Event]. *)
Record Event := {
  e_PolicyRef : string; e_CheckID : string; e_Description : string; e_Severity : string;
  e_Verdict : string; e_Reasoning : string; e_Transition : Transition
}.

(** [metav1.Condition]. *)
Record StatusCondition := {
  Type_ : string; Status : string; Reason : string; Message : string; LastTransitionTime : Z
}.

(** [ChecklistPolicyStatus]. *)
Record PolicyStatus := {
  LastFullScanTime : option Z;
  LastRescanTime : option Z;
  LastResultName : string;
  s_Summary : option ScanSummary;
  Conditions : list StatusCondition
}.

(** The first condition of a type. *)
Definition find_status (type : string) (l : list StatusCondition) : option StatusCondition :=
  snd <$> list_find (λ c, c.(Type_) = type) l.

(** [meta.SetStatusCondition]: it adds a condition of a new type and updates the
    one there is; the others stay. *)
Class StatusConditions := {
  SetStatusCondition : list StatusCondition → StatusCondition → list StatusCondition;
  set_types l c :
    map Type_ (SetStatusCondition l c) =
      if decide (c.(Type_) ∈ map Type_ l) then map Type_ l else map Type_ l ++ [c.(Type_)];
  set_same l c :
    ∃ c', find_status c.(Type_) (SetStatusCondition l c) = Some c' ∧
      c'.(Status) = c.(Status) ∧ c'.(Reason) = c.(Reason) ∧ c'.(Message) = c.(Message);
  set_other l c type :
    type ≠ c.(Type_) → find_status type (SetStatusCondition l c) = find_status type l
}.

(** What the clock and the API server do during one scan. *)
Record Env := {
  started : Z; completed : Z;
  record_now : nat → Z;
  create_ts : string; create_error : option string;
  status_ts : string; status_now : Z; condition_now : bool → Z;
  get_error : option string; update_error : option string
}.

(** [ChecklistResult] as it is created; the owner is the policy of that name. *)
Record ChecklistResult := {
  c_Name : string; c_Namespace : string; c_PolicyLabel : string; c_Owner : string;
  c_Spec : ResultSpec; c_Phase : string
}.

(** The operator: the store shared by all policies, the policy's engine, the
    world outside, the policy's status on the server - none once the policy is
    deleted -, the results created and the events dispatched. *)
Record Op (W : Type) := {
  store : Store;
  eng : Engine;
  outside : W;
  status : option PolicyStatus;
  created : list ChecklistResult;
  sent : list (string * Event)
}.
Arguments store {W}.
Arguments eng {W}.
Arguments outside {W}.
Arguments status {W}.
Arguments created {W}.
Arguments sent {W}.
Arguments Build_Op {W}.

(** ** Operations *)

(** [engine.GenerateResultName] with the formatted time. *)
Definition GenerateResultName (policyName scanType ts : string) : string :=
  policyName +:+ "-" +:+ scanType +:+ "-" +:+ ts.

Definition with_scan_type (t : string) (r : ResultSpec) : ResultSpec :=
  {| PolicyRef := r.(PolicyRef); ScanType := t; StartedAt := r.(StartedAt);
     CompletedAt := r.(CompletedAt); Checks := r.(Checks); Summary := r.(Summary) |}.

Definition with_checks (l : list CheckResult) (r : ResultSpec) : ResultSpec :=
  {| PolicyRef := r.(PolicyRef); ScanType := r.(ScanType); StartedAt := r.(StartedAt);
     CompletedAt := r.(CompletedAt); Checks := l; Summary := r.(Summary) |}.

Definition with_failedSince (t : Z) (r : CheckResult) : CheckResult :=
  {| r_ID := r.(r_ID); r_Description := r.(r_Description); r_Severity := r.(r_Severity);
     Verdict := r.(Verdict); Reasoning := r.(Reasoning); Evidence := r.(Evidence);
     r_FailedSince := Some t |}.

Section scheduler.
Context {W : Type} `{!Adapter (Scan W)} `{!StatusConditions}.
Variable sum : string → string.
Variable registry : Registry W.
(** The policy the scheduler was started with, the notifiers, and their [Send]. *)
Variable policy : Policy.
Variable notifiers : list string.
Variable Send : string → Event → W → W * option string.

(** [Dispatcher.Dispatch]: every notifier is tried. *)
Definition Dispatch (ev : Event) (w : W) : W * list string :=
  foldl (λ st n,
    let (w, err) := Send n ev st.1 in
    (w, st.2 ++ match err with Some e => [e] | None => [] end)) (w, []) notifiers.

(** One result of [processResults]. *)
Definition record_check (now : Z) (check : CheckResult) (s : Store) :
    Store * option Transition * CheckResult :=
  if decide (check.(Verdict) = VerdictFail) then
    let (s, transition) := RecordFail now policy.(p_Name) check.(r_ID) s in
    (s, transition,
     match GetState policy.(p_Name) check.(r_ID) s with
     | Some cs => with_failedSince cs.(FailedSince) check
     | None => check
     end)
  else if decide (check.(Verdict) = VerdictPass) then
    let (s, transition) := RecordPass now policy.(p_Name) check.(r_ID) s in
    (s, transition, check)
  else (s, None, check).

Definition event_of (check : CheckResult) (t : Transition) : Event :=
  {| e_PolicyRef := policy.(p_Name); e_CheckID := check.(r_ID);
     e_Description := check.(r_Description); e_Severity := check.(r_Severity);
     e_Verdict := check.(Verdict); e_Reasoning := check.(Reasoning); e_Transition := t |}.

(** [processResults], from the [i]-th result on; the errors of the notifiers
    are only logged. *)
Fixpoint process_from (now : nat → Z) (i : nat) (l : list CheckResult)
    (st : Store * W * list (string * Event)) :
    Store * W * list (string * Event) * list CheckResult :=
  match l with
  | [] => (st, [])
  | check :: l =>
    let '(s, w, out) := st in
    let '(s, transition, check) := record_check (now i) check s in
    let '(w, out) :=
      match transition with
      | None => (w, out)
      | Some t => let ev := event_of check t in
                  ((Dispatch ev w).1, out ++ map (λ n, (n, ev)) notifiers)
      end in
    let '(st, rest) := process_from now (i + 1) l (s, w, out) in
    (st, check :: rest)
  end.

Definition processResults (env : Env) (spec : ResultSpec) (op : Op W) : Op W * ResultSpec :=
  let '((s, w, out), checks) :=
    process_from env.(record_now) 0 spec.(Checks) (op.(store), op.(outside), op.(sent)) in
  ({| store := s; eng := op.(eng); outside := w; status := op.(status);
      created := op.(created); sent := out |}, with_checks checks spec).

Definition createResult (env : Env) (spec : ResultSpec) (op : Op W) : Op W * option string :=
  match env.(create_error) with
  | Some e => (op, Some ("creating ChecklistResult: " +:+ e))
  | None =>
    let name := ToLower (GenerateResultName policy.(p_Name) spec.(ScanType) env.(create_ts)) in
    ({| store := op.(store); eng := op.(eng); outside := op.(outside); status := op.(status);
        created := op.(created) ++
          [{| c_Name := name; c_Namespace := policy.(p_Namespace);
              c_PolicyLabel := policy.(p_Name); c_Owner := policy.(p_Name);
              c_Spec := spec; c_Phase := "Completed" |}];
        sent := op.(sent) |}, None)
  end.

Definition condition (type status reason message : string) (now : Z) : StatusCondition :=
  {| Type_ := type; Status := status; Reason := reason; Message := message;
     LastTransitionTime := now |}.

Definition scan_message (s : ScanSummary) : string :=
  "Last scan: " +:+ pretty s.(Pass) +:+ " pass, " +:+ pretty s.(Warn) +:+ " warn, "
  +:+ pretty s.(Fail) +:+ " fail".

(** The clock is read for each of the two conditions. *)
Definition scan_conditions (now : bool → Z) (s : ScanSummary) (l : list StatusCondition) :
    list StatusCondition :=
  let msg := scan_message s in
  if 0 <? s.(Fail) then
    SetStatusCondition
      (SetStatusCondition l (condition "Degraded" "True" "ChecksFailed" msg (now false)))
      (condition "Available" "False" "ChecksFailed" msg (now true))
  else
    SetStatusCondition
      (SetStatusCondition l (condition "Available" "True" "ScanCompleted" msg (now false)))
      (condition "Degraded" "False" "ScanCompleted" msg (now true)).

Definition updatePolicyStatus (env : Env) (spec : ResultSpec) (op : Op W) : Op W * option string :=
  match op.(status), env.(get_error) with
  | None, _ => (op, Some "fetching latest policy: not found")
  | Some _, Some e => (op, Some ("fetching latest policy: " +:+ e))
  | Some st, None =>
    let full := bool_decide (spec.(ScanType) = ScanTypeFull) in
    let st :=
      {| LastFullScanTime := if full then Some env.(status_now) else st.(LastFullScanTime);
         LastRescanTime := if full then st.(LastRescanTime) else Some env.(status_now);
         LastResultName := GenerateResultName policy.(p_Name) spec.(ScanType) env.(status_ts);
         s_Summary := Some spec.(Summary);
         Conditions := scan_conditions env.(condition_now) spec.(Summary) st.(Conditions) |} in
    match env.(update_error) with
    | Some e => (op, Some e)
    | None => ({| store := op.(store); eng := op.(eng); outside := op.(outside);
                  status := Some st; created := op.(created); sent := op.(sent) |}, None)
    end
  end.

(** The scan itself, and its results through the store; both scans begin so. *)
Definition scan (env : Env) (type : string) (checks : list CheckItem) (op : Op W) :
    Op W * ResultSpec :=
  let '(w, (e, spec)) :=
    RunChecks sum registry env.(started) env.(completed) policy checks op.(eng) op.(outside) in
  processResults env (with_scan_type type spec)
    {| store := op.(store); eng := e; outside := w; status := op.(status);
       created := op.(created); sent := op.(sent) |}.

(** [runFullScan]; [RunChecks] returns no error. *)
Definition runFullScan (env : Env) (op : Op W) : Op W :=
  let (op, spec) := scan env ScanTypeFull policy.(p_Checks) op in
  match createResult env spec op with
  | (op, Some _) => op
  | (op, None) => (updatePolicyStatus env spec op).1
  end.

Definition checksToRescan (s : Store) : list CheckItem :=
  filter (λ c, c.(ID) ∈ FailedChecks policy.(p_Name) s) policy.(p_Checks).

(** [runRescan]. *)
Definition runRescan (env : Env) (op : Op W) : Op W :=
  if decide (FailedChecks policy.(p_Name) op.(store) = ∅) then op
  else
    let (op, spec) := scan env ScanTypeRescan (checksToRescan op.(store)) op in
    (createResult env spec op).1.

(** The controller rebuilds the engine when it reconciles the policy. *)
Definition rebuild (op : Op W) : Op W :=
  {| store := op.(store); eng := Engine.New; outside := op.(outside); status := op.(status);
     created := op.(created); sent := op.(sent) |}.

(** The scans of the two cron loops, and of Run Now. *)
Inductive tick : relation (Op W) :=
  | tick_full env op : tick op (runFullScan env op)
  | tick_rescan env op : tick op (runRescan env op)
  | tick_rebuild op : tick op (rebuild op).

(** ** Specification: results and events from the history of verdicts *)







Definition alert (ev : Event) : string * AlertState := (ev.(e_CheckID), ev.(e_Transition).(To)).

End scheduler.

(** ** Lemmas *)

Section scheduler_lemmas.
Context {W : Type} `{!Adapter (Scan W)} `{!StatusConditions}.
Context (sum : string → string) (registry : Registry W) (policy : Policy).
Context (notifiers : list string) (Send : string → Event → W → W * option string).




(** Recording keeps what a result says of its check. *)
Definition said (r : CheckResult) : CheckItem * string := (describes r, r.(Verdict)).

Lemma record_check_said now r s : said (record_check policy now r s).2 = said r.
Proof.
  unfold record_check. destruct (decide _); [|destruct (decide _)].
  - destruct (RecordFail _ _ _ _) as [s' t]. by destruct (GetState _ _ s').
  - by destruct (RecordPass _ _ _ _) as [s' t].
  - done.
Qed.

Lemma process_from_said now i l st :
  map said (process_from policy notifiers Send now i l st).2 = map said l.
Proof.
  revert i st. induction l as [|r l IH]; intros i [[s w] out]; [done|]. cbn [process_from].
  pose proof (record_check_said (now i) r s) as Hr.
  destruct (record_check _ _ _ _) as [[s' t] r']. cbn [snd] in Hr.
  set (mid := match t with None => (w, out) | Some t => _ end). destruct mid as [w' out'].
  specialize (IH (i + 1)%nat (s', w', out')).
  destruct (process_from _ _ _ _ _ _ _) as [st' l']. cbn [snd map] in *. by rewrite Hr, IH.
Qed.

(** A scan: its results are those of the checks it was given, and its summary
    counts them; it creates nothing and leaves the status. *)
Lemma scan_spec env type checks (op : Op W) :
  let o := scan sum registry policy notifiers Send env type checks op in
  map describes o.2.(Checks) = checks ∧ o.2.(ScanType) = type ∧
  (Z.of_nat (length checks) < 2 ^ 31 → o.2.(Summary) = computeSummary o.2.(Checks)) ∧
  o.1.(status) = op.(status) ∧ o.1.(created) = op.(created).
Proof.
  cbv zeta. unfold scan.
  pose proof (RunChecks_describes sum registry env.(started) env.(completed) policy checks
    op.(eng) op.(outside)) as [Hd Hspec].
  destruct (RunChecks _ _ _ _ _ _ _ _) as [w [e spec]]. cbn [fst snd] in Hd, Hspec.
  unfold processResults. cbn [with_scan_type Checks ScanType].
  pose proof (process_from_said env.(record_now) 0 spec.(Checks) (op.(store), w, op.(sent))) as Hs.
  destruct (process_from _ _ _ _ _ _ _) as [[[s' w'] out] l']. cbn in Hs |- *.
  assert (map describes l' = checks) as Hl.
  { rewrite <-Hd. apply (f_equal (map fst)) in Hs. by rewrite !map_map in Hs. }
  split_and!; [done|done| |done|done].
  intros Hlen. rewrite Hspec. cbn. unfold computeSummary.
  assert (length l' = length spec.(Checks)) as -> by (by apply (f_equal length) in Hs; rewrite !length_map in Hs).
  f_equal; unfold count; generalize 0; revert Hs; generalize (Checks spec); clear;
    induction l' as [|r l IH]; intros [|r' l'] Hs z; try done;
    cbn in Hs; injection Hs as _ _ _ Hv Hs; cbn; rewrite Hv; by apply IH.
Qed.

End scheduler_lemmas.

Section conditions.
Context `{!StatusConditions}.

Lemma set_types_NoDup l c : NoDup (map Type_ l) → NoDup (map Type_ (SetStatusCondition l c)).
Proof.
  intros Hnd. rewrite set_types. case_decide as Hc; [done|].
  apply NoDup_app. split_and!; [done| |apply NoDup_singleton].
  intros x Hx ->%list_elem_of_singleton. done.
Qed.

Lemma find_status_Exists l type st :
  NoDup (map Type_ l) →
  Exists (λ c, c.(Type_) = type ∧ c.(Status) = st) l ↔
  Status <$> find_status type l = Some st.
Proof.
  induction l as [|c l IH]; intros Hnd; [split; [by intros ?%Exists_nil|done]|].
  apply NoDup_cons in Hnd as [Hc Hnd]. rewrite Exists_cons.
  unfold find_status. cbn [list_find]. destruct (decide (Type_ c = type)) as [<-|Hne]; cbn.
  - split; [|intros [= <-]; by left]. intros [[_ <-]|Hex]; [done|]. exfalso. apply Hc.
    apply Exists_exists in Hex as (c' & Hc' & <- & _). by apply list_elem_of_fmap_2.
  - unfold find_status in IH. rewrite IH by done.
    destruct (list_find _ l) as [[i c']|]; cbn; naive_solver.
Qed.

(** What a scan's conditions say. *)
Lemma scan_conditions_spec now s l :
  NoDup (map Type_ l) →
  let l' := scan_conditions now s l in
  let says type st := Exists (λ c, c.(Type_) = type ∧ c.(Status) = st) l' in
  (says "Degraded" "True" ↔ 0 < s.(Fail)) ∧ (says "Available" "True" ↔ s.(Fail) <= 0).
Proof.
  intros Hnd. cbv zeta. unfold scan_conditions.
  destruct (Z.ltb_spec 0 s.(Fail)) as [Hf|Hf];
    rewrite !find_status_Exists by (by repeat apply set_types_NoDup).
  1, 2: set (c1 := condition _ _ _ _ _); set (c2 := condition _ _ _ _ _).
  - destruct (set_same (SetStatusCondition l c1) c2) as (c' & Hc2 & Hs2 & _).
    destruct (set_same l c1) as (c'' & Hc1 & Hs1 & _).
    change (Type_ c2) with "Available" in Hc2. change (Type_ c1) with "Degraded" in Hc1.
    rewrite (set_other _ c2 "Degraded"), Hc1, Hc2 by done. cbn. rewrite Hs1, Hs2. cbn.
    split; split; solve [done|discriminate|lia].
  - destruct (set_same (SetStatusCondition l c1) c2) as (c' & Hc2 & Hs2 & _).
    destruct (set_same l c1) as (c'' & Hc1 & Hs1 & _).
    change (Type_ c2) with "Degraded" in Hc2. change (Type_ c1) with "Available" in Hc1.
    rewrite (set_other _ c2 "Available"), Hc1, Hc2 by done. cbn. rewrite Hs1, Hs2. cbn.
    split; split; solve [done|discriminate|lia].
Qed.
End conditions.

(** A condition as the UI receives it; [fmt] writes its time. *)
Definition to_ui (fmt : Z → string) (c : StatusCondition) : Condition :=
  {| c_type := c.(Type_); c_status := c.(Status); c_reason := c.(Reason);
     c_message := c.(Message); c_lastTransitionTime := Some (fmt c.(LastTransitionTime)) |}.

Lemma to_ui_Exists fmt type st l :
  Exists (λ c, c.(c_type) = type ∧ c.(c_status) = st) (map (to_ui fmt) l) ↔
  Exists (λ c, c.(Type_) = type ∧ c.(Status) = st) l.
Proof. rewrite !Exists_exists. setoid_rewrite list_elem_of_fmap. naive_solver. Qed.

Lemma count_pos v l :
  Z.of_nat (length l) < 2 ^ 31 → 0 < count v l ↔ ∃ r, r ∈ l ∧ r.(Verdict) = v.
Proof.
  intros Hl. rewrite count_spec by done. split.
  - intros Hpos. destruct (filter _ l) as [|r l'] eqn:Hf; [cbn in Hpos; lia|].
    exists r. assert (r ∈ filter (λ r, r.(Verdict) = v) l) as Hr by (rewrite Hf; left).
    apply list_elem_of_filter in Hr. tauto.
  - intros (r & Hr & Hv).
    assert (r ∈ filter (λ r, r.(Verdict) = v) l) as Hf by (by apply list_elem_of_filter).
    destruct (filter _ l); [by apply not_elem_of_nil in Hf|]. cbn. lia.
Qed.

(** What a scan, of either kind, leaves of the status and adds to the results. *)
Lemma tick_spec {W} `{!Adapter (Scan W)} `{!StatusConditions} sum registry policy notifiers Send
    (op op' : Op W) :
  tick sum registry policy notifiers Send op op' →
  (op'.(status) = op.(status) ∨
   ∃ st st' ts, op.(status) = Some st ∧ op'.(status) = Some st' ∧
     st'.(LastRescanTime) = st.(LastRescanTime) ∧
     st'.(LastResultName) = GenerateResultName policy.(p_Name) ScanTypeFull ts) ∧
  (op'.(created) = op.(created) ∨
   ∃ res type ts, op'.(created) = op.(created) ++ [res] ∧
     res.(c_Name) = ToLower (GenerateResultName policy.(p_Name) type ts)).
Proof.
  destruct 1 as [env op|env op|op]; [| |by auto].
  - unfold runFullScan.
    pose proof (scan_spec sum registry policy notifiers Send env ScanTypeFull policy.(p_Checks) op)
      as (_ & Htype & _ & Hstatus & Hcreated).
    destruct (scan _ _ _ _ _ _ _ _ _) as [op1 spec]. cbn [fst snd] in *.
    unfold createResult. destruct (create_error env); [cbn; by rewrite Hstatus, Hcreated; auto|].
    split; [|right; eexists _, spec.(ScanType), env.(create_ts);
      unfold updatePolicyStatus; cbn [status]; repeat case_match; cbn; by rewrite Hcreated].
    unfold updatePolicyStatus. cbn [status]. rewrite Hstatus.
    destruct (status op) as [st|] eqn:Hst; [|by left].
    destruct (get_error env); [by left|]. destruct (update_error env); [by left|].
    right. eexists st, _, env.(status_ts). rewrite Htype. cbn. split_and!; [done..| |done].
    by rewrite bool_decide_true.
  - unfold runRescan. case_decide; [by auto|].
    pose proof (scan_spec sum registry policy notifiers Send env ScanTypeRescan
      (checksToRescan policy op.(store)) op) as (_ & _ & _ & Hstatus & Hcreated).
    destruct (scan _ _ _ _ _ _ _ _ _) as [op1 spec]. cbn [fst snd] in *.
    unfold createResult. destruct (create_error env); cbn; rewrite Hstatus, Hcreated; [by auto|].
    split; [by left|]. right. by eexists _, spec.(ScanType), env.(create_ts).
Qed.

(** No letter of an ASCII upper case is left by [ToLower]. *)
Definition not_upper (c : ascii) : bool := negb ((65 <=? N_of_ascii c) && (N_of_ascii c <=? 90))%N.

Lemma ToLower_not_upper s : string_forallb not_upper (ToLower s) = true.
Proof.
  induction s as [|c s IH]; [done|]. cbn. rewrite IH, andb_true_r. unfold not_upper.
  destruct ((65 <=? N_of_ascii c) && (N_of_ascii c <=? 90))%N eqn:Hc; [|by rewrite Hc].
  apply andb_true_iff in Hc as [H1%N.leb_le H2%N.leb_le]. rewrite N_ascii_embedding by lia.
  apply negb_true_iff, andb_false_iff. right. apply N.leb_gt. lia.
Qed.

(** ** Theorems *)

Section scheduler_theorems.
Context {W : Type} `{!Adapter (Scan W)} `{!StatusConditions}.
Context (sum : string → string) (registry : Registry W) (policy : Policy).
Context (notifiers : list string) (Send : string → Event → W → W * option string).


(** C3: the list of policies tells the truth about the last full scan: when the
    API server takes the writes of a full scan, the badge the UI makes of the
    policy's conditions reads Error if a check of the created result failed and
    Healthy otherwise; that result holds exactly the policy's checks, and its
    counts are those of the status. *)
Theorem full_scan_badge env op st :
  op.(status) = Some st → NoDup (map Type_ st.(Conditions)) →
  env.(create_error) = None → env.(get_error) = None → env.(update_error) = None →
  Z.of_nat (length policy.(p_Checks)) < 2 ^ 31 →
  let op' := runFullScan sum registry policy notifiers Send env op in
  ∃ res st', let spec := res.(c_Spec) in
    op'.(created) = op.(created) ++ [res] ∧ map describes spec.(Checks) = policy.(p_Checks) ∧
    op'.(status) = Some st' ∧ s_Summary st' = Some spec.(Summary) ∧
    NoDup (map Type_ st'.(Conditions)) ∧
    ∀ (A : Type) (p : ChecklistPolicy) fmt,
      policy_conditions p = map (to_ui fmt) st'.(Conditions) →
      let failed := ∃ r, r ∈ spec.(Checks) ∧ r.(Verdict) = VerdictFail in
      (failed → text_of (@ConditionBadge A p) = "Error") ∧
      (¬ failed → text_of (@ConditionBadge A p) = "Healthy").
Proof.
  intros Hst Hnd Hc Hg Hu Hlen. cbv zeta. unfold runFullScan.
  pose proof (scan_spec sum registry policy notifiers Send env ScanTypeFull policy.(p_Checks) op)
    as (Hd & Htype & Hsum & Hstatus & Hcreated).
  destruct (scan _ _ _ _ _ _ _ _ _) as [op1 spec]. cbn [fst snd] in *.
  unfold createResult. rewrite Hc. unfold updatePolicyStatus. cbn [status].
  rewrite Hstatus, Hst, Hg, Hu. cbn [fst created status].
  eexists _, _. cbv zeta. split_and!; [by rewrite Hcreated|done|done|done|..]; cbn [Conditions c_Spec].
  { unfold scan_conditions. destruct (0 <? _); by repeat apply set_types_NoDup. }
  intros A p fmt Hp.
  pose proof (scan_conditions_spec env.(condition_now) spec.(Summary) st.(Conditions) Hnd) as [Hdeg Hav].
  rewrite <-(to_ui_Exists fmt), <-Hp in Hdeg, Hav.
  assert (0 < spec.(Summary).(Fail) ↔ ∃ r, r ∈ spec.(Checks) ∧ r.(Verdict) = VerdictFail) as Hf.
  { rewrite Hsum by done. apply count_pos. by rewrite <-(length_map describes), Hd. }
  split.
  - intros Hfail. by apply badge_error, Hdeg, Hf.
  - intros Hok. apply badge_healthy; [by intros ?%Hdeg%Hf|]. apply Hav.
    destruct (Z.le_gt_cases spec.(Summary).(Fail) 0) as [|Hpos]; [done|]. by apply Hf in Hpos.
Qed.

(** C33: rescans are invisible in the policy: a rescan runs and records exactly
    the policy's checks that failed when last reported, and nothing if there are
    none, but it leaves the policy's status - conditions, summary and last result
    - as it was, also when everything has recovered; and no scan of either kind
    ever sets the time of the last rescan, which the UI shows. *)
Theorem rescans_invisible env op op' st st' :
  (let o := runRescan sum registry policy notifiers Send env op in
   o.(status) = op.(status) ∧
   (FailedChecks policy.(p_Name) op.(store) = ∅ → o = op) ∧
   (FailedChecks policy.(p_Name) op.(store) ≠ ∅ → env.(create_error) = None →
    ∃ res, o.(created) = op.(created) ++ [res] ∧ res.(c_Spec).(ScanType) = ScanTypeRescan ∧
      map describes res.(c_Spec).(Checks) =
        filter (λ c, c.(ID) ∈ FailedChecks policy.(p_Name) op.(store)) policy.(p_Checks))) ∧
  (rtc (tick sum registry policy notifiers Send) op op' →
   op.(status) = Some st → op'.(status) = Some st' → st'.(LastRescanTime) = st.(LastRescanTime)).
Proof.
  split.
  - cbv zeta. unfold runRescan. case_decide as Hf; [by split_and!|].
    pose proof (scan_spec sum registry policy notifiers Send env ScanTypeRescan
      (checksToRescan policy op.(store)) op) as (Hd & Htype & _ & Hstatus & Hcreated).
    destruct (scan _ _ _ _ _ _ _ _ _) as [op1 spec]. cbn [fst snd] in *.
    unfold createResult. split_and!; [destruct (create_error env); exact Hstatus|done|].
    intros _ Hce. rewrite Hce. eexists _. cbn. by rewrite Hcreated.
  - intros Hr Hst Hst'.
    assert (∃ st2, op'.(status) = Some st2 ∧ st2.(LastRescanTime) = st.(LastRescanTime))
      as (st2 & Hst2 & Heq); [|congruence].
    eapply (rtc_invariant _ (λ o, ∃ st2, o.(status) = Some st2 ∧
      st2.(LastRescanTime) = st.(LastRescanTime))); [by exists st| |exact Hr].
    clear. intros a b (st2 & Ha & Heq) [[Hs|(st1 & st' & ts & Hst & Hst' & Hr & _)] _]%tick_spec.
    + exists st2. by rewrite Hs.
    + exists st'. split; [done|]. congruence.
Qed.

(** The last result a policy names does not exist: the result is created
    under a name in lower case, the status keeps the name with the capitals of
    the scan type; so whatever scans have run, the name in the status is not that
    of any result created. *)
Theorem last_result_dangles op op' st :
  op.(created) = [] →
  (∀ st0, op.(status) = Some st0 → st0.(LastResultName) = "") →
  rtc (tick sum registry policy notifiers Send) op op' →
  op'.(status) = Some st → st.(LastResultName) ≠ "" →
  ∀ res, res ∈ op'.(created) → res.(c_Name) ≠ st.(LastResultName).
Proof.
  intros Hc Hs Hr Hst Hne res Hin Hname.
  assert (Forall (λ c, string_forallb not_upper c.(c_Name) = true) op'.(created) ∧
    (∀ st0, op'.(status) = Some st0 → st0.(LastResultName) = "" ∨
      string_forallb not_upper st0.(LastResultName) = false)) as [Hnames Hlast].
  { refine (rtc_invariant (tick sum registry policy notifiers Send)
      (λ o, Forall (λ c, string_forallb not_upper c.(c_Name) = true) o.(created) ∧
        (∀ st0, o.(status) = Some st0 → st0.(LastResultName) = "" ∨
          string_forallb not_upper st0.(LastResultName) = false)) _ _ _ _ Hr); [|clear].
    { rewrite Hc. split; [done|]. intros st0 Hst0. left. by apply Hs. }
    intros a b [Hn Hl] [Hst Hcr]%tick_spec. split.
    - destruct Hcr as [->|(res & type & ts & -> & Hname)]; [done|].
      apply Forall_app. split; [done|]. apply Forall_singleton. rewrite Hname. apply ToLower_not_upper.
    - intros st0 Hst0. destruct Hst as [Hst|(st1 & st' & ts & _ & Hst' & _ & Hname)].
      + apply Hl. by rewrite <-Hst.
      + rewrite Hst' in Hst0. injection Hst0 as <-. right. rewrite Hname.
        unfold GenerateResultName. rewrite !string_forallb_app. cbn. by rewrite !andb_false_r. }
  rewrite Forall_forall in Hnames. specialize (Hnames _ Hin). rewrite Hname in Hnames.
  destruct (Hlast st Hst) as [?|Hup]; congruence.
Qed.
End scheduler_theorems.

(** ** Concrete runs *)

(** [meta.SetStatusCondition]: the time changes only with the status. *)
Fixpoint set_condition (l : list StatusCondition) (c : StatusCondition) : list StatusCondition :=
  match l with
  | [] => [c]
  | x :: l =>
    if decide (x.(Type_) = c.(Type_)) then
      {| Type_ := x.(Type_); Status := c.(Status); Reason := c.(Reason); Message := c.(Message);
         LastTransitionTime := if decide (x.(Status) = c.(Status)) then x.(LastTransitionTime)
                               else c.(LastTransitionTime) |} :: l
    else x :: set_condition l c
  end.

Lemma find_status_cons type c l :
  find_status type (c :: l) = if decide (c.(Type_) = type) then Some c else find_status type l.
Proof.
  unfold find_status. cbn [list_find]. case_decide; [done|]. by destruct (list_find _ l) as [[i x]|].
Qed.

Definition set_conditions : StatusConditions.
Proof.
  refine {| SetStatusCondition := set_condition |}.
  - intros l c. induction l as [|x l IH]; [done|]. cbn [set_condition map].
    destruct (decide (Type_ x = Type_ c)) as [Heq|Hne]; cbn [map Type_].
    + rewrite decide_True; [done|]. rewrite Heq. left.
    + rewrite IH. destruct (decide (Type_ c ∈ map Type_ l)) as [Hin|Hin].
      * rewrite decide_True; [done|]. by right.
      * rewrite decide_False; [done|]. intros [?|?]%elem_of_cons; congruence.
  - intros l c. induction l as [|x l IH]; cbn [set_condition].
    + exists c. rewrite find_status_cons, decide_True by done. done.
    + destruct (decide (Type_ x = Type_ c)) as [Heq|Hne]; rewrite find_status_cons; cbn [Type_].
      * rewrite decide_True by done. by eexists.
      * by rewrite decide_False.
  - intros l c type Hne. induction l as [|x l IH]; cbn [set_condition].
    + rewrite find_status_cons. by rewrite decide_False.
    + destruct (decide (Type_ x = Type_ c)) as [Heq|Hxc]; rewrite !find_status_cons; cbn [Type_].
      * by rewrite !decide_False by congruence.
      * by rewrite IH.
Defined.

Definition calm : Env :=
  {| started := 1; completed := 2; record_now i := 10 + Z.of_nat i; create_ts := "20260101-000000";
     create_error := None; status_ts := "20260101-000001"; status_now := 3;
     condition_now _ := 3; get_error := None;
     update_error := None |}.

Definition no_status : PolicyStatus :=
  {| LastFullScanTime := None; LastRescanTime := None; LastResultName := ""; s_Summary := None;
     Conditions := [] |}.

Definition installed : Op nat :=
  {| store := NewStore 5; eng := Engine.New; outside := 0%nat; status := Some no_status;
     created := []; sent := [] |}.

Definition deliver (n : string) (ev : Event) (w : nat) : nat * option string := (w, None).

Definition full (A : Adapter (Scan nat)) : Op nat → Op nat :=
  @runFullScan nat A set_conditions (λ s, s) pods_tool two_checks ["slack"] deliver calm.

Definition rescan (A : Adapter (Scan nat)) : Op nat → Op nat :=
  @runRescan nat A (λ s, s) pods_tool two_checks ["slack"] deliver calm.



Lemma full_scan_badge_witness :
  ∃ res st', let spec := res.(c_Spec) in
    (full unreachable installed).(created) = [] ++ [res] ∧
    map describes spec.(Checks) = two_checks.(p_Checks) ∧
    (full unreachable installed).(status) = Some st' ∧ s_Summary st' = Some spec.(Summary) ∧
    NoDup (map Type_ st'.(Conditions)) ∧
    ∀ (A : Type) (p : ChecklistPolicy) fmt,
      policy_conditions p = map (to_ui fmt) st'.(Conditions) →
      let failed := ∃ r, r ∈ spec.(Checks) ∧ r.(Verdict) = VerdictFail in
      (failed → text_of (@ConditionBadge A p) = "Error") ∧
      (¬ failed → text_of (@ConditionBadge A p) = "Healthy").
Proof.
  refine (@full_scan_badge nat unreachable set_conditions (λ s, s) pods_tool two_checks ["slack"]
    deliver calm installed no_status eq_refl _ eq_refl eq_refl eq_refl eq_refl).
  apply NoDup_nil_2.
Defined.

Lemma rescans_invisible_witness :
  (rescan passing (full unreachable installed)).(status) = (full unreachable installed).(status) ∧
  (∀ st st', (full unreachable installed).(status) = Some st →
     (rescan passing (full unreachable installed)).(status) = Some st' →
     st'.(LastRescanTime) = st.(LastRescanTime)).
Proof.
  split.
  - exact (proj1 (proj1 (@rescans_invisible nat passing set_conditions (λ s, s) pods_tool two_checks
      ["slack"] deliver calm (full unreachable installed) (full unreachable installed)
      no_status no_status))).
  - intros st st'. apply (proj2 (@rescans_invisible nat passing set_conditions (λ s, s) pods_tool
      two_checks ["slack"] deliver calm (full unreachable installed)
      (rescan passing (full unreachable installed)) st st')).
    apply rtc_once, tick_rescan.
Defined.

Lemma last_result_dangles_witness :
  ∀ st res, (full passing installed).(status) = Some st → st.(LastResultName) ≠ "" →
    res ∈ (full passing installed).(created) → res.(c_Name) ≠ st.(LastResultName).
Proof.
  intros st res Hst Hne.
  refine (@last_result_dangles nat passing set_conditions (λ s, s) pods_tool two_checks ["slack"]
    deliver installed (full passing installed) st eq_refl _ _ Hst Hne res).
  - intros st0 [= <-]. reflexivity.
  - apply rtc_once, tick_full.
Defined.

(** A model that finds that the checks fail. *)
Definition failing_model : Adapter (Scan nat) :=
  {| Verify _ _ s := (s, Ok {| v_Verdict := VerdictFail; v_Reasoning := ""; v_ToolCalls := [] |});
     BatchVerify q _ s :=
       (s, Ok (map (λ _, {| v_Verdict := VerdictFail; v_Reasoning := ""; v_ToolCalls := [] |})
                 q.(b_Checks))) |}.

(** One rescan during which the model cannot be reached escalates: the checks
    are mended after the full scan, but the failures reported for the outage are
    repeated by every later rescan while the snapshot stays the same and the
    controller does not rebuild the engine. *)
Lemma outage_escalates :
  let mended := rebuild (full failing_model installed) in
  let outage := rescan unreachable mended in
  let later := Nat.iter 4 (rescan passing) outage in
  map (λ d, alert d.2) later.(sent) =
    [("check-1", StateFiring); ("check-2", StateFiring);
     ("check-1", StateEscalated); ("check-2", StateEscalated)] ∧
  map (λ d, alert d.2) (rescan passing mended).(sent) =
    [("check-1", StateFiring); ("check-2", StateFiring);
     ("check-1", StateResolved); ("check-2", StateResolved)].
Proof. vm_compute. done. Qed.
